(** * The connection core of ilp-protocol-stream ([src/connection.ts])

    A shallow embedding of the [Connection] class: its fields become a record,
    its methods become functions in a state-and-exception monad over that
    record, and the collaborators that live outside [connection.ts]
    (bignumber.js, the stream object, the packet codec, the plugin) are
    modelled by the part of their interface that [connection.ts] uses. *)

From Stdlib Require Import ZArith QArith Qround Lia Bool List Ascii.
From stdpp Require Import base option list strings pretty gmap.
Import ListNotations.

Local Open Scope Z_scope.

(** ** bignumber.js values that hold amounts

    Amounts are integers (wire var-uints, and sums, products and
    integer-rounded quotients of them), extended with [NaN] and the two
    infinities as in bignumber.js.  Zero is unsigned in this model. *)
Module BN.

Inductive t : Type :=
  | NaN
  | Inf (neg : bool)
  | Fin (z : Z).

#[global] Instance t_eq_dec : EqDecision t.
Proof. solve_decision. Defined.

Definition Infinity : t := Inf false.
Definition zero : t := Fin 0.

Definition isNaN (x : t) : bool := match x with NaN => true | _ => false end.
Definition isFinite (x : t) : bool := match x with Fin _ => true | _ => false end.

Definition negated (x : t) : t :=
  match x with
  | NaN => NaN
  | Inf s => Inf (negb s)
  | Fin z => Fin (- z)
  end.

Definition plus (x y : t) : t :=
  match x, y with
  | NaN, _ | _, NaN => NaN
  | Inf s, Inf s' => if Bool.eqb s s' then Inf s else NaN
  | Inf s, Fin _ | Fin _, Inf s => Inf s
  | Fin a, Fin b => Fin (a + b)
  end.

Definition minus (x y : t) : t := plus x (negated y).

Definition times (x y : t) : t :=
  match x, y with
  | NaN, _ | _, NaN => NaN
  | Inf s, Inf s' => Inf (xorb s s')
  | Inf s, Fin b => if b =? 0 then NaN else Inf (xorb s (b <? 0))
  | Fin a, Inf s => if a =? 0 then NaN else Inf (xorb s (a <? 0))
  | Fin a, Fin b => Fin (a * b)
  end.

(** [x.comparedTo(y)]: [None] when either side is [NaN]. *)
Definition comparedTo (x y : t) : option comparison :=
  match x, y with
  | NaN, _ | _, NaN => None
  | Inf s, Inf s' =>
      Some (if Bool.eqb s s' then Eq else if s then Lt else Gt)
  | Inf s, Fin _ => Some (if s then Lt else Gt)
  | Fin _, Inf s => Some (if s then Gt else Lt)
  | Fin a, Fin b => Some (a ?= b)
  end.

Definition isLessThan (x y : t) : bool :=
  match comparedTo x y with Some Lt => true | _ => false end.
Definition isGreaterThan (x y : t) : bool :=
  match comparedTo x y with Some Gt => true | _ => false end.
Definition isEqualTo (x y : t) : bool :=
  match comparedTo x y with Some Eq => true | _ => false end.

(** [BigNumber.minimum] / [BigNumber.maximum]: the library walks the
    arguments left to right, keeps the smaller (larger) one, and stops with
    [NaN] as soon as it meets one.  With no argument it converts [undefined],
    which is [NaN]. *)
Fixpoint maxOrMin (pick : t -> t -> bool) (m : t) (args : list t) : t :=
  match args with
  | [] => m
  | n :: rest =>
      if isNaN n then NaN
      else if pick m n then maxOrMin pick n rest
      else maxOrMin pick m rest
  end.

Definition minimum (args : list t) : t :=
  match args with
  | [] => NaN
  | m :: rest => maxOrMin isGreaterThan m rest
  end.

Definition maximum (args : list t) : t :=
  match args with
  | [] => NaN
  | m :: rest => maxOrMin isLessThan m rest
  end.

(** [x.dividedToIntegerBy(y)]: the quotient truncated toward zero. *)
Definition dividedToIntegerBy (x y : t) : t :=
  match x, y with
  | NaN, _ | _, NaN => NaN
  | Inf _, Inf _ => NaN
  | Inf s, Fin b => Inf (xorb s (b <? 0))
  | Fin _, Inf _ => Fin 0
  | Fin a, Fin b =>
      if b =? 0 then (if a =? 0 then NaN else Inf (a <? 0))
      else Fin (Z.quot a b)
  end.

(** bignumber.js defaults, never reconfigured by [connection.ts]:
    [dividedBy] keeps [DECIMAL_PLACES] = 20 decimals and rounds with
    [ROUNDING_MODE] = [ROUND_HALF_UP] (nearest, ties away from zero). *)
Definition DECIMAL_PLACES : Z := 20.
Definition scale : Z := 10 ^ DECIMAL_PLACES.

(** Nearest integer to [a / b] ([b <> 0]), ties away from zero. *)
Definition round_half_up (a b : Z) : Z :=
  Z.sgn a * Z.sgn b * ((2 * Z.abs a + Z.abs b) / (2 * Z.abs b)).

(** [a / b] as bignumber.js' [dividedBy] returns it, in units of
    [10 ^ -DECIMAL_PLACES]. *)
Definition dividedBy_scaled (a b : Z) : Z := round_half_up (a * scale) b.

Definition floor_scaled (n : Z) : Z := n / scale.
Definition ceil_scaled (n : Z) : Z := - ((- n) / scale).

(** [x.dividedBy(y).integerValue(rm)], for [rm] one of [ROUND_FLOOR]
    ([floor_scaled]) and [ROUND_CEIL] ([ceil_scaled]). *)
Definition dividedBy_integerValue (rm : Z -> Z) (x y : t) : t :=
  match x, y with
  | NaN, _ | _, NaN => NaN
  | Inf _, Inf _ => NaN
  | Inf s, Fin b => Inf (xorb s (b <? 0))
  | Fin _, Inf _ => Fin 0
  | Fin a, Fin b =>
      if b =? 0 then (if a =? 0 then NaN else Inf (a <? 0))
      else Fin (rm (dividedBy_scaled a b))
  end.

(** [x.times(new BigNumber(1.01)).integerValue(BigNumber.ROUND_CEIL)]:
    multiplication is exact in bignumber.js, so this is the ceiling of
    [101 * x / 100]. *)
Definition times_1_01_ceil (x : t) : t :=
  match x with
  | NaN => NaN
  | Inf s => Inf s
  | Fin a => Fin (- ((- (101 * a)) / 100))
  end.

(** Order used to state that a total never decreases. *)
Definition le (x y : t) : Prop :=
  match comparedTo x y with Some Lt | Some Eq => True | _ => False end.

End BN.

(** ** bignumber.js values that hold rates

    Exchange rates and the slippage are decimal fractions; they are kept as
    rationals, extended like the amounts. *)
Module BQ.

Inductive t : Type :=
  | NaN
  | Inf (neg : bool)
  | Fin (q : Q).

Definition ofBN (x : BN.t) : t :=
  match x with
  | BN.NaN => NaN
  | BN.Inf s => Inf s
  | BN.Fin z => Fin (inject_Z z)
  end.

Definition isZero (q : Q) : bool := Qnum q =? 0.
Definition isNeg (q : Q) : bool := Qnum q <? 0.

Definition times (x y : t) : t :=
  match x, y with
  | NaN, _ | _, NaN => NaN
  | Inf s, Inf s' => Inf (xorb s s')
  | Inf s, Fin b => if isZero b then NaN else Inf (xorb s (isNeg b))
  | Fin a, Inf s => if isZero a then NaN else Inf (xorb s (isNeg a))
  | Fin a, Fin b => Fin (Qmult a b)
  end.

(** [x.dividedBy(y)], rounded to [BN.DECIMAL_PLACES] decimals. *)
Definition dividedBy (x y : t) : t :=
  match x, y with
  | NaN, _ | _, NaN => NaN
  | Inf _, Inf _ => NaN
  | Inf s, Fin b => Inf (xorb s (isNeg b))
  | Fin _, Inf _ => Fin (inject_Z 0)
  | Fin a, Fin b =>
      if isZero b then (if isZero a then NaN else Inf (isNeg a))
      else Fin (Qmake (BN.dividedBy_scaled (Qnum a * Zpos (Qden b))
                                           (Zpos (Qden a) * Qnum b))
                      (Z.to_pos BN.scale))
  end.

Definition comparedTo (x y : t) : option comparison :=
  match x, y with
  | NaN, _ | _, NaN => None
  | Inf s, Inf s' =>
      Some (if Bool.eqb s s' then Eq else if s then Lt else Gt)
  | Inf s, Fin _ => Some (if s then Lt else Gt)
  | Fin _, Inf s => Some (if s then Gt else Lt)
  | Fin a, Fin b => Some (Qcompare a b)
  end.

Definition isLessThan (x y : t) : bool :=
  match comparedTo x y with Some Lt => true | _ => false end.
Definition isGreaterThan (x y : t) : bool :=
  match comparedTo x y with Some Gt => true | _ => false end.

Inductive RoundingMode := ROUND_CEIL | ROUND_FLOOR.

(** [x.integerValue(rm)] *)
Definition integerValue (rm : RoundingMode) (x : t) : BN.t :=
  match x with
  | NaN => BN.NaN
  | Inf s => BN.Inf s
  | Fin q =>
      BN.Fin (match rm with
              | ROUND_FLOOR => Qfloor q
              | ROUND_CEIL => Qceiling q
              end)
  end.

End BQ.

(** ** Packets and frames ([packet.ts], as [connection.ts] uses them)

    Stream ids and byte offsets are JavaScript numbers after [toNumber()];
    they stay in the range where a number holds an integer exactly and are
    integers here.  Amounts are [BN.t]. *)

Inductive ErrorCode :=
  | NoError
  | InternalError
  | ProtocolViolation
  | ApplicationError
  | StreamIdError
  | StreamStateError
  | FlowControlError.

#[global] Instance ErrorCode_eq_dec : EqDecision ErrorCode.
Proof. solve_decision. Defined.

Definition ErrorCode_name (c : ErrorCode) : string :=
  match c with
  | NoError => "NoError"
  | InternalError => "InternalError"
  | ProtocolViolation => "ProtocolViolation"
  | ApplicationError => "ApplicationError"
  | StreamIdError => "StreamIdError"
  | StreamStateError => "StreamStateError"
  | FlowControlError => "FlowControlError"
  end.

Inductive IlpPacketType := Prepare | Fulfill | Reject.

#[global] Instance IlpPacketType_eq_dec : EqDecision IlpPacketType.
Proof. solve_decision. Defined.

Abbreviation bytes := (list Byte.byte).

#[global] Instance byte_eq_dec : EqDecision Byte.byte := Byte.byte_eq_dec.

Inductive Frame :=
  | ConnectionCloseFrame (errorCode : ErrorCode) (errorMessage : string)
  | ConnectionNewAddressFrame (sourceAccount : string)
  | ConnectionMaxDataFrame (maxOffset : Z)
  | ConnectionDataBlockedFrame (maxOffset : Z)
  | ConnectionMaxStreamIdFrame (maxStreamId : Z)
  | ConnectionStreamIdBlockedFrame (maxStreamId : Z)
  | ConnectionAssetDetailsFrame (sourceAssetCode : string) (sourceAssetScale : Z)
  | StreamCloseFrame (streamId : Z) (errorCode : ErrorCode) (errorMessage : string)
  | StreamMoneyFrame (streamId : Z) (shares : BN.t)
  | StreamMaxMoneyFrame (streamId : Z) (receiveMax totalReceived : BN.t)
  | StreamMoneyBlockedFrame (streamId : Z) (sendMax totalSent : BN.t)
  | StreamDataFrame (streamId : Z) (offset : Z) (data : bytes)
  | StreamMaxDataFrame (streamId : Z) (maxOffset : Z)
  | StreamDataBlockedFrame (streamId : Z) (maxOffset : Z).

#[global] Instance Frame_eq_dec : EqDecision Frame.
Proof. solve_decision. Defined.

Record Packet := mkPacket {
  sequence : Z;
  ilpPacketType : IlpPacketType;
  prepareAmount : BN.t;
  frames : list Frame
}.

(** What the decoder yields for a frame read off the wire: ids, offsets and
    amounts are var-uints. *)
Definition wire_amount (x : BN.t) : Prop :=
  match x with BN.Fin z => 0 <= z | _ => False end.

Definition wire_frame (f : Frame) : Prop :=
  match f with
  | ConnectionCloseFrame _ _ | ConnectionNewAddressFrame _ => True
  | ConnectionMaxDataFrame n | ConnectionDataBlockedFrame n
  | ConnectionMaxStreamIdFrame n | ConnectionStreamIdBlockedFrame n => 0 <= n
  | ConnectionAssetDetailsFrame _ n => 0 <= n
  | StreamCloseFrame i _ _ => 0 <= i
  | StreamMoneyFrame i s => 0 <= i /\ wire_amount s
  | StreamMaxMoneyFrame i a b | StreamMoneyBlockedFrame i a b =>
      0 <= i /\ wire_amount a /\ wire_amount b
  | StreamDataFrame i o _ => 0 <= i /\ 0 <= o
  | StreamMaxDataFrame i o | StreamDataBlockedFrame i o => 0 <= i /\ 0 <= o
  end.

Definition wire_packet (p : Packet) : Prop :=
  0 <= sequence p /\ wire_amount (prepareAmount p) /\ Forall wire_frame (frames p).

(** ** The stream object, as [connection.ts] sees it

    Fields that [connection.ts] reads or writes directly keep their names.
    [isOpen] is the answer of [stream.isOpen()], [holds] the table behind
    [_holdOutgoing] / [_executeHold] / [_cancelHold], [buffer] the byte
    buffers of type [B]. *)
Record Stream (B : Type) := mkStream {
  stream_id : Z;
  isOpen : bool;
  _sentEnd : bool;
  _remoteClosed : bool;
  _remoteSentEnd : bool;
  _errorMessage : option string;
  sendMax : BN.t;
  totalSent : BN.t;
  receiveMax : BN.t;
  totalReceived : BN.t;
  _remoteReceiveMax : BN.t;
  _remoteReceived : BN.t;
  holds : list (Z * BN.t);
  _remoteMaxOffset : Z;
  buffer : B
}.

Arguments mkStream {B}.
Arguments stream_id {B}.
Arguments isOpen {B}.
Arguments _sentEnd {B}.
Arguments _remoteClosed {B}.
Arguments _remoteSentEnd {B}.
Arguments _errorMessage {B}.
Arguments sendMax {B}.
Arguments totalSent {B}.
Arguments receiveMax {B}.
Arguments totalReceived {B}.
Arguments _remoteReceiveMax {B}.
Arguments _remoteReceived {B}.
Arguments holds {B}.
Arguments _remoteMaxOffset {B}.
Arguments buffer {B}.

Section StreamSetters.
Context {B : Type}.

Definition set_isOpen (v : bool) (s : Stream B) : Stream B :=
  mkStream
    (stream_id s) v (_sentEnd s) (_remoteClosed s) (_remoteSentEnd s)
    (_errorMessage s) (sendMax s) (totalSent s) (receiveMax s)
    (totalReceived s) (_remoteReceiveMax s) (_remoteReceived s) (holds s)
    (_remoteMaxOffset s) (buffer s).

Definition set__sentEnd (v : bool) (s : Stream B) : Stream B :=
  mkStream
    (stream_id s) (isOpen s) v (_remoteClosed s) (_remoteSentEnd s)
    (_errorMessage s) (sendMax s) (totalSent s) (receiveMax s)
    (totalReceived s) (_remoteReceiveMax s) (_remoteReceived s) (holds s)
    (_remoteMaxOffset s) (buffer s).

Definition set__remoteClosed (v : bool) (s : Stream B) : Stream B :=
  mkStream
    (stream_id s) (isOpen s) (_sentEnd s) v (_remoteSentEnd s)
    (_errorMessage s) (sendMax s) (totalSent s) (receiveMax s)
    (totalReceived s) (_remoteReceiveMax s) (_remoteReceived s) (holds s)
    (_remoteMaxOffset s) (buffer s).

Definition set__remoteSentEnd (v : bool) (s : Stream B) : Stream B :=
  mkStream
    (stream_id s) (isOpen s) (_sentEnd s) (_remoteClosed s) v
    (_errorMessage s) (sendMax s) (totalSent s) (receiveMax s)
    (totalReceived s) (_remoteReceiveMax s) (_remoteReceived s) (holds s)
    (_remoteMaxOffset s) (buffer s).

Definition set__errorMessage (v : option string) (s : Stream B) : Stream B :=
  mkStream
    (stream_id s) (isOpen s) (_sentEnd s) (_remoteClosed s) (_remoteSentEnd s)
    v (sendMax s) (totalSent s) (receiveMax s) (totalReceived s)
    (_remoteReceiveMax s) (_remoteReceived s) (holds s) (_remoteMaxOffset s)
    (buffer s).

Definition set_sendMax (v : BN.t) (s : Stream B) : Stream B :=
  mkStream
    (stream_id s) (isOpen s) (_sentEnd s) (_remoteClosed s) (_remoteSentEnd s)
    (_errorMessage s) v (totalSent s) (receiveMax s) (totalReceived s)
    (_remoteReceiveMax s) (_remoteReceived s) (holds s) (_remoteMaxOffset s)
    (buffer s).

Definition set_totalSent (v : BN.t) (s : Stream B) : Stream B :=
  mkStream
    (stream_id s) (isOpen s) (_sentEnd s) (_remoteClosed s) (_remoteSentEnd s)
    (_errorMessage s) (sendMax s) v (receiveMax s) (totalReceived s)
    (_remoteReceiveMax s) (_remoteReceived s) (holds s) (_remoteMaxOffset s)
    (buffer s).

Definition set_receiveMax (v : BN.t) (s : Stream B) : Stream B :=
  mkStream
    (stream_id s) (isOpen s) (_sentEnd s) (_remoteClosed s) (_remoteSentEnd s)
    (_errorMessage s) (sendMax s) (totalSent s) v (totalReceived s)
    (_remoteReceiveMax s) (_remoteReceived s) (holds s) (_remoteMaxOffset s)
    (buffer s).

Definition set_totalReceived (v : BN.t) (s : Stream B) : Stream B :=
  mkStream
    (stream_id s) (isOpen s) (_sentEnd s) (_remoteClosed s) (_remoteSentEnd s)
    (_errorMessage s) (sendMax s) (totalSent s) (receiveMax s) v
    (_remoteReceiveMax s) (_remoteReceived s) (holds s) (_remoteMaxOffset s)
    (buffer s).

Definition set__remoteReceiveMax (v : BN.t) (s : Stream B) : Stream B :=
  mkStream
    (stream_id s) (isOpen s) (_sentEnd s) (_remoteClosed s) (_remoteSentEnd s)
    (_errorMessage s) (sendMax s) (totalSent s) (receiveMax s)
    (totalReceived s) v (_remoteReceived s) (holds s) (_remoteMaxOffset s)
    (buffer s).

Definition set__remoteReceived (v : BN.t) (s : Stream B) : Stream B :=
  mkStream
    (stream_id s) (isOpen s) (_sentEnd s) (_remoteClosed s) (_remoteSentEnd s)
    (_errorMessage s) (sendMax s) (totalSent s) (receiveMax s)
    (totalReceived s) (_remoteReceiveMax s) v (holds s) (_remoteMaxOffset s)
    (buffer s).

Definition set_holds (v : list (Z * BN.t)) (s : Stream B) : Stream B :=
  mkStream
    (stream_id s) (isOpen s) (_sentEnd s) (_remoteClosed s) (_remoteSentEnd s)
    (_errorMessage s) (sendMax s) (totalSent s) (receiveMax s)
    (totalReceived s) (_remoteReceiveMax s) (_remoteReceived s) v
    (_remoteMaxOffset s) (buffer s).

Definition set__remoteMaxOffset (v : Z) (s : Stream B) : Stream B :=
  mkStream
    (stream_id s) (isOpen s) (_sentEnd s) (_remoteClosed s) (_remoteSentEnd s)
    (_errorMessage s) (sendMax s) (totalSent s) (receiveMax s)
    (totalReceived s) (_remoteReceiveMax s) (_remoteReceived s) (holds s) v
    (buffer s).

Definition set_buffer (v : B) (s : Stream B) : Stream B :=
  mkStream
    (stream_id s) (isOpen s) (_sentEnd s) (_remoteClosed s) (_remoteSentEnd s)
    (_errorMessage s) (sendMax s) (totalSent s) (receiveMax s)
    (totalReceived s) (_remoteReceiveMax s) (_remoteReceived s) (holds s)
    (_remoteMaxOffset s) v.

End StreamSetters.


(** ** Collaborators outside [connection.ts]

    The packet codec and the crypto helpers ([packet.ts], [crypto.ts]) and the
    byte buffers of a stream ([stream.ts]) are used through these operations
    only.  [B] is the state of one stream's byte buffers. *)

Record IncomingOffsets := mkIncomingOffsets {
  in_max : Z;
  in_current : Z;
  in_maxAcceptable : Z
}.

Record OutgoingOffsets := mkOutgoingOffsets {
  out_current : Z;
  out_max : Z
}.

Class Externals (B : Type) := {
  (** [Packet.decryptAndDeserialize(sharedSecret, data)]; [None] when it throws *)
  decryptAndDeserialize : bytes -> option Packet;
  (** [packet.serializeAndEncrypt(sharedSecret, padPacketToSize)] *)
  serializeAndEncrypt : Packet -> option Z -> bytes;
  (** [cryptoHelper.generateFulfillment(sharedSecret, data)] *)
  generateFulfillment : bytes -> bytes;
  (** [cryptoHelper.hash] *)
  hash : bytes -> bytes;
  (** [packet.byteLength()] and [frame.byteLength()] *)
  packet_byteLength : Packet -> Z;
  frame_byteLength : Frame -> Z;
  (** [stream._getIncomingOffsets()], [stream.readableLength],
      [stream._getOutgoingOffsets()] *)
  buf_getIncomingOffsets : B -> IncomingOffsets;
  buf_readableLength : B -> Z;
  buf_getOutgoingOffsets : B -> OutgoingOffsets;
  (** [stream._pushIncomingData(data, offset)]; [None] when it throws *)
  buf_pushIncomingData : B -> bytes -> Z -> option B;
  (** [stream._getAvailableDataToSend(size)], given the stream's
      [_remoteMaxOffset]: the [{ data, offset }] it returns and the buffers
      afterwards *)
  buf_getAvailableDataToSend : B -> Z -> Z -> option bytes * Z * B;
  (** [stream._isDataBlocked()], given the stream's [_remoteMaxOffset] *)
  buf_isDataBlocked : B -> Z -> option Z;
  (** [stream._resendOutgoingData(data, offset)] *)
  buf_resendOutgoingData : B -> bytes -> Z -> B;
  (** [new DataAndMoneyStream({ id, isServer })]; the stream carries the id
      it is given *)
  newDataAndMoneyStream : Z -> bool -> Stream B;
  newDataAndMoneyStream_id :
    forall id srv, stream_id (newDataAndMoneyStream id srv) = id
}.

(** ** Errors, events and spawned tasks *)

Inductive Error :=
  | UnexpectedPaymentError
  | FinalApplicationError (data : Packet)
  | JsError (message : string)
  | ConnectionError (message : string) (streamErrorCode : ErrorCode)
  | TypeError.

Inductive Event :=
  | EvConnect
  | EvStream (id : Z)
  | EvError (err : Error)
  | EvClose
  | EvEnd
  | EvSendLoopFinished.

Definition Event_name (e : Event) : string :=
  match e with
  | EvConnect => "connect"
  | EvStream _ => "stream"
  | EvError _ => "error"
  | EvClose => "close"
  | EvEnd => "end"
  | EvSendLoopFinished => "_send_loop_finished"
  end.

(** The listeners [connection.ts] itself registers on the connection: the
    three handlers of a pending [connect()] and the two of a pending [end()].
    [owner] tells the closures of one call from those of another. *)
Inductive Handler :=
  | connectHandler
  | closeHandler
  | errorHandler
  | endResolve
  | endReject.

Record Listener := mkListener { owner : Z; handler : Handler }.

(** What is left to the scheduler.  An async method that is called without
    [await] (a "floating promise") runs at once up to its first [await]; its
    rest is a task: the loop of [startSendLoop()] once [sending] is set, the
    rest of [destroy()] once the ConnectionClose is with the plugin.
    [TaskDestroy] stands for a whole [destroy (err)] where the call is the
    last thing its caller does.  The continuations of [connect()] and [end()]
    are tasks that a listener wakes up.  The trace records the tasks; when
    their bodies run is up to the scheduler. *)
Inductive Task :=
  | TaskSendLoop
  | TaskDestroy (err : option Error)
  | TaskDestroyFinish
  | TaskConnectResolved (ownerId : Z)
  | TaskConnectRejected (ownerId : Z) (err : Error)
  | TaskEndContinue (ownerId : Z)
  | TaskEndRejected (ownerId : Z).

(** What a method does to the world around the connection, in order:
    events emitted, calls of [plugin.sendData], sleeps ([setTimeout] awaited),
    volleys of test packets, and tasks left to the scheduler. *)
Inductive Effect :=
  | Emitted (e : Event)
  | StreamEmitted (id : Z) (event : string)
  | SendData (amount : BN.t) (packet : Packet)
  | Slept (ms : Q)
  | TestVolley (testPacketAmounts : list BN.t)
  | Spawned (t : Task).

(** ** [Map] with insertion order, as [for (let [_, stream] of this.streams)]
    walks it *)
Section JSMap.
Context {V : Type}.

Fixpoint map_get (k : Z) (m : list (Z * V)) : option V :=
  match m with
  | [] => None
  | (k', v) :: rest => if Z.eqb k k' then Some v else map_get k rest
  end.

Definition map_has (k : Z) (m : list (Z * V)) : bool :=
  match map_get k m with Some _ => true | None => false end.

(** [set] keeps the position of a key that is present, else appends. *)
Fixpoint map_set (k : Z) (v : V) (m : list (Z * V)) : list (Z * V) :=
  match m with
  | [] => [(k, v)]
  | (k', v') :: rest =>
      if Z.eqb k k' then (k, v) :: rest else (k', v') :: map_set k v rest
  end.

Fixpoint map_delete (k : Z) (m : list (Z * V)) : list (Z * V) :=
  match m with
  | [] => []
  | (k', v') :: rest =>
      if Z.eqb k k' then rest else (k', v') :: map_delete k rest
  end.

(** update the object stored under [k], if any *)
Definition map_update (k : Z) (f : V -> V) (m : list (Z * V)) : list (Z * V) :=
  match map_get k m with
  | Some v => map_set k (f v) m
  | None => m
  end.
End JSMap.

(** The outcome of a method: a value, or the exception it throws. *)
Inductive Result (A : Type) :=
  | Ok (a : A)
  | Throw (e : Error).
Arguments Ok {A} a.
Arguments Throw {A} e.

Section Core.
Context {B : Type} `{!Externals B}.


(** ** Stream methods called by [connection.ts] *)

(** Modelled from the spec: [stream.can_receive], the incoming money window
    [receive_max − total_received] of section 4.4; [stream.ts] is not part of
    the sources. *)
Definition _getAmountStreamCanReceive (s : Stream B) : BN.t :=
  BN.minus (receiveMax s) (totalReceived s).

(** Modelled from the spec: crediting a stream (section 4.7, step 10) adds
    the amount to its [total_received]. *)
Definition _addToIncoming (amount : BN.t) (s : Stream B) : Stream B :=
  set_totalReceived (BN.plus (totalReceived s) amount) s.

Definition heldAmount (s : Stream B) : BN.t :=
  fold_left (fun acc h => BN.plus acc (snd h)) (holds s) (BN.Fin 0).

(** Modelled from the spec: [available_to_send()], what the stream may still
    send: [send_max] less [total_sent] less the outstanding holds, and never
    negative. *)
Definition _getAmountAvailableToSend (s : Stream B) : BN.t :=
  BN.maximum [BN.minus (BN.minus (sendMax s) (totalSent s)) (heldAmount s);
              BN.Fin 0].

(** Modelled from the spec: a hold is a provisional reservation of outgoing
    value keyed by the packet sequence, "released on fulfill, returned on
    reject". *)
Definition _holdOutgoing (seq : Z) (amount : BN.t) (s : Stream B) : Stream B :=
  set_holds (holds s ++ [(seq, amount)]) s.

Definition _executeHold (seq : Z) (s : Stream B) : Stream B :=
  match map_get seq (holds s) with
  | Some amount =>
      set_holds (map_delete seq (holds s))
        (set_totalSent (BN.plus (totalSent s) amount) s)
  | None => s
  end.

Definition _cancelHold (seq : Z) (s : Stream B) : Stream B :=
  set_holds (map_delete seq (holds s)) s.

(** Modelled from the spec: "StreamClose — mark stream ended"; the remote end
    is recorded and the stream stops being open. *)
Definition _remoteEnded (s : Stream B) : Stream B :=
  set_isOpen false (set__remoteClosed true (set__remoteSentEnd true s)).

(** Modelled from the spec: [stream.end()] and [stream.destroy()] close the
    stream. *)
Definition stream_end (s : Stream B) : Stream B := set_isOpen false s.
Definition stream_destroy (s : Stream B) : Stream B := set_isOpen false s.

(** ** The connection *)
Record Connection := mkConnection {
  connectionTag : option string;
  _sourceAccount : string;
  _sourceAssetCode : string;
  _sourceAssetScale : Z;
  _destinationAccount : option string;
  _destinationAssetCode : option string;
  _destinationAssetScale : option Z;
  isServer : bool;
  slippage : Q;
  enablePadding : bool;
  maxBufferedData : Z;
  idleTimeout : Z;
  lastActive : Z;
  idleTimer : option Z;
  nextPacketSequence : Z;
  streams : list (Z * Stream B);
  closedStreams : gset Z;
  nextStreamId : Z;
  maxStreamId : Z;
  sending : bool;
  testMaximumPacketAmount : BN.t;
  maximumPacketAmount : BN.t;
  minExchangeRatePrecision : Z;
  closed : bool;
  exchangeRate : option BQ.t;
  retryDelay : Z;
  queuedFrames : list Frame;
  remoteClosed : bool;
  remoteMaxStreamId : Z;
  remoteKnowsOurAccount : bool;
  remoteMaxOffset : Z;
  _totalReceived : BN.t;
  _totalSent : BN.t;
  _totalDelivered : BN.t;
  _lastPacketExchangeRate : BQ.t;
  clock : Z;
  timers : list Z;
  listeners : list (string * Listener);
  nextListenerOwner : Z;
  trace : list Effect
}.

Definition set__destinationAccount (v : option string) (c : Connection) : Connection :=
  mkConnection
    (connectionTag c) (_sourceAccount c) (_sourceAssetCode c)
    (_sourceAssetScale c) v (_destinationAssetCode c)
    (_destinationAssetScale c) (isServer c) (slippage c) (enablePadding c)
    (maxBufferedData c) (idleTimeout c) (lastActive c) (idleTimer c)
    (nextPacketSequence c) (streams c) (closedStreams c) (nextStreamId c)
    (maxStreamId c) (sending c) (testMaximumPacketAmount c)
    (maximumPacketAmount c) (minExchangeRatePrecision c) (closed c)
    (exchangeRate c) (retryDelay c) (queuedFrames c) (remoteClosed c)
    (remoteMaxStreamId c) (remoteKnowsOurAccount c) (remoteMaxOffset c)
    (_totalReceived c) (_totalSent c) (_totalDelivered c)
    (_lastPacketExchangeRate c) (clock c) (timers c) (listeners c)
    (nextListenerOwner c) (trace c).

Definition set__destinationAssetCode (v : option string) (c : Connection) : Connection :=
  mkConnection
    (connectionTag c) (_sourceAccount c) (_sourceAssetCode c)
    (_sourceAssetScale c) (_destinationAccount c) v (_destinationAssetScale c)
    (isServer c) (slippage c) (enablePadding c) (maxBufferedData c)
    (idleTimeout c) (lastActive c) (idleTimer c) (nextPacketSequence c)
    (streams c) (closedStreams c) (nextStreamId c) (maxStreamId c) (sending c)
    (testMaximumPacketAmount c) (maximumPacketAmount c)
    (minExchangeRatePrecision c) (closed c) (exchangeRate c) (retryDelay c)
    (queuedFrames c) (remoteClosed c) (remoteMaxStreamId c)
    (remoteKnowsOurAccount c) (remoteMaxOffset c) (_totalReceived c)
    (_totalSent c) (_totalDelivered c) (_lastPacketExchangeRate c) (clock c)
    (timers c) (listeners c) (nextListenerOwner c) (trace c).

Definition set__destinationAssetScale (v : option Z) (c : Connection) : Connection :=
  mkConnection
    (connectionTag c) (_sourceAccount c) (_sourceAssetCode c)
    (_sourceAssetScale c) (_destinationAccount c) (_destinationAssetCode c) v
    (isServer c) (slippage c) (enablePadding c) (maxBufferedData c)
    (idleTimeout c) (lastActive c) (idleTimer c) (nextPacketSequence c)
    (streams c) (closedStreams c) (nextStreamId c) (maxStreamId c) (sending c)
    (testMaximumPacketAmount c) (maximumPacketAmount c)
    (minExchangeRatePrecision c) (closed c) (exchangeRate c) (retryDelay c)
    (queuedFrames c) (remoteClosed c) (remoteMaxStreamId c)
    (remoteKnowsOurAccount c) (remoteMaxOffset c) (_totalReceived c)
    (_totalSent c) (_totalDelivered c) (_lastPacketExchangeRate c) (clock c)
    (timers c) (listeners c) (nextListenerOwner c) (trace c).

Definition set_lastActive (v : Z) (c : Connection) : Connection :=
  mkConnection
    (connectionTag c) (_sourceAccount c) (_sourceAssetCode c)
    (_sourceAssetScale c) (_destinationAccount c) (_destinationAssetCode c)
    (_destinationAssetScale c) (isServer c) (slippage c) (enablePadding c)
    (maxBufferedData c) (idleTimeout c) v (idleTimer c) (nextPacketSequence c)
    (streams c) (closedStreams c) (nextStreamId c) (maxStreamId c) (sending c)
    (testMaximumPacketAmount c) (maximumPacketAmount c)
    (minExchangeRatePrecision c) (closed c) (exchangeRate c) (retryDelay c)
    (queuedFrames c) (remoteClosed c) (remoteMaxStreamId c)
    (remoteKnowsOurAccount c) (remoteMaxOffset c) (_totalReceived c)
    (_totalSent c) (_totalDelivered c) (_lastPacketExchangeRate c) (clock c)
    (timers c) (listeners c) (nextListenerOwner c) (trace c).

Definition set_idleTimer (v : option Z) (c : Connection) : Connection :=
  mkConnection
    (connectionTag c) (_sourceAccount c) (_sourceAssetCode c)
    (_sourceAssetScale c) (_destinationAccount c) (_destinationAssetCode c)
    (_destinationAssetScale c) (isServer c) (slippage c) (enablePadding c)
    (maxBufferedData c) (idleTimeout c) (lastActive c) v
    (nextPacketSequence c) (streams c) (closedStreams c) (nextStreamId c)
    (maxStreamId c) (sending c) (testMaximumPacketAmount c)
    (maximumPacketAmount c) (minExchangeRatePrecision c) (closed c)
    (exchangeRate c) (retryDelay c) (queuedFrames c) (remoteClosed c)
    (remoteMaxStreamId c) (remoteKnowsOurAccount c) (remoteMaxOffset c)
    (_totalReceived c) (_totalSent c) (_totalDelivered c)
    (_lastPacketExchangeRate c) (clock c) (timers c) (listeners c)
    (nextListenerOwner c) (trace c).

Definition set_nextPacketSequence (v : Z) (c : Connection) : Connection :=
  mkConnection
    (connectionTag c) (_sourceAccount c) (_sourceAssetCode c)
    (_sourceAssetScale c) (_destinationAccount c) (_destinationAssetCode c)
    (_destinationAssetScale c) (isServer c) (slippage c) (enablePadding c)
    (maxBufferedData c) (idleTimeout c) (lastActive c) (idleTimer c) v
    (streams c) (closedStreams c) (nextStreamId c) (maxStreamId c) (sending c)
    (testMaximumPacketAmount c) (maximumPacketAmount c)
    (minExchangeRatePrecision c) (closed c) (exchangeRate c) (retryDelay c)
    (queuedFrames c) (remoteClosed c) (remoteMaxStreamId c)
    (remoteKnowsOurAccount c) (remoteMaxOffset c) (_totalReceived c)
    (_totalSent c) (_totalDelivered c) (_lastPacketExchangeRate c) (clock c)
    (timers c) (listeners c) (nextListenerOwner c) (trace c).

Definition set_streams (v : list (Z * Stream B)) (c : Connection) : Connection :=
  mkConnection
    (connectionTag c) (_sourceAccount c) (_sourceAssetCode c)
    (_sourceAssetScale c) (_destinationAccount c) (_destinationAssetCode c)
    (_destinationAssetScale c) (isServer c) (slippage c) (enablePadding c)
    (maxBufferedData c) (idleTimeout c) (lastActive c) (idleTimer c)
    (nextPacketSequence c) v (closedStreams c) (nextStreamId c)
    (maxStreamId c) (sending c) (testMaximumPacketAmount c)
    (maximumPacketAmount c) (minExchangeRatePrecision c) (closed c)
    (exchangeRate c) (retryDelay c) (queuedFrames c) (remoteClosed c)
    (remoteMaxStreamId c) (remoteKnowsOurAccount c) (remoteMaxOffset c)
    (_totalReceived c) (_totalSent c) (_totalDelivered c)
    (_lastPacketExchangeRate c) (clock c) (timers c) (listeners c)
    (nextListenerOwner c) (trace c).

Definition set_closedStreams (v : gset Z) (c : Connection) : Connection :=
  mkConnection
    (connectionTag c) (_sourceAccount c) (_sourceAssetCode c)
    (_sourceAssetScale c) (_destinationAccount c) (_destinationAssetCode c)
    (_destinationAssetScale c) (isServer c) (slippage c) (enablePadding c)
    (maxBufferedData c) (idleTimeout c) (lastActive c) (idleTimer c)
    (nextPacketSequence c) (streams c) v (nextStreamId c) (maxStreamId c)
    (sending c) (testMaximumPacketAmount c) (maximumPacketAmount c)
    (minExchangeRatePrecision c) (closed c) (exchangeRate c) (retryDelay c)
    (queuedFrames c) (remoteClosed c) (remoteMaxStreamId c)
    (remoteKnowsOurAccount c) (remoteMaxOffset c) (_totalReceived c)
    (_totalSent c) (_totalDelivered c) (_lastPacketExchangeRate c) (clock c)
    (timers c) (listeners c) (nextListenerOwner c) (trace c).

Definition set_nextStreamId (v : Z) (c : Connection) : Connection :=
  mkConnection
    (connectionTag c) (_sourceAccount c) (_sourceAssetCode c)
    (_sourceAssetScale c) (_destinationAccount c) (_destinationAssetCode c)
    (_destinationAssetScale c) (isServer c) (slippage c) (enablePadding c)
    (maxBufferedData c) (idleTimeout c) (lastActive c) (idleTimer c)
    (nextPacketSequence c) (streams c) (closedStreams c) v (maxStreamId c)
    (sending c) (testMaximumPacketAmount c) (maximumPacketAmount c)
    (minExchangeRatePrecision c) (closed c) (exchangeRate c) (retryDelay c)
    (queuedFrames c) (remoteClosed c) (remoteMaxStreamId c)
    (remoteKnowsOurAccount c) (remoteMaxOffset c) (_totalReceived c)
    (_totalSent c) (_totalDelivered c) (_lastPacketExchangeRate c) (clock c)
    (timers c) (listeners c) (nextListenerOwner c) (trace c).

Definition set_maxStreamId (v : Z) (c : Connection) : Connection :=
  mkConnection
    (connectionTag c) (_sourceAccount c) (_sourceAssetCode c)
    (_sourceAssetScale c) (_destinationAccount c) (_destinationAssetCode c)
    (_destinationAssetScale c) (isServer c) (slippage c) (enablePadding c)
    (maxBufferedData c) (idleTimeout c) (lastActive c) (idleTimer c)
    (nextPacketSequence c) (streams c) (closedStreams c) (nextStreamId c) v
    (sending c) (testMaximumPacketAmount c) (maximumPacketAmount c)
    (minExchangeRatePrecision c) (closed c) (exchangeRate c) (retryDelay c)
    (queuedFrames c) (remoteClosed c) (remoteMaxStreamId c)
    (remoteKnowsOurAccount c) (remoteMaxOffset c) (_totalReceived c)
    (_totalSent c) (_totalDelivered c) (_lastPacketExchangeRate c) (clock c)
    (timers c) (listeners c) (nextListenerOwner c) (trace c).

Definition set_sending (v : bool) (c : Connection) : Connection :=
  mkConnection
    (connectionTag c) (_sourceAccount c) (_sourceAssetCode c)
    (_sourceAssetScale c) (_destinationAccount c) (_destinationAssetCode c)
    (_destinationAssetScale c) (isServer c) (slippage c) (enablePadding c)
    (maxBufferedData c) (idleTimeout c) (lastActive c) (idleTimer c)
    (nextPacketSequence c) (streams c) (closedStreams c) (nextStreamId c)
    (maxStreamId c) v (testMaximumPacketAmount c) (maximumPacketAmount c)
    (minExchangeRatePrecision c) (closed c) (exchangeRate c) (retryDelay c)
    (queuedFrames c) (remoteClosed c) (remoteMaxStreamId c)
    (remoteKnowsOurAccount c) (remoteMaxOffset c) (_totalReceived c)
    (_totalSent c) (_totalDelivered c) (_lastPacketExchangeRate c) (clock c)
    (timers c) (listeners c) (nextListenerOwner c) (trace c).

Definition set_testMaximumPacketAmount (v : BN.t) (c : Connection) : Connection :=
  mkConnection
    (connectionTag c) (_sourceAccount c) (_sourceAssetCode c)
    (_sourceAssetScale c) (_destinationAccount c) (_destinationAssetCode c)
    (_destinationAssetScale c) (isServer c) (slippage c) (enablePadding c)
    (maxBufferedData c) (idleTimeout c) (lastActive c) (idleTimer c)
    (nextPacketSequence c) (streams c) (closedStreams c) (nextStreamId c)
    (maxStreamId c) (sending c) v (maximumPacketAmount c)
    (minExchangeRatePrecision c) (closed c) (exchangeRate c) (retryDelay c)
    (queuedFrames c) (remoteClosed c) (remoteMaxStreamId c)
    (remoteKnowsOurAccount c) (remoteMaxOffset c) (_totalReceived c)
    (_totalSent c) (_totalDelivered c) (_lastPacketExchangeRate c) (clock c)
    (timers c) (listeners c) (nextListenerOwner c) (trace c).

Definition set_maximumPacketAmount (v : BN.t) (c : Connection) : Connection :=
  mkConnection
    (connectionTag c) (_sourceAccount c) (_sourceAssetCode c)
    (_sourceAssetScale c) (_destinationAccount c) (_destinationAssetCode c)
    (_destinationAssetScale c) (isServer c) (slippage c) (enablePadding c)
    (maxBufferedData c) (idleTimeout c) (lastActive c) (idleTimer c)
    (nextPacketSequence c) (streams c) (closedStreams c) (nextStreamId c)
    (maxStreamId c) (sending c) (testMaximumPacketAmount c) v
    (minExchangeRatePrecision c) (closed c) (exchangeRate c) (retryDelay c)
    (queuedFrames c) (remoteClosed c) (remoteMaxStreamId c)
    (remoteKnowsOurAccount c) (remoteMaxOffset c) (_totalReceived c)
    (_totalSent c) (_totalDelivered c) (_lastPacketExchangeRate c) (clock c)
    (timers c) (listeners c) (nextListenerOwner c) (trace c).

Definition set_closed (v : bool) (c : Connection) : Connection :=
  mkConnection
    (connectionTag c) (_sourceAccount c) (_sourceAssetCode c)
    (_sourceAssetScale c) (_destinationAccount c) (_destinationAssetCode c)
    (_destinationAssetScale c) (isServer c) (slippage c) (enablePadding c)
    (maxBufferedData c) (idleTimeout c) (lastActive c) (idleTimer c)
    (nextPacketSequence c) (streams c) (closedStreams c) (nextStreamId c)
    (maxStreamId c) (sending c) (testMaximumPacketAmount c)
    (maximumPacketAmount c) (minExchangeRatePrecision c) v (exchangeRate c)
    (retryDelay c) (queuedFrames c) (remoteClosed c) (remoteMaxStreamId c)
    (remoteKnowsOurAccount c) (remoteMaxOffset c) (_totalReceived c)
    (_totalSent c) (_totalDelivered c) (_lastPacketExchangeRate c) (clock c)
    (timers c) (listeners c) (nextListenerOwner c) (trace c).

Definition set_exchangeRate (v : option BQ.t) (c : Connection) : Connection :=
  mkConnection
    (connectionTag c) (_sourceAccount c) (_sourceAssetCode c)
    (_sourceAssetScale c) (_destinationAccount c) (_destinationAssetCode c)
    (_destinationAssetScale c) (isServer c) (slippage c) (enablePadding c)
    (maxBufferedData c) (idleTimeout c) (lastActive c) (idleTimer c)
    (nextPacketSequence c) (streams c) (closedStreams c) (nextStreamId c)
    (maxStreamId c) (sending c) (testMaximumPacketAmount c)
    (maximumPacketAmount c) (minExchangeRatePrecision c) (closed c) v
    (retryDelay c) (queuedFrames c) (remoteClosed c) (remoteMaxStreamId c)
    (remoteKnowsOurAccount c) (remoteMaxOffset c) (_totalReceived c)
    (_totalSent c) (_totalDelivered c) (_lastPacketExchangeRate c) (clock c)
    (timers c) (listeners c) (nextListenerOwner c) (trace c).

Definition set_retryDelay (v : Z) (c : Connection) : Connection :=
  mkConnection
    (connectionTag c) (_sourceAccount c) (_sourceAssetCode c)
    (_sourceAssetScale c) (_destinationAccount c) (_destinationAssetCode c)
    (_destinationAssetScale c) (isServer c) (slippage c) (enablePadding c)
    (maxBufferedData c) (idleTimeout c) (lastActive c) (idleTimer c)
    (nextPacketSequence c) (streams c) (closedStreams c) (nextStreamId c)
    (maxStreamId c) (sending c) (testMaximumPacketAmount c)
    (maximumPacketAmount c) (minExchangeRatePrecision c) (closed c)
    (exchangeRate c) v (queuedFrames c) (remoteClosed c) (remoteMaxStreamId c)
    (remoteKnowsOurAccount c) (remoteMaxOffset c) (_totalReceived c)
    (_totalSent c) (_totalDelivered c) (_lastPacketExchangeRate c) (clock c)
    (timers c) (listeners c) (nextListenerOwner c) (trace c).

Definition set_queuedFrames (v : list Frame) (c : Connection) : Connection :=
  mkConnection
    (connectionTag c) (_sourceAccount c) (_sourceAssetCode c)
    (_sourceAssetScale c) (_destinationAccount c) (_destinationAssetCode c)
    (_destinationAssetScale c) (isServer c) (slippage c) (enablePadding c)
    (maxBufferedData c) (idleTimeout c) (lastActive c) (idleTimer c)
    (nextPacketSequence c) (streams c) (closedStreams c) (nextStreamId c)
    (maxStreamId c) (sending c) (testMaximumPacketAmount c)
    (maximumPacketAmount c) (minExchangeRatePrecision c) (closed c)
    (exchangeRate c) (retryDelay c) v (remoteClosed c) (remoteMaxStreamId c)
    (remoteKnowsOurAccount c) (remoteMaxOffset c) (_totalReceived c)
    (_totalSent c) (_totalDelivered c) (_lastPacketExchangeRate c) (clock c)
    (timers c) (listeners c) (nextListenerOwner c) (trace c).

Definition set_remoteClosed (v : bool) (c : Connection) : Connection :=
  mkConnection
    (connectionTag c) (_sourceAccount c) (_sourceAssetCode c)
    (_sourceAssetScale c) (_destinationAccount c) (_destinationAssetCode c)
    (_destinationAssetScale c) (isServer c) (slippage c) (enablePadding c)
    (maxBufferedData c) (idleTimeout c) (lastActive c) (idleTimer c)
    (nextPacketSequence c) (streams c) (closedStreams c) (nextStreamId c)
    (maxStreamId c) (sending c) (testMaximumPacketAmount c)
    (maximumPacketAmount c) (minExchangeRatePrecision c) (closed c)
    (exchangeRate c) (retryDelay c) (queuedFrames c) v (remoteMaxStreamId c)
    (remoteKnowsOurAccount c) (remoteMaxOffset c) (_totalReceived c)
    (_totalSent c) (_totalDelivered c) (_lastPacketExchangeRate c) (clock c)
    (timers c) (listeners c) (nextListenerOwner c) (trace c).

Definition set_remoteMaxStreamId (v : Z) (c : Connection) : Connection :=
  mkConnection
    (connectionTag c) (_sourceAccount c) (_sourceAssetCode c)
    (_sourceAssetScale c) (_destinationAccount c) (_destinationAssetCode c)
    (_destinationAssetScale c) (isServer c) (slippage c) (enablePadding c)
    (maxBufferedData c) (idleTimeout c) (lastActive c) (idleTimer c)
    (nextPacketSequence c) (streams c) (closedStreams c) (nextStreamId c)
    (maxStreamId c) (sending c) (testMaximumPacketAmount c)
    (maximumPacketAmount c) (minExchangeRatePrecision c) (closed c)
    (exchangeRate c) (retryDelay c) (queuedFrames c) (remoteClosed c) v
    (remoteKnowsOurAccount c) (remoteMaxOffset c) (_totalReceived c)
    (_totalSent c) (_totalDelivered c) (_lastPacketExchangeRate c) (clock c)
    (timers c) (listeners c) (nextListenerOwner c) (trace c).

Definition set_remoteKnowsOurAccount (v : bool) (c : Connection) : Connection :=
  mkConnection
    (connectionTag c) (_sourceAccount c) (_sourceAssetCode c)
    (_sourceAssetScale c) (_destinationAccount c) (_destinationAssetCode c)
    (_destinationAssetScale c) (isServer c) (slippage c) (enablePadding c)
    (maxBufferedData c) (idleTimeout c) (lastActive c) (idleTimer c)
    (nextPacketSequence c) (streams c) (closedStreams c) (nextStreamId c)
    (maxStreamId c) (sending c) (testMaximumPacketAmount c)
    (maximumPacketAmount c) (minExchangeRatePrecision c) (closed c)
    (exchangeRate c) (retryDelay c) (queuedFrames c) (remoteClosed c)
    (remoteMaxStreamId c) v (remoteMaxOffset c) (_totalReceived c)
    (_totalSent c) (_totalDelivered c) (_lastPacketExchangeRate c) (clock c)
    (timers c) (listeners c) (nextListenerOwner c) (trace c).

Definition set_remoteMaxOffset (v : Z) (c : Connection) : Connection :=
  mkConnection
    (connectionTag c) (_sourceAccount c) (_sourceAssetCode c)
    (_sourceAssetScale c) (_destinationAccount c) (_destinationAssetCode c)
    (_destinationAssetScale c) (isServer c) (slippage c) (enablePadding c)
    (maxBufferedData c) (idleTimeout c) (lastActive c) (idleTimer c)
    (nextPacketSequence c) (streams c) (closedStreams c) (nextStreamId c)
    (maxStreamId c) (sending c) (testMaximumPacketAmount c)
    (maximumPacketAmount c) (minExchangeRatePrecision c) (closed c)
    (exchangeRate c) (retryDelay c) (queuedFrames c) (remoteClosed c)
    (remoteMaxStreamId c) (remoteKnowsOurAccount c) v (_totalReceived c)
    (_totalSent c) (_totalDelivered c) (_lastPacketExchangeRate c) (clock c)
    (timers c) (listeners c) (nextListenerOwner c) (trace c).

Definition set__totalReceived (v : BN.t) (c : Connection) : Connection :=
  mkConnection
    (connectionTag c) (_sourceAccount c) (_sourceAssetCode c)
    (_sourceAssetScale c) (_destinationAccount c) (_destinationAssetCode c)
    (_destinationAssetScale c) (isServer c) (slippage c) (enablePadding c)
    (maxBufferedData c) (idleTimeout c) (lastActive c) (idleTimer c)
    (nextPacketSequence c) (streams c) (closedStreams c) (nextStreamId c)
    (maxStreamId c) (sending c) (testMaximumPacketAmount c)
    (maximumPacketAmount c) (minExchangeRatePrecision c) (closed c)
    (exchangeRate c) (retryDelay c) (queuedFrames c) (remoteClosed c)
    (remoteMaxStreamId c) (remoteKnowsOurAccount c) (remoteMaxOffset c) v
    (_totalSent c) (_totalDelivered c) (_lastPacketExchangeRate c) (clock c)
    (timers c) (listeners c) (nextListenerOwner c) (trace c).

Definition set__totalSent (v : BN.t) (c : Connection) : Connection :=
  mkConnection
    (connectionTag c) (_sourceAccount c) (_sourceAssetCode c)
    (_sourceAssetScale c) (_destinationAccount c) (_destinationAssetCode c)
    (_destinationAssetScale c) (isServer c) (slippage c) (enablePadding c)
    (maxBufferedData c) (idleTimeout c) (lastActive c) (idleTimer c)
    (nextPacketSequence c) (streams c) (closedStreams c) (nextStreamId c)
    (maxStreamId c) (sending c) (testMaximumPacketAmount c)
    (maximumPacketAmount c) (minExchangeRatePrecision c) (closed c)
    (exchangeRate c) (retryDelay c) (queuedFrames c) (remoteClosed c)
    (remoteMaxStreamId c) (remoteKnowsOurAccount c) (remoteMaxOffset c)
    (_totalReceived c) v (_totalDelivered c) (_lastPacketExchangeRate c)
    (clock c) (timers c) (listeners c) (nextListenerOwner c) (trace c).

Definition set__totalDelivered (v : BN.t) (c : Connection) : Connection :=
  mkConnection
    (connectionTag c) (_sourceAccount c) (_sourceAssetCode c)
    (_sourceAssetScale c) (_destinationAccount c) (_destinationAssetCode c)
    (_destinationAssetScale c) (isServer c) (slippage c) (enablePadding c)
    (maxBufferedData c) (idleTimeout c) (lastActive c) (idleTimer c)
    (nextPacketSequence c) (streams c) (closedStreams c) (nextStreamId c)
    (maxStreamId c) (sending c) (testMaximumPacketAmount c)
    (maximumPacketAmount c) (minExchangeRatePrecision c) (closed c)
    (exchangeRate c) (retryDelay c) (queuedFrames c) (remoteClosed c)
    (remoteMaxStreamId c) (remoteKnowsOurAccount c) (remoteMaxOffset c)
    (_totalReceived c) (_totalSent c) v (_lastPacketExchangeRate c) (clock c)
    (timers c) (listeners c) (nextListenerOwner c) (trace c).

Definition set__lastPacketExchangeRate (v : BQ.t) (c : Connection) : Connection :=
  mkConnection
    (connectionTag c) (_sourceAccount c) (_sourceAssetCode c)
    (_sourceAssetScale c) (_destinationAccount c) (_destinationAssetCode c)
    (_destinationAssetScale c) (isServer c) (slippage c) (enablePadding c)
    (maxBufferedData c) (idleTimeout c) (lastActive c) (idleTimer c)
    (nextPacketSequence c) (streams c) (closedStreams c) (nextStreamId c)
    (maxStreamId c) (sending c) (testMaximumPacketAmount c)
    (maximumPacketAmount c) (minExchangeRatePrecision c) (closed c)
    (exchangeRate c) (retryDelay c) (queuedFrames c) (remoteClosed c)
    (remoteMaxStreamId c) (remoteKnowsOurAccount c) (remoteMaxOffset c)
    (_totalReceived c) (_totalSent c) (_totalDelivered c) v (clock c)
    (timers c) (listeners c) (nextListenerOwner c) (trace c).

Definition set_clock (v : Z) (c : Connection) : Connection :=
  mkConnection
    (connectionTag c) (_sourceAccount c) (_sourceAssetCode c)
    (_sourceAssetScale c) (_destinationAccount c) (_destinationAssetCode c)
    (_destinationAssetScale c) (isServer c) (slippage c) (enablePadding c)
    (maxBufferedData c) (idleTimeout c) (lastActive c) (idleTimer c)
    (nextPacketSequence c) (streams c) (closedStreams c) (nextStreamId c)
    (maxStreamId c) (sending c) (testMaximumPacketAmount c)
    (maximumPacketAmount c) (minExchangeRatePrecision c) (closed c)
    (exchangeRate c) (retryDelay c) (queuedFrames c) (remoteClosed c)
    (remoteMaxStreamId c) (remoteKnowsOurAccount c) (remoteMaxOffset c)
    (_totalReceived c) (_totalSent c) (_totalDelivered c)
    (_lastPacketExchangeRate c) v (timers c) (listeners c)
    (nextListenerOwner c) (trace c).

Definition set_timers (v : list Z) (c : Connection) : Connection :=
  mkConnection
    (connectionTag c) (_sourceAccount c) (_sourceAssetCode c)
    (_sourceAssetScale c) (_destinationAccount c) (_destinationAssetCode c)
    (_destinationAssetScale c) (isServer c) (slippage c) (enablePadding c)
    (maxBufferedData c) (idleTimeout c) (lastActive c) (idleTimer c)
    (nextPacketSequence c) (streams c) (closedStreams c) (nextStreamId c)
    (maxStreamId c) (sending c) (testMaximumPacketAmount c)
    (maximumPacketAmount c) (minExchangeRatePrecision c) (closed c)
    (exchangeRate c) (retryDelay c) (queuedFrames c) (remoteClosed c)
    (remoteMaxStreamId c) (remoteKnowsOurAccount c) (remoteMaxOffset c)
    (_totalReceived c) (_totalSent c) (_totalDelivered c)
    (_lastPacketExchangeRate c) (clock c) v (listeners c)
    (nextListenerOwner c) (trace c).

Definition set_listeners (v : list (string * Listener)) (c : Connection) : Connection :=
  mkConnection
    (connectionTag c) (_sourceAccount c) (_sourceAssetCode c)
    (_sourceAssetScale c) (_destinationAccount c) (_destinationAssetCode c)
    (_destinationAssetScale c) (isServer c) (slippage c) (enablePadding c)
    (maxBufferedData c) (idleTimeout c) (lastActive c) (idleTimer c)
    (nextPacketSequence c) (streams c) (closedStreams c) (nextStreamId c)
    (maxStreamId c) (sending c) (testMaximumPacketAmount c)
    (maximumPacketAmount c) (minExchangeRatePrecision c) (closed c)
    (exchangeRate c) (retryDelay c) (queuedFrames c) (remoteClosed c)
    (remoteMaxStreamId c) (remoteKnowsOurAccount c) (remoteMaxOffset c)
    (_totalReceived c) (_totalSent c) (_totalDelivered c)
    (_lastPacketExchangeRate c) (clock c) (timers c) v (nextListenerOwner c)
    (trace c).

Definition set_nextListenerOwner (v : Z) (c : Connection) : Connection :=
  mkConnection
    (connectionTag c) (_sourceAccount c) (_sourceAssetCode c)
    (_sourceAssetScale c) (_destinationAccount c) (_destinationAssetCode c)
    (_destinationAssetScale c) (isServer c) (slippage c) (enablePadding c)
    (maxBufferedData c) (idleTimeout c) (lastActive c) (idleTimer c)
    (nextPacketSequence c) (streams c) (closedStreams c) (nextStreamId c)
    (maxStreamId c) (sending c) (testMaximumPacketAmount c)
    (maximumPacketAmount c) (minExchangeRatePrecision c) (closed c)
    (exchangeRate c) (retryDelay c) (queuedFrames c) (remoteClosed c)
    (remoteMaxStreamId c) (remoteKnowsOurAccount c) (remoteMaxOffset c)
    (_totalReceived c) (_totalSent c) (_totalDelivered c)
    (_lastPacketExchangeRate c) (clock c) (timers c) (listeners c) v (trace c).

Definition set_trace (v : list Effect) (c : Connection) : Connection :=
  mkConnection
    (connectionTag c) (_sourceAccount c) (_sourceAssetCode c)
    (_sourceAssetScale c) (_destinationAccount c) (_destinationAssetCode c)
    (_destinationAssetScale c) (isServer c) (slippage c) (enablePadding c)
    (maxBufferedData c) (idleTimeout c) (lastActive c) (idleTimer c)
    (nextPacketSequence c) (streams c) (closedStreams c) (nextStreamId c)
    (maxStreamId c) (sending c) (testMaximumPacketAmount c)
    (maximumPacketAmount c) (minExchangeRatePrecision c) (closed c)
    (exchangeRate c) (retryDelay c) (queuedFrames c) (remoteClosed c)
    (remoteMaxStreamId c) (remoteKnowsOurAccount c) (remoteMaxOffset c)
    (_totalReceived c) (_totalSent c) (_totalDelivered c)
    (_lastPacketExchangeRate c) (clock c) (timers c) (listeners c)
    (nextListenerOwner c) v.

(** ** Constants *)

Definition RETRY_DELAY_START : Z := 100.
Definition RETRY_DELAY_MAX : Z := 43200000.
Definition RETRY_DELAY_INCREASE_FACTOR : Q := Qmake 3 2.
Definition DEFAULT_PACKET_TIMEOUT : Z := 30000.
Definition DEFAULT_IDLE_TIMEOUT : Z := 60000.
Definition MAX_DATA_SIZE : Z := 32767.
Definition DEFAULT_MAX_REMOTE_STREAMS : Z := 10.
Definition DEFAULT_MINIMUM_EXCHANGE_RATE_PRECISION : Z := 3.

(** ** The monad of a method: connection state and JavaScript exceptions.
    A [Throw] keeps the state reached so far, as a [throw] does. *)

Definition M (A : Type) : Type := Connection -> Result A * Connection.

Definition ret {A} (a : A) : M A := fun c => (Ok a, c).

Definition bind {A C} (m : M A) (k : A -> M C) : M C :=
  fun c =>
    match m c with
    | (Ok a, c') => k a c'
    | (Throw e, c') => (Throw e, c')
    end.

Definition throw {A} (e : Error) : M A := fun c => (Throw e, c).

(** [try { m } catch (err) { h err }] *)
Definition try_catch {A} (m : M A) (h : Error -> M A) : M A :=
  fun c =>
    match m c with
    | (Ok a, c') => (Ok a, c')
    | (Throw e, c') => h e c'
    end.

Definition get : M Connection := fun c => (Ok c, c).
Definition gets {A} (f : Connection -> A) : M A := fun c => (Ok (f c), c).
Definition modify (f : Connection -> Connection) : M unit := fun c => (Ok tt, f c).

Notation "x <- m ;; k" := (bind m (fun x => k))
  (at level 100, m at next level, right associativity).
Notation "m ;;; k" := (bind m (fun _ => k))
  (at level 100, right associativity).

Fixpoint forM_ {A} (l : list A) (f : A -> M unit) : M unit :=
  match l with
  | [] => ret tt
  | x :: rest => f x ;;; forM_ rest f
  end.

Definition when (b : bool) (m : M unit) : M unit := if b then m else ret tt.

Definition log_effect (e : Effect) : M unit :=
  modify (fun c => set_trace (trace c ++ [e]) c).

Definition spawn (t : Task) : M unit := log_effect (Spawned t).

(** JavaScript's [x || d] on an optional number: [undefined] and [0] are
    falsy. *)
Definition js_or (x : option Z) (d : Z) : Z :=
  match x with
  | Some v => if v =? 0 then d else v
  | None => d
  end.

(** ** [FullConnectionOpts] *)
Record FullConnectionOpts := mkOpts {
  opt_destinationAccount : option string;
  opt_sourceAccount : string;
  opt_assetCode : string;
  opt_assetScale : Z;
  opt_isServer : bool;
  opt_slippage : option Q;
  opt_enablePadding : option bool;
  opt_connectionTag : option string;
  opt_maxRemoteStreams : option Z;
  opt_connectionBufferSize : option Z;
  opt_minExchangeRatePrecision : option Z;
  opt_idleTimeout : option Z
}.

(** [constructor (opts)], run when [Date.now()] is [now]. *)
Definition constructor (opts : FullConnectionOpts) (now : Z) : Connection :=
  let maxBuffered := js_or (opt_connectionBufferSize opts) (MAX_DATA_SIZE * 2) in
  {| connectionTag := opt_connectionTag opts;
     _sourceAccount := opt_sourceAccount opts;
     _sourceAssetCode := opt_assetCode opts;
     _sourceAssetScale := opt_assetScale opts;
     _destinationAccount := opt_destinationAccount opts;
     _destinationAssetCode := None;
     _destinationAssetScale := None;
     isServer := opt_isServer opts;
     slippage := match opt_slippage opts with Some q => q | None => inject_Z 0 end;
     enablePadding := match opt_enablePadding opts with Some b => b | None => false end;
     maxStreamId := 2 * js_or (opt_maxRemoteStreams opts) DEFAULT_MAX_REMOTE_STREAMS;
     maxBufferedData := maxBuffered;
     minExchangeRatePrecision :=
       js_or (opt_minExchangeRatePrecision opts) DEFAULT_MINIMUM_EXCHANGE_RATE_PRECISION;
     idleTimeout := js_or (opt_idleTimeout opts) DEFAULT_IDLE_TIMEOUT;
     lastActive := now;
     idleTimer := None;
     nextPacketSequence := 1;
     streams := [];
     closedStreams := ∅;
     nextStreamId := if opt_isServer opts then 2 else 1;
     sending := false;
     closed := true;
     queuedFrames := [];
     maximumPacketAmount := BN.Infinity;
     testMaximumPacketAmount := BN.Infinity;
     retryDelay := RETRY_DELAY_START;
     remoteClosed := false;
     remoteKnowsOurAccount := opt_isServer opts;
     remoteMaxStreamId := DEFAULT_MAX_REMOTE_STREAMS * 2;
     remoteMaxOffset := maxBuffered;
     _totalReceived := BN.Fin 0;
     _totalSent := BN.Fin 0;
     _totalDelivered := BN.Fin 0;
     _lastPacketExchangeRate := BQ.Fin (inject_Z 0);
     exchangeRate := None;
     clock := now;
     timers := [];
     listeners := [];
     nextListenerOwner := 0;
     trace := [] |}.

(** ** Events *)

Definition Error_message (e : Error) : string :=
  match e with
  | JsError m | ConnectionError m _ => m
  | _ => EmptyString
  end.

(** [clearTimeout(self.idleTimer)]: the pending timer behind the handle, if
    it has not fired yet, is dropped. *)
Fixpoint remove_first (d : Z) (l : list Z) : list Z :=
  match l with
  | [] => []
  | x :: rest => if Z.eqb x d then rest else x :: remove_first d rest
  end.

Definition clearTimeout_idleTimer (c : Connection) : Connection :=
  match idleTimer c with
  | Some d => set_timers (remove_first d (timers c)) c
  | None => c
  end.

Definition is_connect_handler (h : Handler) : bool :=
  match h with
  | connectHandler | closeHandler | errorHandler => true
  | _ => false
  end.

(** [cleanup ()] inside [connect()], for the call [o] *)
Definition cleanup (o : Z) : M unit :=
  modify (fun c =>
    let c := clearTimeout_idleTimer c in
    set_listeners
      (List.filter (fun l => negb (Z.eqb (owner (snd l)) o
                               && is_connect_handler (handler (snd l))))
              (listeners c)) c).

(** The body of one of the connection's own listeners. *)
Definition run_listener (e : Event) (l : Listener) : M unit :=
  match handler l with
  | connectHandler =>
      cleanup (owner l) ;;; spawn (TaskConnectResolved (owner l))
  | closeHandler =>
      cleanup (owner l) ;;;
      spawn (TaskConnectRejected (owner l)
               (JsError "Connection was closed before it was connected"))
  | errorHandler =>
      cleanup (owner l) ;;;
      spawn (TaskConnectRejected (owner l)
               (JsError ("Error connecting" +:+
                         match e with
                         | EvError err => ": " +:+ Error_message err
                         | _ => EmptyString
                         end)))
  | endResolve => spawn (TaskEndContinue (owner l))
  | endReject => spawn (TaskEndRejected (owner l))
  end.

(** The listeners that [connection.ts] registered for an event with [once]
    are taken off and run. *)
Definition fire_listeners (e : Event) : M unit :=
  c <- get ;;
  let name := Event_name e in
  let firing := List.filter (fun l => String.eqb (fst l) name) (listeners c) in
  modify (set_listeners
            (List.filter (fun l => negb (String.eqb (fst l) name)) (listeners c))) ;;;
  forM_ firing (fun l => run_listener e (snd l)).

(** [safeEmit (event, ...args)]: the event is recorded and the connection's
    own listeners run.  Listeners of the application are outside the model;
    what they throw is swallowed here. *)
Definition safeEmit (e : Event) : M unit :=
  log_effect (Emitted e) ;;;
  fire_listeners e.

(** [this.once(event, handler)] *)
Definition once (event : string) (l : Listener) : M unit :=
  modify (fun c => set_listeners (listeners c ++ [(event, l)]) c).

(** ** Methods of [Connection], in the order of [connection.ts] *)

Definition push_queuedFrames (fs : list Frame) : M unit :=
  modify (fun c => set_queuedFrames (queuedFrames c ++ fs) c).

(** [this.streams.get(id)] followed by writes to the object it returns *)
Definition update_stream (id : Z) (f : Stream B -> Stream B) : M unit :=
  modify (fun c => set_streams (map_update id f (streams c)) c).

(** A loop over [this.streams] that changes the stream objects and hands
    something on *)
Definition on_streams {A} (f : list (Z * Stream B) -> list (Z * Stream B) * A) : M A :=
  fun c => let '(ss, a) := f (streams c) in (Ok a, set_streams ss c).

(** [createStream ()].  The two listeners it puts on the stream are what lets
    the stream wake the send loop and, on its ['close'], run
    [removeStreamRecord]. *)
Definition createStream : M (Stream B) :=
  c <- get ;;
  if remoteMaxStreamId c <? nextStreamId c then
    push_queuedFrames [ConnectionStreamIdBlockedFrame (nextStreamId c)] ;;;
    throw (JsError "Creating another stream would exceed the remote connection's maximum number of open streams")
  else
    let stream := newDataAndMoneyStream (nextStreamId c) (isServer c) in
    modify (fun c => set_streams (map_set (nextStreamId c) stream (streams c)) c) ;;;
    modify (fun c => set_nextStreamId (nextStreamId c + 2) c) ;;;
    ret stream.

(** [getOutgoingOffsets ()] *)
Definition getOutgoingOffsets (c : Connection) : OutgoingOffsets :=
  fold_left
    (fun acc kv =>
       let o := buf_getOutgoingOffsets (buffer (snd kv)) in
       mkOutgoingOffsets (out_current acc + out_current o) (out_max acc + out_max o))
    (streams c) (mkOutgoingOffsets 0 0).

(** [getIncomingOffsets ()] *)
Definition getIncomingOffsets (c : Connection) : IncomingOffsets :=
  let '(totalMaxOffset, totalReadOffset, totalBufferedData) :=
    fold_left
      (fun '(m, r, b) kv =>
         let o := buf_getIncomingOffsets (buffer (snd kv)) in
         (m + in_max o, r + in_current o, b + buf_readableLength (buffer (snd kv))))
      (streams c) (0, 0, 0) in
  mkIncomingOffsets totalMaxOffset totalReadOffset
    (totalReadOffset - totalBufferedData + maxBufferedData c).

(** A JavaScript string used as a condition: [undefined] and [''] are
    falsy. *)
Definition truthy_string (s : option string) : option string :=
  match s with
  | Some m => if String.eqb m EmptyString then None else Some m
  | None => None
  end.

(** [removeStreamRecord (stream)], run by the stream's ['close'] event *)
Definition removeStreamRecord (stream : Stream B) : M unit :=
  modify (fun c => set_streams (map_delete (stream_id stream) (streams c)) c) ;;;
  modify (fun c => set_closedStreams ({[stream_id stream]} ∪ closedStreams c) c) ;;;
  when (negb (_sentEnd stream))
    (let streamEndFrame :=
       match truthy_string (_errorMessage stream) with
       | Some m => StreamCloseFrame (stream_id stream) ApplicationError m
       | None => StreamCloseFrame (stream_id stream) NoError EmptyString
       end in
     push_queuedFrames [streamEndFrame]).

(** [handleConnect ()] *)
Definition handleConnect : M unit :=
  modify (set_closed false) ;;;
  safeEmit EvConnect ;;;
  c <- get ;;
  push_queuedFrames
    [ConnectionMaxStreamIdFrame (maxStreamId c);
     ConnectionAssetDetailsFrame (_sourceAssetCode c) (_sourceAssetScale c)].

(** [this.closedStreams[streamId]] *)
Definition isClosedStream (streamId : Z) (c : Connection) : bool :=
  bool_decide (streamId ∈ closedStreams c).

(** [handleNewStream (streamId)] *)
Definition handleNewStream (streamId : Z) : M unit :=
  c <- get ;;
  if map_has streamId (streams c) || isClosedStream streamId c then ret tt
  else if isServer c && (Z.rem streamId 2 =? 0) then
    let msg := "Invalid Stream ID: " +:+ pretty streamId +:+
               ". Client-initiated streams must have odd-numbered IDs" in
    push_queuedFrames [ConnectionCloseFrame ProtocolViolation msg] ;;;
    safeEmit (EvError (JsError msg)) ;;;
    throw (JsError msg)
  else if negb (isServer c) && (Z.rem streamId 2 =? 1) then
    let msg := "Invalid Stream ID: " +:+ pretty streamId +:+
               ". Server-initiated streams must have even-numbered IDs" in
    push_queuedFrames [ConnectionCloseFrame ProtocolViolation msg] ;;;
    safeEmit (EvError (JsError msg)) ;;;
    throw (JsError msg)
  else if maxStreamId c <? streamId then
    let msg := "Maximum number of open streams exceeded. Got stream: " +:+
               pretty streamId +:+ ", current max stream ID: " +:+
               pretty (maxStreamId c) in
    push_queuedFrames [ConnectionCloseFrame StreamIdError msg] ;;;
    safeEmit (EvError (JsError msg)) ;;;
    throw (JsError msg)
  else
    (* this.maxStreamId * .75 < streamId *)
    when (3 * maxStreamId c <? 4 * streamId)
      (push_queuedFrames [ConnectionMaxStreamIdFrame (maxStreamId c)]) ;;;
    let stream := newDataAndMoneyStream streamId (isServer c) in
    modify (fun c => set_streams (map_set streamId stream (streams c)) c) ;;;
    safeEmit (EvStream streamId).

(** ** Async methods called without [await]: what runs at once

    [this.end()], [this.destroy(err)] and [this.startSendLoop()] are called
    without [await] from synchronous code.  The body of an async method runs
    at once up to its first [await]; the caller goes on from there. *)

(** Lines 1239-1254 of [sendConnectionClose]: the packet with the
    ConnectionClose frame.  It takes the next sequence without using it up. *)
Definition connectionClosePacket (err : option Error) (c : Connection) : Packet :=
  let '(errorCode, errorMessage) :=
    match err with
    | Some (ConnectionError m code) => (code, m)
    | Some e => (InternalError, Error_message e)
    | None => (NoError, EmptyString)
    end in
  mkPacket (nextPacketSequence c) Prepare (BN.Fin 0)
    [ConnectionCloseFrame errorCode errorMessage].

(** [sendConnectionClose (err)] up to its [await]: the packet is handed to
    the plugin.  With no destination account [serializeIlpPrepare] throws
    inside the [try], and nothing reaches the plugin. *)
Definition sendConnectionClose_begin (err : option Error) : M unit :=
  c <- get ;;
  if remoteClosed c then ret tt
  else
    match _destinationAccount c with
    | Some _ => log_effect (SendData (BN.Fin 0) (connectionClosePacket err c))
    | None => ret tt
    end.

(** [destroy (err)] up to its [await]: ['error'] is emitted, every stream is
    destroyed and the ConnectionClose is on its way.  The rest waits for the
    plugin. *)
Definition destroy_begin (err : option Error) : M unit :=
  match err with
  | Some e => safeEmit (EvError e)
  | None => ret tt
  end ;;;
  modify (fun c => set_streams (map (fun kv => (fst kv, stream_destroy (snd kv))) (streams c)) c) ;;;
  sendConnectionClose_begin err ;;;
  spawn TaskDestroyFinish.

(** [startSendLoop ()] up to its first [await]: the three early returns, or
    [sending] is set and the loop is entered.  A turn of the loop that sends
    money or data waits for the next tick first (line 876).  A turn that
    probes the rate hands its test packets to the plugin before it waits;
    here they are handed over when the task runs. *)
Definition startSendLoop_begin : M unit :=
  c <- get ;;
  if sending c then ret tt
  else if remoteClosed c then safeEmit EvSendLoopFinished
  else
    match truthy_string (_destinationAccount c) with
    | None => modify (set_sending false)
    | Some _ => modify (set_sending true) ;;; spawn TaskSendLoop
    end.

(** [end ()] up to its first [await]: the open streams are ended, the two
    listeners registered and the send loop started. *)
Definition end_begin : M unit :=
  modify (fun c =>
    set_streams
      (map (fun kv => (fst kv, if isOpen (snd kv) then stream_end (snd kv) else snd kv))
           (streams c)) c) ;;;
  c <- get ;;
  let o := nextListenerOwner c in
  modify (set_nextListenerOwner (o + 1)) ;;;
  once "_send_loop_finished" (mkListener o endResolve) ;;;
  once "error" (mkListener o endReject) ;;;
  startSendLoop_begin.

(** [x.toNumber()] of an integer: the nearest double, a tie going to the even
    significand.  Exact up to 2^53; for integers below 2^1024 (from where the
    double is [Infinity]). *)
Definition toNumber (z : Z) : Z :=
  let a := Z.abs z in
  if a <=? 2 ^ 53 then z
  else
    let shift := Z.log2 a - 52 in
    let q := Z.shiftr a shift in
    let r := a - Z.shiftl q shift in
    let half := Z.shiftl 1 (shift - 1) in
    let q' := if (half <? r) || ((r =? half) && Z.odd q) then q + 1 else q in
    Z.sgn z * Z.shiftl q' shift.

(** [handleStreamClose (frame)] *)
Definition handleStreamClose (streamId : Z) (errorCode : ErrorCode)
    (errorMessage : string) : M unit :=
  c <- get ;;
  match map_get streamId (streams c) with
  | None => ret tt
  | Some stream =>
      if negb (isOpen stream) || _remoteSentEnd stream then ret tt
      else
        update_stream streamId (fun s => _remoteEnded (set__sentEnd true s)) ;;;
        modify (fun c => set_maxStreamId (maxStreamId c + 2) c) ;;;
        c <- get ;;
        push_queuedFrames [ConnectionMaxStreamIdFrame (maxStreamId c)] ;;;
        startSendLoop_begin
  end.

(** Lines 658-663: what a [StreamMaxMoney] frame writes into the stream *)
Definition raiseRemoteLimits (receiveMax totalReceived : BN.t) (stream : Stream B)
    : Stream B :=
  let stream :=
    set__remoteReceived (BN.maximum [_remoteReceived stream; totalReceived]) stream in
  if BN.isFinite (_remoteReceiveMax stream) then
    set__remoteReceiveMax (BN.maximum [_remoteReceiveMax stream; receiveMax]) stream
  else set__remoteReceiveMax receiveMax stream.

(** One turn of the [switch] in [handleControlFrames]. *)
Definition handleControlFrame (frame : Frame) : M unit :=
  match frame with
  | ConnectionNewAddressFrame sourceAccount =>
      c <- get ;;
      let firstConnection :=
        match _destinationAccount c with None => true | Some _ => false end in
      modify (set__destinationAccount (Some sourceAccount)) ;;;
      when firstConnection handleConnect
  | ConnectionAssetDetailsFrame code scale =>
      modify (set__destinationAssetCode (Some code)) ;;;
      modify (set__destinationAssetScale (Some scale))
  | ConnectionCloseFrame errorCode errorMessage =>
      modify (set_sending false) ;;;
      modify (set_closed true) ;;;
      modify (set_remoteClosed true) ;;;
      if decide (errorCode = NoError) then end_begin
      else
        destroy_begin (Some (JsError
          ("Remote connection error. Code: " +:+ ErrorCode_name errorCode +:+
           ", message: " +:+ errorMessage)))
  | ConnectionMaxDataFrame maxOffset =>
      if MAX_DATA_SIZE * 2 <? maxOffset then
        modify (fun c =>
          set_remoteMaxOffset (Z.max (toNumber maxOffset) (remoteMaxOffset c)) c)
      else
        (* We assumed their size was 64kb but it turned out to be less *)
        modify (set_remoteMaxOffset (toNumber maxOffset))
  | ConnectionDataBlockedFrame _ => ret tt
  | ConnectionMaxStreamIdFrame maxStreamId =>
      modify (set_remoteMaxStreamId maxStreamId)
  | ConnectionStreamIdBlockedFrame _ => ret tt
  | StreamCloseFrame streamId errorCode errorMessage =>
      handleStreamClose streamId errorCode errorMessage
  | StreamMaxMoneyFrame streamId receiveMax totalReceived =>
      c <- get ;;
      match map_get streamId (streams c) with
      | None => ret tt
      | Some stream =>
          update_stream streamId (raiseRemoteLimits receiveMax totalReceived) ;;;
          let stream := raiseRemoteLimits receiveMax totalReceived stream in
          when (BN.isGreaterThan (_remoteReceiveMax stream) (_remoteReceived stream)
                && BN.isGreaterThan (_getAmountAvailableToSend stream) (BN.Fin 0))
            startSendLoop_begin
      end
  | StreamMoneyBlockedFrame _ _ _ => ret tt
  | StreamDataFrame streamId offset data =>
      c <- get ;;
      match map_get streamId (streams c) with
      | None => ret tt
      | Some stream =>
          match buf_pushIncomingData (buffer stream) data offset with
          | None => throw (JsError "_pushIncomingData")
          | Some b =>
              update_stream streamId (set_buffer b) ;;;
              let incomingOffsets := buf_getIncomingOffsets b in
              when (in_maxAcceptable incomingOffsets <? in_max incomingOffsets)
                (destroy_begin (Some (ConnectionError
                   ("Exceeded flow control limits. Stream " +:+
                    pretty (stream_id stream) +:+ " can accept up to offset: " +:+
                    pretty (in_maxAcceptable incomingOffsets) +:+
                    " but got bytes up to offset: " +:+
                    pretty (in_max incomingOffsets))
                   InternalError)))
          end
      end
  | StreamMaxDataFrame streamId maxOffset =>
      c <- get ;;
      match map_get streamId (streams c) with
      | None => ret tt
      | Some stream =>
          let oldOffset := _remoteMaxOffset stream in
          update_stream streamId (set__remoteMaxOffset maxOffset) ;;;
          when (oldOffset <? maxOffset) startSendLoop_begin
      end
  | StreamDataBlockedFrame _ _ => ret tt
  | StreamMoneyFrame _ _ => ret tt
  end.

(** [handleControlFrames (frames)] *)
Definition handleControlFrames (frames : list Frame) : M unit :=
  forM_ frames handleControlFrame.

(** [bumpIdle ()] *)
Definition bumpIdle : M unit :=
  modify (fun c => set_lastActive (clock c) c).

(** ** [handlePrepare]

    An incoming ILP Prepare, after [IlpPacket] has parsed it: [amount] is a
    64-bit unsigned integer in decimal. *)
Record IlpPrepare := mkIlpPrepare {
  amount : BN.t;
  data : bytes;
  executionCondition : bytes
}.

(** What [handlePrepare] returns: the fulfillment and the response packet,
    here before [serializeAndEncrypt]. *)
Record IlpFulfill := mkIlpFulfill {
  fulfillment : bytes;
  fulfill_data : Packet
}.

Definition frame_streamId (f : Frame) : option Z :=
  match f with
  | StreamCloseFrame i _ _ | StreamMoneyFrame i _ | StreamMaxMoneyFrame i _ _
  | StreamMoneyBlockedFrame i _ _ | StreamDataFrame i _ _
  | StreamMaxDataFrame i _ | StreamDataBlockedFrame i _ => Some i
  | _ => None
  end.

Definition isStreamClose_for (streamId : Z) (f : Frame) : bool :=
  match f with
  | StreamCloseFrame i _ _ => Z.eqb i streamId
  | _ => false
  end.

(** The closure [throwFinalApplicationError] of [handlePrepare]; the response
    frames gathered so far are its free variable. *)
Definition throwFinalApplicationError {A} (requestPacket : Packet)
    (prepare : IlpPrepare) (responseFrames : list Frame) : M A :=
  c <- get ;;
  let responseFrames := responseFrames ++ queuedFrames c in
  modify (set_queuedFrames []) ;;;
  throw (FinalApplicationError
           (mkPacket (sequence requestPacket) Reject (amount prepare) responseFrames)).

(** Lines 436-471: the loop "Handle new streams", one frame. *)
Definition handlePrepare_newStream (requestPacket : Packet) (prepare : IlpPrepare)
    (responseFrames : list Frame) (frame : Frame) : M unit :=
  match frame with
  | StreamMoneyFrame streamId _ | StreamDataFrame streamId _ _
  | StreamMaxMoneyFrame streamId _ _ | StreamMaxDataFrame streamId _ =>
      c <- get ;;
      let sendsMoneyOrData :=
        match frame with
        | StreamMoneyFrame _ _ | StreamDataFrame _ _ _ => true
        | _ => false
        end in
      if isClosedStream streamId c then
        if negb sendsMoneyOrData then ret tt
        else
          let framesToSend := responseFrames ++ queuedFrames c in
          let includesStreamClose := existsb (isStreamClose_for streamId) framesToSend in
          let responseFrames :=
            if includesStreamClose then responseFrames
            else responseFrames ++
                 [StreamCloseFrame streamId StreamStateError "Stream is already closed"] in
          throwFinalApplicationError requestPacket prepare responseFrames
      else
        try_catch (handleNewStream streamId)
          (fun _ => throwFinalApplicationError requestPacket prepare responseFrames)
  | _ => ret tt
  end.

(** Lines 504-509: [totalMoneyShares] *)
Definition totalMoneyShares (frames : list Frame) : BN.t :=
  fold_left
    (fun sum frame =>
       match frame with
       | StreamMoneyFrame _ shares => BN.plus sum shares
       | _ => sum
       end)
    frames (BN.Fin 0).

(** Lines 515-519: the amount one [StreamMoney] frame receives *)
Definition streamAmount (prepareAmt shares total : BN.t) : BN.t :=
  BN.dividedBy_integerValue BN.floor_scaled (BN.times prepareAmt shares) total.

(** Lines 510-547: the loop "Determine amount to receive on each frame".
    [amountsToReceive] pairs the id of the stream object with the amount. *)
Fixpoint handlePrepare_amounts (requestPacket : Packet) (prepare : IlpPrepare)
    (total : BN.t) (frames : list Frame)
    (responseFrames : list Frame) (amountsToReceive : list (Z * BN.t))
    : M (list (Z * BN.t)) :=
  match frames with
  | [] => ret amountsToReceive
  | StreamMoneyFrame streamId shares :: rest =>
      let amt := streamAmount (amount prepare) shares total in
      c <- get ;;
      match map_get streamId (streams c) with
      | None => throw TypeError
      | Some stream =>
          let amountsToReceive := amountsToReceive ++ [(streamId, amt)] in
          let maxStreamCanReceive :=
            BN.times_1_01_ceil (_getAmountStreamCanReceive stream) in
          if BN.isLessThan maxStreamCanReceive amt then
            throwFinalApplicationError requestPacket prepare
              (responseFrames ++
               [StreamMaxMoneyFrame streamId (receiveMax stream) (totalReceived stream)])
          else if negb (isOpen stream) then
            throwFinalApplicationError requestPacket prepare
              (responseFrames ++
               [StreamCloseFrame streamId StreamStateError "Stream is already closed"])
          else
            handlePrepare_amounts requestPacket prepare total rest
              responseFrames amountsToReceive
      end
  | _ :: rest =>
      handlePrepare_amounts requestPacket prepare total rest
        responseFrames amountsToReceive
  end.

(** Lines 549-552: "Add incoming amounts to each stream" *)
Definition handlePrepare_credit (amountsToReceive : list (Z * BN.t)) : M unit :=
  forM_ amountsToReceive
    (fun '(streamId, amt) => update_stream streamId (_addToIncoming amt)).

(** Lines 556-574: what is told to the peer about one stream, and the stream
    afterwards. *)
Definition handlePrepare_streamFrames (stream : Stream B) : list Frame * Stream B :=
  let streamIsClosed :=
    negb (isOpen stream)
    && BN.isEqualTo (_getAmountAvailableToSend stream) (BN.Fin 0) in
  if streamIsClosed && negb (_remoteClosed stream) then
    ([match truthy_string (_errorMessage stream) with
      | Some m => StreamCloseFrame (stream_id stream) ApplicationError m
      | None => StreamCloseFrame (stream_id stream) NoError EmptyString
      end],
     set__remoteClosed true stream)
  else
    ([StreamMaxMoneyFrame (stream_id stream) (receiveMax stream) (totalReceived stream);
      StreamMaxDataFrame (stream_id stream)
        (in_maxAcceptable (buf_getIncomingOffsets (buffer stream)))],
     stream).

Definition handlePrepare_tellPeer : M (list Frame) :=
  c <- get ;;
  if negb (closed c) && negb (remoteClosed c) then
    on_streams (fun ss =>
      let told := map (fun kv => (fst kv, handlePrepare_streamFrames (snd kv))) ss in
      (map (fun t => (fst t, snd (snd t))) told,
       concat (map (fun t => fst (snd t)) told)))
  else ret [].

(** [handlePrepare (prepare)] up to line 547: the prepare is parsed and
    checked, and the amounts are determined.  It hands on the request packet,
    the fulfillment, the response frames and [amountsToReceive]. *)
Definition handlePrepare_check (prepare : IlpPrepare)
    : M (Packet * bytes * list Frame * list (Z * BN.t)) :=
  match decryptAndDeserialize (data prepare) with
  | None => throw UnexpectedPaymentError
  | Some requestPacket =>
      if negb (bool_decide (ilpPacketType requestPacket = Prepare))
      then throw UnexpectedPaymentError
      else
        bumpIdle ;;;
        c <- get ;;
        let responseFrames :=
          [ConnectionMaxDataFrame (in_maxAcceptable (getIncomingOffsets c))] in
        forM_ (frames requestPacket)
          (handlePrepare_newStream requestPacket prepare responseFrames) ;;;
        try_catch (handleControlFrames (frames requestPacket))
          (fun _ => throwFinalApplicationError requestPacket prepare responseFrames) ;;;
        c <- get ;;
        let incomingOffsets := getIncomingOffsets c in
        when (in_maxAcceptable incomingOffsets <? in_max incomingOffsets)
          (destroy_begin (Some (ConnectionError
             ("Exceeded flow control limits. Max connection byte offset: " +:+
              pretty (in_maxAcceptable incomingOffsets) +:+ ", received: " +:+
              pretty (in_max incomingOffsets))
             FlowControlError)) ;;;
           throwFinalApplicationError requestPacket prepare responseFrames) ;;;
        when (BN.isGreaterThan (prepareAmount requestPacket) (amount prepare))
          (throwFinalApplicationError requestPacket prepare responseFrames) ;;;
        let fulfillment := generateFulfillment (data prepare) in
        let generatedCondition := hash fulfillment in
        when (negb (bool_decide (generatedCondition = executionCondition prepare)))
          (throwFinalApplicationError requestPacket prepare responseFrames) ;;;
        amountsToReceive <-
          handlePrepare_amounts requestPacket prepare
            (totalMoneyShares (frames requestPacket)) (frames requestPacket)
            responseFrames [] ;;
        ret (requestPacket, fulfillment, responseFrames, amountsToReceive)
  end.

(** [handlePrepare (prepare)] from line 549 on: the streams are credited and
    the prepare is fulfilled. *)
Definition handlePrepare_fulfill (prepare : IlpPrepare)
    (checked : Packet * bytes * list Frame * list (Z * BN.t)) : M IlpFulfill :=
  let '(requestPacket, fulfillment, responseFrames, amountsToReceive) := checked in
  handlePrepare_credit amountsToReceive ;;;
  told <- handlePrepare_tellPeer ;;
  c <- get ;;
  let responseFrames := (responseFrames ++ told) ++ queuedFrames c in
  modify (set_queuedFrames []) ;;;
  let responsePacket :=
    mkPacket (sequence requestPacket) Fulfill (amount prepare) responseFrames in
  modify (fun c => set__totalReceived (BN.plus (_totalReceived c) (amount prepare)) c) ;;;
  ret (mkIlpFulfill fulfillment responsePacket).

(** [handlePrepare (prepare)] *)
Definition handlePrepare (prepare : IlpPrepare) : M IlpFulfill :=
  checked <- handlePrepare_check prepare ;;
  handlePrepare_fulfill prepare checked.

(** ** The plugin

    [plugin.sendData] is given the prepare (here with the packet still in the
    clear next to its encryption) and answers with an ILP fulfill or reject,
    with bytes that are neither, or not at all. *)
Record OutPrepare := mkOutPrepare {
  out_destination : option string;
  out_amount : BN.t;
  out_packet : Packet;
  out_data : bytes;
  (** [None] for the random condition of an unfulfillable packet *)
  out_executionCondition : option bytes
}.

Inductive PluginReply :=
  | PluginFulfill (fulfillment : bytes) (data : bytes)
  | PluginReject (code : string) (triggeredBy : string) (message : string) (data : bytes)
  | PluginMalformed
  | PluginFails.

Definition Plugin : Type := OutPrepare -> PluginReply.

Definition sendData (plugin : Plugin) (prepare : OutPrepare) : M PluginReply :=
  log_effect (SendData (out_amount prepare) (out_packet prepare)) ;;;
  ret (plugin prepare).

(** [Reader.from(data).readUInt64BigNum()] of oer-utils: eight bytes,
    big-endian; [None] when fewer are left (it throws). *)
Definition readUInt64BigNum (data : bytes) : option (BN.t * bytes) :=
  if (length data <? 8)%nat then None
  else Some (BN.Fin (fold_left (fun acc b => acc * 256 + Z.of_N (Byte.to_N b))
                               (firstn 8 data) 0),
             skipn 8 data).

(** The two amounts of an F08 reject: [receivedAmount], [maximumAmount] *)
Definition readF08 (data : bytes) : option (BN.t * BN.t) :=
  match readUInt64BigNum data with
  | Some (receivedAmount, rest) =>
      match readUInt64BigNum rest with
      | Some (maximumAmount, _) => Some (receivedAmount, maximumAmount)
      | None => None
      end
  | None => None
  end.

(** [code[0] === 'T'] *)
Definition isTemporary (code : string) : bool :=
  match code with
  | String a _ => Ascii.eqb a "T"%char
  | EmptyString => false
  end.

(** [undoRejectedPacket (requestPacket)] *)
Definition undoRejectedPacket (requestPacket : Packet) : M unit :=
  forM_ (frames requestPacket) (fun frame =>
    match frame with
    | StreamMoneyFrame streamId _ =>
        c <- get ;;
        match map_get streamId (streams c) with
        | None => throw TypeError
        | Some _ => update_stream streamId (_cancelHold (sequence requestPacket))
        end
    | StreamDataFrame streamId offset data =>
        c <- get ;;
        match map_get streamId (streams c) with
        | None => throw TypeError
        | Some _ =>
            update_stream streamId
              (fun s => set_buffer (buf_resendOutgoingData (buffer s) data offset) s)
        end
    | StreamCloseFrame _ _ _ => push_queuedFrames [frame]
    | _ => ret tt
    end).

(** [handleConnectorError (reject, amountSent)] *)
Definition handleConnectorError (code : string) (message : string) (data : bytes)
    (amountSent : BN.t) : M unit :=
  if String.eqb code "F08" then
    match readF08 data with
    | Some (receivedAmount, maximumAmount) =>
        if BN.isGreaterThan receivedAmount maximumAmount then
          let newMaximum :=
            BN.dividedToIntegerBy (BN.times amountSent maximumAmount) receivedAmount in
          modify (set_maximumPacketAmount newMaximum) ;;;
          modify (set_testMaximumPacketAmount newMaximum)
        else
          modify (set_maximumPacketAmount (BN.minus amountSent (BN.Fin 1))) ;;;
          modify (fun c => set_testMaximumPacketAmount
                    (BN.dividedToIntegerBy (maximumPacketAmount c) (BN.Fin 2)) c)
    | None =>
        (* Connector didn't include amounts *)
        modify (set_maximumPacketAmount (BN.minus amountSent (BN.Fin 1))) ;;;
        modify (fun c => set_testMaximumPacketAmount
                  (BN.dividedToIntegerBy (maximumPacketAmount c) (BN.Fin 2)) c)
    end ;;;
    c <- get ;;
    when (BN.isEqualTo (maximumPacketAmount c) (BN.Fin 0))
      (throw (JsError "Cannot send. Path has a Maximum Packet Amount of 0"))
  else if isTemporary code then
    when (String.eqb code "T04")
      (modify (fun c =>
         let minPacketAmount := BN.minimum [amountSent; testMaximumPacketAmount c] in
         let newTestAmount :=
           BN.minus minPacketAmount
             (BN.dividedToIntegerBy minPacketAmount (BN.Fin 3)) in
         set_testMaximumPacketAmount (BN.maximum [BN.Fin 2; newTestAmount]) c)) ;;;
    c <- get ;;
    let delay := retryDelay c in
    modify (set_retryDelay (Z.min (retryDelay c * 2) RETRY_DELAY_MAX)) ;;;
    log_effect (Slept (inject_Z delay))
  else
    throw (JsError ("Unexpected error while sending packet. Code: " +:+ code +:+
                    ", message: " +:+ message)).

(** [sendPacket (packet, sourceAmount, unfulfillable)] *)
Definition sendPacket (plugin : Plugin) (packet : Packet) (sourceAmount : BN.t)
    (unfulfillable : bool) : M (option Packet) :=
  c <- get ;;
  let data := serializeAndEncrypt packet
                (if enablePadding c then Some MAX_DATA_SIZE else None) in
  let fulfillment := if unfulfillable then None else Some (generateFulfillment data) in
  let executionCondition := option_map hash fulfillment in
  let prepare :=
    mkOutPrepare (_destinationAccount c) sourceAmount packet data executionCondition in
  responseData <- sendData plugin prepare ;;
  match responseData with
  | PluginFails => throw (JsError "sendData")
  | PluginMalformed =>
      bumpIdle ;;;
      throw (JsError ("Invalid response when sending packet " +:+
                      pretty (sequence packet)))
  | _ =>
      bumpIdle ;;;
      (* the receiver's data, and the ILP type it was carried on, when the
         response goes on to be parsed *)
      carried <-
        match responseData, fulfillment with
        | PluginFulfill f rdata, Some expected =>
            if bool_decide (Some (hash f) = executionCondition)
            then ret (Some (rdata, Fulfill))
            else throw (JsError ("Got invalid fulfillment for packet " +:+
                                 pretty (sequence packet)))
        | PluginFulfill _ _, None =>
            (* treated as a reject without a code *)
            undoRejectedPacket packet ;;;
            throw TypeError
        | PluginReject code _ message rdata, _ =>
            undoRejectedPacket packet ;;;
            if negb (String.eqb code "F99") then
              handleConnectorError code message rdata sourceAmount ;;;
              ret None
            else ret (Some (rdata, Reject))
        | _, _ => ret None
        end ;;
      match carried with
      | None => ret None
      | Some (rdata, carrier) =>
          if (length rdata =? 0)%nat then ret None
          else
            match decryptAndDeserialize rdata with
            | None => throw (JsError "Unable to decrypt and parse response data")
            | Some responsePacket =>
                if negb (sequence responsePacket =? sequence packet) then
                  throw (JsError "Response packet sequence does not correspond to the request")
                else if negb (bool_decide (ilpPacketType responsePacket = carrier)) then
                  throw (JsError "Response says it should be on an ILP packet of another type")
                else ret (Some responsePacket)
            end
      end
  end.

(** ** The exchange-rate prober *)

(** What [sendTestPacket] resolves to: [null], the receiver's packet, or the
    ILP reject of a connector. *)
Inductive TestResult :=
  | TestNull
  | TestPacket (p : Packet)
  | TestReject (code : string) (data : bytes).

(** [sendTestPacket (amount)] up to its [await]: the request packet is built
    and handed to the plugin. *)
Definition sendTestPacket_request (plugin : Plugin) (amt : BN.t)
    : M (Packet * PluginReply) :=
  c <- get ;;
  modify (set_nextPacketSequence (nextPacketSequence c + 1)) ;;;
  let requestFrames :=
    if negb (remoteKnowsOurAccount c) then
      [ConnectionNewAddressFrame (_sourceAccount c);
       ConnectionAssetDetailsFrame (_sourceAssetCode c) (_sourceAssetScale c)]
    else [] in
  let requestPacket := mkPacket (nextPacketSequence c) Prepare (BN.Fin 0) requestFrames in
  let prepare :=
    mkOutPrepare (_destinationAccount c) amt requestPacket
      (serializeAndEncrypt requestPacket None) None in
  responseData <- sendData plugin prepare ;;
  ret (requestPacket, responseData).

(** [sendTestPacket (amount)] from the answer of the plugin on.  A plugin
    that fails leaves the timer to resolve the promise with [null]. *)
Definition sendTestPacket_response (requestPacket : Packet)
    (responseData : PluginReply) : M TestResult :=
  match responseData with
  | PluginFails => ret TestNull
  | PluginFulfill _ _ | PluginMalformed =>
      bumpIdle ;;;
      (* deserializeIlpReject throws *)
      throw (JsError "deserializeIlpReject")
  | PluginReject code _ _ rdata =>
      bumpIdle ;;;
      if String.eqb code "F99" && (0 <? length rdata)%nat then
        match decryptAndDeserialize rdata with
        | None => throw (JsError "decryptAndDeserialize")
        | Some responsePacket =>
            if negb (sequence responsePacket =? sequence requestPacket) then
              throw (JsError "Response packet sequence does not correspond to the request")
            else if negb (bool_decide (ilpPacketType responsePacket = Reject)) then
              throw (JsError "Response says it should be on an ILP packet of another type")
            else
              modify (set_remoteKnowsOurAccount true) ;;;
              handleControlFrames (frames responsePacket) ;;;
              ret (TestPacket responsePacket)
        end
      else ret (TestReject code rdata)
  end.

Fixpoint mapM {A C} (f : A -> M C) (l : list A) : M (list C) :=
  match l with
  | [] => ret []
  | x :: rest => y <- f x ;; ys <- mapM f rest ;; ret (y :: ys)
  end.

(** Lines 1067-1083: the maximum packet amount one result tells of *)
Definition maxPacketAmount_of (sourceAmount : BN.t) (result : TestResult) : BN.t :=
  match result with
  | TestReject code rdata =>
      if String.eqb code "F08" then
        match readF08 rdata with
        | Some (receivedAmount, maximumAmount) =>
            BN.dividedToIntegerBy (BN.times sourceAmount maximumAmount) receivedAmount
        | None => BN.Infinity
        end
      else BN.Infinity
  | _ => BN.Infinity
  end.

(** [prepareAmount.precision(true)]: the number of significant digits,
    trailing zeros of the integer counted; [null] (which compares as 0) for a
    value that is not finite. *)
Definition precision (x : BN.t) : Z :=
  match x with
  | BN.Fin z => Z.of_nat (String.length (pretty (Z.abs z)))
  | _ => 0
  end.

Record VolleyResult := mkVolleyResult {
  maxDigits : Z;
  volleyExchangeRate : BQ.t;
  maxPacketAmounts : list BN.t;
  packetErrors : list string
}.

(** Lines 1086-1103: the [reduce] over the results, one result *)
Definition volley_reduce (acc : Z * BQ.t * list string)
    (r : BN.t * TestResult) : Z * BQ.t * list string :=
  let '(maxDigits, exchangeRate, packetErrors) := acc in
  let '(testPacketAmount, result) := r in
  let packetErrors :=
    match result with
    | TestReject code _ =>
        if String.eqb code EmptyString then packetErrors else packetErrors ++ [code]
    | _ => packetErrors
    end in
  match result with
  | TestPacket p =>
      let rate := BQ.dividedBy (BQ.ofBN (prepareAmount p)) (BQ.ofBN testPacketAmount) in
      if maxDigits <=? precision (prepareAmount p)
      then (precision (prepareAmount p), rate, packetErrors)
      else (maxDigits, exchangeRate, packetErrors)
  | _ => (maxDigits, exchangeRate, packetErrors)
  end.

(** [sendTestPacketVolley (testPacketAmounts)].  The test packets of a volley
    are all handed to the plugin before any answer is looked at
    ([Promise.all]); the answers are then taken in the order of the
    amounts. *)
Definition sendTestPacketVolley (plugin : Plugin) (testPacketAmounts : list BN.t)
    : M VolleyResult :=
  log_effect (TestVolley testPacketAmounts) ;;;
  sent <- mapM (sendTestPacket_request plugin) testPacketAmounts ;;
  results <- mapM (fun '(req, reply) => sendTestPacket_response req reply) sent ;;
  let maxPacketAmounts :=
    map (fun '(a, r) => maxPacketAmount_of a r) (combine testPacketAmounts results) in
  let '(maxDigits, exchangeRate, packetErrors) :=
    fold_left volley_reduce (combine testPacketAmounts results)
      (0, BQ.Fin (inject_Z 0), []) in
  ret (mkVolleyResult maxDigits exchangeRate maxPacketAmounts packetErrors).

(** [[...new Set([...acc, curr.toString()])]]: the values without repeats, in
    the order they first come *)
Definition unique (l : list BN.t) : list BN.t :=
  fold_left (fun acc curr => if bool_decide (curr ∈ acc) then acc else acc ++ [curr]) l [].

(** One turn of the [while] loop of [determineExchangeRate]: [None] when the
    rate is found ([return]), else the retry delay and the amounts of the
    next turn. *)
Definition determineExchangeRate_attempt (plugin : Plugin) (retryDelay : Q)
    (testPacketAmounts : list BN.t) : M (option (Q * list BN.t)) :=
  v <- sendTestPacketVolley plugin testPacketAmounts ;;
  modify (fun c => set_maximumPacketAmount
            (BN.minimum (maxPacketAmounts v ++ [maximumPacketAmount c])) c) ;;;
  modify (fun c => set_testMaximumPacketAmount (maximumPacketAmount c) c) ;;;
  c <- get ;;
  if BN.isEqualTo (maximumPacketAmount c) (BN.Fin 0) then
    throw (JsError "Cannot send. Path has a Maximum Packet Amount of 0")
  else if minExchangeRatePrecision c <=? maxDigits v then
    modify (set_exchangeRate (Some (volleyExchangeRate v))) ;;;
    ret None
  else
    let smallestPacketAmount :=
      fold_left (fun m a => BN.minimum [m; a]) testPacketAmounts BN.Infinity in
    let nextAmounts :=
      unique (List.filter (fun a => negb (BN.isEqualTo a BN.Infinity)) (maxPacketAmounts v)) in
    if existsb isTemporary (packetErrors v) then
      let reducedPacketAmount :=
        BN.minus smallestPacketAmount
          (BN.dividedToIntegerBy smallestPacketAmount (BN.Fin 3)) in
      log_effect (Slept retryDelay) ;;;
      ret (Some (Qmult retryDelay RETRY_DELAY_INCREASE_FACTOR,
                 nextAmounts ++ [reducedPacketAmount]))
    else ret (Some (retryDelay, nextAmounts)).

Definition initialTestPacketAmounts : list BN.t :=
  [BN.Fin 1; BN.Fin 1000; BN.Fin 1000000; BN.Fin 1000000000; BN.Fin 1000000000000].

Definition MAX_ATTEMPTS : nat := 20.

(** The [while] loop; [remaining] is 20 less [attempts]. *)
Fixpoint determineExchangeRate_loop (plugin : Plugin) (remaining : nat)
    (retryDelay : Q) (testPacketAmounts : list BN.t) : M unit :=
  c <- get ;;
  match exchangeRate c, testPacketAmounts, remaining with
  | None, _ :: _, S remaining' =>
      next <- determineExchangeRate_attempt plugin retryDelay testPacketAmounts ;;
      match next with
      | None => ret tt
      | Some (retryDelay', testPacketAmounts') =>
          determineExchangeRate_loop plugin remaining' retryDelay' testPacketAmounts'
      end
  | _, _, _ =>
      throw (JsError
        ("Unable to establish connection, no packets meeting the minimum exchange precision of "
         +:+ pretty (minExchangeRatePrecision c) +:+
         " digits made it through the path."))
  end.

(** [determineExchangeRate ()] *)
Definition determineExchangeRate (plugin : Plugin) : M unit :=
  c <- get ;;
  match truthy_string (_destinationAccount c) with
  | None =>
      throw (JsError "Cannot determine exchange rate. Destination account is unknown")
  | Some _ =>
      determineExchangeRate_loop plugin MAX_ATTEMPTS
        (inject_Z RETRY_DELAY_START) initialTestPacketAmounts
  end.

(** ** Closing *)

(** [sendConnectionClose (err)]; what the plugin answers is not looked at,
    and its failure is caught, as is the failure of [serializeIlpPrepare]
    when there is no destination account: then nothing reaches the plugin. *)
Definition sendConnectionClose (plugin : Plugin) (err : option Error) : M unit :=
  c <- get ;;
  if remoteClosed c then ret tt
  else
    let packet := connectionClosePacket err c in
    match _destinationAccount c with
    | Some destination =>
        let prepare :=
          mkOutPrepare (Some destination) (BN.Fin 0) packet
            (serializeAndEncrypt packet None) None in
        sendData plugin prepare ;;; ret tt
    | None => ret tt
    end ;;;
    modify (set_remoteClosed true).

(** The rest of a [destroy (err)] that was called without [await], once the
    plugin has answered: the peer is marked as closed, the streams have
    closed, ['close'] is emitted. *)
Definition destroy_finish : M unit :=
  modify (set_remoteClosed true) ;;;
  c <- get ;;
  forM_ (streams c) (fun kv => removeStreamRecord (snd kv)) ;;;
  safeEmit EvClose.

(** [destroy (err)].  Every stream is destroyed; their ['close'] events, on
    which [removeStreamRecord] listens, have all come by the time the
    connection emits its own ['close']. *)
Definition destroy (plugin : Plugin) (err : option Error) : M unit :=
  match err with
  | Some e => safeEmit (EvError e)
  | None => ret tt
  end ;;;
  modify (fun c => set_streams (map (fun kv => (fst kv, stream_destroy (snd kv))) (streams c)) c) ;;;
  sendConnectionClose plugin err ;;;
  c <- get ;;
  forM_ (streams c) (fun kv => removeStreamRecord (snd kv)) ;;;
  safeEmit EvClose.

(** [end ()] once the send loop has finished and the streams have ended *)
Definition end_finish (plugin : Plugin) : M unit :=
  modify (set_closed true) ;;;
  sendConnectionClose plugin None ;;;
  safeEmit EvEnd ;;;
  safeEmit EvClose.

(** ** [loadAndSendPacket] *)

(** Lines 890-895: the control frames of the open streams *)
Definition openStreamFrames (ss : list (Z * Stream B)) : list Frame :=
  flat_map
    (fun kv =>
       let stream := snd kv in
       if isOpen stream then
         [StreamMaxMoneyFrame (stream_id stream) (receiveMax stream) (totalReceived stream);
          StreamMaxDataFrame (stream_id stream)
            (in_maxAcceptable (buf_getIncomingOffsets (buffer stream)))]
       else [])
    ss.

Record MoneyLoad := mkMoneyLoad {
  load_streams : list (Z * Stream B);
  load_frames : list Frame;
  load_amountToSend : BN.t;
  load_streamsSentFrom : list Z
}.

(** [x.times(this.exchangeRate!)]; an [undefined] rate converts to [NaN]. *)
Definition times_rate (x : BN.t) (rate : option BQ.t) : BQ.t :=
  BQ.times (BQ.ofBN x) (match rate with Some r => r | None => BQ.NaN end).

(** Lines 905-947: "Determine how much to send", over the streams in the
    order of the map. *)
Fixpoint loadMoney (seq : Z) (rate : option BQ.t) (ss : list (Z * Stream B))
    (requestFrames : list Frame) (amountToSend maxAmountFromNextStream : BN.t)
    (streamsSentFrom : list Z) : MoneyLoad :=
  match ss with
  | [] => mkMoneyLoad [] requestFrames amountToSend streamsSentFrom
  | (k, stream) :: rest =>
      if _sentEnd stream then
        let r := loadMoney seq rate rest requestFrames amountToSend
                   maxAmountFromNextStream streamsSentFrom in
        mkMoneyLoad ((k, stream) :: load_streams r) (load_frames r)
          (load_amountToSend r) (load_streamsSentFrom r)
      else
        let available :=
          BN.minimum [_getAmountAvailableToSend stream; maxAmountFromNextStream] in
        let maxDestinationAmount :=
          BN.minus (_remoteReceiveMax stream) (_remoteReceived stream) in
        let amountToSendFromStream :=
          match rate with
          | Some r =>
              let maxSourceAmount :=
                BQ.integerValue BQ.ROUND_CEIL
                  (BQ.dividedBy (BQ.ofBN maxDestinationAmount) r) in
              if BN.isLessThan maxSourceAmount available then maxSourceAmount
              else available
          | None => available
          end in
        let sends := BN.isGreaterThan amountToSendFromStream (BN.Fin 0) in
        let stream1 :=
          if sends then _holdOutgoing seq amountToSendFromStream stream else stream in
        let frames1 :=
          if sends
          then requestFrames ++ [StreamMoneyFrame (stream_id stream) amountToSendFromStream]
          else requestFrames in
        let amountToSend1 :=
          if sends then BN.plus amountToSend amountToSendFromStream else amountToSend in
        let maxNext1 :=
          if sends then BN.minus maxAmountFromNextStream amountToSendFromStream
          else maxAmountFromNextStream in
        let sentFrom1 := if sends then streamsSentFrom ++ [k] else streamsSentFrom in
        let amountLeftStreamWantsToSend :=
          BN.minus (BN.minus (sendMax stream1) (totalSent stream1))
            amountToSendFromStream in
        let frames2 :=
          if BQ.isGreaterThan (times_rate amountLeftStreamWantsToSend rate)
               (BQ.ofBN maxDestinationAmount)
          then frames1 ++ [StreamMoneyBlockedFrame (stream_id stream1)
                             (sendMax stream1) (totalSent stream1)]
          else frames1 in
        if BN.isEqualTo maxNext1 (BN.Fin 0) then
          mkMoneyLoad ((k, stream1) :: rest) frames2 amountToSend1 sentFrom1
        else
          let r := loadMoney seq rate rest frames2 amountToSend1 maxNext1 sentFrom1 in
          mkMoneyLoad ((k, stream1) :: load_streams r) (load_frames r)
            (load_amountToSend r) (load_streamsSentFrom r)
  end.

(** Lines 960-980: the data of the streams, as far as the packet has room *)
Fixpoint loadData (ss : list (Z * Stream B)) (bytesLeftInPacket : Z)
    (requestFrames : list Frame) : list (Z * Stream B) * list Frame :=
  match ss with
  | [] => ([], requestFrames)
  | (k, stream) :: rest =>
      if bytesLeftInPacket - 20 <=? 0 then (ss, requestFrames)
      else
        let '(data, offset, b) :=
          buf_getAvailableDataToSend (buffer stream) (_remoteMaxOffset stream)
            (bytesLeftInPacket - 20) in
        let stream1 := set_buffer b stream in
        let '(bytesLeft1, frames1) :=
          match data with
          | Some d =>
              if (0 <? length d)%nat then
                let streamDataFrame := StreamDataFrame (stream_id stream) offset d in
                (bytesLeftInPacket - frame_byteLength streamDataFrame,
                 requestFrames ++ [streamDataFrame])
              else (bytesLeftInPacket, requestFrames)
          | None => (bytesLeftInPacket, requestFrames)
          end in
        let frames2 :=
          match buf_isDataBlocked b (_remoteMaxOffset stream) with
          | Some maxOutgoingOffset =>
              if maxOutgoingOffset =? 0 then frames1
              else frames1 ++ [StreamDataBlockedFrame (stream_id stream) maxOutgoingOffset]
          | None => frames1
          end in
        let '(rest1, frames3) := loadData rest bytesLeft1 frames2 in
        ((k, stream1) :: rest1, frames3)
  end.

Definition isCloseDataOrMoney (f : Frame) : bool :=
  match f with
  | StreamCloseFrame _ _ _ | StreamDataFrame _ _ _ | StreamMoneyFrame _ _ => true
  | _ => false
  end.

(** Lines 1012-1050: what [loadAndSendPacket] does with the response packet.
    The holds are executed on the stream objects the money was taken from;
    they are reached here through the map. *)
Definition loadAndSendPacket_response (seq : Z) (amountToSend : BN.t)
    (streamsSentFrom : list Z) (responsePacket : Packet) : M unit :=
  handleControlFrames (frames responsePacket) ;;;
  when (BN.isGreaterThan amountToSend (BN.Fin 0))
    (modify (set__lastPacketExchangeRate
       (BQ.dividedBy (BQ.ofBN (prepareAmount responsePacket)) (BQ.ofBN amountToSend)))) ;;;
  when (bool_decide (ilpPacketType responsePacket = Fulfill))
    (forM_ streamsSentFrom (fun k => update_stream k (_executeHold seq)) ;;;
     modify (fun c => set__totalDelivered
               (BN.plus (_totalDelivered c) (prepareAmount responsePacket)) c) ;;;
     modify (fun c => set__totalSent (BN.plus (_totalSent c) amountToSend) c) ;;;
     c <- get ;;
     when (BN.isEqualTo amountToSend (testMaximumPacketAmount c)
           && BN.isLessThan (testMaximumPacketAmount c) (maximumPacketAmount c))
       (let newTestMax :=
          if BN.isFinite (maximumPacketAmount c) then
            let additiveIncrease :=
              BN.dividedToIntegerBy (maximumPacketAmount c) (BN.Fin 10) in
            BN.minimum [BN.plus (testMaximumPacketAmount c) additiveIncrease;
                        maximumPacketAmount c]
          else BN.times (testMaximumPacketAmount c) (BN.Fin 2) in
        modify (set_testMaximumPacketAmount newTestMax)) ;;;
     modify (set_retryDelay RETRY_DELAY_START)).

(** [loadAndSendPacket ()] *)
Definition loadAndSendPacket (plugin : Plugin) : M unit :=
  c <- get ;;
  let seq := nextPacketSequence c in
  modify (set_nextPacketSequence (seq + 1)) ;;;
  modify (set_queuedFrames []) ;;;
  let frames1 := queuedFrames c ++ openStreamFrames (streams c) in
  frames2 <-
    (if closed c && negb (remoteClosed c) then
       modify (set_remoteClosed true) ;;;
       ret (frames1 ++ [ConnectionCloseFrame NoError EmptyString])
     else ret frames1) ;;
  money <-
    on_streams (fun ss =>
      let money :=
        loadMoney seq (exchangeRate c) ss frames2 (BN.Fin 0)
          (testMaximumPacketAmount c) [] in
      (load_streams money, money)) ;;
  c <- get ;;
  let bytesLeftInPacket :=
    MAX_DATA_SIZE
    - packet_byteLength (mkPacket seq Prepare (BN.Fin 0) (load_frames money)) in
  let maxBytesRemoteConnectionCanReceive :=
    remoteMaxOffset c - out_current (getOutgoingOffsets c) in
  let '(bytesLeftInPacket, frames3) :=
    if maxBytesRemoteConnectionCanReceive <? bytesLeftInPacket then
      (maxBytesRemoteConnectionCanReceive,
       load_frames money ++ [ConnectionDataBlockedFrame (out_max (getOutgoingOffsets c))])
    else (bytesLeftInPacket, load_frames money) in
  frames4 <- on_streams (fun ss => loadData ss bytesLeftInPacket frames3) ;;
  let nothingToSend := BN.isEqualTo (load_amountToSend money) (BN.Fin 0) in
  if nothingToSend && (length frames4 =? 0)%nat then modify (set_sending false)
  else
    when (nothingToSend && negb (existsb isCloseDataOrMoney frames4))
      (modify (set_sending false)) ;;;
    let minimumDestinationAmount :=
      match exchangeRate c with
      | Some rate =>
          let m :=
            BQ.integerValue BQ.ROUND_FLOOR
              (BQ.times (BQ.times (BQ.ofBN (load_amountToSend money)) rate)
                        (BQ.Fin (Qminus (inject_Z 1) (slippage c)))) in
          if BN.isGreaterThan m (BN.Fin 0) then m else BN.Fin 0
      | None => BN.Fin 0
      end in
    let requestPacket := mkPacket seq Prepare minimumDestinationAmount frames4 in
    responsePacket <- sendPacket plugin requestPacket (load_amountToSend money) false ;;
    match responsePacket with
    | Some responsePacket =>
        loadAndSendPacket_response seq (load_amountToSend money)
          (load_streamsSentFrom money) responsePacket
    | None => ret tt
    end.

(** ** The send loop *)

(** The [while (this.sending)] loop, for at most [fuel] turns; [false] when
    the turns ran out with the loop still going. *)
Fixpoint sendLoop (plugin : Plugin) (fuel : nat) : M bool :=
  c <- get ;;
  if negb (sending c) then ret true
  else
    match fuel with
    | O => ret false
    | S fuel' =>
        match exchangeRate c with
        | None =>
            determineExchangeRate plugin ;;;
            c <- get ;;
            match exchangeRate c with
            | Some _ => safeEmit EvConnect
            | None => ret tt
            end
        | Some _ => loadAndSendPacket plugin
        end ;;;
        sendLoop plugin fuel'
    end.

(** Lines 840-866 of [startSendLoop]: the loop inside its [try], and what
    follows it; [false] when [fuel] ran out *)
Definition sendLoop_run (plugin : Plugin) (fuel : nat) : M bool :=
  outcome <-
    try_catch (done <- sendLoop plugin fuel ;; ret (Some done))
      (fun err => destroy plugin (Some err) ;;; ret None) ;;
  match outcome with
  | Some true =>
      safeEmit EvSendLoopFinished ;;;
      c <- get ;;
      forM_ (streams c)
        (fun kv => log_effect (StreamEmitted (fst kv) "_send_loop_finished")) ;;;
      ret true
  | Some false => ret false
  | None => ret true
  end.

(** [startSendLoop ()] run to its end; [false] when [fuel] ran out *)
Definition startSendLoop (plugin : Plugin) (fuel : nat) : M bool :=
  c <- get ;;
  if sending c then ret true
  else if remoteClosed c then safeEmit EvSendLoopFinished ;;; ret true
  else
    match truthy_string (_destinationAccount c) with
    | None => modify (set_sending false) ;;; ret true
    | Some _ => modify (set_sending true) ;;; sendLoop_run plugin fuel
    end.

(** ** The idle timer *)

(** [startIdleTimer ()]: the timer is due [idleTimeout - idle] from now. *)
Definition startIdleTimer : M unit :=
  c <- get ;;
  if idleTimeout c =? 0 then ret tt
  else
    let idle := clock c - lastActive c in
    let due := clock c + (idleTimeout c - idle) in
    modify (set_idleTimer (Some due)) ;;;
    modify (fun c => set_timers (timers c ++ [due]) c).

(** [testIdle ()].  The [destroy] it ends with is the last thing the timer's
    callback does: it is left whole to the scheduler. *)
Definition testIdle : M unit :=
  c <- get ;;
  let idle := clock c - lastActive c in
  if idleTimeout c <=? idle then
    spawn (TaskDestroy (Some (JsError "Connection timed out due to inactivity")))
  else startIdleTimer.

(** A timer that is due fires: it leaves the pending ones and runs
    [testIdle]. *)
Definition fireTimer (due : Z) : M unit :=
  modify (fun c => set_timers (remove_first due (timers c)) c) ;;;
  testIdle.

(** ** [connect] *)

(** [connect ()] up to its [await]; [true] when it resolves at once *)
Definition connect : M bool :=
  c <- get ;;
  if negb (closed c) then ret true
  else
    startSendLoop_begin ;;;
    let o := nextListenerOwner c in
    modify (set_nextListenerOwner (o + 1)) ;;;
    once "connect" (mkListener o connectHandler) ;;;
    once "error" (mkListener o errorHandler) ;;;
    once "close" (mkListener o closeHandler) ;;;
    once "end" (mkListener o closeHandler) ;;;
    ret false.

(** [connect ()] after the promise it awaits has resolved *)
Definition connect_resolved : M unit :=
  modify (set_closed false) ;;;
  startIdleTimer.

(** ** The connection as a transition system

    What can happen to a connection: its public methods are called, the
    plugin delivers a prepare, the scheduler runs a task, a timer fires, a
    stream closes or is changed by its owner, time passes. *)
Inductive Op :=
  | OpHandlePrepare (prepare : IlpPrepare)
  | OpCreateStream
  | OpConnect
  | OpConnectResolved
  | OpStartSendLoop (plugin : Plugin) (fuel : nat)
  | OpSendLoop (plugin : Plugin) (fuel : nat)
  | OpEndBegin
  | OpEndFinish (plugin : Plugin)
  | OpDestroy (plugin : Plugin) (err : option Error)
  | OpDestroyFinish
  | OpStreamClosed (id : Z)
  | OpStreamChanged (id : Z) (f : Stream B -> Stream B)
  | OpFireTimer (due : Z)
  | OpTick (now : Z).

Definition exec {A} (m : M A) (c : Connection) : Connection := snd (m c).

Definition run_op (op : Op) (c : Connection) : Connection :=
  match op with
  | OpHandlePrepare prepare => exec (handlePrepare prepare) c
  | OpCreateStream => exec createStream c
  | OpConnect => exec connect c
  | OpConnectResolved => exec connect_resolved c
  | OpStartSendLoop plugin fuel => exec (startSendLoop plugin fuel) c
  | OpSendLoop plugin fuel => exec (sendLoop_run plugin fuel) c
  | OpEndBegin => exec end_begin c
  | OpEndFinish plugin => exec (end_finish plugin) c
  | OpDestroy plugin err => exec (destroy plugin err) c
  | OpDestroyFinish => exec destroy_finish c
  | OpStreamClosed id =>
      match map_get id (streams c) with
      | Some stream => exec (removeStreamRecord stream) c
      | None => c
      end
  | OpStreamChanged id f => exec (update_stream id f) c
  | OpFireTimer due =>
      if bool_decide (due ∈ timers c) && (due <=? clock c)
      then exec (fireTimer due) c else c
  | OpTick now => if clock c <=? now then set_clock now c else c
  end.

Definition run (ops : list Op) (c : Connection) : Connection :=
  fold_left (fun c op => run_op op c) ops c.

(** The prepares the plugin hands over carry a 64-bit unsigned amount. *)
Definition wire_op (op : Op) : Prop :=
  match op with
  | OpHandlePrepare prepare => wire_amount (amount prepare)
  | _ => True
  end.

End Core.

Arguments Connection : clear implicits.
Arguments Op : clear implicits.
Arguments M : clear implicits.

(** ** A small instance of the collaborators, to run the model on *)

Definition demo_packet_1 : Packet :=
  mkPacket 1 Prepare (BN.Fin 0) [StreamMoneyFrame 1 (BN.Fin 1)].

Definition demo_packet_2 : Packet :=
  mkPacket 2 Prepare (BN.Fin 0)
    [StreamMoneyFrame 1 (BN.Fin 1); StreamMoneyFrame 3 (BN.Fin 1)].

Definition demo_decrypt (d : bytes) : option Packet :=
  match d with
  | [b] =>
      if Byte.eqb b Byte.x01 then Some demo_packet_1
      else if Byte.eqb b Byte.x02 then Some demo_packet_2
      else None
  | _ => None
  end.

#[global] Instance demo_externals : Externals unit := {|
  decryptAndDeserialize := demo_decrypt;
  serializeAndEncrypt := fun _ _ => [];
  generateFulfillment := fun d => d;
  hash := fun d => d;
  packet_byteLength := fun p => Z.of_nat (length (frames p));
  frame_byteLength := fun _ => 1;
  buf_getIncomingOffsets := fun _ => mkIncomingOffsets 0 0 0;
  buf_readableLength := fun _ => 0;
  buf_getOutgoingOffsets := fun _ => mkOutgoingOffsets 0 0;
  buf_pushIncomingData := fun b _ _ => Some b;
  buf_getAvailableDataToSend := fun b _ _ => (None, 0, b);
  buf_isDataBlocked := fun _ _ => None;
  buf_resendOutgoingData := fun b _ _ => b;
  newDataAndMoneyStream := fun id _ =>
    mkStream id true false false false None (BN.Fin 0) (BN.Fin 0) (BN.Fin 0)
      (BN.Fin 0) BN.Infinity (BN.Fin 0) [] 0 tt;
  newDataAndMoneyStream_id := fun _ _ => eq_refl
|}.

Definition demo_opts (srv : bool) : FullConnectionOpts :=
  mkOpts (Some "g.peer") "g.me" "XRP" 9 srv None None None None None None None.

Definition demo_stream (id : Z) (open : bool) (receiveMax : BN.t) : Stream unit :=
  mkStream id open false false false None (BN.Fin 0) (BN.Fin 0) receiveMax
    (BN.Fin 0) BN.Infinity (BN.Fin 0) [] 0 tt.

Definition demo_server : Connection unit := constructor (demo_opts true) 0.

Definition demo_client : Connection unit := constructor (demo_opts false) 0.

(** a prepare whose data is the one byte [b]; its condition is the one the
    example instance derives from the data *)
Definition demo_prepare (b : Byte.byte) (a : Z) : IlpPrepare :=
  mkIlpPrepare (BN.Fin a) [b] [b].

(** a connector that rejects every packet with F08, telling that it received
    [received] where at most [maximum] is let through *)
Definition demo_F08 (received maximum : Byte.byte) : Plugin :=
  fun _ =>
    PluginReject "F08" "g.connector" "amount too large"
      (repeat Byte.x00 7 ++ [received] ++ repeat Byte.x00 7 ++ [maximum]).

(** a client that sends: the rate is known, packets of up to [testMax] are
    tried and [max] is the most the path is known to let through *)
Definition demo_sender (testMax max : BN.t) : Connection unit :=
  set_testMaximumPacketAmount testMax (set_maximumPacketAmount max demo_client).

(** a server with the streams 1 and 3 of a client *)
Definition demo_receiver (s1 s3 : Stream unit) : Connection unit :=
  set_streams [(1, s1); (3, s3)] demo_server.


(** * Properties *)

Section Properties.
Context {B : Type} `{!Externals B}.

(** ** Control frames: the connection-level data ceiling *)




(** ** Connector errors: the retry delay *)

Lemma handleConnectorError_temporary (c : Connection B) (code message : string)
    (data : bytes) (amountSent : BN.t) :
  isTemporary code = true ->
  let r := handleConnectorError code message data amountSent c in
  fst r = Ok tt
  /\ retryDelay (snd r) = Z.min (retryDelay c * 2) RETRY_DELAY_MAX
  /\ trace (snd r) = trace c ++ [Slept (inject_Z (retryDelay c))].
Proof.
  intros HT. unfold handleConnectorError.
  assert (String.eqb code "F08" = false) as ->.
  { destruct code as [|a code]; [discriminate|]. simpl in HT.
    apply Ascii.eqb_eq in HT. subst a. reflexivity. }
  rewrite HT.
  destruct (String.eqb code "T04"); simpl; auto.
Qed.

(** The retry delay after the temporary errors [errs], handled one after the
    other. *)
Definition after_temporary_errors (errs : list (string * BN.t)) (c : Connection B)
    : Connection B :=
  fold_left (fun c e => exec (handleConnectorError (fst e) EmptyString [] (snd e)) c) errs c.

(** C6 (amended).  Each time a temporary (T-class) connector error is handled
    the connection's retry delay is doubled and capped at 12 hours
    (43,200,000 ms); it starts from 100 ms, so after n such errors in a row it
    is min (100·2^n, 43,200,000).  The wait before the retry is the delay
    before the doubling. *)
Theorem C6_retry_delay_doubles :
  (forall opts now, retryDelay (constructor (B:=B) opts now) = 100) /\
  (forall (c : Connection B) code message data amountSent,
     isTemporary code = true ->
     let c' := exec (handleConnectorError code message data amountSent) c in
     retryDelay c' = Z.min (retryDelay c * 2) 43200000
     /\ last (trace c') = Some (Slept (inject_Z (retryDelay c)))) /\
  (forall opts now (errs : list (string * BN.t)),
     Forall (fun e => isTemporary (fst e) = true) errs ->
     retryDelay (after_temporary_errors errs (constructor opts now))
     = Z.min (100 * 2 ^ Z.of_nat (length errs)) 43200000).
Proof.
  split; [reflexivity|]. split.
  - intros c code message data amountSent HT.
    destruct (handleConnectorError_temporary c code message data amountSent HT)
      as (_ & Hd & Htr).
    unfold exec. split; [exact Hd|].
    rewrite Htr, last_snoc. reflexivity.
  - intros opts now errs Hall.
    assert (Hgen : forall (c : Connection B) d,
               retryDelay c = Z.min d 43200000 -> 0 < d ->
               retryDelay (after_temporary_errors errs c)
               = Z.min (d * 2 ^ Z.of_nat (length errs)) 43200000).
    { induction Hall as [|e errs He _ IH]; intros c d Hc Hd.
      - simpl. rewrite Hc. f_equal. lia.
      - cbn [after_temporary_errors fold_left length].
        destruct (handleConnectorError_temporary c (fst e) EmptyString [] (snd e) He)
          as (_ & Hd1 & _).
        fold (after_temporary_errors errs
                (exec (handleConnectorError (fst e) EmptyString [] (snd e)) c)).
        rewrite (IH _ (d * 2)).
        + f_equal. rewrite Nat2Z.inj_succ, Z.pow_succ_r by lia. lia.
        + unfold exec. rewrite Hd1. unfold RETRY_DELAY_MAX. lia.
        + lia. }
    apply Hgen; [reflexivity | lia].
Qed.

(** ** [connect] on an open connection *)

(** C9.  [connect()] on a connection that is already open ([closed] is
    false) resolves at once and leaves the connection as it is: no field
    changes, so no send loop is started, nothing is sent and no listener is
    registered. *)
Theorem C9_connect_when_open (c : Connection B) :
  closed c = false -> connect c = (Ok true, c).
Proof.
  intros Hopen. unfold connect, bind, get. rewrite Hopen. reflexivity.
Qed.

(** ** What a method leaves alone

    Most methods touch few fields.  [frame_eq] holds between two states that
    agree on everything the invariants below look at; a relation [R] that
    [frame_eq] implies is kept by every method but the few that write those
    fields, and these are assumed to keep [R] one by one. *)

Definition is_stream_event (e : Effect) : bool :=
  match e with
  | Emitted (EvStream _) => true
  | _ => false
  end.

Definition stream_events (tr : list Effect) : list Effect :=
  List.filter is_stream_event tr.

(** the volleys of test packets in a trace, in order *)
Definition volleys (tr : list Effect) : list (list BN.t) :=
  flat_map (fun e => match e with TestVolley a => [a] | _ => [] end) tr.

Definition is_volley (e : Effect) : bool :=
  match e with
  | TestVolley _ => true
  | _ => false
  end.

(** the streams' ids with what each has received *)
Definition credits (ss : list (Z * Stream B)) : list (Z * BN.t) :=
  map (fun kv => (fst kv, totalReceived (snd kv))) ss.

Record frame_eq (c c' : Connection B) : Prop := mk_frame_eq {
  fe_isServer : isServer c' = isServer c;
  fe_nextStreamId : nextStreamId c' = nextStreamId c;
  fe_totalReceived : _totalReceived c' = _totalReceived c;
  fe_totalSent : _totalSent c' = _totalSent c;
  fe_totalDelivered : _totalDelivered c' = _totalDelivered c;
  fe_closedStreams : closedStreams c' = closedStreams c;
  fe_credits : credits (streams c') = credits (streams c);
  fe_events : stream_events (trace c') = stream_events (trace c);
  fe_volleys : volleys (trace c') = volleys (trace c);
  fe_exchangeRate : exchangeRate c' = exchangeRate c;
  fe_testMaximumPacketAmount : testMaximumPacketAmount c' = testMaximumPacketAmount c;
  fe_maximumPacketAmount : maximumPacketAmount c' = maximumPacketAmount c
}.

(** a total may grow by an amount that is zero or more, or infinite *)
Definition BN_nonneg (x : BN.t) : Prop :=
  match x with
  | BN.Fin z => 0 <= z
  | BN.Inf neg => neg = false
  | BN.NaN => False
  end.

Lemma wire_amount_nonneg x : wire_amount x -> BN_nonneg x.
Proof. destruct x; simpl; tauto. Qed.

Lemma stream_events_app tr e :
  is_stream_event e = false -> stream_events (tr ++ [e]) = stream_events tr.
Proof.
  intros He. unfold stream_events. rewrite List.filter_app. simpl. rewrite He.
  apply app_nil_r.
Qed.

Lemma volleys_app tr e :
  volleys (tr ++ [e]) = volleys tr ++ match e with TestVolley a => [a] | _ => [] end.
Proof. unfold volleys. rewrite flat_map_app. simpl. rewrite app_nil_r. reflexivity. Qed.

Lemma volleys_app_other tr e : is_volley e = false -> volleys (tr ++ [e]) = volleys tr.
Proof.
  intros He. rewrite volleys_app. destruct e; try discriminate; apply app_nil_r.
Qed.

Lemma credits_map_set k (s : Stream B) ss s0 :
  map_get k ss = Some s0 -> totalReceived s = totalReceived s0 ->
  credits (map_set k s ss) = credits ss.
Proof.
  induction ss as [|[k' v] ss IH]; simpl; [discriminate|].
  destruct (Z.eqb_spec k k') as [->|Hne]; simpl.
  - intros [= ->] ->. reflexivity.
  - intros Hg Ht. rewrite IH; auto.
Qed.

Lemma credits_map_update k (f : Stream B -> Stream B) ss :
  (forall s, totalReceived (f s) = totalReceived s) ->
  credits (map_update k f ss) = credits ss.
Proof.
  intros Hf. unfold map_update. destruct (map_get k ss) eqn:Hg; [|reflexivity].
  eapply credits_map_set; eauto.
Qed.

Lemma credits_map (f : Stream B -> Stream B) ss :
  (forall s, totalReceived (f s) = totalReceived s) ->
  credits (map (fun kv => (fst kv, f (snd kv))) ss) = credits ss.
Proof.
  intros Hf. unfold credits. rewrite map_map. apply map_ext.
  intros [k s]; simpl. rewrite Hf. reflexivity.
Qed.

Create HintDb frame.

Section Frame.
Variable R : Connection B -> Connection B -> Prop.
Context `{!PreOrder R}.

Definition keeps {A} (m : M B A) : Prop := forall c, R c (snd (m c)).

(** what a method returns when it returns *)
Definition returns {A} (P : A -> Prop) (m : M B A) : Prop :=
  forall c a c', m c = (Ok a, c') -> P a.

Lemma keeps_ret {A} (a : A) : keeps (ret a).
Proof. intros c. reflexivity. Qed.

Lemma keeps_throw {A} e : keeps (@throw B A e).
Proof. intros c. reflexivity. Qed.

Lemma keeps_get : keeps get.
Proof. intros c. reflexivity. Qed.

Lemma keeps_modify f : (forall c, R c (f c)) -> keeps (modify f).
Proof. intros Hf c. apply Hf. Qed.

Lemma keeps_bind {A C} (m : M B A) (k : A -> M B C) :
  keeps m -> (forall a, keeps (k a)) -> keeps (bind m k).
Proof.
  intros Hm Hk c. unfold bind. specialize (Hm c).
  destruct (m c) as [[a|e] c1]; simpl in *; [|exact Hm].
  etransitivity; [exact Hm|apply Hk].
Qed.

Lemma keeps_bind_returns {A C} (P : A -> Prop) (m : M B A) (k : A -> M B C) :
  keeps m -> returns P m -> (forall a, P a -> keeps (k a)) -> keeps (bind m k).
Proof.
  intros Hm HP Hk c. unfold bind. specialize (Hm c). specialize (HP c).
  destruct (m c) as [[a|e] c1]; simpl in *; [|exact Hm].
  etransitivity; [exact Hm|apply Hk; eapply HP; reflexivity].
Qed.

Lemma keeps_try_catch {A} (m : M B A) h :
  keeps m -> (forall e, keeps (h e)) -> keeps (try_catch m h).
Proof.
  intros Hm Hh c. unfold try_catch. specialize (Hm c).
  destruct (m c) as [[a|e] c1]; simpl in *; [exact Hm|].
  etransitivity; [exact Hm|apply Hh].
Qed.

Lemma keeps_when b m : keeps m -> keeps (when b m).
Proof. intros Hm. destruct b; [exact Hm|apply keeps_ret]. Qed.

Lemma keeps_forM_ {A} (l : list A) f :
  (forall x, keeps (f x)) -> keeps (forM_ l f).
Proof.
  intros Hf. induction l as [|x l IH]; simpl; [apply keeps_ret|].
  apply keeps_bind; auto.
Qed.

Lemma keeps_mapM {A C} (f : A -> M B C) l :
  (forall x, keeps (f x)) -> keeps (mapM f l).
Proof.
  intros Hf. induction l as [|x l IH]; simpl; [apply keeps_ret|].
  apply keeps_bind; [apply Hf|]. intros y.
  apply keeps_bind; [apply IH|]. intros ys. apply keeps_ret.
Qed.

Hypothesis R_frame : forall c c', frame_eq c c' -> R c c'.

Lemma log_effect_keeps e :
  is_stream_event e = false -> is_volley e = false -> keeps (log_effect e).
Proof.
  intros He Hv. apply keeps_modify. intros c. apply R_frame.
  constructor; try reflexivity; simpl.
  - apply stream_events_app, He.
  - apply volleys_app_other, Hv.
Qed.

Lemma update_stream_keeps id f :
  (forall s, totalReceived (f s) = totalReceived s) -> keeps (update_stream id f).
Proof.
  intros Hf. apply keeps_modify. intros c. apply R_frame. constructor; try reflexivity. simpl. apply credits_map_update, Hf.
Qed.

Hypothesis R_testMaximumPacketAmount :
  forall v c, R c (set_testMaximumPacketAmount v c).
Hypothesis R_maximumPacketAmount :
  forall v c, R c (set_maximumPacketAmount v c).
Hypothesis R_exchangeRate : forall v c, R c (set_exchangeRate v c).
Hypothesis R_volley : forall a c, R c (set_trace (trace c ++ [TestVolley a]) c).

Ltac frame_side :=
  intros;
  try first [ apply R_testMaximumPacketAmount
            | apply R_maximumPacketAmount
            | apply R_exchangeRate
            | solve [apply R_frame; constructor; reflexivity] ].

Ltac frame_step :=
  lazymatch goal with
  | |- keeps (bind _ _) => apply keeps_bind; [ | intros ]
  | |- keeps (ret _) => apply keeps_ret
  | |- keeps (throw _) => apply keeps_throw
  | |- keeps get => apply keeps_get
  | |- keeps (when _ _) => apply keeps_when
  | |- keeps (forM_ _ _) => apply keeps_forM_; intros
  | |- keeps (mapM _ _) => apply keeps_mapM; intros
  | |- keeps (try_catch _ _) => apply keeps_try_catch; [ | intros ]
  | |- keeps (modify _) => apply keeps_modify; frame_side
  | |- keeps (log_effect (TestVolley _)) =>
      apply keeps_modify; intros; apply R_volley
  | |- keeps (log_effect _) => apply log_effect_keeps; reflexivity
  | |- keeps (update_stream _ _) =>
      apply update_stream_keeps; intros; try reflexivity
  | |- keeps (match ?x with _ => _ end) => destruct x
  | |- keeps _ => solve [ eauto with frame ]
  end.

Ltac frame := intros; repeat frame_step.

Lemma spawn_keeps t : keeps (spawn t).
Proof. apply log_effect_keeps; reflexivity. Qed.

Lemma push_queuedFrames_keeps fs : keeps (push_queuedFrames fs).
Proof. unfold push_queuedFrames. frame. Qed.

Lemma on_streams_keeps {A} (f : list (Z * Stream B) -> list (Z * Stream B) * A) :
  (forall ss, credits (fst (f ss)) = credits ss) -> keeps (on_streams f).
Proof.
  intros Hf c. unfold on_streams. specialize (Hf (streams c)).
  destruct (f (streams c)) as [ss a]. simpl in *.
  apply R_frame. constructor; try reflexivity. exact Hf.
Qed.

Lemma once_keeps ev l : keeps (once ev l).
Proof. unfold once. frame. Qed.

Lemma bumpIdle_keeps : keeps bumpIdle.
Proof. unfold bumpIdle. frame. Qed.

#[local] Hint Resolve spawn_keeps push_queuedFrames_keeps once_keeps bumpIdle_keeps
  : frame.

Lemma cleanup_keeps o : keeps (cleanup o).
Proof.
  unfold cleanup. apply keeps_modify. intros c.
  unfold clearTimeout_idleTimer. destruct (idleTimer c); frame_side.
Qed.
#[local] Hint Resolve cleanup_keeps : frame.

Lemma run_listener_keeps e l : keeps (run_listener e l).
Proof. unfold run_listener. frame. Qed.
#[local] Hint Resolve run_listener_keeps : frame.

Lemma fire_listeners_keeps e : keeps (fire_listeners e).
Proof. unfold fire_listeners. frame. Qed.
#[local] Hint Resolve fire_listeners_keeps : frame.

Lemma safeEmit_keeps e : is_stream_event (Emitted e) = false -> keeps (safeEmit e).
Proof.
  intros He. unfold safeEmit.
  apply keeps_bind; [apply log_effect_keeps; [exact He|reflexivity]|].
  frame.
Qed.

Lemma safeEmit_connect_keeps : keeps (safeEmit EvConnect).
Proof. apply safeEmit_keeps. reflexivity. Qed.
Lemma safeEmit_error_keeps e : keeps (safeEmit (EvError e)).
Proof. apply safeEmit_keeps. reflexivity. Qed.
Lemma safeEmit_close_keeps : keeps (safeEmit EvClose).
Proof. apply safeEmit_keeps. reflexivity. Qed.
Lemma safeEmit_end_keeps : keeps (safeEmit EvEnd).
Proof. apply safeEmit_keeps. reflexivity. Qed.
Lemma safeEmit_finished_keeps : keeps (safeEmit EvSendLoopFinished).
Proof. apply safeEmit_keeps. reflexivity. Qed.
#[local] Hint Resolve safeEmit_connect_keeps safeEmit_error_keeps safeEmit_close_keeps
  safeEmit_end_keeps safeEmit_finished_keeps : frame.

Lemma handleConnect_keeps : keeps handleConnect.
Proof. unfold handleConnect. frame. Qed.
#[local] Hint Resolve handleConnect_keeps : frame.

Lemma sendConnectionClose_begin_keeps err : keeps (sendConnectionClose_begin err).
Proof. unfold sendConnectionClose_begin. frame. Qed.
#[local] Hint Resolve sendConnectionClose_begin_keeps : frame.

Lemma destroy_begin_keeps err : keeps (destroy_begin err).
Proof.
  unfold destroy_begin. frame.
  apply R_frame. constructor; try reflexivity. simpl.
  apply (credits_map stream_destroy). reflexivity.
Qed.
#[local] Hint Resolve destroy_begin_keeps : frame.

Lemma startSendLoop_begin_keeps : keeps startSendLoop_begin.
Proof. unfold startSendLoop_begin. frame. Qed.
#[local] Hint Resolve startSendLoop_begin_keeps : frame.

Lemma end_begin_keeps : keeps end_begin.
Proof.
  unfold end_begin. frame.
  apply R_frame. constructor; try reflexivity. simpl.
  apply (credits_map (fun s => if isOpen s then stream_end s else s)).
  intros s. destruct (isOpen s); reflexivity.
Qed.
#[local] Hint Resolve end_begin_keeps : frame.

Lemma handleStreamClose_keeps id code msg : keeps (handleStreamClose id code msg).
Proof.
  unfold handleStreamClose. frame.
Qed.
#[local] Hint Resolve handleStreamClose_keeps : frame.

Lemma handleControlFrame_keeps f : keeps (handleControlFrame f).
Proof.
  unfold handleControlFrame. destruct f; frame.
  unfold raiseRemoteLimits. destruct (BN.isFinite _); reflexivity.
Qed.
#[local] Hint Resolve handleControlFrame_keeps : frame.

Lemma handleControlFrames_keeps fs : keeps (handleControlFrames fs).
Proof. unfold handleControlFrames. frame. Qed.
#[local] Hint Resolve handleControlFrames_keeps : frame.

(** *** The methods that write the protected fields, assumed one by one *)
Hypothesis R_handleNewStream : forall id, keeps (handleNewStream id).
Hypothesis R_createStream : keeps createStream.
Hypothesis R_removeStreamRecord : forall s, keeps (removeStreamRecord s).
Hypothesis R_credit : forall l, keeps (handlePrepare_credit l).
Hypothesis R_changed : forall id f, keeps (update_stream id f).
(** [Amt] is what [R] asks of an amount for a total to take it in. *)
Variable Amt : BN.t -> Prop.
Hypothesis Amt_nonneg : forall x, BN_nonneg x -> Amt x.
Hypothesis Amt_decoded : forall d p,
  decryptAndDeserialize d = Some p -> Amt (prepareAmount p).
Hypothesis R_totalReceived : forall a c,
  Amt a -> R c (set__totalReceived (BN.plus (_totalReceived c) a) c).
Hypothesis R_totalSent : forall a c,
  Amt a -> R c (set__totalSent (BN.plus (_totalSent c) a) c).
Hypothesis R_totalDelivered : forall a c,
  Amt a -> R c (set__totalDelivered (BN.plus (_totalDelivered c) a) c).

Definition op_ok (op : Op B) : Prop :=
  match op with
  | OpHandlePrepare prepare => Amt (amount prepare)
  | _ => True
  end.

Lemma throwFinalApplicationError_keeps {A} rp p rf :
  keeps (@throwFinalApplicationError B A rp p rf).
Proof. unfold throwFinalApplicationError. frame. Qed.
#[local] Hint Resolve throwFinalApplicationError_keeps : frame.

Lemma handlePrepare_newStream_keeps rp p rf f :
  keeps (handlePrepare_newStream rp p rf f).
Proof. unfold handlePrepare_newStream. destruct f; frame. Qed.
#[local] Hint Resolve handlePrepare_newStream_keeps : frame.

Lemma handlePrepare_amounts_keeps rp p total fs rf acc :
  keeps (handlePrepare_amounts rp p total fs rf acc).
Proof.
  revert rf acc. induction fs as [|f fs IH]; intros rf acc; simpl; [frame|].
  destruct f; frame.
Qed.
#[local] Hint Resolve handlePrepare_amounts_keeps : frame.

Lemma handlePrepare_check_keeps p : keeps (handlePrepare_check p).
Proof. unfold handlePrepare_check. frame. Qed.

Lemma handlePrepare_streamFrames_credit (s : Stream B) :
  totalReceived (snd (handlePrepare_streamFrames s)) = totalReceived s.
Proof.
  unfold handlePrepare_streamFrames.
  destruct (_ && negb (_remoteClosed s)); reflexivity.
Qed.

Lemma handlePrepare_tellPeer_keeps : keeps handlePrepare_tellPeer.
Proof.
  unfold handlePrepare_tellPeer. frame.
  apply on_streams_keeps. intros ss. simpl.
  rewrite map_map. simpl.
  apply (credits_map (fun s => snd (handlePrepare_streamFrames s))).
  apply handlePrepare_streamFrames_credit.
Qed.
#[local] Hint Resolve handlePrepare_check_keeps handlePrepare_tellPeer_keeps : frame.

Lemma handlePrepare_fulfill_keeps p checked :
  Amt (amount p) -> keeps (handlePrepare_fulfill p checked).
Proof.
  intros Hw. unfold handlePrepare_fulfill.
  destruct checked as [[[rp ful] rf] amts]. frame.
  apply R_totalReceived, Hw.
Qed.

Lemma handlePrepare_keeps p : Amt (amount p) -> keeps (handlePrepare p).
Proof.
  intros Hw. unfold handlePrepare. frame. apply handlePrepare_fulfill_keeps, Hw.
Qed.

(** *** Sending *)

Lemma sendData_keeps plugin prepare : keeps (sendData plugin prepare).
Proof. unfold sendData. frame. Qed.
#[local] Hint Resolve sendData_keeps : frame.

Lemma undoRejectedPacket_keeps rp : keeps (undoRejectedPacket rp).
Proof. unfold undoRejectedPacket. frame. Qed.
#[local] Hint Resolve undoRejectedPacket_keeps : frame.

Lemma handleConnectorError_keeps code msg d a :
  keeps (handleConnectorError code msg d a).
Proof. unfold handleConnectorError. frame. Qed.
#[local] Hint Resolve handleConnectorError_keeps : frame.

Lemma sendPacket_keeps plugin packet a u : keeps (sendPacket plugin packet a u).
Proof. unfold sendPacket. frame. Qed.
#[local] Hint Resolve sendPacket_keeps : frame.

Lemma sendTestPacket_request_keeps plugin a : keeps (sendTestPacket_request plugin a).
Proof. unfold sendTestPacket_request. frame. Qed.

Lemma sendTestPacket_response_keeps rp reply : keeps (sendTestPacket_response rp reply).
Proof. unfold sendTestPacket_response. frame. Qed.
#[local] Hint Resolve sendTestPacket_request_keeps sendTestPacket_response_keeps : frame.

Lemma sendTestPacketVolley_keeps plugin amts : keeps (sendTestPacketVolley plugin amts).
Proof. unfold sendTestPacketVolley. frame. Qed.
#[local] Hint Resolve sendTestPacketVolley_keeps : frame.

Lemma determineExchangeRate_attempt_keeps plugin d amts :
  keeps (determineExchangeRate_attempt plugin d amts).
Proof. unfold determineExchangeRate_attempt. frame. Qed.
#[local] Hint Resolve determineExchangeRate_attempt_keeps : frame.

Lemma determineExchangeRate_loop_keeps plugin n d amts :
  keeps (determineExchangeRate_loop plugin n d amts).
Proof.
  revert d amts. induction n as [|n IH]; intros d amts; simpl; frame.
Qed.
#[local] Hint Resolve determineExchangeRate_loop_keeps : frame.

Lemma determineExchangeRate_keeps plugin : keeps (determineExchangeRate plugin).
Proof. unfold determineExchangeRate. frame. Qed.
#[local] Hint Resolve determineExchangeRate_keeps : frame.

Lemma sendConnectionClose_keeps plugin err : keeps (sendConnectionClose plugin err).
Proof. unfold sendConnectionClose. frame. Qed.
#[local] Hint Resolve sendConnectionClose_keeps : frame.

Lemma destroy_keeps plugin err : keeps (destroy plugin err).
Proof.
  unfold destroy. frame.
  apply R_frame. constructor; try reflexivity. simpl.
  apply (credits_map stream_destroy). reflexivity.
Qed.
#[local] Hint Resolve destroy_keeps : frame.

Lemma destroy_finish_keeps : keeps destroy_finish.
Proof. unfold destroy_finish. frame. Qed.

Lemma end_finish_keeps plugin : keeps (end_finish plugin).
Proof. unfold end_finish. frame. Qed.

Lemma returns_bind {A C} (P : C -> Prop) (m : M B A) (k : A -> M B C) :
  (forall a, returns P (k a)) -> returns P (bind m k).
Proof.
  intros Hk c r c' Hr. unfold bind in Hr.
  destruct (m c) as [[a|e] c1]; [|discriminate]. eapply Hk, Hr.
Qed.

Lemma returns_ret {A} (P : A -> Prop) a : P a -> returns P (ret a).
Proof. intros Ha c r c' [= <- _]. exact Ha. Qed.

Lemma returns_throw {A} (P : A -> Prop) e : returns P (throw e).
Proof. intros c r c' Hr. discriminate. Qed.

Definition decoded (p : Packet) : Prop :=
  exists d, decryptAndDeserialize d = Some p.

Lemma sendPacket_returns plugin packet a u :
  returns (fun r => forall p, r = Some p -> decoded p) (sendPacket plugin packet a u).
Proof.
  unfold sendPacket.
  repeat (intros;
    lazymatch goal with
    | |- returns _ (bind _ _) => apply returns_bind
    | |- returns _ (throw _) => apply returns_throw
    | |- returns _ (ret None) => apply returns_ret; discriminate
    | |- returns _ (ret (Some _)) =>
        apply returns_ret; intros ? [= <-]; eexists; eassumption
    | |- returns _ (match ?x with _ => _ end) => destruct x eqn:?
    end).
Qed.

Lemma BN_nonneg_plus a x :
  BN_nonneg a -> BN.isGreaterThan x (BN.Fin 0) = true -> BN_nonneg (BN.plus a x).
Proof.
  destruct a as [|[]|a], x as [|[]|x]; simpl; try tauto; try discriminate.
  unfold BN.isGreaterThan. simpl. destruct (Z.compare_spec x 0); try discriminate.
  intros; lia.
Qed.

Lemma loadMoney_credits seq rate ss fr a m sf :
  credits (load_streams (loadMoney seq rate ss fr a m sf)) = credits ss.
Proof.
  revert fr a m sf. induction ss as [|[k s] ss IH]; intros fr a m sf; simpl;
    [reflexivity|].
  destruct (_sentEnd s); simpl; [rewrite IH; reflexivity|].
  match goal with |- context [if BN.isEqualTo ?x _ then _ else _] =>
    destruct (BN.isEqualTo x (BN.Fin 0)) end; simpl.
  - f_equal. f_equal. match goal with |- context [if ?b then _ else _] =>
      destruct b end; reflexivity.
  - rewrite IH. f_equal. f_equal. match goal with |- context [if ?b then _ else _] =>
      destruct b end; reflexivity.
Qed.

Lemma loadMoney_nonneg seq rate (ss : list (Z * Stream B)) fr a m sf :
  BN_nonneg a -> BN_nonneg (load_amountToSend (loadMoney seq rate ss fr a m sf)).
Proof.
  revert fr a m sf. induction ss as [|[k s] ss IH]; intros fr a m sf Ha; simpl;
    [exact Ha|].
  destruct (_sentEnd s); simpl; [apply IH, Ha|].
  match goal with |- context [BN.isGreaterThan ?x (BN.Fin 0)] =>
    destruct (BN.isGreaterThan x (BN.Fin 0)) eqn:Hs end.
  - match goal with |- context [if BN.isEqualTo ?x _ then _ else _] =>
      destruct (BN.isEqualTo x (BN.Fin 0)) end; simpl;
      [|apply IH]; apply BN_nonneg_plus; assumption.
  - match goal with |- context [if BN.isEqualTo ?x _ then _ else _] =>
      destruct (BN.isEqualTo x (BN.Fin 0)) end; simpl; [|apply IH]; exact Ha.
Qed.

Lemma loadData_credits ss n fr : credits (fst (loadData ss n fr)) = credits ss.
Proof.
  revert n fr. induction ss as [|[k s] ss IH]; intros n fr; simpl; [reflexivity|].
  destruct (n - 20 <=? 0); [reflexivity|].
  destruct (buf_getAvailableDataToSend _ _ _) as [[d o] b].
  destruct d as [d|]; [destruct (0 <? length d)%nat|]; simpl;
    match goal with |- context [loadData ss ?n' ?fr'] =>
      specialize (IH n' fr'); destruct (loadData ss n' fr') as [rest fs]
    end; simpl in *; rewrite IH; reflexivity.
Qed.

Lemma executeHold_credit seq (s : Stream B) :
  totalReceived (_executeHold seq s) = totalReceived s.
Proof. unfold _executeHold. destruct (map_get seq (holds s)); reflexivity. Qed.

Lemma loadAndSendPacket_response_keeps seq a sf rp :
  Amt a -> Amt (prepareAmount rp) ->
  keeps (loadAndSendPacket_response seq a sf rp).
Proof.
  intros Ha Hp. unfold loadAndSendPacket_response. frame.
  - apply executeHold_credit.
  - apply R_totalDelivered, Hp.
  - apply R_totalSent, Ha.
Qed.

Lemma loadAndSendPacket_keeps plugin : keeps (loadAndSendPacket plugin).
Proof.
  unfold loadAndSendPacket.
  apply keeps_bind; [frame|]. intros c.
  apply keeps_bind; [frame|]. intros _.
  apply keeps_bind; [frame|]. intros _.
  apply keeps_bind; [frame|]. intros frames2.
  eapply (keeps_bind_returns
            (fun money : MoneyLoad (B:=B) => BN_nonneg (load_amountToSend money))).
  { apply on_streams_keeps. intros ss. simpl. apply loadMoney_credits. }
  { intros c0 money c1. unfold on_streams. intros [= <- _].
    apply loadMoney_nonneg. simpl. lia. }
  intros money Hmoney.
  apply keeps_bind; [frame|]. intros c1.
  match goal with |- keeps (let '(_, _) := ?x in _) => destruct x as [bytesLeft frames3] end.
  apply keeps_bind.
  { apply on_streams_keeps. intros ss. apply loadData_credits. }
  intros frames4.
  match goal with |- keeps (if ?b then _ else _) => destruct b end; [frame|].
  apply keeps_bind; [frame|]. intros _.
  eapply keeps_bind_returns; [apply sendPacket_keeps | apply sendPacket_returns |].
  intros [rp|] Hrp; [|frame].
  apply loadAndSendPacket_response_keeps; [apply Amt_nonneg, Hmoney|].
  destruct (Hrp rp eq_refl) as [d Hd].
  apply (Amt_decoded d rp Hd).
Qed.
#[local] Hint Resolve loadAndSendPacket_keeps : frame.

Lemma sendLoop_keeps plugin fuel : keeps (sendLoop plugin fuel).
Proof. induction fuel as [|fuel IH]; simpl; frame. Qed.
#[local] Hint Resolve sendLoop_keeps : frame.

Lemma sendLoop_run_keeps plugin fuel : keeps (sendLoop_run plugin fuel).
Proof. unfold sendLoop_run. frame. Qed.
#[local] Hint Resolve sendLoop_run_keeps : frame.

Lemma startSendLoop_keeps plugin fuel : keeps (startSendLoop plugin fuel).
Proof. unfold startSendLoop. frame. Qed.

Lemma startIdleTimer_keeps : keeps startIdleTimer.
Proof. unfold startIdleTimer. frame. Qed.
#[local] Hint Resolve startIdleTimer_keeps : frame.

Lemma testIdle_keeps : keeps testIdle.
Proof. unfold testIdle. frame. Qed.
#[local] Hint Resolve testIdle_keeps : frame.

Lemma fireTimer_keeps due : keeps (fireTimer due).
Proof. unfold fireTimer. frame. Qed.

Lemma connect_keeps : keeps connect.
Proof. unfold connect. frame. Qed.

Lemma connect_resolved_keeps : keeps connect_resolved.
Proof. unfold connect_resolved. frame. Qed.

(** Every step of the connection keeps [R], and so does every run. *)
Lemma run_op_keeps op c : op_ok op -> R c (run_op op c).
Proof.
  destruct op; simpl; intros Hop; unfold exec.
  - apply handlePrepare_keeps, Hop.
  - apply R_createStream.
  - apply connect_keeps.
  - apply connect_resolved_keeps.
  - apply startSendLoop_keeps.
  - apply sendLoop_run_keeps.
  - apply end_begin_keeps.
  - apply end_finish_keeps.
  - apply destroy_keeps.
  - apply destroy_finish_keeps.
  - destruct (map_get id (streams c)); [apply R_removeStreamRecord|reflexivity].
  - apply R_changed.
  - destruct (_ && _); [apply fireTimer_keeps|reflexivity].
  - destruct (clock c <=? now); [|reflexivity].
    apply R_frame. constructor; reflexivity.
Qed.

Lemma run_keeps ops c : Forall op_ok ops -> R c (run ops c).
Proof.
  intros Hops. revert c. induction Hops as [|op ops Hop _ IH]; intros c; simpl.
  - reflexivity.
  - etransitivity; [apply run_op_keeps, Hop|apply IH].
Qed.

(** *** When [R] does not look at the streams, the closed streams, the next
    stream id or the trace, the methods that write them keep it too. *)
Section Free.
Hypothesis R_any_streams : forall v c, R c (set_streams v c).
Hypothesis R_any_closedStreams : forall v c, R c (set_closedStreams v c).
Hypothesis R_any_nextStreamId : forall v c, R c (set_nextStreamId v c).
Hypothesis R_any_trace : forall v c, R c (set_trace v c).

Ltac free_step :=
  lazymatch goal with
  | |- keeps (modify _) =>
      apply keeps_modify; intros;
      first [ apply R_any_streams | apply R_any_closedStreams
            | apply R_any_nextStreamId | apply R_any_trace
            | solve [apply R_frame; constructor; reflexivity] ]
  | |- keeps (log_effect _) => unfold log_effect
  | |- keeps (update_stream _ _) => unfold update_stream
  | |- keeps (safeEmit _) => unfold safeEmit
  | |- _ => frame_step
  end.

Ltac free := intros; repeat free_step.

Lemma handleNewStream_free id : keeps (handleNewStream id).
Proof using R_frame R_any_streams R_any_trace PreOrder0.
  unfold handleNewStream. free.
Qed.

Lemma createStream_free : keeps createStream.
Proof using R_frame R_any_streams R_any_nextStreamId PreOrder0.
  unfold createStream. free.
Qed.

Lemma removeStreamRecord_free s : keeps (removeStreamRecord s).
Proof using R_frame R_any_streams R_any_closedStreams PreOrder0.
  unfold removeStreamRecord. free.
Qed.

Lemma update_stream_free id f : keeps (update_stream id f).
Proof using R_any_streams. unfold update_stream. free. Qed.

Lemma handlePrepare_credit_free l : keeps (handlePrepare_credit l).
Proof using R_any_streams PreOrder0.
  unfold handlePrepare_credit. free.
Qed.

End Free.

End Frame.

(** ** The totals of the connection *)

Lemma BN_le_refl x : BN_nonneg x -> BN.le x x.
Proof.
  unfold BN.le. destruct x as [|[]|z]; simpl; try tauto; try discriminate.
  intros _. rewrite Z.compare_refl. exact I.
Qed.

Lemma BN_le_trans x y z : BN.le x y -> BN.le y z -> BN.le x z.
Proof.
  unfold BN.le.
  destruct x as [|[]|x], y as [|[]|y], z as [|[]|z]; simpl; try tauto.
  destruct (Z.compare_spec x y), (Z.compare_spec y z), (Z.compare_spec x z);
    try tauto; lia.
Qed.

Lemma BN_le_plus a x :
  BN_nonneg a -> BN_nonneg x -> BN_nonneg (BN.plus a x) /\ BN.le a (BN.plus a x).
Proof.
  unfold BN.le.
  destruct a as [|[]|a], x as [|[]|x]; simpl; try tauto; try discriminate;
    intros Ha Hx; split; try exact I; try lia; try reflexivity.
  destruct (Z.compare_spec a (a + x)); try exact I; lia.
Qed.

(** the three totals are zero or more *)
Definition totals_ok (c : Connection B) : Prop :=
  BN_nonneg (_totalReceived c) /\ BN_nonneg (_totalSent c)
  /\ BN_nonneg (_totalDelivered c).

(** no total of [c'] is below that of [c] *)
Definition totals_le (c c' : Connection B) : Prop :=
  BN.le (_totalReceived c) (_totalReceived c')
  /\ BN.le (_totalSent c) (_totalSent c')
  /\ BN.le (_totalDelivered c) (_totalDelivered c').

Definition totals_grow (c c' : Connection B) : Prop :=
  totals_ok c -> totals_ok c' /\ totals_le c c'.

#[local] Instance totals_grow_preorder : PreOrder totals_grow.
Proof.
  split.
  - intros c (H1 & H2 & H3). split; [exact (conj H1 (conj H2 H3))|].
    repeat split; apply BN_le_refl; assumption.
  - intros a b c Hab Hbc Ha.
    destruct (Hab Ha) as [Hb (L1 & L2 & L3)].
    destruct (Hbc Hb) as [Hc (M1 & M2 & M3)].
    split; [exact Hc|]. repeat split; eapply BN_le_trans; eassumption.
Qed.

(** the three totals are the same *)
Definition totals_same (c c' : Connection B) : Prop :=
  _totalReceived c' = _totalReceived c /\ _totalSent c' = _totalSent c
  /\ _totalDelivered c' = _totalDelivered c.

#[local] Instance totals_same_preorder : PreOrder totals_same.
Proof.
  split.
  - intros c. repeat split.
  - intros a b c (H1 & H2 & H3) (K1 & K2 & K3).
    repeat split; congruence.
Qed.

Lemma totals_same_frame c c' : frame_eq c c' -> totals_same c c'.
Proof. intros []. repeat split; assumption. Qed.

Lemma totals_same_grow c c' : totals_same c c' -> totals_grow c c'.
Proof.
  intros (H1 & H2 & H3) (K1 & K2 & K3). unfold totals_ok, totals_le.
  rewrite H1, H2, H3. repeat split; try assumption; apply BN_le_refl; assumption.
Qed.

Lemma totals_grow_frame c c' : frame_eq c c' -> totals_grow c c'.
Proof. intros H. apply totals_same_grow, totals_same_frame, H. Qed.

Lemma run_totals_grow :
  (forall d p, decryptAndDeserialize d = Some p -> wire_packet p) ->
  forall (ops : list (Op B)) c, Forall wire_op ops -> totals_grow c (run ops c).
Proof.
  intros Hdec ops c Hops.
  apply (run_keeps totals_grow totals_grow_frame) with (Amt := BN_nonneg);
    try assumption.
  - intros v c0. apply totals_same_grow. repeat split.
  - intros v c0. apply totals_same_grow. repeat split.
  - intros v c0. apply totals_same_grow. repeat split.
  - intros v c0. apply totals_same_grow. repeat split.
  - intros id. apply (handleNewStream_free _ totals_grow_frame);
      intros; apply totals_same_grow; repeat split.
  - apply (createStream_free _ totals_grow_frame);
      intros; apply totals_same_grow; repeat split.
  - intros s. apply (removeStreamRecord_free _ totals_grow_frame);
      intros; apply totals_same_grow; repeat split.
  - intros l. apply (handlePrepare_credit_free totals_grow).
    intros; apply totals_same_grow; repeat split.
  - intros id f. apply (update_stream_free totals_grow).
    intros; apply totals_same_grow; repeat split.
  - auto.
  - intros d p Hd. apply wire_amount_nonneg. apply (Hdec d p Hd).
  - intros a c0 Ha (K1 & K2 & K3). unfold totals_ok, totals_le. simpl.
    destruct (BN_le_plus _ a K1 Ha).
    repeat split; try assumption; apply BN_le_refl; assumption.
  - intros a c0 Ha (K1 & K2 & K3). unfold totals_ok, totals_le. simpl.
    destruct (BN_le_plus _ a K2 Ha).
    repeat split; try assumption; apply BN_le_refl; assumption.
  - intros a c0 Ha (K1 & K2 & K3). unfold totals_ok, totals_le. simpl.
    destruct (BN_le_plus _ a K3 Ha).
    repeat split; try assumption; apply BN_le_refl; assumption.
  - eapply Forall_impl; [exact Hops|]. intros [] Hop; simpl in *; auto.
    apply wire_amount_nonneg, Hop.
Qed.

(** a method that never throws *)
Definition never_throws {A} (m : M B A) : Prop :=
  forall c, exists a, fst (m c) = Ok a.

Lemma never_throws_bind {A C} (m : M B A) (k : A -> M B C) :
  never_throws m -> (forall a, never_throws (k a)) -> never_throws (bind m k).
Proof.
  intros Hm Hk c. unfold bind. destruct (Hm c) as [a Ha].
  destruct (m c) as [[a'|e] c1]; simpl in Ha; [|discriminate].
  apply Hk.
Qed.

Lemma never_throws_forM_ {A} (l : list A) (f : A -> M B unit) :
  (forall x, never_throws (f x)) -> never_throws (forM_ l f).
Proof.
  intros Hf. induction l as [|x l IH]; simpl.
  - intros c. exists tt. reflexivity.
  - apply never_throws_bind; auto.
Qed.

Lemma handlePrepare_credit_never_throws l : never_throws (handlePrepare_credit l).
Proof.
  apply never_throws_forM_. intros [id a] c. exists tt. reflexivity.
Qed.

Lemma handlePrepare_tellPeer_never_throws : never_throws handlePrepare_tellPeer.
Proof.
  intros c. unfold handlePrepare_tellPeer, bind, get, on_streams.
  destruct (negb (closed c) && negb (remoteClosed c)); simpl; eauto.
Qed.

Lemma totals_same_handleNewStream id : keeps totals_same (handleNewStream id).
Proof.
  apply (handleNewStream_free _ totals_same_frame); intros; repeat split.
Qed.

(** What [handlePrepare] does to the totals: a fulfilled prepare adds its
    amount to [_totalReceived]; a rejected one changes no total. *)
Lemma handlePrepare_totals p (c : Connection B) :
  match handlePrepare p c with
  | (Ok _, c') =>
      _totalReceived c' = BN.plus (_totalReceived c) (amount p)
      /\ _totalSent c' = _totalSent c /\ _totalDelivered c' = _totalDelivered c
  | (Throw _, c') => totals_same c c'
  end.
Proof.
  unfold handlePrepare, bind.
  pose proof (handlePrepare_check_keeps totals_same totals_same_frame
                totals_same_handleNewStream p c) as H1.
  destruct (handlePrepare_check p c) as [[chk|e] c1]; simpl in H1; [|exact H1].
  destruct chk as [[[rp ful] rf] amts]. unfold handlePrepare_fulfill, bind.
  pose proof (handlePrepare_credit_free totals_same
                (fun v c => conj eq_refl (conj eq_refl eq_refl)) amts c1) as H2.
  destruct (handlePrepare_credit_never_throws amts c1) as [[] Hok].
  destruct (handlePrepare_credit amts c1) as [[[]|e] c2]; simpl in *; [|discriminate].
  pose proof (handlePrepare_tellPeer_keeps totals_same totals_same_frame c2) as H3.
  destruct (handlePrepare_tellPeer_never_throws c2) as [told Hok3].
  destruct (handlePrepare_tellPeer c2) as [[told'|e] c3]; simpl in *; [|discriminate].
  destruct H1 as (A1 & A2 & A3), H2 as (B1 & B2 & B3), H3 as (C1 & C2 & C3).
  repeat split; congruence.
Qed.

Lemma executeHolds_totals seq sf (c : Connection B) :
  exists c', forM_ sf (fun k => update_stream k (_executeHold seq)) c = (Ok tt, c')
             /\ totals_same c c'.
Proof.
  revert c. induction sf as [|k sf IH]; intros c; simpl.
  - exists c. split; [reflexivity|repeat split].
  - unfold bind. simpl. destruct (IH (set_streams (map_update k (_executeHold seq) (streams c)) c))
      as (c' & Hc' & Hs).
    exists c'. split; [exact Hc'|exact Hs].
Qed.

(** What the response to a money packet does to the totals (lines
    1020-1027): a fulfill adds the response's [prepareAmount] to
    [_totalDelivered] and the amount sent to [_totalSent]; nothing else
    changes a total. *)
Lemma loadAndSendPacket_response_totals seq a sf rp (c : Connection B) :
  let r := loadAndSendPacket_response seq a sf rp c in
  match fst r with
  | Ok _ =>
      _totalReceived (snd r) = _totalReceived c /\
      if bool_decide (ilpPacketType rp = Fulfill) then
        _totalDelivered (snd r) = BN.plus (_totalDelivered c) (prepareAmount rp)
        /\ _totalSent (snd r) = BN.plus (_totalSent c) a
      else _totalDelivered (snd r) = _totalDelivered c
           /\ _totalSent (snd r) = _totalSent c
  | Throw _ => totals_same c (snd r)
  end.
Proof.
  cbv zeta. unfold loadAndSendPacket_response, bind.
  pose proof (handleControlFrames_keeps totals_same totals_same_frame (frames rp) c)
    as H1.
  destruct (handleControlFrames (frames rp) c) as [[[]|e] c1]; simpl in H1 |- *;
    [|exact H1].
  destruct H1 as (A1 & A2 & A3).
  destruct (BN.isGreaterThan a (BN.Fin 0)); simpl;
    destruct (bool_decide (ilpPacketType rp = Fulfill)); simpl;
    try (repeat split; congruence);
    match goal with |- context [forM_ _ _ ?c2] =>
      destruct (executeHolds_totals seq sf c2) as (c3 & Hc3 & (C1 & C2 & C3))
    end; rewrite Hc3; simpl in *;
    match goal with |- context [when ?b ?m] => destruct b end; simpl;
    repeat split; congruence.
Qed.

(** C8.  [totalSent], [totalDelivered] and [totalReceived] start at 0 and
    never decrease, whatever happens to the connection: a fulfilled incoming
    prepare adds its amount to [_totalReceived], a fulfilled outgoing packet
    adds the response's [prepareAmount] to [_totalDelivered] and the amount
    sent to [_totalSent], these amounts are zero or more, and nothing else
    writes a total.  The decoder is taken to read amounts as var-uints. *)
Theorem C8_totals_never_decrease :
  (forall d p, decryptAndDeserialize d = Some p -> wire_packet p) ->
  (forall opts now,
     let c := constructor (B:=B) opts now in
     _totalSent c = BN.Fin 0 /\ _totalDelivered c = BN.Fin 0
     /\ _totalReceived c = BN.Fin 0) /\
  (forall opts now (ops : list (Op B)) (op : Op B),
     Forall wire_op ops -> wire_op op ->
     let c := run ops (constructor opts now) in
     totals_ok c /\ totals_ok (run_op op c) /\ totals_le c (run_op op c)) /\
  (forall p (c : Connection B),
     match handlePrepare p c with
     | (Ok _, c') =>
         _totalReceived c' = BN.plus (_totalReceived c) (amount p)
         /\ _totalSent c' = _totalSent c /\ _totalDelivered c' = _totalDelivered c
     | (Throw _, c') => totals_same c c'
     end) /\
  (forall seq a sf rp (c : Connection B),
     let r := loadAndSendPacket_response seq a sf rp c in
     match fst r with
     | Ok _ =>
         _totalReceived (snd r) = _totalReceived c /\
         if bool_decide (ilpPacketType rp = Fulfill) then
           _totalDelivered (snd r) = BN.plus (_totalDelivered c) (prepareAmount rp)
           /\ _totalSent (snd r) = BN.plus (_totalSent c) a
         else _totalDelivered (snd r) = _totalDelivered c
              /\ _totalSent (snd r) = _totalSent c
     | Throw _ => totals_same c (snd r)
     end).
Proof.
  intros Hdec. split; [|split; [|split]].
  - intros opts now. repeat split.
  - intros opts now ops op Hops Hop. cbv zeta.
    assert (H0 : totals_ok (constructor (B:=B) opts now)).
    { repeat split; simpl; lia. }
    destruct (run_totals_grow Hdec ops _ Hops H0) as [Hc _].
    split; [exact Hc|].
    assert (H1 : Forall wire_op [op]) by (repeat constructor; exact Hop).
    apply (run_totals_grow Hdec [op] _ H1 Hc).
  - apply handlePrepare_totals.
  - apply loadAndSendPacket_response_totals.
Qed.

(** ** Locally created streams *)

(** the role is the same and the next stream id has moved up by an even
    number *)
Definition next_id_steps (c c' : Connection B) : Prop :=
  isServer c' = isServer c
  /\ exists k, 0 <= k /\ nextStreamId c' = nextStreamId c + 2 * k.

#[local] Instance next_id_steps_preorder : PreOrder next_id_steps.
Proof.
  split.
  - intros c. split; [reflexivity|]. exists 0. lia.
  - intros a b c [H1 (k & Hk & E1)] [H2 (j & Hj & E2)].
    split; [congruence|]. exists (k + j). lia.
Qed.

Lemma next_id_same c c' :
  isServer c' = isServer c -> nextStreamId c' = nextStreamId c -> next_id_steps c c'.
Proof. intros H1 H2. split; [exact H1|]. exists 0. lia. Qed.

Lemma next_id_frame c c' : frame_eq c c' -> next_id_steps c c'.
Proof. intros []. apply next_id_same; assumption. Qed.

Lemma createStream_next_id : keeps next_id_steps createStream.
Proof.
  intros c. unfold createStream, bind, get.
  destruct (remoteMaxStreamId c <? nextStreamId c); simpl.
  - apply next_id_same; reflexivity.
  - split; [reflexivity|]. exists 1. simpl. lia.
Qed.

Lemma run_next_id (ops : list (Op B)) c : next_id_steps c (run ops c).
Proof.
  apply (run_keeps next_id_steps next_id_frame) with (Amt := fun _ => True);
    try (intros; apply next_id_same; reflexivity); auto.
  - intros id. apply (handleNewStream_free _ next_id_frame);
      intros; apply next_id_same; reflexivity.
  - apply createStream_next_id.
  - intros s. apply (removeStreamRecord_free _ next_id_frame);
      intros; apply next_id_same; reflexivity.
  - intros l. apply (handlePrepare_credit_free next_id_steps).
    intros; apply next_id_same; reflexivity.
  - intros id f. apply (update_stream_free next_id_steps).
    intros; apply next_id_same; reflexivity.
  - induction ops as [|[] ops IH]; constructor; simpl; auto.
Qed.

(** C7.  [createStream()] throws, queues a ConnectionStreamIdBlocked frame
    and creates no stream when [nextStreamId] is above [remoteMaxStreamId];
    otherwise it registers a new stream under [nextStreamId], with that id,
    and moves [nextStreamId] up by exactly 2.  [nextStreamId] starts at 1 for
    a client and at 2 for a server and nothing else writes it, so it keeps
    the parity of the role whatever happens to the connection. *)
Theorem C7_createStream :
  (forall (c : Connection B),
     remoteMaxStreamId c < nextStreamId c ->
     exists msg,
       createStream c
       = (Throw (JsError msg),
          set_queuedFrames
            (queuedFrames c ++ [ConnectionStreamIdBlockedFrame (nextStreamId c)]) c)) /\
  (forall (c : Connection B),
     nextStreamId c <= remoteMaxStreamId c ->
     exists stream,
       stream_id stream = nextStreamId c
       /\ createStream c
          = (Ok stream,
             set_nextStreamId (nextStreamId c + 2)
               (set_streams (map_set (nextStreamId c) stream (streams c)) c))) /\
  (forall opts now,
     nextStreamId (constructor (B:=B) opts now) = if opt_isServer opts then 2 else 1) /\
  (forall opts now (ops : list (Op B)),
     let c := run ops (constructor opts now) in
     (if opt_isServer opts then 2 else 1) <= nextStreamId c
     /\ nextStreamId c mod 2 = if opt_isServer opts then 0 else 1).
Proof.
  split; [|split; [|split]].
  - intros c Hlt. unfold createStream, bind, get.
    destruct (Z.ltb_spec (remoteMaxStreamId c) (nextStreamId c)); [|lia].
    eexists. reflexivity.
  - intros c Hle. unfold createStream, bind, get.
    destruct (Z.ltb_spec (remoteMaxStreamId c) (nextStreamId c)); [lia|].
    eexists. split; [apply newDataAndMoneyStream_id|]. reflexivity.
  - reflexivity.
  - intros opts now ops. cbv zeta.
    destruct (run_next_id ops (constructor opts now)) as [_ (k & Hk & ->)].
    simpl. destruct (opt_isServer opts); split; try lia.
    + replace (2 + 2 * k) with ((1 + k) * 2) by lia. apply Z.mod_mul. lia.
    + replace (1 + 2 * k) with (1 + k * 2) by lia.
      rewrite Z.mod_add by lia. reflexivity.
Qed.

(** ** Streams opened by the peer *)

(** the id is in the registry or recorded as closed *)
Definition known (id : Z) (c : Connection B) : Prop :=
  map_has id (streams c) = true \/ id ∈ closedStreams c.

Definition is_announce (id : Z) (e : Effect) : bool :=
  match e with
  | Emitted (EvStream i) => Z.eqb i id
  | _ => false
  end.

(** how many ['stream'] events the trace has for the id *)
Definition announced (id : Z) (tr : list Effect) : nat :=
  length (List.filter (is_announce id) tr).

(** no stream has been announced twice, and an announced one is known *)
Definition announce_inv (c : Connection B) : Prop :=
  forall id, (announced id (trace c) <= 1)%nat
             /\ ((1 <= announced id (trace c))%nat -> known id c).

Definition registry_steps (c c' : Connection B) : Prop :=
  (forall id, known id c -> known id c') /\ (announce_inv c -> announce_inv c').

#[local] Instance registry_steps_preorder : PreOrder registry_steps.
Proof.
  split.
  - intros c. split; auto.
  - intros a b c [H1 H2] [K1 K2]. split; auto.
Qed.

Lemma announced_stream_events id tr :
  announced id (stream_events tr) = announced id tr.
Proof.
  unfold announced, stream_events. induction tr as [|e tr IH]; simpl; [reflexivity|].
  destruct e as [[]| | | | | ]; simpl; try exact IH.
  destruct (Z.eqb id0 id); simpl; rewrite IH; reflexivity.
Qed.

Lemma announced_app id tr e :
  announced id (tr ++ [e]) = (announced id tr + if is_announce id e then 1 else 0)%nat.
Proof.
  unfold announced. rewrite List.filter_app, length_app. simpl.
  destruct (is_announce id e); reflexivity.
Qed.

Lemma map_has_credits id (ss ss' : list (Z * Stream B)) :
  credits ss = credits ss' -> map_has id ss = map_has id ss'.
Proof.
  unfold map_has. revert ss'.
  induction ss as [|[k v] ss IH]; intros [|[k' v'] ss']; simpl; try discriminate;
    [reflexivity|].
  intros [= -> _ Hc]. destruct (Z.eqb id k'); [reflexivity|]. apply IH, Hc.
Qed.

Lemma map_has_map_set id k (v : Stream B) ss :
  map_has id (map_set k v ss) = Z.eqb id k || map_has id ss.
Proof.
  unfold map_has. induction ss as [|[k' v'] ss IH]; simpl.
  - destruct (Z.eqb id k); reflexivity.
  - destruct (Z.eqb_spec k k') as [->|Hne]; simpl.
    + destruct (Z.eqb id k'); reflexivity.
    + destruct (Z.eqb_spec id k'); simpl.
      * subst. destruct (Z.eqb_spec k' k); [congruence|reflexivity].
      * exact IH.
Qed.

Lemma map_has_map_update id k (f : Stream B -> Stream B) ss :
  map_has id (map_update k f ss) = map_has id ss.
Proof.
  unfold map_update. destruct (map_get k ss) eqn:Hk; [|reflexivity].
  rewrite map_has_map_set. destruct (Z.eqb_spec id k) as [->|]; [|reflexivity].
  unfold map_has. rewrite Hk. reflexivity.
Qed.

Lemma map_has_map_delete id k (ss : list (Z * Stream B)) :
  id <> k -> map_has id (map_delete k ss) = map_has id ss.
Proof.
  intros Hne. unfold map_has. induction ss as [|[k' v'] ss IH]; simpl; [reflexivity|].
  destruct (Z.eqb_spec k k') as [->|Hne']; simpl.
  - destruct (Z.eqb_spec id k'); [congruence|reflexivity].
  - destruct (Z.eqb id k'); [reflexivity|exact IH].
Qed.

Lemma registry_same c c' :
  (forall id, known id c -> known id c') ->
  stream_events (trace c') = stream_events (trace c) -> registry_steps c c'.
Proof.
  intros Hk Htr. split; [exact Hk|]. intros Hinv id.
  rewrite <- announced_stream_events, Htr, announced_stream_events.
  destruct (Hinv id) as [H1 H2]. split; [exact H1|]. intros H. apply Hk, H2, H.
Qed.

Lemma registry_frame c c' : frame_eq c c' -> registry_steps c c'.
Proof.
  intros []. apply registry_same; [|assumption].
  intros id [H|H]; [left|right].
  - rewrite (map_has_credits id _ _ fe_credits0). exact H.
  - rewrite fe_closedStreams0. exact H.
Qed.

Lemma update_stream_registry id f : keeps registry_steps (update_stream id f).
Proof.
  intros c. apply registry_same; [|reflexivity].
  intros j [H|H]; [left|right; exact H]. simpl.
  rewrite map_has_map_update. exact H.
Qed.

Lemma createStream_registry : keeps registry_steps createStream.
Proof.
  intros c. unfold createStream, bind, get.
  destruct (remoteMaxStreamId c <? nextStreamId c); simpl.
  - apply registry_same; [|reflexivity]. intros j [H|H]; [left|right]; exact H.
  - apply registry_same; [|reflexivity]. intros j [H|H]; [left|right; exact H].
    simpl. rewrite map_has_map_set, H. apply orb_true_r.
Qed.

Lemma removeStreamRecord_registry s : keeps registry_steps (removeStreamRecord s).
Proof.
  intros c. unfold removeStreamRecord, bind, modify, when, push_queuedFrames, modify.
  destruct (negb (_sentEnd s)); simpl;
    (apply registry_same; [|reflexivity]);
    intros j Hj; simpl;
    (destruct (decide (j = stream_id s)) as [->|Hne];
     [right; simpl; set_solver
     |destruct Hj as [H|H];
      [left; simpl; rewrite map_has_map_delete by exact Hne; exact H
      |right; simpl; set_solver]]).
Qed.

Lemma handleNewStream_registry id : keeps registry_steps (handleNewStream id).
Proof.
  intros c. unfold handleNewStream. unfold bind at 1. unfold get.
  destruct (map_has id (streams c) || isClosedStream id c) eqn:Hknown;
    [reflexivity|].
  assert (Hnot : ~ known id c).
  { apply orb_false_elim in Hknown as [H1 H2]. intros [H|H]; [congruence|].
    unfold isClosedStream in H2. apply bool_decide_eq_false in H2. contradiction. }
  pose proof (push_queuedFrames_keeps registry_steps registry_frame) as Hpush.
  pose proof (safeEmit_error_keeps registry_steps registry_frame) as Herr.
  destruct (isServer c && (Z.rem id 2 =? 0)).
  { apply (keeps_bind registry_steps); [apply Hpush|intros _].
    apply (keeps_bind registry_steps); [apply Herr|intros _]. apply (keeps_throw registry_steps). }
  destruct (negb (isServer c) && (Z.rem id 2 =? 1)).
  { apply (keeps_bind registry_steps); [apply Hpush|intros _].
    apply (keeps_bind registry_steps); [apply Herr|intros _]. apply (keeps_throw registry_steps). }
  destruct (maxStreamId c <? id).
  { apply (keeps_bind registry_steps); [apply Hpush|intros _].
    apply (keeps_bind registry_steps); [apply Herr|intros _]. apply (keeps_throw registry_steps). }
  set (stream := newDataAndMoneyStream id (isServer c)).
  assert (Hstep : forall c1 : Connection B,
             streams c1 = streams c -> closedStreams c1 = closedStreams c ->
             trace c1 = trace c ->
             registry_steps c
               (snd (safeEmit (EvStream id)
                       (set_streams (map_set id stream (streams c1)) c1)))).
  { intros c1 Hs Hc Ht. unfold safeEmit, bind, log_effect, modify. simpl.
    etransitivity; [|apply (fire_listeners_keeps registry_steps registry_frame)].
    split.
    - intros j [H|H]; [left|right]; simpl.
      + rewrite map_has_map_set, Hs, H. apply orb_true_r.
      + rewrite Hc. exact H.
    - intros Hinv j. simpl. rewrite Ht, announced_app. simpl.
      destruct (Hinv j) as [H1 H2].
      destruct (Z.eqb_spec id j) as [<-|Hne].
      + assert (announced id (trace c) = 0%nat) as ->.
        { destruct (announced id (trace c)) eqn:E; [reflexivity|].
          exfalso. apply Hnot, H2. lia. }
        split; [lia|]. intros _. left. simpl.
        rewrite map_has_map_set, Z.eqb_refl. reflexivity.
      + rewrite Nat.add_0_r. split; [exact H1|]. intros H.
        destruct (H2 H) as [K|K]; [left|right]; simpl.
        * rewrite map_has_map_set, Hs, K. apply orb_true_r.
        * rewrite Hc. exact K. }
  unfold when, bind, push_queuedFrames, modify.
  destruct (3 * maxStreamId c <? 4 * id);
    [apply (Hstep (set_queuedFrames
                     (queuedFrames c ++ [ConnectionMaxStreamIdFrame (maxStreamId c)]) c))
    |apply (Hstep c)]; reflexivity.
Qed.

Lemma run_registry (ops : list (Op B)) c : registry_steps c (run ops c).
Proof.
  assert (Hset : forall (f : Connection B -> Connection B) c0,
             streams (f c0) = streams c0 -> closedStreams (f c0) = closedStreams c0 ->
             trace (f c0) = trace c0 -> registry_steps c0 (f c0)).
  { intros f c0 Hs Hc Ht. apply registry_same; [|rewrite Ht; reflexivity].
    intros j [H|H]; [left; rewrite Hs|right; rewrite Hc]; exact H. }
  apply (run_keeps registry_steps registry_frame) with (Amt := fun _ => True);
    auto; try (intros; apply Hset; reflexivity).
  - intros a c0. apply registry_same.
    + intros j [H|H]; [left|right]; exact H.
    + simpl. apply stream_events_app. reflexivity.
  - apply handleNewStream_registry.
  - apply createStream_registry.
  - apply removeStreamRecord_registry.
  - intros l. unfold handlePrepare_credit. apply (keeps_forM_ registry_steps).
    intros [k a]. apply update_stream_registry.
  - apply update_stream_registry.
  - induction ops as [|[] ops IH]; constructor; simpl; auto.
Qed.

(** C10.  [handleNewStream(id)] with [id] in the registry or recorded in
    [closedStreams] returns without touching the connection: no field
    changes, so no frame is queued and no ['stream'] event is emitted.  A
    call that returns leaves the id known, so a second call does nothing; and
    whatever happens to the connection, a stream id is announced with a
    ['stream'] event at most once. *)
Theorem C10_handleNewStream_once :
  (forall (c : Connection B) id,
     map_has id (streams c) || isClosedStream id c = true ->
     handleNewStream id c = (Ok tt, c)) /\
  (forall (c : Connection B) id,
     fst (handleNewStream id c) = Ok tt ->
     let c1 := exec (handleNewStream id) c in
     handleNewStream id c1 = (Ok tt, c1)) /\
  (forall opts now (ops : list (Op B)) id,
     (announced id (trace (run ops (constructor opts now))) <= 1)%nat).
Proof.
  assert (Ha : forall (c : Connection B) id,
             map_has id (streams c) || isClosedStream id c = true ->
             handleNewStream id c = (Ok tt, c)).
  { intros c id Hk. unfold handleNewStream, bind, get. rewrite Hk. reflexivity. }
  split; [exact Ha|split].
  - intros c id Hok. cbv zeta. apply Ha.
    destruct (map_has id (streams c) || isClosedStream id c) eqn:Hk.
    + unfold exec. rewrite (Ha c id Hk). exact Hk.
    + assert (Hkn : known id (exec (handleNewStream id) c)).
      { unfold exec. destruct (handleNewStream id c) as [res c1] eqn:E.
        simpl in Hok |- *. subst res.
        unfold handleNewStream in E. unfold bind at 1 in E. unfold get in E.
        rewrite Hk in E.
        destruct (isServer c && (Z.rem id 2 =? 0)).
        { unfold bind, push_queuedFrames, modify in E.
          destruct (safeEmit _ _) as [[[]|e] c2]; discriminate. }
        destruct (negb (isServer c) && (Z.rem id 2 =? 1)).
        { unfold bind, push_queuedFrames, modify in E.
          destruct (safeEmit _ _) as [[[]|e] c2]; discriminate. }
        destruct (maxStreamId c <? id).
        { unfold bind, push_queuedFrames, modify in E.
          destruct (safeEmit _ _) as [[[]|e] c2]; discriminate. }
        assert (Hstep : forall c0 : Connection B,
                  known id (snd (safeEmit (EvStream id)
                     (set_streams
                        (map_set id (newDataAndMoneyStream id (isServer c)) (streams c0))
                        c0)))).
        { intros c0. unfold safeEmit, bind, log_effect, modify. simpl.
          apply (proj1 (fire_listeners_keeps registry_steps registry_frame _ _)).
          left. simpl. rewrite map_has_map_set, Z.eqb_refl. reflexivity. }
        apply (f_equal snd) in E. simpl in E. subst c1.
        unfold when, bind, push_queuedFrames, modify.
        destruct (3 * maxStreamId c <? 4 * id);
          [apply (Hstep (set_queuedFrames
                     (queuedFrames c ++ [ConnectionMaxStreamIdFrame (maxStreamId c)]) c))
          |apply (Hstep c)]. }
      destruct Hkn as [H|H]; [rewrite H; reflexivity|].
      unfold isClosedStream. rewrite bool_decide_eq_true_2 by exact H.
      apply orb_true_r.
  - intros opts now ops id.
    destruct (run_registry ops (constructor opts now)) as [_ Hinv].
    apply Hinv. intros j. unfold announced. simpl. split; lia.
Qed.

(** ** The packet-amount limits after a fulfilled packet *)

Definition limits_same (c c' : Connection B) : Prop :=
  testMaximumPacketAmount c' = testMaximumPacketAmount c
  /\ maximumPacketAmount c' = maximumPacketAmount c.

#[local] Instance limits_same_preorder : PreOrder limits_same.
Proof.
  split.
  - intros c. split; reflexivity.
  - intros a b c [H1 H2] [K1 K2]. split; congruence.
Qed.





(** ** The idle timer *)

(** C4 (what the code does).  An [idleTimeout] option of 0 is replaced by the
    default of 60 000 ms in the constructor, so the timer is not disabled:
    once [connect()] has succeeded a timer is pending, and when it fires
    after 60 000 ms without activity the connection is destroyed. *)
Theorem C4_idle_timeout_zero_still_times_out opts now :
  opt_idleTimeout opts = Some 0 ->
  let c0 := constructor (B:=B) opts now in
  let c1 := exec connect_resolved c0 in
  let c2 := run [OpTick (now + 60000); OpFireTimer (now + 60000)] c1 in
  idleTimeout c0 = 60000
  /\ timers c1 = [now + 60000]
  /\ trace c2
     = [Spawned (TaskDestroy (Some (JsError "Connection timed out due to inactivity")))].
Proof.
  intros H0. cbv zeta. unfold constructor. rewrite H0. simpl.
  split; [reflexivity|]. unfold exec, connect_resolved, startIdleTimer, bind, modify, get.
  simpl. rewrite Z.sub_diag, Z.sub_0_r. split; [reflexivity|].
  destruct (Z.leb_spec now (now + 60000)); [|lia]. simpl.
  rewrite bool_decide_eq_true_2 by (apply list_elem_of_singleton; reflexivity).
  rewrite Z.leb_refl. simpl.
  unfold fireTimer, testIdle, bind, modify, get, spawn, log_effect, modify. simpl.
  unfold DEFAULT_IDLE_TIMEOUT.
  destruct (Z.leb_spec 60000 (now + 60000 - now)); [|lia]. reflexivity.
Qed.

(** ** Incoming money: allocation, rejection, crediting *)

(** bignumber.js rounds a quotient to 20 decimals before [integerValue]
    floors it; as long as the divisor is below 2·10^20 the outcome is the
    floor of the exact quotient. *)
Lemma dividedBy_floor_exact a b :
  0 <= a -> 0 < b < 2 * BN.scale ->
  BN.floor_scaled (BN.dividedBy_scaled a b) = a / b.
Proof.
  intros Ha [Hb Hb2]. unfold BN.floor_scaled, BN.dividedBy_scaled, BN.round_half_up.
  assert (HS : 0 < BN.scale) by reflexivity.
  generalize dependent BN.scale. intros S Hb2 HS.
  destruct (Z.eq_dec a 0) as [->|Hne].
  - simpl. rewrite Z.div_0_l by lia. reflexivity.
  - rewrite (Z.sgn_pos (a * S)) by nia. rewrite (Z.sgn_pos b) by lia.
    rewrite !Z.abs_eq by nia. rewrite !Z.mul_1_l.
    pose proof (Z.div_mod a b ltac:(lia)) as Hdm.
    pose proof (Z.mod_pos_bound a b Hb) as Hr.
    set (q := a / b) in *. set (r := a mod b) in *.
    assert (E : 2 * (a * S) + b = (q * S) * (2 * b) + (2 * r * S + b)) by nia.
    rewrite E, Z.div_add_l by lia.
    symmetry. apply (Z.div_unique _ _ _ ((2 * r * S + b) / (2 * b))); [|lia].
    left. split.
    + apply Z.div_pos; nia.
    + apply Z.div_lt_upper_bound; nia.
Qed.

(** the shares of the [StreamMoney] frames of a packet *)
Definition sumShares (fs : list Frame) : Z :=
  fold_right
    (fun f acc => match f with StreamMoneyFrame _ (BN.Fin s) => s + acc | _ => acc end)
    0 fs.

Lemma totalMoneyShares_wire fs :
  Forall wire_frame fs ->
  totalMoneyShares fs = BN.Fin (sumShares fs) /\ 0 <= sumShares fs.
Proof.
  intros Hw. unfold totalMoneyShares.
  assert (Hgen : forall z, 0 <= z ->
            fold_left
              (fun sum frame =>
                 match frame with
                 | StreamMoneyFrame _ shares => BN.plus sum shares
                 | _ => sum
                 end) fs (BN.Fin z) = BN.Fin (z + sumShares fs)
            /\ 0 <= sumShares fs).
  { induction Hw as [|f fs Hf _ IH]; intros z Hz; simpl.
    - split; [f_equal; lia|lia].
    - destruct f; simpl in *; try (apply IH; assumption).
      destruct shares as [| |s]; simpl in Hf; try tauto.
      destruct (IH (z + s) ltac:(lia)) as [E1 E2]. rewrite E1.
      split; [f_equal; lia|lia]. }
  destruct (Hgen 0 ltac:(lia)) as [E1 E2]. rewrite E1. split; [reflexivity|exact E2].
Qed.

(** a [StreamMoney] frame passes both checks of the loop *)
Definition accepts (c : Connection B) (prepareAmt total : BN.t) (f : Frame) : bool :=
  match f with
  | StreamMoneyFrame id shares =>
      match map_get id (streams c) with
      | Some stream =>
          negb (BN.isLessThan (BN.times_1_01_ceil (_getAmountStreamCanReceive stream))
                              (streamAmount prepareAmt shares total))
          && isOpen stream
      | None => false
      end
  | _ => true
  end.

(** the [amountsToReceive] of frames that pass *)
Definition allocations (prepareAmt total : BN.t) (fs : list Frame) : list (Z * BN.t) :=
  flat_map
    (fun f =>
       match f with
       | StreamMoneyFrame id shares => [(id, streamAmount prepareAmt shares total)]
       | _ => []
       end) fs.

Lemma handlePrepare_amounts_accepted rp p total pre rest rf acc (c : Connection B) :
  forallb (accepts c (amount p) total) pre = true ->
  handlePrepare_amounts rp p total (pre ++ rest) rf acc c
  = handlePrepare_amounts rp p total rest rf
      (acc ++ allocations (amount p) total pre) c.
Proof.
  revert acc. induction pre as [|f pre IH]; intros acc Hall; simpl.
  - rewrite app_nil_r. reflexivity.
  - simpl in Hall. apply andb_prop in Hall as [Hf Hpre].
    destruct f; simpl in *; try (apply IH; exact Hpre).
    unfold bind at 1. unfold get.
    destruct (map_get streamId (streams c)) as [stream|]; [|discriminate].
    apply andb_prop in Hf as [H1 H2]. apply negb_true_iff in H1.
    rewrite H1, H2. simpl. rewrite IH by exact Hpre.
    rewrite <- app_assoc. reflexivity.
Qed.

(** ** A rejected prepare credits no stream *)

(** every stream of [c] is still there in [c'] and has received what it had,
    and a stream that is new in [c'] has received what a fresh stream has *)
Definition not_credited (c c' : Connection B) : Prop :=
  isServer c' = isServer c
  /\ (forall id s, map_get id (streams c) = Some s ->
        exists s', map_get id (streams c') = Some s'
                   /\ totalReceived s' = totalReceived s)
  /\ (forall id s', map_get id (streams c') = Some s' ->
        map_get id (streams c) = None ->
        totalReceived s' = totalReceived (newDataAndMoneyStream id (isServer c))).

#[local] Instance not_credited_preorder : PreOrder not_credited.
Proof.
  split.
  - intros c. split; [reflexivity|]. split.
    + intros id s H. exists s. split; [exact H|reflexivity].
    + intros id s' H1 H2. congruence.
  - intros a b c (A1 & A2 & A3) (B1 & B2 & B3). split; [congruence|]. split.
    + intros id s H. destruct (A2 id s H) as (s1 & H1 & E1).
      destruct (B2 id s1 H1) as (s2 & H2 & E2). exists s2. split; [exact H2|congruence].
    + intros id s2 H2 Hnone.
      destruct (map_get id (streams b)) as [s1|] eqn:Hb.
      * destruct (B2 id s1 Hb) as (s2' & H2' & E2).
        rewrite H2 in H2'. injection H2' as <-. rewrite E2. apply (A3 id s1 Hb Hnone).
      * rewrite (B3 id s2 H2 Hb), A1. reflexivity.
Qed.

Lemma map_get_credits id (ss ss' : list (Z * Stream B)) :
  credits ss = credits ss' ->
  option_map totalReceived (map_get id ss) = option_map totalReceived (map_get id ss').
Proof.
  revert ss'. induction ss as [|[k v] ss IH]; intros [|[k' v'] ss']; simpl;
    try discriminate; [reflexivity|].
  intros [= -> Hv Hc]. destruct (Z.eqb id k'); [simpl; congruence|]. apply IH, Hc.
Qed.

Lemma not_credited_frame c c' : frame_eq c c' -> not_credited c c'.
Proof.
  intros []. split; [assumption|]. split.
  - intros id s H. pose proof (map_get_credits id _ _ fe_credits0) as E.
    rewrite H in E. destruct (map_get id (streams c')) as [s'|]; [|discriminate].
    exists s'. split; [reflexivity|]. simpl in E. congruence.
  - intros id s' H Hnone. pose proof (map_get_credits id _ _ fe_credits0) as E.
    rewrite H, Hnone in E. discriminate.
Qed.

Lemma map_get_map_set j k (v : Stream B) ss :
  map_has k ss = false ->
  map_get j (map_set k v ss) = if Z.eqb j k then Some v else map_get j ss.
Proof.
  unfold map_has. induction ss as [|[k' v'] ss IH]; simpl.
  - intros _. reflexivity.
  - destruct (Z.eqb_spec k k') as [->|Hne]; [discriminate|]. intros Hk. simpl.
    destruct (Z.eqb_spec j k') as [->|Hne'].
    + destruct (Z.eqb_spec k' k); [congruence|reflexivity].
    + apply IH, Hk.
Qed.

Lemma handleNewStream_not_credited id : keeps not_credited (handleNewStream id).
Proof.
  intros c. unfold handleNewStream. unfold bind at 1. unfold get.
  destruct (map_has id (streams c) || isClosedStream id c) eqn:Hknown;
    [reflexivity|].
  apply orb_false_elim in Hknown as [Hnew _].
  pose proof (push_queuedFrames_keeps not_credited not_credited_frame) as Hpush.
  pose proof (safeEmit_error_keeps not_credited not_credited_frame) as Herr.
  destruct (isServer c && (Z.rem id 2 =? 0)).
  { apply (keeps_bind not_credited); [apply Hpush|intros _].
    apply (keeps_bind not_credited); [apply Herr|intros _].
    apply (keeps_throw not_credited). }
  destruct (negb (isServer c) && (Z.rem id 2 =? 1)).
  { apply (keeps_bind not_credited); [apply Hpush|intros _].
    apply (keeps_bind not_credited); [apply Herr|intros _].
    apply (keeps_throw not_credited). }
  destruct (maxStreamId c <? id).
  { apply (keeps_bind not_credited); [apply Hpush|intros _].
    apply (keeps_bind not_credited); [apply Herr|intros _].
    apply (keeps_throw not_credited). }
  set (stream := newDataAndMoneyStream id (isServer c)).
  assert (Hstep : forall c1 : Connection B,
             streams c1 = streams c -> isServer c1 = isServer c ->
             not_credited c
               (snd (safeEmit (EvStream id)
                       (set_streams (map_set id stream (streams c1)) c1)))).
  { intros c1 Hs Hsrv. unfold safeEmit, bind, log_effect, modify. simpl.
    etransitivity; [|apply (fire_listeners_keeps not_credited not_credited_frame)].
    split; [exact Hsrv|]. simpl. rewrite Hs. split.
    - intros j s Hj. rewrite map_get_map_set by exact Hnew.
      destruct (Z.eqb_spec j id) as [->|Hne].
      + unfold map_has in Hnew. rewrite Hj in Hnew. discriminate.
      + exists s. split; [exact Hj|reflexivity].
    - intros j s'. rewrite map_get_map_set by exact Hnew.
      destruct (Z.eqb_spec j id) as [->|Hne].
      + intros [= <-] _. reflexivity.
      + intros H1 H2. congruence. }
  unfold when, bind, push_queuedFrames, modify.
  destruct (3 * maxStreamId c <? 4 * id);
    [apply (Hstep (set_queuedFrames
                     (queuedFrames c ++ [ConnectionMaxStreamIdFrame (maxStreamId c)]) c))
    |apply (Hstep c)]; reflexivity.
Qed.

Lemma handlePrepare_fulfill_never_throws p checked :
  never_throws (handlePrepare_fulfill p checked).
Proof.
  destruct checked as [[[rp ful] rf] amts]. unfold handlePrepare_fulfill.
  apply never_throws_bind; [apply handlePrepare_credit_never_throws|intros _].
  apply never_throws_bind; [apply handlePrepare_tellPeer_never_throws|intros told].
  intros c. eexists. reflexivity.
Qed.

Lemma handlePrepare_rejected_not_credited p (c : Connection B) e c' :
  handlePrepare p c = (Throw e, c') -> not_credited c c'.
Proof.
  unfold handlePrepare, bind.
  pose proof (handlePrepare_check_keeps not_credited not_credited_frame
                handleNewStream_not_credited p c) as H1.
  destruct (handlePrepare_check p c) as [[chk|e1] c1]; simpl in H1.
  - destruct (handlePrepare_fulfill_never_throws p chk c1) as [r Hr].
    destruct (handlePrepare_fulfill p chk c1) as [[r'|e2] c2]; simpl in Hr;
      discriminate.
  - intros [= _ <-]. exact H1.
Qed.

(** ** The exchange-rate prober *)

(** the volleys so far, the two packet-amount limits and the rate are the
    same *)
Definition probe_same (c c' : Connection B) : Prop :=
  volleys (trace c') = volleys (trace c)
  /\ maximumPacketAmount c' = maximumPacketAmount c
  /\ testMaximumPacketAmount c' = testMaximumPacketAmount c
  /\ exchangeRate c' = exchangeRate c.

#[local] Instance probe_same_preorder : PreOrder probe_same.
Proof.
  split.
  - intros c. repeat split.
  - intros a b c (A1 & A2 & A3 & A4) (B1 & B2 & B3 & B4). repeat split; congruence.
Qed.

Lemma probe_same_frame c c' : frame_eq c c' -> probe_same c c'.
Proof. intros []. repeat split; assumption. Qed.

Lemma mapM_length {A C} (f : A -> M B C) l c ys c' :
  mapM f l c = (Ok ys, c') -> length ys = length l.
Proof.
  revert c ys c'. induction l as [|x l IH]; intros c ys c'; simpl.
  - intros [= <- _]. reflexivity.
  - unfold bind. destruct (f x c) as [[y|e] c1]; [|discriminate].
    destruct (mapM f l c1) as [[ys'|e] c2] eqn:E; [|discriminate].
    intros [= <- _]. simpl. f_equal. eapply IH, E.
Qed.

(** the maximum packet amounts a volley tells of, one for each test packet *)
Definition derived_maxima (testPacketAmounts : list BN.t) (results : list TestResult)
    : list BN.t :=
  map (fun '(a, r) => maxPacketAmount_of a r) (combine testPacketAmounts results).

Lemma sendTestPacketVolley_spec plugin amts (c : Connection B) :
  let r := sendTestPacketVolley plugin amts c in
  volleys (trace (snd r)) = volleys (trace c) ++ [amts]
  /\ maximumPacketAmount (snd r) = maximumPacketAmount c
  /\ testMaximumPacketAmount (snd r) = testMaximumPacketAmount c
  /\ exchangeRate (snd r) = exchangeRate c
  /\ (forall v, fst r = Ok v ->
        exists results, length results = length amts
                        /\ maxPacketAmounts v = derived_maxima amts results).
Proof.
  cbv zeta. destruct (sendTestPacketVolley plugin amts c) as [r c'] eqn:E. simpl.
  unfold sendTestPacketVolley in E. unfold bind at 1 in E.
  unfold log_effect, modify in E.
  pose proof (volleys_app (trace c) (TestVolley amts)) as H0.
  unfold bind at 1 in E.
  pose proof (keeps_mapM probe_same (sendTestPacket_request plugin) amts
                (sendTestPacket_request_keeps probe_same probe_same_frame plugin)
                (set_trace (trace c ++ [TestVolley amts]) c)) as H1.
  destruct (mapM (sendTestPacket_request plugin) amts _) as [[sent|e] c1] eqn:E1;
    simpl in H1; destruct H1 as (A1 & A2 & A3 & A4); simpl in A1, A2, A3, A4;
    rewrite H0 in A1.
  2:{ injection E as <- <-.
      refine (conj _ (conj _ (conj _ (conj _ _)))); congruence. }
  unfold bind at 1 in E.
  pose proof (keeps_mapM probe_same
                (fun '(req, reply) => sendTestPacket_response req reply) sent
                (fun x => let '(req, reply) := x in
                          sendTestPacket_response_keeps probe_same probe_same_frame
                            req reply) c1) as H2.
  destruct (mapM _ sent c1) as [[results|e] c2] eqn:E2; simpl in H2;
    destruct H2 as (B1 & B2 & B3 & B4).
  2:{ injection E as <- <-.
      refine (conj _ (conj _ (conj _ (conj _ _)))); congruence. }
  destruct (fold_left volley_reduce _ _) as [[md er] pe].
  injection E as <- <-.
  refine (conj _ (conj _ (conj _ (conj _ _)))); try congruence.
  intros v [= <-]. exists results. split; [|reflexivity].
  rewrite (mapM_length _ _ _ _ _ E2). apply (mapM_length _ _ _ _ _ E1).
Qed.

Definition zero_maximum_error : Error :=
  JsError "Cannot send. Path has a Maximum Packet Amount of 0".

Lemma determineExchangeRate_attempt_spec plugin d amts (c : Connection B) :
  let r := determineExchangeRate_attempt plugin d amts c in
  volleys (trace (snd r)) = volleys (trace c) ++ [amts]
  /\ match fst (sendTestPacketVolley plugin amts c) with
     | Throw e =>
         fst r = Throw e
         /\ maximumPacketAmount (snd r) = maximumPacketAmount c
         /\ testMaximumPacketAmount (snd r) = testMaximumPacketAmount c
     | Ok v =>
         (exists results,
            length results = length amts
            /\ maximumPacketAmount (snd r)
               = BN.minimum (derived_maxima amts results ++ [maximumPacketAmount c]))
         /\ testMaximumPacketAmount (snd r) = maximumPacketAmount (snd r)
         /\ (BN.isEqualTo (maximumPacketAmount (snd r)) (BN.Fin 0) = true ->
             fst r = Throw zero_maximum_error)
     end.
Proof.
  cbv zeta. destruct (determineExchangeRate_attempt plugin d amts c) as [r c'] eqn:E.
  simpl. unfold determineExchangeRate_attempt in E. unfold bind at 1 in E.
  destruct (sendTestPacketVolley_spec plugin amts c) as (V1 & V2 & V3 & V4 & V5).
  destruct (sendTestPacketVolley plugin amts c) as [[v|e] c1]; simpl in *.
  2:{ injection E as <- <-. repeat split; assumption. }
  destruct (V5 v eq_refl) as (results & Hlen & Hmax).
  unfold bind, modify, get in E. simpl in E. rewrite V2, Hmax in E.
  set (m := BN.minimum (derived_maxima amts results ++ [maximumPacketAmount c])) in *.
  assert (Hres : exists results0,
             length results0 = length amts
             /\ m = BN.minimum (derived_maxima amts results0 ++ [maximumPacketAmount c])).
  { exists results. split; [exact Hlen|reflexivity]. }
  clearbody m.
  destruct (BN.isEqualTo m (BN.Fin 0)) eqn:Hz.
  { injection E as <- <-. simpl. repeat split; assumption. }
  destruct (minExchangeRatePrecision c1 <=? maxDigits v).
  { injection E as <- <-. simpl. repeat split; try assumption.
    intros H. rewrite H in Hz. discriminate. }
  destruct (existsb isTemporary (packetErrors v)).
  - unfold log_effect, modify in E. injection E as <- <-. simpl.
    rewrite volleys_app_other by reflexivity.
    repeat split; try assumption. intros H. rewrite H in Hz. discriminate.
  - injection E as <- <-. simpl. repeat split; try assumption.
    intros H. rewrite H in Hz. discriminate.
Qed.

Lemma determineExchangeRate_loop_volleys plugin n d amts (c : Connection B) :
  exists vs,
    volleys (trace (snd (determineExchangeRate_loop plugin n d amts c)))
    = volleys (trace c) ++ vs
    /\ (length vs <= n)%nat
    /\ (exchangeRate c = None -> amts <> [] -> n <> 0%nat ->
        exists vs', vs = amts :: vs').
Proof.
  revert d amts c. induction n as [|n IH]; intros d amts c; simpl;
    unfold bind at 1; unfold get.
  - exists []. rewrite app_nil_r.
    destruct (exchangeRate c), amts; simpl; repeat split; try lia; congruence.
  - destruct (exchangeRate c) eqn:Hrate.
    { exists []. rewrite app_nil_r. simpl. repeat split; try lia; congruence. }
    destruct amts as [|a amts].
    { exists []. rewrite app_nil_r. simpl. repeat split; try lia; congruence. }
    unfold bind at 1.
    destruct (determineExchangeRate_attempt_spec plugin d (a :: amts) c) as [Hv _].
    destruct (determineExchangeRate_attempt plugin d (a :: amts) c) as [[next|e] c1];
      simpl in Hv |- *.
    + destruct next as [[d' amts']|].
      * destruct (IH d' amts' c1) as (vs & E & Hlen & _).
        exists ((a :: amts) :: vs). rewrite E, Hv, <- app_assoc. simpl.
        repeat split; [lia|]. intros _ _ _. eexists. reflexivity.
      * exists [a :: amts]. simpl. repeat split; [exact Hv|lia|].
        intros _ _ _. eexists. reflexivity.
    + exists [a :: amts]. simpl. repeat split; [exact Hv|lia|].
      intros _ _ _. eexists. reflexivity.
Qed.

Lemma readUInt64BigNum_nonneg data x rest :
  readUInt64BigNum data = Some (x, rest) -> exists z, x = BN.Fin z /\ 0 <= z.
Proof.
  unfold readUInt64BigNum. destruct (length data <? 8)%nat; [discriminate|].
  intros [= <- _]. eexists. split; [reflexivity|].
  assert (Hgen : forall bs acc, 0 <= acc ->
            0 <= fold_left (fun acc b => acc * 256 + Z.of_N (Byte.to_N b)) bs acc).
  { induction bs as [|b bs IH]; intros acc Hacc; simpl; [exact Hacc|].
    apply IH. lia. }
  apply Hgen. lia.
Qed.

Lemma maxOrMin_minimum m rest :
  BN.isNaN m = false -> Forall (fun x => BN.isNaN x = false) rest ->
  let r := BN.maxOrMin BN.isGreaterThan m rest in
  List.In r (m :: rest) /\ BN.le r m /\ Forall (BN.le r) rest.
Proof.
  intros Hm Hrest. revert m Hm. induction Hrest as [|n rest Hn _ IH]; intros m Hm.
  - simpl. split; [left; reflexivity|]. split; [|constructor].
    destruct m as [|[]|z]; try discriminate; unfold BN.le; simpl; auto.
    rewrite Z.compare_refl. exact I.
  - cbn [BN.maxOrMin]. rewrite Hn.
    destruct (BN.isGreaterThan m n) eqn:Hgt.
    + destruct (IH n Hn) as (I1 & I2 & I3). cbv zeta in *.
      split; [right; exact I1|]. split; [|constructor; assumption].
      eapply BN_le_trans; [exact I2|].
      revert Hgt. unfold BN.isGreaterThan, BN.le.
      destruct m as [|[]|m], n as [|[]|n]; simpl; try discriminate; auto.
      destruct (Z.compare_spec m n), (Z.compare_spec n m); try discriminate; auto; lia.
    + destruct (IH m Hm) as (I1 & I2 & I3). cbv zeta in *.
      split; [destruct I1 as [I1|I1]; [left; exact I1|right; right; exact I1]|].
      split; [exact I2|]. constructor; [|exact I3].
      eapply BN_le_trans; [exact I2|].
      revert Hgt. unfold BN.isGreaterThan, BN.le.
      destruct m as [|[]|m], n as [|[]|n]; simpl; try discriminate; auto.
      destruct (Z.compare_spec m n); try discriminate; auto.
Qed.

Lemma determineExchangeRate_loop_throws plugin n d amts e (c : Connection B) :
  exchangeRate c = None -> amts <> [] ->
  fst (determineExchangeRate_attempt plugin d amts c) = Throw e ->
  fst (determineExchangeRate_loop plugin (S n) d amts c) = Throw e.
Proof.
  intros Hrate Hamts He. simpl. unfold bind at 1. unfold get. rewrite Hrate.
  destruct amts as [|a amts]; [congruence|]. unfold bind at 1.
  destruct (determineExchangeRate_attempt plugin d (a :: amts) c) as [[next|e'] c1];
    simpl in He; [discriminate|].
  simpl. injection He as ->. reflexivity.
Qed.

Lemma maxPacketAmount_of_F08 s data rcv mx :
  readF08 data = Some (BN.Fin rcv, BN.Fin mx) -> 0 <= s -> 0 < rcv ->
  maxPacketAmount_of (BN.Fin s) (TestReject "F08" data) = BN.Fin (s * mx / rcv).
Proof.
  intros Hread Hs Hrcv. unfold maxPacketAmount_of. simpl. rewrite Hread. simpl.
  assert (Hmx : 0 <= mx).
  { unfold readF08 in Hread.
    destruct (readUInt64BigNum data) as [[r rest]|]; [|discriminate].
    destruct (readUInt64BigNum rest) as [[m rest']|] eqn:Em; [|discriminate].
    destruct (readUInt64BigNum_nonneg _ _ _ Em) as (z & -> & Hz).
    injection Hread as _ <-. exact Hz. }
  destruct (Z.eqb_spec rcv 0) as [->|_]; [lia|].
  rewrite Z.quot_div_nonneg by nia. reflexivity.
Qed.

End Properties.

(** * Further properties of the methods

    What the methods of [connection.ts] do beyond the statements above, read
    off the code. *)

Section Methods.
Context {B : Type} `{!Externals B}.

(** ** bignumber.js operations on integers *)

Lemma BN_isLessThan_Fin a b : BN.isLessThan (BN.Fin a) (BN.Fin b) = (a <? b).
Proof.
  unfold BN.isLessThan, BN.comparedTo, Z.ltb. destruct (a ?= b); reflexivity.
Qed.

Lemma BN_isGreaterThan_Fin a b : BN.isGreaterThan (BN.Fin a) (BN.Fin b) = (b <? a).
Proof.
  unfold BN.isGreaterThan, BN.comparedTo, Z.ltb. rewrite (Z.compare_antisym a b).
  destruct (a ?= b); reflexivity.
Qed.

Lemma BN_isEqualTo_Fin a b : BN.isEqualTo (BN.Fin a) (BN.Fin b) = (a =? b).
Proof.
  unfold BN.isEqualTo, BN.comparedTo.
  destruct (Z.compare_spec a b), (Z.eqb_spec a b); try reflexivity; lia.
Qed.

Lemma BN_minimum_Fin a b : BN.minimum [BN.Fin a; BN.Fin b] = BN.Fin (Z.min a b).
Proof.
  unfold BN.minimum, BN.maxOrMin. cbn [BN.isNaN]. rewrite BN_isGreaterThan_Fin.
  destruct (Z.ltb_spec b a); f_equal; lia.
Qed.

Lemma BN_maximum_Fin a b : BN.maximum [BN.Fin a; BN.Fin b] = BN.Fin (Z.max a b).
Proof.
  unfold BN.maximum, BN.maxOrMin. cbn [BN.isNaN]. rewrite BN_isLessThan_Fin.
  destruct (Z.ltb_spec a b); f_equal; lia.
Qed.

Lemma BN_dividedToIntegerBy_Fin a b :
  0 <= a -> 0 < b -> BN.dividedToIntegerBy (BN.Fin a) (BN.Fin b) = BN.Fin (a / b).
Proof.
  intros Ha Hb. unfold BN.dividedToIntegerBy.
  destruct (Z.eqb_spec b 0); [lia|]. rewrite Z.quot_div_nonneg by lia. reflexivity.
Qed.

(** ** Connector errors: the packet-amount limits *)

Lemma readF08_wire data r m :
  readF08 data = Some (r, m) ->
  exists rcv mx, r = BN.Fin rcv /\ m = BN.Fin mx /\ 0 <= rcv /\ 0 <= mx.
Proof.
  unfold readF08.
  destruct (readUInt64BigNum data) as [[r0 rest]|] eqn:E1; [|discriminate].
  destruct (readUInt64BigNum rest) as [[m0 rest']|] eqn:E2; [|discriminate].
  intros [= <- <-].
  destruct (readUInt64BigNum_nonneg _ _ _ E1) as (rcv & -> & Hr).
  destruct (readUInt64BigNum_nonneg _ _ _ E2) as (mx & -> & Hm).
  exists rcv, mx. auto.
Qed.

(** [handleConnectorError] for F08, in one step: the two limits it writes
    and whether it throws *)
Lemma handleConnectorError_F08 (c : Connection B) message data amountSent :
  handleConnectorError "F08" message data amountSent c
  = let told :=
      match readF08 data with
      | Some (receivedAmount, maximumAmount) =>
          if BN.isGreaterThan receivedAmount maximumAmount
          then Some (BN.dividedToIntegerBy (BN.times amountSent maximumAmount)
                       receivedAmount)
          else None
      | None => None
      end in
    let newMaximum :=
      match told with
      | Some m => m
      | None => BN.minus amountSent (BN.Fin 1)
      end in
    let newTest :=
      match told with
      | Some m => m
      | None => BN.dividedToIntegerBy newMaximum (BN.Fin 2)
      end in
    (if BN.isEqualTo newMaximum (BN.Fin 0)
     then Throw (JsError "Cannot send. Path has a Maximum Packet Amount of 0")
     else Ok tt,
     set_testMaximumPacketAmount newTest (set_maximumPacketAmount newMaximum c)).
Proof.
  unfold handleConnectorError. change (String.eqb "F08" "F08") with true. cbv iota.
  destruct (readF08 data) as [[r m]|]; [destruct (BN.isGreaterThan r m)|];
    cbv zeta; unfold bind, modify, get, when; cbn [fst snd maximumPacketAmount
      set_maximumPacketAmount set_testMaximumPacketAmount];
    match goal with |- context [BN.isEqualTo ?x ?y] => destruct (BN.isEqualTo x y) end;
    reflexivity.
Qed.

(** X1.  An F08 reject for a packet of [a >= 1] always leaves
    [maximumPacketAmount] below [a], with [testMaximumPacketAmount] at most
    that: floor (a * maximum / received) for both when the reject tells
    received > maximum, else a - 1 and floor ((a - 1) / 2).  The call throws
    exactly when the new maximum is 0; it neither sleeps nor touches the retry
    delay. *)
Theorem X1_F08_lowers_maximum (c : Connection B) (message : string) (data : bytes)
    (a : Z) :
  1 <= a ->
  let r := handleConnectorError "F08" message data (BN.Fin a) c in
  exists m t,
    maximumPacketAmount (snd r) = BN.Fin m
    /\ testMaximumPacketAmount (snd r) = BN.Fin t
    /\ 0 <= t <= m /\ m < a
    /\ (m = 0 ->
        fst r = Throw (JsError "Cannot send. Path has a Maximum Packet Amount of 0"))
    /\ (m <> 0 -> fst r = Ok tt)
    /\ (forall rcv mx,
          readF08 data = Some (BN.Fin rcv, BN.Fin mx) -> mx < rcv ->
          m = a * mx / rcv /\ t = m)
    /\ (forall rcv mx,
          readF08 data = Some (BN.Fin rcv, BN.Fin mx) -> rcv <= mx ->
          m = a - 1 /\ t = (a - 1) / 2)
    /\ (readF08 data = None -> m = a - 1 /\ t = (a - 1) / 2)
    /\ retryDelay (snd r) = retryDelay c
    /\ trace (snd r) = trace c.
Proof.
  intros Ha. cbv zeta. rewrite handleConnectorError_F08. cbv zeta.
  assert (Hzero : forall m, BN.isEqualTo (BN.Fin m) (BN.Fin 0) = bool_decide (m = 0)).
  { intros m. unfold BN.isEqualTo. cbn.
    destruct (Z.compare_spec m 0); symmetry;
      [apply bool_decide_eq_true_2|apply bool_decide_eq_false_2
      |apply bool_decide_eq_false_2]; lia. }
  assert (Helse : 0 <= (a - 1) / 2 <= a - 1).
  { split; [apply Z.div_pos; lia|apply Z.div_le_upper_bound; lia]. }
  assert (Hminus : BN.minus (BN.Fin a) (BN.Fin 1) = BN.Fin (a - 1)) by reflexivity.
  assert (Hhalf : BN.dividedToIntegerBy (BN.Fin (a - 1)) (BN.Fin 2)
                  = BN.Fin ((a - 1) / 2)).
  { unfold BN.dividedToIntegerBy. cbn [Z.eqb]. rewrite Z.quot_div_nonneg by lia.
    reflexivity. }
  destruct (readF08 data) as [[r0 m0]|] eqn:Hread.
  - destruct (readF08_wire _ _ _ Hread) as (rcv & mx & -> & -> & Hr & Hm).
    destruct (BN.isGreaterThan (BN.Fin rcv) (BN.Fin mx)) eqn:Hgt.
    + assert (Hlt : mx < rcv).
      { revert Hgt. unfold BN.isGreaterThan. cbn.
        destruct (Z.compare_spec rcv mx); try discriminate. lia. }
      assert (Hq : 0 <= a * mx / rcv < a).
      { split; [apply Z.div_pos; nia|]. apply Z.div_lt_upper_bound; nia. }
      assert (Hnew : BN.dividedToIntegerBy (BN.times (BN.Fin a) (BN.Fin mx)) (BN.Fin rcv)
                     = BN.Fin (a * mx / rcv)).
      { unfold BN.dividedToIntegerBy, BN.times.
        destruct (Z.eqb_spec rcv 0); [lia|].
        rewrite Z.quot_div_nonneg by nia. reflexivity. }
      rewrite Hnew. exists (a * mx / rcv), (a * mx / rcv).
      cbn [fst snd]. rewrite Hzero.
      split; [reflexivity|]. split; [reflexivity|]. split; [lia|]. split; [lia|].
      split; [intros E; rewrite bool_decide_eq_true_2 by exact E; reflexivity|].
      split; [intros E; rewrite bool_decide_eq_false_2 by exact E; reflexivity|].
      split; [intros ? ? [= <- <-] ?; split; reflexivity|].
      split; [intros ? ? [= <- <-] ?; lia|].
      split; [discriminate|]. split; reflexivity.
    + assert (Hle : rcv <= mx).
      { revert Hgt. unfold BN.isGreaterThan. cbn.
        destruct (Z.compare_spec rcv mx); try discriminate; lia. }
      rewrite Hminus, Hhalf. exists (a - 1), ((a - 1) / 2).
      cbn [fst snd]. rewrite Hzero.
      split; [reflexivity|]. split; [reflexivity|]. split; [lia|]. split; [lia|].
      split; [intros E; rewrite bool_decide_eq_true_2 by exact E; reflexivity|].
      split; [intros E; rewrite bool_decide_eq_false_2 by exact E; reflexivity|].
      split; [intros ? ? [= <- <-] ?; lia|].
      split; [intros; split; reflexivity|].
      split; [discriminate|]. split; reflexivity.
  - rewrite Hminus, Hhalf. exists (a - 1), ((a - 1) / 2).
    cbn [fst snd]. rewrite Hzero.
    split; [reflexivity|]. split; [reflexivity|]. split; [lia|]. split; [lia|].
    split; [intros E; rewrite bool_decide_eq_true_2 by exact E; reflexivity|].
    split; [intros E; rewrite bool_decide_eq_false_2 by exact E; reflexivity|].
    split; [discriminate|]. split; [discriminate|].
    split; [intros; split; reflexivity|]. split; reflexivity.
Qed.

(** X2.  A T04 reject for a packet of [a] sets [testMaximumPacketAmount] to
    max (2, m - floor (m / 3)) for m the smaller of [a] and the earlier test
    maximum: it is never below 2, it is below m from m = 3 on, and
    [maximumPacketAmount] stays.  Any other temporary error leaves both
    limits as they are.  The call returns. *)
Theorem X2_T04_test_maximum (c : Connection B) (message : string) (data : bytes)
    (a : Z) :
  0 <= a -> BN_nonneg (testMaximumPacketAmount c) ->
  (let r := handleConnectorError "T04" message data (BN.Fin a) c in
   exists m t,
     BN.minimum [BN.Fin a; testMaximumPacketAmount c] = BN.Fin m
     /\ testMaximumPacketAmount (snd r) = BN.Fin t
     /\ t = Z.max 2 (m - m / 3) /\ 2 <= t /\ (3 <= m -> t < m)
     /\ maximumPacketAmount (snd r) = maximumPacketAmount c
     /\ fst r = Ok tt)
  /\ (forall code,
        isTemporary code = true -> String.eqb code "T04" = false ->
        let r := handleConnectorError code message data (BN.Fin a) c in
        testMaximumPacketAmount (snd r) = testMaximumPacketAmount c
        /\ maximumPacketAmount (snd r) = maximumPacketAmount c
        /\ fst r = Ok tt).
Proof.
  intros Ha Ht. split.
  - cbv zeta. unfold handleConnectorError.
    change (String.eqb "T04" "F08") with false.
    change (isTemporary "T04") with true.
    change (String.eqb "T04" "T04") with true. cbv iota.
    unfold when, bind, modify, get, log_effect, modify.
    cbn [fst snd testMaximumPacketAmount maximumPacketAmount
         set_testMaximumPacketAmount set_retryDelay set_trace].
    assert (Hmin : exists m, BN.minimum [BN.Fin a; testMaximumPacketAmount c] = BN.Fin m
                             /\ 0 <= m).
    { destruct (testMaximumPacketAmount c) as [|[]|t0]; cbn in Ht; try tauto;
        try discriminate.
      - exists a. split; [reflexivity|lia].
      - exists (Z.min a t0). split; [apply BN_minimum_Fin|lia]. }
    destruct Hmin as (m & Hm & Hm0). rewrite Hm.
    exists m, (Z.max 2 (m - m / 3)).
    split; [reflexivity|]. split.
    + rewrite BN_dividedToIntegerBy_Fin by lia.
      change (BN.minus (BN.Fin m) (BN.Fin (m / 3))) with (BN.Fin (m - m / 3)).
      apply BN_maximum_Fin.
    + split; [reflexivity|]. split; [lia|]. split; [|split; reflexivity].
      intros H3.
      assert (1 <= m / 3) by (apply Z.div_le_lower_bound; lia).
      lia.
  - intros code HT H04. cbv zeta. unfold handleConnectorError.
    destruct (String.eqb code "F08") eqn:HF.
    { apply String.eqb_eq in HF. subst code. discriminate HT. }
    rewrite HT, H04. unfold when, bind, modify, get, log_effect, modify.
    repeat split.
Qed.

(** ** Taking a run of binds apart *)

Lemma sendData_eq plugin prepare (c : Connection B) :
  sendData plugin prepare c
  = (Ok (plugin prepare),
     set_trace (trace c ++ [SendData (out_amount prepare) (out_packet prepare)]) c).
Proof. reflexivity. Qed.

Lemma bind_get {A} (k : Connection B -> M B A) c : bind get k c = k c c.
Proof. reflexivity. Qed.

Lemma bind_sendData {A} plugin prepare (k : PluginReply -> M B A) c :
  bind (sendData plugin prepare) k c
  = k (plugin prepare)
      (set_trace (trace c ++ [SendData (out_amount prepare) (out_packet prepare)]) c).
Proof. reflexivity. Qed.

Lemma bind_modify {A} f (k : unit -> M B A) c : bind (modify f) k c = k tt (f c).
Proof. reflexivity. Qed.

Lemma bind_ret {A C} (a : A) (k : A -> M B C) c : bind (ret a) k c = k a c.
Proof. reflexivity. Qed.


Lemma bind_assoc {A C D} (m : M B A) (k1 : A -> M B C) (k2 : C -> M B D) c :
  bind (bind m k1) k2 c = bind m (fun a => bind (k1 a) k2) c.
Proof. unfold bind. destruct (m c) as [[a|e] c1]; reflexivity. Qed.

Lemma bind_Ok_inv {A C} (m : M B A) (k : A -> M B C) c a c' :
  bind m k c = (Ok a, c') ->
  exists b c1, m c = (Ok b, c1) /\ k b c1 = (Ok a, c').
Proof.
  unfold bind. destruct (m c) as [[b|e] c1]; [|discriminate].
  intros E. exists b, c1. split; [reflexivity|exact E].
Qed.

Lemma bind_Throw_inv {A C} (m : M B A) (k : A -> M B C) c e c' :
  bind m k c = (Throw e, c') ->
  m c = (Throw e, c')
  \/ exists b c1, m c = (Ok b, c1) /\ k b c1 = (Throw e, c').
Proof.
  unfold bind. destruct (m c) as [[b|e0] c1].
  - intros E. right. exists b, c1. split; [reflexivity|exact E].
  - intros [= <- <-]. left. reflexivity.
Qed.

Lemma throwFinalApplicationError_throws {A} rp p rf (c : Connection B) :
  throwFinalApplicationError (A:=A) rp p rf c
  = (Throw (FinalApplicationError
              (mkPacket (sequence rp) Reject (amount p) (rf ++ queuedFrames c))),
     set_queuedFrames [] c).
Proof. reflexivity. Qed.

Lemma keeps_at {A} (R : Connection B -> Connection B -> Prop) (m : M B A) c r c' :
  keeps R m -> m c = (r, c') -> R c c'.
Proof. intros H E. specialize (H c). rewrite E in H. exact H. Qed.

(** ** Incoming money: what [handlePrepare] checks before it fulfills *)

Lemma handlePrepare_amounts_Ok rp p total fs rf acc (c : Connection B) l c' :
  handlePrepare_amounts rp p total fs rf acc c = (Ok l, c') ->
  l = acc ++ allocations (amount p) total fs /\ c' = c.
Proof.
  revert acc. induction fs as [|f fs IH]; intros acc; cbn [handlePrepare_amounts].
  - intros [= <- <-]. cbn. rewrite app_nil_r. split; reflexivity.
  - destruct f; try (intros E; apply IH in E; exact E).
    unfold bind at 1. unfold get.
    destruct (map_get streamId (streams c)) as [stream|]; [|discriminate].
    destruct (BN.isLessThan _ _).
    { rewrite throwFinalApplicationError_throws. discriminate. }
    destruct (negb (isOpen stream)).
    { rewrite throwFinalApplicationError_throws. discriminate. }
    intros E. apply IH in E as [-> ->]. cbn [allocations flat_map].
    rewrite <- app_assoc. split; reflexivity.
Qed.

Lemma when_Ok_inv b (m : M B unit) c c' :
  when b m c = (Ok tt, c') -> (b = false /\ c' = c) \/ (b = true /\ m c = (Ok tt, c')).
Proof.
  destruct b; cbn.
  - intros E. right. split; [reflexivity|exact E].
  - intros [= <-]. left. split; reflexivity.
Qed.

(** When the checks of [handlePrepare] pass: the packet is a prepare, it asks
    for no more than arrived, the condition is the one derived from the data,
    and the amounts are the shares of every money frame. *)
Lemma handlePrepare_check_Ok p (c : Connection B) rp ful rf l c' :
  handlePrepare_check p c = (Ok (rp, ful, rf, l), c') ->
  decryptAndDeserialize (data p) = Some rp
  /\ ilpPacketType rp = Prepare
  /\ BN.isGreaterThan (prepareAmount rp) (amount p) = false
  /\ ful = generateFulfillment (data p)
  /\ hash ful = executionCondition p
  /\ l = allocations (amount p) (totalMoneyShares (frames rp)) (frames rp).
Proof.
  unfold handlePrepare_check.
  destruct (decryptAndDeserialize (data p)) as [rp0|]; [|discriminate].
  destruct (bool_decide (ilpPacketType rp0 = Prepare)) eqn:Ht; cbn [negb];
    [|discriminate].
  apply bool_decide_eq_true_1 in Ht.
  intros E.
  apply bind_Ok_inv in E as (? & c1 & _ & E).
  apply bind_Ok_inv in E as (c1' & ? & _ & E).
  apply bind_Ok_inv in E as (? & c2 & _ & E).
  apply bind_Ok_inv in E as (? & c3 & _ & E).
  apply bind_Ok_inv in E as (c3' & ? & _ & E).
  apply bind_Ok_inv in E as ([] & c4 & _ & E).
  apply bind_Ok_inv in E as ([] & c5 & Hamt & E).
  apply bind_Ok_inv in E as ([] & c6 & Hcond & E).
  apply bind_Ok_inv in E as (l0 & c7 & Hl & E).
  injection E as <- <- <- <- <-.
  apply handlePrepare_amounts_Ok in Hl as [-> _].
  apply when_Ok_inv in Hamt as [[Hamt _]|[_ Hamt]];
    [|rewrite throwFinalApplicationError_throws in Hamt; discriminate].
  apply when_Ok_inv in Hcond as [[Hcond _]|[_ Hcond]];
    [|rewrite throwFinalApplicationError_throws in Hcond; discriminate].
  apply negb_false_iff, bool_decide_eq_true_1 in Hcond.
  repeat split; auto.
Qed.

Lemma streamAmount_exact a s S :
  0 <= a -> 0 <= s -> 0 < S < 2 * 10 ^ 20 ->
  streamAmount (BN.Fin a) (BN.Fin s) (BN.Fin S) = BN.Fin (a * s / S).
Proof.
  intros Ha Hs HS. unfold streamAmount, BN.dividedBy_integerValue, BN.times.
  destruct (Z.eqb_spec S 0); [lia|]. f_equal.
  apply dividedBy_floor_exact; [nia|].
  change (2 * BN.scale) with (2 * 10 ^ 20). exact HS.
Qed.





Lemma handlePrepare_fulfill_Ok p rp ful0 rf l (c : Connection B) ful c' :
  handlePrepare_fulfill p (rp, ful0, rf, l) c = (Ok ful, c') ->
  fulfillment ful = ful0
  /\ sequence (fulfill_data ful) = sequence rp
  /\ ilpPacketType (fulfill_data ful) = Fulfill
  /\ prepareAmount (fulfill_data ful) = amount p
  /\ (exists told queued, frames (fulfill_data ful) = (rf ++ told) ++ queued)
  /\ queuedFrames c' = [].
Proof.
  unfold handlePrepare_fulfill. intros E.
  apply bind_Ok_inv in E as ([] & c1 & _ & E).
  apply bind_Ok_inv in E as (told & c2 & _ & E).
  apply bind_Ok_inv in E as (c2' & ? & [= <- <-] & E).
  unfold bind, modify in E. injection E as <- <-.
  cbn. repeat split; try reflexivity. eexists _, _. reflexivity.
Qed.

(** X4.  [handlePrepare] fulfills only what it has checked: the data
    decrypts to a packet of type Prepare, that packet asks for no more than
    the amount that arrived, and the condition of the prepare is the hash of
    the fulfillment derived from its data, which is the fulfillment handed
    back.  The response packet is a Fulfill with the request's sequence and
    the amount that arrived; the frames that were queued go out with it, and
    [_totalReceived] grows by the amount. *)
Theorem X4_fulfills_only_checked p (c : Connection B) ful c' :
  handlePrepare p c = (Ok ful, c') ->
  exists rp,
    decryptAndDeserialize (data p) = Some rp
    /\ ilpPacketType rp = Prepare
    /\ BN.isGreaterThan (prepareAmount rp) (amount p) = false
    /\ fulfillment ful = generateFulfillment (data p)
    /\ hash (fulfillment ful) = executionCondition p
    /\ sequence (fulfill_data ful) = sequence rp
    /\ ilpPacketType (fulfill_data ful) = Fulfill
    /\ prepareAmount (fulfill_data ful) = amount p
    /\ queuedFrames c' = []
    /\ _totalReceived c' = BN.plus (_totalReceived c) (amount p).
Proof.
  intros E. pose proof (handlePrepare_totals p c) as Htot. rewrite E in Htot.
  destruct Htot as [Htot _].
  unfold handlePrepare in E.
  apply bind_Ok_inv in E as ([[[rp ful0] rf] l] & c1 & Hchk & E).
  apply handlePrepare_check_Ok in Hchk as (H1 & H2 & H3 & H4 & H5 & _).
  apply handlePrepare_fulfill_Ok in E as (F1 & F2 & F3 & F4 & _ & F6).
  exists rp. subst ful0. rewrite F1. repeat split; assumption.
Qed.

(** ** Incoming prepares: what a rejection looks like *)

(** the closed ids are the same and no stream has left the map *)
Definition streams_kept (c c' : Connection B) : Prop :=
  closedStreams c' = closedStreams c
  /\ forall j, map_has j (streams c) = true -> map_has j (streams c') = true.

#[local] Instance streams_kept_preorder : PreOrder streams_kept.
Proof.
  split.
  - intros c. split; auto.
  - intros a b c [H1 H2] [K1 K2]. split; [congruence|auto].
Qed.

Lemma streams_kept_frame c c' : frame_eq c c' -> streams_kept c c'.
Proof.
  intros Hfe. split; [apply (fe_closedStreams _ _ Hfe)|]. intros j H.
  rewrite (map_has_credits j _ _ (fe_credits _ _ Hfe)). exact H.
Qed.

Lemma safeEmit_kept e : keeps streams_kept (safeEmit e).
Proof.
  unfold safeEmit. apply (keeps_bind streams_kept).
  - intros c1. split; [reflexivity|]. intros j Hj. exact Hj.
  - intros _. apply (fire_listeners_keeps streams_kept streams_kept_frame).
Qed.

Lemma handleNewStream_kept id : keeps streams_kept (handleNewStream id).
Proof.
  intros c. unfold handleNewStream. unfold bind at 1. unfold get.
  destruct (map_has id (streams c) || isClosedStream id c); [reflexivity|].
  pose proof (push_queuedFrames_keeps streams_kept streams_kept_frame) as Hpush.
  pose proof (safeEmit_error_keeps streams_kept streams_kept_frame) as Herr.
  destruct (isServer c && (Z.rem id 2 =? 0)).
  { apply (keeps_bind streams_kept); [apply Hpush|intros _].
    apply (keeps_bind streams_kept); [apply Herr|intros _].
    apply (keeps_throw streams_kept). }
  destruct (negb (isServer c) && (Z.rem id 2 =? 1)).
  { apply (keeps_bind streams_kept); [apply Hpush|intros _].
    apply (keeps_bind streams_kept); [apply Herr|intros _].
    apply (keeps_throw streams_kept). }
  destruct (maxStreamId c <? id).
  { apply (keeps_bind streams_kept); [apply Hpush|intros _].
    apply (keeps_bind streams_kept); [apply Herr|intros _].
    apply (keeps_throw streams_kept). }
  apply (keeps_bind streams_kept).
  { apply (keeps_when streams_kept), Hpush. }
  intros _. apply (keeps_bind streams_kept).
  { intros c1. split; [reflexivity|]. intros j Hj. cbn.
    rewrite map_has_map_set, Hj. apply orb_true_r. }
  intros _. apply safeEmit_kept.
Qed.

Lemma handleNewStream_Ok id (c c' : Connection B) :
  handleNewStream id c = (Ok tt, c') ->
  map_has id (streams c') = true \/ id ∈ closedStreams c.
Proof.
  unfold handleNewStream. unfold bind at 1. unfold get.
  destruct (map_has id (streams c) || isClosedStream id c) eqn:Hk.
  { intros [= <-]. apply orb_prop in Hk as [Hk|Hk]; [left; exact Hk|right].
    apply bool_decide_eq_true_1 in Hk. exact Hk. }
  assert (Hthrow : forall msg code (c0 : Connection B),
             bind (push_queuedFrames [ConnectionCloseFrame code msg])
               (fun _ => bind (safeEmit (EvError (JsError msg)))
                            (fun _ => throw (A:=unit) (JsError msg))) c0
             = (Ok tt, c') -> False).
  { intros msg code c0. unfold bind, push_queuedFrames, modify.
    destruct (safeEmit _ _) as [[[]|e] c2]; discriminate. }
  destruct (isServer c && (Z.rem id 2 =? 0)); [intros E; destruct (Hthrow _ _ _ E)|].
  destruct (negb (isServer c) && (Z.rem id 2 =? 1));
    [intros E; destruct (Hthrow _ _ _ E)|].
  destruct (maxStreamId c <? id); [intros E; destruct (Hthrow _ _ _ E)|].
  intros E. left.
  apply bind_Ok_inv in E as ([] & c1 & _ & E).
  apply bind_Ok_inv in E as ([] & c2 & [= <-] & E).
  pose proof (keeps_at _ _ _ _ _ (safeEmit_kept (EvStream id)) E) as Hkept.
  apply Hkept. cbn. rewrite map_has_map_set, Z.eqb_refl. reflexivity.
Qed.

Lemma never_throws_ret {A} (a : A) : never_throws (ret (B:=B) a).
Proof. intros c. exists a. reflexivity. Qed.

Lemma never_throws_modify f : never_throws (modify (B:=B) f).
Proof. intros c. exists tt. reflexivity. Qed.

Lemma never_throws_try_catch {A} (m : M B A) h :
  (forall e, never_throws (h e)) -> never_throws (try_catch m h).
Proof.
  intros Hh c. unfold try_catch. destruct (m c) as [[a|e] c1].
  - exists a. reflexivity.
  - apply Hh.
Qed.

Lemma safeEmit_never_throws e : never_throws (safeEmit (B:=B) e).
Proof.
  unfold safeEmit. apply never_throws_bind; [apply never_throws_modify|intros _].
  unfold fire_listeners.
  apply never_throws_bind; [intros c; exists c; reflexivity|intros c0].
  apply never_throws_bind; [apply never_throws_modify|intros _].
  apply never_throws_forM_. intros l. unfold run_listener.
  destruct (handler (snd l));
    try (apply never_throws_bind; [apply never_throws_modify|intros _]);
    apply never_throws_modify.
Qed.

Lemma sendConnectionClose_begin_never_throws err :
  never_throws (sendConnectionClose_begin (B:=B) err).
Proof.
  intros c. unfold sendConnectionClose_begin, bind, get.
  destruct (remoteClosed c); [exists tt; reflexivity|].
  destruct (_destinationAccount c); exists tt; reflexivity.
Qed.

Lemma destroy_begin_never_throws err : never_throws (destroy_begin (B:=B) err).
Proof.
  unfold destroy_begin.
  apply never_throws_bind;
    [destruct err; [apply safeEmit_never_throws|apply never_throws_ret]|intros _].
  apply never_throws_bind; [apply never_throws_modify|intros _].
  apply never_throws_bind; [apply sendConnectionClose_begin_never_throws|intros _].
  apply never_throws_modify.
Qed.

Lemma startSendLoop_begin_never_throws : never_throws (startSendLoop_begin (B:=B)).
Proof.
  unfold startSendLoop_begin.
  apply never_throws_bind; [intros c; exists c; reflexivity|intros c].
  destruct (sending c); [apply never_throws_ret|].
  destruct (remoteClosed c); [apply safeEmit_never_throws|].
  destruct (truthy_string (_destinationAccount c)); [|apply never_throws_modify].
  apply never_throws_bind; [apply never_throws_modify|intros _].
  apply never_throws_modify.
Qed.

Lemma end_begin_never_throws : never_throws (end_begin (B:=B)).
Proof.
  unfold end_begin.
  apply never_throws_bind; [apply never_throws_modify|intros _].
  apply never_throws_bind; [intros c; exists c; reflexivity|intros c].
  apply never_throws_bind; [apply never_throws_modify|intros _].
  apply never_throws_bind; [apply never_throws_modify|intros _].
  apply never_throws_bind; [apply never_throws_modify|intros _].
  apply startSendLoop_begin_never_throws.
Qed.

(** what an exception of a method is like, when it throws *)
Definition throws_only {A} (P : Error -> Connection B -> Prop) (m : M B A) : Prop :=
  forall c e c', m c = (Throw e, c') -> P e c'.

Lemma throws_only_bind {A C} P (m : M B A) (k : A -> M B C) :
  throws_only P m -> (forall a, throws_only P (k a)) -> throws_only P (bind m k).
Proof.
  intros Hm Hk c e c' E. apply bind_Throw_inv in E as [E|(b & c1 & _ & E)].
  - eapply Hm, E.
  - eapply Hk, E.
Qed.

Lemma throws_only_never {A} P (m : M B A) : never_throws m -> throws_only P m.
Proof.
  intros Hm c e c' E. destruct (Hm c) as [a Ha]. rewrite E in Ha. discriminate.
Qed.

Lemma throws_only_when P b (m : M B unit) :
  throws_only P m -> throws_only P (when b m).
Proof. intros Hm. destruct b; [exact Hm|]. intros c e c'. discriminate. Qed.

Lemma throws_only_forM_ {A} P (l : list A) (f : A -> M B unit) :
  (forall x, throws_only P (f x)) -> throws_only P (forM_ l f).
Proof.
  intros Hf. induction l as [|x l IH]; cbn [forM_].
  - intros c e c'. discriminate.
  - apply throws_only_bind; auto.
Qed.

Lemma throws_only_try_catch {A} P (m : M B A) h :
  (forall e, throws_only P (h e)) -> throws_only P (try_catch m h).
Proof.
  intros Hh c e c'. unfold try_catch. destruct (m c) as [[a|e0] c1]; [discriminate|].
  apply Hh.
Qed.

(** a reject of the prepare [p] in answer to the packet [rp]: the response is
    a Reject packet with the sequence of the request and the amount that
    arrived, and the queue of frames has been emptied into it *)
Definition rejects (rp : Packet) (p : IlpPrepare) (e : Error) (c' : Connection B)
    : Prop :=
  exists fs,
    e = FinalApplicationError (mkPacket (sequence rp) Reject (amount p) fs)
    /\ queuedFrames c' = [].

Lemma throwFinalApplicationError_rejects {A} rp p rf :
  throws_only (rejects rp p) (throwFinalApplicationError (A:=A) rp p rf).
Proof.
  intros c e c'. rewrite throwFinalApplicationError_throws. intros [= <- <-].
  eexists. split; reflexivity.
Qed.

Lemma handlePrepare_newStream_rejects rp p rf f :
  throws_only (rejects rp p) (handlePrepare_newStream rp p rf f).
Proof.
  unfold handlePrepare_newStream.
  destruct f; try (intros c e c'; discriminate);
    (apply throws_only_bind; [intros c e c'; discriminate|intros c0]);
    destruct (isClosedStream streamId c0); cbn [negb];
    try (intros c e c'; discriminate);
    try apply throwFinalApplicationError_rejects;
    apply throws_only_try_catch; intros; apply throwFinalApplicationError_rejects.
Qed.

(** every money frame names a stream of the map *)
Definition money_present (fs : list Frame) (c : Connection B) : Prop :=
  forall id shares, List.In (StreamMoneyFrame id shares) fs ->
                    map_has id (streams c) = true.

Lemma handlePrepare_newStream_kept rp p rf f :
  keeps streams_kept (handlePrepare_newStream rp p rf f).
Proof.
  assert (Hthrow : forall A rp p rf,
             keeps streams_kept (throwFinalApplicationError (A:=A) rp p rf))
    by (intros; apply (throwFinalApplicationError_keeps streams_kept streams_kept_frame)).
  unfold handlePrepare_newStream.
  destruct f; try apply (keeps_ret streams_kept);
    (apply (keeps_bind streams_kept); [apply (keeps_get streams_kept)|intros c0]);
    destruct (isClosedStream streamId c0); cbn [negb];
    try apply (keeps_ret streams_kept); try apply Hthrow;
    apply (keeps_try_catch streams_kept);
    [apply handleNewStream_kept|intros; apply Hthrow
    |apply handleNewStream_kept|intros; apply Hthrow
    |apply handleNewStream_kept|intros; apply Hthrow
    |apply handleNewStream_kept|intros; apply Hthrow].
Qed.

Lemma handlePrepare_newStream_Ok rp p rf id shares (c c' : Connection B) :
  handlePrepare_newStream rp p rf (StreamMoneyFrame id shares) c = (Ok tt, c') ->
  map_has id (streams c') = true /\ id ∉ closedStreams c.
Proof.
  unfold handlePrepare_newStream. unfold bind at 1. unfold get.
  unfold isClosedStream. destruct (bool_decide (id ∈ closedStreams c)) eqn:Hc.
  { cbn [negb]. rewrite throwFinalApplicationError_throws. discriminate. }
  apply bool_decide_eq_false_1 in Hc.
  unfold try_catch. destruct (handleNewStream id c) as [[[]|e] c1] eqn:E.
  - intros [= <-]. apply handleNewStream_Ok in E as [E|E]; [|contradiction].
    split; assumption.
  - rewrite throwFinalApplicationError_throws. discriminate.
Qed.

Lemma newStreams_present rp p rf fs (c c' : Connection B) :
  forM_ fs (handlePrepare_newStream rp p rf) c = (Ok tt, c') ->
  money_present fs c'
  /\ forall id shares, List.In (StreamMoneyFrame id shares) fs -> id ∉ closedStreams c.
Proof.
  revert c. induction fs as [|f fs IH]; intros c; cbn [forM_].
  - intros _. split; intros id shares [].
  - intros E. apply bind_Ok_inv in E as ([] & c1 & E1 & E2).
    pose proof (keeps_at _ _ _ _ _ (handlePrepare_newStream_kept rp p rf f) E1)
      as [Hc1 _].
    pose proof (keeps_at _ _ _ _ _
                  (keeps_forM_ streams_kept fs _
                     (handlePrepare_newStream_kept rp p rf)) E2) as [_ Hk].
    destruct (IH _ E2) as [IH1 IH2]. split.
    + intros id shares [->|Hin]; [|eapply IH1, Hin].
      apply handlePrepare_newStream_Ok in E1 as [E1 _]. apply Hk, E1.
    + intros id shares [->|Hin].
      * apply handlePrepare_newStream_Ok in E1 as [_ E1]. exact E1.
      * rewrite <- Hc1. eapply IH2, Hin.
Qed.

Lemma handlePrepare_amounts_rejects rp p total fs rf acc (c : Connection B) :
  money_present fs c ->
  forall e c', handlePrepare_amounts rp p total fs rf acc c = (Throw e, c') ->
               rejects rp p e c'.
Proof.
  revert acc. induction fs as [|f fs IH]; intros acc Hp e c';
    cbn [handlePrepare_amounts].
  - discriminate.
  - assert (Hp' : money_present fs c).
    { intros id shares Hin. eapply Hp. right. exact Hin. }
    destruct f; try (apply IH; exact Hp').
    unfold bind at 1. unfold get.
    specialize (Hp streamId shares (or_introl eq_refl)). unfold map_has in Hp.
    destruct (map_get streamId (streams c)) as [stream|]; [|discriminate].
    destruct (BN.isLessThan _ _); [apply throwFinalApplicationError_rejects|].
    destruct (negb (isOpen stream)); [apply throwFinalApplicationError_rejects|].
    apply IH. exact Hp'.
Qed.

Lemma when_destroy_reject_Ok b err rp p rf (c c' : Connection B) :
  when b (bind (destroy_begin err) (fun _ => throwFinalApplicationError rp p rf)) c
  = (Ok tt, c') ->
  c' = c.
Proof.
  intros E. apply when_Ok_inv in E as [[_ ->]|[_ E]]; [reflexivity|].
  apply bind_Ok_inv in E as (a & c1 & _ & E).
  rewrite throwFinalApplicationError_throws in E. discriminate.
Qed.

Lemma when_reject_Ok b rp p rf (c c' : Connection B) :
  when b (throwFinalApplicationError rp p rf) c = (Ok tt, c') -> c' = c.
Proof.
  intros E. apply when_Ok_inv in E as [[_ ->]|[_ E]]; [reflexivity|].
  rewrite throwFinalApplicationError_throws in E. discriminate.
Qed.

Lemma handlePrepare_check_Throw p (c : Connection B) e c' :
  handlePrepare_check p c = (Throw e, c') ->
  match decryptAndDeserialize (data p) with
  | Some rp =>
      if bool_decide (ilpPacketType rp = Prepare) then rejects rp p e c'
      else e = UnexpectedPaymentError /\ c' = c
  | None => e = UnexpectedPaymentError /\ c' = c
  end.
Proof.
  unfold handlePrepare_check.
  destruct (decryptAndDeserialize (data p)) as [rp|];
    [|intros [= <- <-]; split; reflexivity].
  destruct (bool_decide (ilpPacketType rp = Prepare)); cbn [negb];
    [|intros [= <- <-]; split; reflexivity].
  intros E.
  apply bind_Throw_inv in E as [E|([] & c1 & _ & E)]; [discriminate|].
  apply bind_Throw_inv in E as [E|(c1' & ? & [= <- <-] & E)]; [discriminate|].
  set (rf := [ConnectionMaxDataFrame (in_maxAcceptable (getIncomingOffsets c1))]) in *.
  apply bind_Throw_inv in E as [E|([] & c2 & Hnew & E)].
  { revert E. apply throws_only_forM_. intros f.
    apply handlePrepare_newStream_rejects. }
  apply newStreams_present in Hnew as [Hpresent _].
  apply bind_Throw_inv in E as [E|([] & c3 & Hctl & E)].
  { revert E. apply throws_only_try_catch. intros e0.
    apply throwFinalApplicationError_rejects. }
  assert (Hkept : streams_kept c2 c3).
  { refine (keeps_at _ _ _ _ _ _ Hctl). apply (keeps_try_catch streams_kept).
    - apply (handleControlFrames_keeps streams_kept streams_kept_frame).
    - intros e0.
      apply (throwFinalApplicationError_keeps streams_kept streams_kept_frame). }
  assert (Hpresent3 : money_present (frames rp) c3).
  { intros id shares Hin. apply Hkept. eapply Hpresent, Hin. }
  apply bind_Throw_inv in E as [E|(c3' & ? & [= <- <-] & E)]; [discriminate|].
  apply bind_Throw_inv in E as [E|([] & c4 & Hflow & E)].
  { revert E. apply throws_only_when, throws_only_bind;
      [apply throws_only_never, destroy_begin_never_throws|intros _].
    apply throwFinalApplicationError_rejects. }
  apply when_destroy_reject_Ok in Hflow. subst c4.
  apply bind_Throw_inv in E as [E|([] & c5 & Hamt & E)].
  { revert E. apply throws_only_when, throwFinalApplicationError_rejects. }
  apply when_reject_Ok in Hamt. subst c5.
  apply bind_Throw_inv in E as [E|([] & c6 & Hcond & E)].
  { revert E. apply throws_only_when, throwFinalApplicationError_rejects. }
  apply when_reject_Ok in Hcond. subst c6.
  apply bind_Throw_inv in E as [E|(l & c7 & _ & E)]; [|discriminate].
  eapply handlePrepare_amounts_rejects; [exact Hpresent3|exact E].
Qed.

(** X5.  [handlePrepare] fails in two ways only.  Data that does not decrypt
    to a packet, or a packet that is not of type Prepare, gives
    [UnexpectedPaymentError] with the connection untouched.  Anything else
    that goes wrong gives a [FinalApplicationError] whose response is a
    Reject packet with the sequence of the request and the amount that
    arrived; the queue of frames has been emptied into it.  A money frame for
    a stream that is not in the map never gets as far as the stream (no
    TypeError). In no case does a total change. *)
Theorem X5_rejections_of_handlePrepare p (c : Connection B) e c' :
  handlePrepare p c = (Throw e, c') ->
  match decryptAndDeserialize (data p) with
  | Some rp =>
      if bool_decide (ilpPacketType rp = Prepare) then
        (exists fs,
           e = FinalApplicationError (mkPacket (sequence rp) Reject (amount p) fs)
           /\ queuedFrames c' = [])
        /\ totals_same c c'
      else e = UnexpectedPaymentError /\ c' = c
  | None => e = UnexpectedPaymentError /\ c' = c
  end.
Proof.
  intros E. pose proof (handlePrepare_totals p c) as Htot. rewrite E in Htot.
  unfold handlePrepare in E.
  apply bind_Throw_inv in E as [E|(chk & c1 & _ & E)].
  - apply handlePrepare_check_Throw in E.
    destruct (decryptAndDeserialize (data p)) as [rp|]; [|exact E].
    destruct (bool_decide (ilpPacketType rp = Prepare)); [|exact E].
    split; [exact E|exact Htot].
  - destruct (handlePrepare_fulfill_never_throws p chk c1) as [a Ha].
    rewrite E in Ha. discriminate.
Qed.

(** money or data for the stream [id] *)
Definition sends_to (id : Z) (f : Frame) : Prop :=
  match f with
  | StreamMoneyFrame i _ | StreamDataFrame i _ _ => i = id
  | _ => False
  end.

Lemma handlePrepare_newStream_closed rp p rf f id (c : Connection B) :
  sends_to id f -> id ∈ closedStreams c ->
  exists fs,
    handlePrepare_newStream rp p rf f c
    = (Throw (FinalApplicationError (mkPacket (sequence rp) Reject (amount p) fs)),
       set_queuedFrames [] c)
    /\ existsb (isStreamClose_for id) fs = true
    /\ (existsb (isStreamClose_for id) (rf ++ queuedFrames c) = true ->
        fs = rf ++ queuedFrames c)
    /\ (existsb (isStreamClose_for id) (rf ++ queuedFrames c) = false ->
        fs = (rf ++ [StreamCloseFrame id StreamStateError "Stream is already closed"])
             ++ queuedFrames c).
Proof.
  intros Hf Hc.
  assert (Hclosed : isClosedStream id c = true)
    by (apply bool_decide_eq_true_2; exact Hc).
  destruct f; cbn in Hf; try contradiction; subst streamId;
    unfold handlePrepare_newStream; unfold bind at 1; unfold get;
    rewrite Hclosed; cbn [negb];
    rewrite throwFinalApplicationError_throws;
    (destruct (existsb (isStreamClose_for id) (rf ++ queuedFrames c)) eqn:Hex;
     eexists; (split; [reflexivity|]);
     [split; [exact Hex|]; split; [reflexivity|discriminate]
     |split; [|split; [discriminate|reflexivity]];
      rewrite !existsb_app; cbn; rewrite Z.eqb_refl; cbn;
      apply orb_true_r || (rewrite orb_true_r; reflexivity)]).
Qed.

Lemma newStreams_closed rp p rf fs f id (c : Connection B) :
  List.In f fs -> sends_to id f -> id ∈ closedStreams c ->
  exists e c', forM_ fs (handlePrepare_newStream rp p rf) c = (Throw e, c').
Proof.
  revert c. induction fs as [|g fs IH]; intros c Hin Hf Hc; [destruct Hin|].
  cbn [forM_]. unfold bind.
  destruct (handlePrepare_newStream rp p rf g c) as [[[]|e] c1] eqn:E.
  - destruct Hin as [->|Hin].
    + destruct (handlePrepare_newStream_closed rp p rf f id c Hf Hc) as (fs0 & E0 & _).
      rewrite E0 in E. discriminate.
    + apply (IH c1 Hin Hf).
      pose proof (keeps_at _ _ _ _ _ (handlePrepare_newStream_kept rp p rf g) E)
        as [Hc1 _].
      rewrite Hc1. exact Hc.
  - eexists _, _. reflexivity.
Qed.

(** X6.  Money or data for a stream that has been closed is never taken: a
    prepare whose packet has a StreamMoney or StreamData frame for an id in
    [closedStreams] is rejected with a [FinalApplicationError] and no total
    changes.  When that frame is the first of the packet, the response has a
    StreamClose frame for the stream: the one that was still queued for it,
    or else one with StreamStateError. *)
Theorem X6_closed_stream_rejected p (c : Connection B) rp f id :
  decryptAndDeserialize (data p) = Some rp -> ilpPacketType rp = Prepare ->
  List.In f (frames rp) -> sends_to id f -> id ∈ closedStreams c ->
  (exists fs c',
     handlePrepare p c
     = (Throw (FinalApplicationError (mkPacket (sequence rp) Reject (amount p) fs)), c')
     /\ totals_same c c')
  /\ (forall rest, frames rp = f :: rest ->
      exists fs c',
        handlePrepare p c
        = (Throw (FinalApplicationError (mkPacket (sequence rp) Reject (amount p) fs)),
           c')
        /\ existsb (isStreamClose_for id) fs = true).
Proof.
  intros Hdec Htype Hin Hf Hc.
  assert (Hthrows : exists e c', handlePrepare p c = (Throw e, c')).
  { unfold handlePrepare, handlePrepare_check. rewrite Hdec.
    rewrite (bool_decide_eq_true_2 _ Htype). cbn [negb].
    unfold bind at 1 2 3. unfold bumpIdle, modify, get. cbn [fst snd].
    destruct (newStreams_closed rp p
                [ConnectionMaxDataFrame
                   (in_maxAcceptable (getIncomingOffsets (set_lastActive (clock c) c)))]
                (frames rp) f id (set_lastActive (clock c) c) Hin Hf Hc)
      as (e & c' & E).
    unfold bind at 1. rewrite E. eexists _, _. reflexivity. }
  split.
  - destruct Hthrows as (e & c' & E).
    pose proof (handlePrepare_totals p c) as Htot. rewrite E in Htot.
    pose proof E as E0. unfold handlePrepare in E.
    apply bind_Throw_inv in E as [E|(chk & c1 & _ & E)].
    + apply handlePrepare_check_Throw in E.
      rewrite Hdec, (bool_decide_eq_true_2 _ Htype) in E.
      destruct E as (fs & -> & _). exists fs, c'. split; [exact E0|exact Htot].
    + destruct (handlePrepare_fulfill_never_throws p chk c1) as [a Ha].
      rewrite E in Ha. discriminate.
  - intros rest Hfr.
    unfold handlePrepare, handlePrepare_check. rewrite Hdec.
    rewrite (bool_decide_eq_true_2 _ Htype). cbn [negb].
    unfold bind at 1 2 3. unfold bumpIdle, modify, get. cbn [fst snd].
    rewrite Hfr. cbn [forM_].
    destruct (handlePrepare_newStream_closed rp p
                [ConnectionMaxDataFrame
                   (in_maxAcceptable (getIncomingOffsets (set_lastActive (clock c) c)))]
                f id (set_lastActive (clock c) c) Hf Hc) as (fs & E & Hex & _).
    unfold bind. rewrite E. exists fs. eexists. split; [reflexivity|exact Hex].
Qed.

(** ** Incoming money: which frame decides a rejection *)

(** The steps of [handlePrepare] that come before the money is looked at
    (lines 407-500) all pass for the prepare [p], whose data is the packet
    [rp], and leave the connection as [c2]: the streams that are new have
    been made, the control frames handled, and the flow-control, amount and
    condition checks passed. *)
Definition checks_pass (p : IlpPrepare) (rp : Packet) (c c2 : Connection B) : Prop :=
  decryptAndDeserialize (data p) = Some rp
  /\ ilpPacketType rp = Prepare
  /\ (exists c1,
        forM_ (frames rp)
          (handlePrepare_newStream rp p
             [ConnectionMaxDataFrame (in_maxAcceptable (getIncomingOffsets c))])
          (exec bumpIdle c)
        = (Ok tt, c1)
        /\ handleControlFrames (frames rp) c1 = (Ok tt, c2))
  /\ in_max (getIncomingOffsets c2) <= in_maxAcceptable (getIncomingOffsets c2)
  /\ BN.isGreaterThan (prepareAmount rp) (amount p) = false
  /\ hash (generateFulfillment (data p)) = executionCondition p.

Lemma handlePrepare_check_passed p rp (c c2 : Connection B) :
  checks_pass p rp c c2 ->
  handlePrepare_check p c
  = bind (handlePrepare_amounts rp p (totalMoneyShares (frames rp)) (frames rp)
            [ConnectionMaxDataFrame (in_maxAcceptable (getIncomingOffsets c))] [])
      (fun amountsToReceive =>
         ret (rp, generateFulfillment (data p),
              [ConnectionMaxDataFrame (in_maxAcceptable (getIncomingOffsets c))],
              amountsToReceive)) c2.
Proof.
  intros (Hd & Ht & (c1 & Hnew & Hctl) & Hflow & Hamt & Hcond).
  unfold handlePrepare_check. rewrite Hd.
  rewrite (bool_decide_eq_true_2 _ Ht). cbn [negb].
  unfold bumpIdle at 1. rewrite bind_modify, bind_get.
  change (getIncomingOffsets (set_lastActive (clock c) c)) with (getIncomingOffsets c).
  unfold exec, bumpIdle, modify in Hnew. cbn [snd] in Hnew.
  unfold bind at 1. rewrite Hnew.
  unfold bind at 1. unfold try_catch. rewrite Hctl.
  rewrite bind_get.
  destruct (Z.ltb_spec (in_maxAcceptable (getIncomingOffsets c2))
              (in_max (getIncomingOffsets c2))) as [Hlt|_]; [lia|].
  cbn [when]. rewrite bind_ret, Hamt. cbn [when]. rewrite bind_ret.
  rewrite (bool_decide_eq_true_2 _ Hcond). cbn [negb when]. rewrite bind_ret.
  reflexivity.
Qed.

(** C1 (amended).  In [handlePrepare], a [StreamMoney] frame with shares s is
    allocated floor (prepare.amount · s / Σshares), for a sum of shares that
    is positive and below 2·10^20 (where the rounding of the quotient to 20
    decimals cannot reach the next integer).  When the steps before the money
    pass, the frames are checked in the order of the packet and the first one
    that fails decides how [handlePrepare] rejects: when its allocation is
    above ceil (receivable × 1.01) the response is a Reject packet with a
    StreamMaxMoney frame for its stream, otherwise when its stream is no
    longer open the response is a Reject packet with a
    StreamClose(StreamStateError) frame for its stream; the frames after it
    are not looked at.  When no frame fails, the allocations are what is
    credited.  No rejection of [handlePrepare] credits any stream. *)
Theorem C1_incoming_money p rp (c c2 : Connection B) :
  let total := totalMoneyShares (frames rp) in
  let rf := [ConnectionMaxDataFrame (in_maxAcceptable (getIncomingOffsets c))] in
  let rejected extra :=
    (Throw (A:=IlpFulfill)
       (FinalApplicationError
          (mkPacket (sequence rp) Reject (amount p)
             ((rf ++ [extra]) ++ queuedFrames c2))),
     set_queuedFrames [] c2) in
  (forall a id s,
     amount p = BN.Fin a -> 0 <= a -> Forall wire_frame (frames rp) ->
     0 < sumShares (frames rp) < 2 * 10 ^ 20 ->
     List.In (StreamMoneyFrame id (BN.Fin s)) (frames rp) ->
     streamAmount (amount p) (BN.Fin s) total
     = BN.Fin (a * s / sumShares (frames rp))) /\
  (forall r, exists z,
     BN.times_1_01_ceil (BN.Fin r) = BN.Fin z
     /\ 101 * r <= 100 * z < 101 * r + 100) /\
  (checks_pass p rp c c2 ->
   forall pre id shares post stream,
     frames rp = pre ++ StreamMoneyFrame id shares :: post ->
     forallb (accepts c2 (amount p) total) pre = true ->
     map_get id (streams c2) = Some stream ->
     let allocated := streamAmount (amount p) shares total in
     let ceiling := BN.times_1_01_ceil (_getAmountStreamCanReceive stream) in
     (BN.isLessThan ceiling allocated = true ->
      handlePrepare p c
      = rejected (StreamMaxMoneyFrame id (receiveMax stream) (totalReceived stream)))
     /\ (BN.isLessThan ceiling allocated = false -> isOpen stream = false ->
         handlePrepare p c
         = rejected (StreamCloseFrame id StreamStateError "Stream is already closed"))) /\
  (checks_pass p rp c c2 ->
   forallb (accepts c2 (amount p) total) (frames rp) = true ->
   handlePrepare p c
   = handlePrepare_fulfill p
       (rp, generateFulfillment (data p), rf, allocations (amount p) total (frames rp))
       c2) /\
  (forall e c', handlePrepare p c = (Throw e, c') -> not_credited c c').
Proof.
  intros total rf rejected. subst rejected. split; [|split; [|split; [|split]]].
  - intros a id s Ha Ha0 Hw Hsum Hin. subst total.
    destruct (totalMoneyShares_wire _ Hw) as [-> _]. rewrite Ha.
    assert (0 <= s).
    { rewrite List.Forall_forall in Hw. specialize (Hw _ Hin). simpl in Hw. tauto. }
    apply streamAmount_exact; assumption.
  - intros r. eexists. split; [reflexivity|].
    pose proof (Z.div_mod (- (101 * r)) 100 ltac:(lia)).
    pose proof (Z.mod_pos_bound (- (101 * r)) 100 ltac:(lia)). lia.
  - intros Hpass pre id shares post stream Hfr Hpre Hget. cbv zeta.
    split; intros H1; [|intros H2];
      unfold handlePrepare; unfold bind at 1;
      rewrite (handlePrepare_check_passed p rp c c2 Hpass); fold total; fold rf;
      unfold bind at 1; rewrite Hfr;
      rewrite (handlePrepare_amounts_accepted rp p _ pre _ rf [] c2 Hpre);
      cbn [handlePrepare_amounts]; unfold bind at 1; unfold get;
      rewrite Hget, H1; [|rewrite H2]; reflexivity.
  - intros Hpass Hall. unfold handlePrepare. unfold bind at 1.
    rewrite (handlePrepare_check_passed p rp c c2 Hpass). fold total. fold rf.
    pose proof (handlePrepare_amounts_accepted rp p total
                  (frames rp) [] rf [] c2 Hall) as E.
    rewrite app_nil_r in E. unfold bind at 1. rewrite E. reflexivity.
  - apply handlePrepare_rejected_not_credited.
Qed.

(** ** Closing the connection *)

(** the packets handed to the plugin, in order *)
Definition sent (tr : list Effect) : list (BN.t * Packet) :=
  flat_map (fun e => match e with SendData a p => [(a, p)] | _ => [] end) tr.

Lemma sent_app tr tr' : sent (tr ++ tr') = sent tr ++ sent tr'.
Proof. apply flat_map_app. Qed.

(** nothing is sent and the peer is not marked as closed or open *)
Definition quiet (c c' : Connection B) : Prop :=
  sent (trace c') = sent (trace c) /\ remoteClosed c' = remoteClosed c.

#[local] Instance quiet_preorder : PreOrder quiet.
Proof.
  split.
  - intros c. split; reflexivity.
  - intros a b c [H1 H2] [K1 K2]. split; congruence.
Qed.

Definition is_send (e : Effect) : bool :=
  match e with SendData _ _ => true | _ => false end.

Lemma log_effect_quiet e : is_send e = false -> keeps quiet (log_effect e).
Proof.
  intros He c. split; [|reflexivity]. cbn. rewrite sent_app.
  destruct e; try discriminate; cbn; apply app_nil_r.
Qed.

Lemma safeEmit_quiet e : keeps quiet (safeEmit e).
Proof.
  assert (Hspawn : forall t, keeps quiet (spawn t))
    by (intros t; apply log_effect_quiet; reflexivity).
  assert (Hcleanup : forall o, keeps quiet (cleanup o)).
  { intros o c. unfold cleanup, modify, clearTimeout_idleTimer. cbn.
    destruct (idleTimer c); split; reflexivity. }
  unfold safeEmit. apply (keeps_bind quiet); [apply log_effect_quiet; reflexivity|].
  intros _. unfold fire_listeners.
  apply (keeps_bind quiet); [apply (keeps_get quiet)|intros c0].
  apply (keeps_bind quiet); [intros c1; split; reflexivity|intros _].
  apply (keeps_forM_ quiet). intros l. unfold run_listener.
  destruct (handler (snd l));
    try (apply (keeps_bind quiet); [apply Hcleanup|intros _]); apply Hspawn.
Qed.

Lemma removeStreamRecord_quiet s : keeps quiet (removeStreamRecord s).
Proof.
  intros c. unfold removeStreamRecord, bind, modify, when, push_queuedFrames, modify.
  destruct (negb (_sentEnd s)); split; reflexivity.
Qed.


(** once the peer is marked as closed, nothing is sent *)
Definition quiet_once_closed (c c' : Connection B) : Prop :=
  remoteClosed c = true -> quiet c c'.

#[local] Instance quiet_once_closed_preorder : PreOrder quiet_once_closed.
Proof.
  split.
  - intros c _. reflexivity.
  - intros a b c H K Ha. pose proof (H Ha) as Hab.
    etransitivity; [exact Hab|]. apply K. destruct Hab as [_ ->]. exact Ha.
Qed.

Lemma quiet_once_closed_of {A} (m : M B A) :
  keeps quiet m -> keeps quiet_once_closed m.
Proof. intros H c _. apply H. Qed.

Lemma sendConnectionClose_quiet plugin err :
  keeps quiet_once_closed (sendConnectionClose plugin err).
Proof.
  intros c Hrc. unfold sendConnectionClose, bind, get. rewrite Hrc. reflexivity.
Qed.

Lemma destroy_quiet plugin err : keeps quiet_once_closed (destroy plugin err).
Proof.
  unfold destroy.
  apply (keeps_bind quiet_once_closed).
  { destruct err; [apply quiet_once_closed_of, safeEmit_quiet|].
    apply (keeps_ret quiet_once_closed). }
  intros _. apply (keeps_bind quiet_once_closed).
  { apply quiet_once_closed_of. intros c. split; reflexivity. }
  intros _. apply (keeps_bind quiet_once_closed); [apply sendConnectionClose_quiet|].
  intros _. apply (keeps_bind quiet_once_closed);
    [apply (keeps_get quiet_once_closed)|intros c0].
  apply (keeps_bind quiet_once_closed).
  { apply (keeps_forM_ quiet_once_closed). intros kv.
    apply quiet_once_closed_of, removeStreamRecord_quiet. }
  intros _. apply quiet_once_closed_of, safeEmit_quiet.
Qed.

Lemma end_finish_quiet plugin : keeps quiet_once_closed (end_finish plugin).
Proof.
  unfold end_finish.
  apply (keeps_bind quiet_once_closed).
  { apply quiet_once_closed_of. intros c. split; reflexivity. }
  intros _. apply (keeps_bind quiet_once_closed); [apply sendConnectionClose_quiet|].
  intros _. apply (keeps_bind quiet_once_closed);
    [apply quiet_once_closed_of, safeEmit_quiet|intros _].
  apply quiet_once_closed_of, safeEmit_quiet.
Qed.

Lemma startSendLoop_quiet plugin fuel :
  keeps quiet_once_closed (startSendLoop plugin fuel).
Proof.
  intros c Hrc. unfold startSendLoop. unfold bind at 1. unfold get.
  destruct (sending c); [reflexivity|]. rewrite Hrc.
  apply (keeps_bind quiet); [apply safeEmit_quiet|intros _].
  apply (keeps_ret quiet).
Qed.

(** the trace is only added to *)
Definition trace_grows (c c' : Connection B) : Prop :=
  exists tr, trace c' = trace c ++ tr.

#[local] Instance trace_grows_preorder : PreOrder trace_grows.
Proof.
  split.
  - intros c. exists []. rewrite app_nil_r. reflexivity.
  - intros a b c [t1 H1] [t2 H2]. exists (t1 ++ t2). rewrite H2, H1, app_assoc.
    reflexivity.
Qed.

Lemma trace_grows_same (c c' : Connection B) : trace c' = trace c -> trace_grows c c'.
Proof. intros H. exists []. rewrite app_nil_r. exact H. Qed.

Lemma log_effect_grows e : keeps trace_grows (log_effect e).
Proof. intros c. exists [e]. reflexivity. Qed.

Lemma fire_listeners_grows e : keeps trace_grows (fire_listeners e).
Proof.
  unfold fire_listeners.
  apply (keeps_bind trace_grows); [apply (keeps_get trace_grows)|intros c0].
  apply (keeps_bind trace_grows); [intros c; apply trace_grows_same; reflexivity|].
  intros _. apply (keeps_forM_ trace_grows). intros l. unfold run_listener.
  assert (Hcleanup : forall o, keeps trace_grows (cleanup o)).
  { intros o c. apply trace_grows_same. unfold cleanup, modify, clearTimeout_idleTimer.
    cbn. destruct (idleTimer c); reflexivity. }
  destruct (handler (snd l));
    try (apply (keeps_bind trace_grows); [apply Hcleanup|intros _]);
    apply log_effect_grows.
Qed.

Lemma safeEmit_trace e (c : Connection B) :
  exists tr, trace (snd (safeEmit e c)) = trace c ++ Emitted e :: tr.
Proof.
  unfold safeEmit, log_effect. rewrite bind_modify.
  destruct (fire_listeners_grows e (set_trace (trace c ++ [Emitted e]) c)) as [tr Htr].
  exists tr. rewrite Htr. cbn. rewrite <- app_assoc. reflexivity.
Qed.

(** an event adds to the trace, without a packet for the plugin, and changes
    the listeners and the timers; every other field stays *)
Definition only_emits (c c' : Connection B) : Prop :=
  exists tr ls ts,
    c' = set_timers ts (set_listeners ls (set_trace (trace c ++ tr) c))
    /\ sent tr = [].

#[local] Instance only_emits_preorder : PreOrder only_emits.
Proof.
  split.
  - intros c. exists [], (listeners c), (timers c). split; [|reflexivity].
    destruct c. cbn. rewrite app_nil_r. reflexivity.
  - intros a b c (t1 & l1 & s1 & -> & H1) (t2 & l2 & s2 & -> & H2).
    exists (t1 ++ t2), l2, s2. split.
    + destruct a. cbn. rewrite app_assoc. reflexivity.
    + rewrite sent_app, H1, H2. reflexivity.
Qed.

Lemma log_effect_only_emits e : is_send e = false -> keeps only_emits (log_effect e).
Proof.
  intros He c. exists [e], (listeners c), (timers c). split.
  - destruct c. reflexivity.
  - destruct e; try discriminate; reflexivity.
Qed.

Lemma safeEmit_only_emits e : keeps only_emits (safeEmit e).
Proof.
  assert (Hcleanup : forall o, keeps only_emits (cleanup o)).
  { intros o c. unfold cleanup, modify, clearTimeout_idleTimer. cbn [snd].
    exists [],
      (List.filter (fun l => negb (Z.eqb (owner (snd l)) o
                                && is_connect_handler (handler (snd l))))
         (listeners c)),
      (match idleTimer c with
       | Some d => remove_first d (timers c)
       | None => timers c
       end).
    split; [|reflexivity].
    destruct c as [? ? ? ? ? ? ? ? ? ? ? ? ? [d|]]; cbn; rewrite app_nil_r; reflexivity. }
  unfold safeEmit. apply (keeps_bind only_emits);
    [apply log_effect_only_emits; reflexivity|intros _].
  unfold fire_listeners.
  apply (keeps_bind only_emits); [apply (keeps_get only_emits)|intros c0].
  apply (keeps_bind only_emits).
  { intros c1.
    exists [],
      (List.filter (fun l => negb (String.eqb (fst l) (Event_name e))) (listeners c0)),
      (timers c1).
    split; [|reflexivity].
    destruct c1. cbn. rewrite app_nil_r. reflexivity. }
  intros _. apply (keeps_forM_ only_emits). intros l. unfold run_listener.
  destruct (handler (snd l));
    try (apply (keeps_bind only_emits); [apply Hcleanup|intros _]);
    apply log_effect_only_emits; reflexivity.
Qed.

(** what a floating [startSendLoop()] does at once when the peer is marked
    as closed, and what a floating [destroy (err)] does at once then *)
Lemma startSendLoop_begin_closed (c : Connection B) :
  sending c = false -> remoteClosed c = true ->
  startSendLoop_begin c = safeEmit EvSendLoopFinished c.
Proof.
  intros Hs Hrc. unfold startSendLoop_begin. rewrite bind_get, Hs, Hrc. reflexivity.
Qed.

Lemma destroy_begin_closed err (c : Connection B) :
  remoteClosed c = true ->
  destroy_begin (Some err) c
  = (Ok tt,
     set_trace (trace (snd (safeEmit (EvError err) c)) ++ [Spawned TaskDestroyFinish])
       (set_streams
          (map (fun kv => (fst kv, stream_destroy (snd kv)))
             (streams (snd (safeEmit (EvError err) c))))
          (snd (safeEmit (EvError err) c)))).
Proof.
  intros Hrc. unfold destroy_begin.
  destruct (safeEmit_never_throws (EvError err) c) as [[] Hok].
  destruct (safeEmit_only_emits (EvError err) c) as (tr & ls & ts & Hc' & _).
  unfold bind at 1. destruct (safeEmit (EvError err) c) as [[[]|e] c1]; [|discriminate].
  cbn [fst snd] in *. rewrite bind_modify.
  unfold sendConnectionClose_begin. rewrite bind_assoc, bind_get.
  assert (Hrc1 : remoteClosed
                   (set_streams (map (fun kv => (fst kv, stream_destroy (snd kv)))
                                   (streams c1)) c1) = true).
  { rewrite Hc'. exact Hrc. }
  rewrite Hrc1. reflexivity.
Qed.

(** X8.  A ConnectionClose frame from the peer stops the sending and marks
    the connection and the peer as closed.  At once, before the next frame is
    looked at, [end()] (code NoError) ends every open stream and emits
    ['_send_loop_finished'], or [destroy(err)] (any other code) emits
    ['error'] and destroys every stream; handling the frame does not throw
    and hands nothing to the plugin.  From then on, as whenever the peer is
    marked as closed, [destroy], the end of [end()] and [startSendLoop] hand
    nothing to the plugin: a close is not answered with a close. *)
Theorem X8_remote_close_not_answered code message (c : Connection B) :
  (let r := handleControlFrames [ConnectionCloseFrame code message] c in
   let err :=
     JsError ("Remote connection error. Code: " +:+ ErrorCode_name code +:+
              ", message: " +:+ message) in
   fst r = Ok tt
   /\ sending (snd r) = false /\ closed (snd r) = true /\ remoteClosed (snd r) = true
   /\ sent (trace (snd r)) = sent (trace c)
   /\ streams (snd r)
      = map (fun kv =>
               (fst kv,
                if decide (code = NoError)
                then (if isOpen (snd kv) then stream_end (snd kv) else snd kv)
                else stream_destroy (snd kv)))
          (streams c)
   /\ exists tr,
        trace (snd r)
        = trace c
          ++ Emitted (if decide (code = NoError) then EvSendLoopFinished
                      else EvError err) :: tr)
  /\ (forall c1 : Connection B,
        remoteClosed c1 = true ->
        (forall plugin err,
           sent (trace (exec (destroy plugin err) c1)) = sent (trace c1))
        /\ (forall plugin,
              sent (trace (exec (end_finish plugin) c1)) = sent (trace c1))
        /\ (forall plugin fuel,
              sent (trace (exec (startSendLoop plugin fuel) c1)) = sent (trace c1))).
Proof.
  split.
  - cbv zeta. unfold handleControlFrames. cbn [forM_ handleControlFrame].
    rewrite bind_assoc, bind_modify, bind_assoc, bind_modify, bind_assoc, bind_modify.
    set (c3 := set_remoteClosed true (set_closed true (set_sending false c))).
    assert (Hfin : forall m : M B unit,
               fst (bind m (fun _ => ret tt) c3) = fst (m c3)
               /\ snd (bind m (fun _ => ret tt) c3) = snd (m c3)).
    { intros m. unfold bind. destruct (m c3) as [[[]|e] c4]; split; reflexivity. }
    destruct (decide (code = NoError)) as [Hc|Hc].
    + destruct (Hfin end_begin) as [-> ->]. unfold end_begin.
      rewrite bind_modify, bind_get, bind_modify.
      unfold once. rewrite bind_modify, bind_modify.
      rewrite startSendLoop_begin_closed by reflexivity.
      match goal with |- context [safeEmit EvSendLoopFinished ?c5] => set (c4 := c5) end.
      destruct (safeEmit_never_throws EvSendLoopFinished c4) as [[] Hok].
      destruct (safeEmit_only_emits EvSendLoopFinished c4) as (tr & ls & ts & Hc' & Hsent).
      destruct (safeEmit_trace EvSendLoopFinished c4) as [tr' Htr].
      split; [exact Hok|].
      split; [rewrite Hc'; reflexivity|]. split; [rewrite Hc'; reflexivity|].
      split; [rewrite Hc'; reflexivity|]. split.
      { rewrite Hc'. cbn. rewrite sent_app, Hsent. apply app_nil_r. }
      split; [rewrite Hc'; reflexivity|].
      exists tr'. rewrite Htr. reflexivity.
    + destruct (Hfin (destroy_begin (Some (JsError
                  ("Remote connection error. Code: " +:+ ErrorCode_name code +:+
                   ", message: " +:+ message))))) as [-> ->].
      set (err := JsError _).
      rewrite (destroy_begin_closed err c3) by reflexivity. cbn [fst snd].
      destruct (safeEmit_only_emits (EvError err) c3) as (tr & ls & ts & Hc' & Hsent).
      destruct (safeEmit_trace (EvError err) c3) as [tr' Htr].
      split; [reflexivity|].
      split; [rewrite Hc'; reflexivity|]. split; [rewrite Hc'; reflexivity|].
      split; [rewrite Hc'; reflexivity|]. split.
      { rewrite Hc'. cbn. rewrite !sent_app, Hsent. cbn. rewrite !app_nil_r. reflexivity. }
      split; [rewrite Hc'; reflexivity|].
      exists (tr' ++ [Spawned TaskDestroyFinish]).
      cbn [trace set_trace]. rewrite Htr. cbn. rewrite <- app_assoc. reflexivity.
  - intros c1 Hrc. split; [|split]; intros.
    + apply (destroy_quiet plugin err c1 Hrc).
    + apply (end_finish_quiet plugin c1 Hrc).
    + apply (startSendLoop_quiet plugin fuel c1 Hrc).
Qed.

(** ** The idle timer *)

(** X9.  With a timeout that is not 0, [startIdleTimer] sets the timer for
    [lastActive + idleTimeout], whatever the time is now.  When a timer
    fires, the connection is destroyed for inactivity only if that moment has
    come; if something has bumped [lastActive] in the meantime nothing is
    destroyed and a new timer is set for the new [lastActive + idleTimeout]. *)
Theorem X9_idle_timer (c : Connection B) (due : Z) :
  idleTimeout c <> 0 ->
  (let c' := exec startIdleTimer c in
   timers c' = timers c ++ [lastActive c + idleTimeout c]
   /\ idleTimer c' = Some (lastActive c + idleTimeout c)
   /\ trace c' = trace c)
  /\ (let c' := exec (fireTimer due) c in
      (lastActive c + idleTimeout c <= clock c ->
       trace c'
       = trace c
         ++ [Spawned (TaskDestroy
                        (Some (JsError "Connection timed out due to inactivity")))]
       /\ timers c' = remove_first due (timers c))
      /\ (clock c < lastActive c + idleTimeout c ->
          trace c' = trace c
          /\ timers c' = remove_first due (timers c) ++ [lastActive c + idleTimeout c]
          /\ idleTimer c' = Some (lastActive c + idleTimeout c))).
Proof.
  intros HT.
  assert (Hdue : clock c + (idleTimeout c - (clock c - lastActive c))
                 = lastActive c + idleTimeout c) by lia.
  assert (Hz : (idleTimeout c =? 0) = false) by (apply Z.eqb_neq; exact HT).
  split.
  - cbv zeta. unfold exec, startIdleTimer, bind, get, modify. rewrite Hz. cbn.
    rewrite Hdue. repeat split.
  - cbv zeta. unfold exec, fireTimer, testIdle, startIdleTimer, bind, get, modify.
    cbn [fst snd clock lastActive idleTimeout set_timers].
    split; intros H.
    + destruct (Z.leb_spec (idleTimeout c) (clock c - lastActive c)); [|lia].
      cbn. split; reflexivity.
    + destruct (Z.leb_spec (idleTimeout c) (clock c - lastActive c)); [lia|].
      change (idleTimeout (set_timers (remove_first due (timers c)) c))
        with (idleTimeout c).
      change (clock (set_timers (remove_first due (timers c)) c)) with (clock c).
      change (lastActive (set_timers (remove_first due (timers c)) c))
        with (lastActive c).
      rewrite Hz, Hdue. cbn. repeat split.
Qed.

(** ** Outgoing money: how much a packet carries *)

(** Lines 915-923: what one stream gives to the packet *)
Definition amountToSendFromStream (rate : option BQ.t) (stream : Stream B)
    (maxAmountFromNextStream : BN.t) : BN.t :=
  let available :=
    BN.minimum [_getAmountAvailableToSend stream; maxAmountFromNextStream] in
  match rate with
  | Some r =>
      let maxSourceAmount :=
        BQ.integerValue BQ.ROUND_CEIL
          (BQ.dividedBy
             (BQ.ofBN (BN.minus (_remoteReceiveMax stream) (_remoteReceived stream))) r) in
      if BN.isLessThan maxSourceAmount available then maxSourceAmount else available
  | None => available
  end.







(** no packet is handed to the plugin and no packet sequence is used *)
Definition no_packet (c c' : Connection B) : Prop :=
  sent (trace c') = sent (trace c) /\ nextPacketSequence c' = nextPacketSequence c.

#[local] Instance no_packet_preorder : PreOrder no_packet.
Proof.
  split.
  - intros c. split; reflexivity.
  - intros a b c [H1 H2] [K1 K2]. split; congruence.
Qed.

Lemma log_effect_no_packet e : is_send e = false -> keeps no_packet (log_effect e).
Proof.
  intros He c. split; [|reflexivity]. cbn. rewrite sent_app.
  destruct e; try discriminate; cbn; apply app_nil_r.
Qed.

Lemma safeEmit_no_packet e : keeps no_packet (safeEmit e).
Proof.
  assert (Hcleanup : forall o, keeps no_packet (cleanup o)).
  { intros o c. unfold cleanup, modify, clearTimeout_idleTimer. cbn.
    destruct (idleTimer c); split; reflexivity. }
  unfold safeEmit. apply (keeps_bind no_packet);
    [apply log_effect_no_packet; reflexivity|intros _].
  unfold fire_listeners.
  apply (keeps_bind no_packet); [apply (keeps_get no_packet)|intros c0].
  apply (keeps_bind no_packet); [intros c1; split; reflexivity|intros _].
  apply (keeps_forM_ no_packet). intros l. unfold run_listener.
  destruct (handler (snd l));
    try (apply (keeps_bind no_packet); [apply Hcleanup|intros _]);
    apply log_effect_no_packet; reflexivity.
Qed.

Ltac np_step :=
  lazymatch goal with
  | |- keeps _ (bind _ _) => apply (keeps_bind no_packet); [ | intros ]
  | |- keeps _ (ret _) => apply (keeps_ret no_packet)
  | |- keeps _ (throw _) => apply (keeps_throw no_packet)
  | |- keeps _ get => apply (keeps_get no_packet)
  | |- keeps _ (when _ _) => apply (keeps_when no_packet)
  | |- keeps _ (forM_ _ _) => apply (keeps_forM_ no_packet); intros
  | |- keeps _ (try_catch _ _) => apply (keeps_try_catch no_packet); [ | intros ]
  | |- keeps _ (modify _) => intros ?; split; reflexivity
  | |- keeps _ (spawn _) => apply log_effect_no_packet; reflexivity
  | |- keeps _ (log_effect _) => apply log_effect_no_packet; reflexivity
  | |- keeps _ (update_stream _ _) => intros ?; split; reflexivity
  | |- keeps _ (push_queuedFrames _) => intros ?; split; reflexivity
  | |- keeps _ (safeEmit _) => apply safeEmit_no_packet
  | |- keeps _ (once _ _) => intros ?; split; reflexivity
  | |- keeps _ (match ?x with _ => _ end) => destruct x
  end.

Ltac np := intros; repeat np_step.

Lemma startSendLoop_begin_no_packet : keeps no_packet startSendLoop_begin.
Proof. unfold startSendLoop_begin. np. Qed.

Lemma end_begin_no_packet : keeps no_packet end_begin.
Proof.
  unfold end_begin. np. apply startSendLoop_begin_no_packet.
Qed.

(** a packet that tells the peer that the connection closes, and nothing
    else: no money, one ConnectionClose frame *)
Definition is_close_packet (x : BN.t * Packet) : Prop :=
  fst x = BN.Fin 0
  /\ exists code message, frames (snd x) = [ConnectionCloseFrame code message].

(** no packet sequence is used, and the only packets handed to the plugin
    are ConnectionClose packets (of a [destroy] that was started) *)
Definition closes_only (c c' : Connection B) : Prop :=
  nextPacketSequence c' = nextPacketSequence c
  /\ exists closes,
       sent (trace c') = sent (trace c) ++ closes /\ Forall is_close_packet closes.

#[local] Instance closes_only_preorder : PreOrder closes_only.
Proof.
  split.
  - intros c. split; [reflexivity|]. exists []. rewrite app_nil_r.
    split; [reflexivity|constructor].
  - intros a b c [H1 (l1 & E1 & F1)] [H2 (l2 & E2 & F2)]. split; [congruence|].
    exists (l1 ++ l2). rewrite E2, E1, app_assoc. split; [reflexivity|].
    apply Forall_app. split; assumption.
Qed.

Lemma closes_only_of {A} (m : M B A) : keeps no_packet m -> keeps closes_only m.
Proof.
  intros H c. destruct (H c) as [H1 H2]. split; [exact H2|].
  exists []. rewrite app_nil_r. split; [exact H1|constructor].
Qed.

Lemma destroy_begin_closes_only err : keeps closes_only (destroy_begin err).
Proof.
  unfold destroy_begin.
  apply (keeps_bind closes_only); [apply closes_only_of; np|intros _].
  apply (keeps_bind closes_only); [apply closes_only_of; np|intros _].
  apply (keeps_bind closes_only); [|intros _; apply closes_only_of; np].
  intros c. unfold sendConnectionClose_begin. rewrite bind_get.
  destruct (remoteClosed c); [reflexivity|].
  destruct (_destinationAccount c); [|reflexivity].
  split; [reflexivity|]. exists [(BN.Fin 0, connectionClosePacket err c)].
  cbn. rewrite sent_app. split; [reflexivity|]. constructor; [|constructor].
  split; [reflexivity|]. unfold connectionClosePacket.
  destruct err as [[]|]; eexists _, _; reflexivity.
Qed.

Ltac co_step :=
  lazymatch goal with
  | |- keeps _ (bind _ _) => apply (keeps_bind closes_only); [ | intros ]
  | |- keeps _ (when _ _) => apply (keeps_when closes_only)
  | |- keeps _ (forM_ _ _) => apply (keeps_forM_ closes_only); intros
  | |- keeps _ (try_catch _ _) => apply (keeps_try_catch closes_only); [ | intros ]
  | |- keeps _ (destroy_begin _) => apply destroy_begin_closes_only
  | |- keeps _ end_begin => apply closes_only_of, end_begin_no_packet
  | |- keeps _ startSendLoop_begin => apply closes_only_of, startSendLoop_begin_no_packet
  | |- keeps _ (match ?x with _ => _ end) => destruct x
  | |- keeps _ _ => apply closes_only_of; solve [np]
  end.

Ltac co := intros; repeat co_step.

Lemma handleControlFrames_closes_only fs : keeps closes_only (handleControlFrames fs).
Proof.
  unfold handleControlFrames. apply (keeps_forM_ closes_only). intros f.
  unfold handleControlFrame, handleStreamClose, handleConnect. destruct f; co.
Qed.

Lemma undoRejectedPacket_no_packet rp : keeps no_packet (undoRejectedPacket rp).
Proof. unfold undoRejectedPacket. np. Qed.

Lemma handleConnectorError_no_packet code message data a :
  keeps no_packet (handleConnectorError code message data a).
Proof. unfold handleConnectorError. np. Qed.


(** [sendPacket] hands exactly one packet to the plugin: the one it is
    given, with the amount it is given *)
Lemma sendPacket_sends plugin packet a u (c : Connection B) :
  let c' := snd (sendPacket plugin packet a u c) in
  sent (trace c') = sent (trace c) ++ [(a, packet)]
  /\ nextPacketSequence c' = nextPacketSequence c.
Proof.
  cbv zeta. unfold sendPacket. rewrite bind_get. cbv zeta. rewrite bind_sendData.
  cbn [out_amount out_packet].
  match goal with
  | |- context [snd (?k ?c1)] =>
      assert (Hk : no_packet c1 (snd (k c1)));
      [|destruct Hk as [H1 H2]; rewrite H1, H2; cbn; rewrite sent_app; split; reflexivity]
  end.
  match goal with |- no_packet ?c1 (snd (?k ?c1)) => generalize c1 end.
  match goal with |- forall c1, no_packet c1 (snd (?k c1)) => change (keeps no_packet k) end.
  unfold bumpIdle.
  destruct (plugin _); np; try apply undoRejectedPacket_no_packet;
    try apply handleConnectorError_no_packet.
Qed.



(** ** The probe ceiling after a fulfilled packet *)

(** the retry delay and the two packet-amount limits are the same *)
Definition pace_same (c c' : Connection B) : Prop :=
  retryDelay c' = retryDelay c
  /\ testMaximumPacketAmount c' = testMaximumPacketAmount c
  /\ maximumPacketAmount c' = maximumPacketAmount c.

#[local] Instance pace_same_preorder : PreOrder pace_same.
Proof.
  split.
  - intros c. repeat split.
  - intros a b c (H1 & H2 & H3) (K1 & K2 & K3). repeat split; congruence.
Qed.








(** ** The exchange rate *)

Lemma determineExchangeRate_attempt_rate plugin d amts (c : Connection B) :
  let r := determineExchangeRate_attempt plugin d amts c in
  match fst r with
  | Ok None => exists q, exchangeRate (snd r) = Some q
  | _ => exchangeRate (snd r) = exchangeRate c
  end.
Proof.
  cbv zeta. destruct (determineExchangeRate_attempt plugin d amts c) as [r c'] eqn:E.
  cbn [fst snd]. unfold determineExchangeRate_attempt in E. unfold bind at 1 in E.
  destruct (sendTestPacketVolley_spec plugin amts c) as (_ & _ & _ & V4 & _).
  destruct (sendTestPacketVolley plugin amts c) as [[v|e] c1]; cbn [snd] in V4.
  2:{ injection E as <- <-. exact V4. }
  unfold bind, modify, get in E. cbn [fst snd] in E.
  destruct (BN.isEqualTo _ _).
  { injection E as <- <-. exact V4. }
  destruct (minExchangeRatePrecision _ <=? maxDigits v).
  { injection E as <- <-. eexists. reflexivity. }
  destruct (existsb isTemporary (packetErrors v)).
  - unfold log_effect, modify in E. injection E as <- <-. exact V4.
  - injection E as <- <-. exact V4.
Qed.

(** X11.  [determineExchangeRate] never returns without a rate: when it
    returns, [exchangeRate] is set; when it throws, [exchangeRate] is what
    it was.  It throws at once, before any test packet, when the destination
    account is not known or a rate is already there. *)
Theorem X11_rate_or_exception plugin (c : Connection B) :
  let r := determineExchangeRate plugin c in
  match fst r with
  | Ok _ => exists q, exchangeRate (snd r) = Some q
  | Throw _ => exchangeRate (snd r) = exchangeRate c
  end
  /\ (truthy_string (_destinationAccount c) = None \/ exchangeRate c <> None ->
      exists e, r = (Throw e, c)).
Proof.
  cbv zeta.
  assert (Hloop : forall n d amts (c0 : Connection B),
            let r := determineExchangeRate_loop plugin n d amts c0 in
            match fst r with
            | Ok _ => exists q, exchangeRate (snd r) = Some q
            | Throw _ => exchangeRate (snd r) = exchangeRate c0
            end).
  { induction n as [|n IH]; intros d amts c0; cbv zeta;
      cbn [determineExchangeRate_loop]; rewrite bind_get.
    - destruct (exchangeRate c0) eqn:Hrate, amts; unfold throw; cbn [fst snd];
        exact Hrate.
    - destruct (exchangeRate c0) eqn:Hrate; [unfold throw; cbn [fst snd]; exact Hrate|].
      destruct amts as [|a amts]; [unfold throw; cbn [fst snd]; exact Hrate|].
      pose proof (determineExchangeRate_attempt_rate plugin d (a :: amts) c0) as Ha.
      cbv zeta in Ha. unfold bind.
      destruct (determineExchangeRate_attempt plugin d (a :: amts) c0)
        as [[[[d' amts']|]|e] c1]; cbn [fst snd] in Ha |- *.
      + specialize (IH d' amts' c1). cbv zeta in IH.
        destruct (determineExchangeRate_loop plugin n d' amts' c1) as [[[]|e] c2];
          cbn [fst snd] in IH |- *; [exact IH|congruence].
      + exact Ha.
      + congruence. }
  split.
  - unfold determineExchangeRate. rewrite bind_get.
    destruct (truthy_string (_destinationAccount c)); [apply Hloop|reflexivity].
  - intros [H|H]; unfold determineExchangeRate; rewrite bind_get.
    + rewrite H. eexists. reflexivity.
    + destruct (truthy_string (_destinationAccount c)); [|eexists; reflexivity].
      unfold MAX_ATTEMPTS. cbn [determineExchangeRate_loop]. rewrite bind_get.
      destruct (exchangeRate c); [|congruence]. eexists. reflexivity.
Qed.

(** ** The exchange-rate prober: what goes to the plugin and what comes of it *)

(** the packet that [sendTestPacket] builds at the connection [c] with the
    sequence [seq], and the prepare that carries it with the amount [amt] *)
Definition testPacket (c : Connection B) (seq : Z) : Packet :=
  mkPacket seq Prepare (BN.Fin 0)
    (if negb (remoteKnowsOurAccount c) then
       [ConnectionNewAddressFrame (_sourceAccount c);
        ConnectionAssetDetailsFrame (_sourceAssetCode c) (_sourceAssetScale c)]
     else []).

Definition testPrepare (c : Connection B) (seq : Z) (amt : BN.t) : OutPrepare :=
  mkOutPrepare (_destinationAccount c) amt (testPacket c seq)
    (serializeAndEncrypt (testPacket c seq) None) None.

(** the test packets of a volley with their amounts, from the sequence [seq]
    on, and what the plugin answers to each *)
Fixpoint testRequests (c : Connection B) (seq : Z) (amts : list BN.t)
    : list (BN.t * Packet) :=
  match amts with
  | [] => []
  | a :: rest => (a, testPacket c seq) :: testRequests c (seq + 1) rest
  end.

Fixpoint testReplies (plugin : Plugin) (c : Connection B) (seq : Z) (amts : list BN.t)
    : list PluginReply :=
  match amts with
  | [] => []
  | a :: rest => plugin (testPrepare c seq a) :: testReplies plugin c (seq + 1) rest
  end.

(** the maximum packet amount that the answer to one test packet tells of:
    the quotient for an F08 reject whose data holds the two amounts, and
    [Infinity] for every other answer *)
Definition replyMaximum (sourceAmount : BN.t) (reply : PluginReply) : BN.t :=
  match reply with
  | PluginReject code _ _ data =>
      if String.eqb code "F08" then
        match readF08 data with
        | Some (receivedAmount, maximumAmount) =>
            BN.dividedToIntegerBy (BN.times sourceAmount maximumAmount) receivedAmount
        | None => BN.Infinity
        end
      else BN.Infinity
  | _ => BN.Infinity
  end.

(** the maximum packet amounts of the volley with the amounts [amts] that
    starts at the connection [c] *)
Definition replyMaxima (plugin : Plugin) (c : Connection B) (amts : list BN.t)
    : list BN.t :=
  map (fun x => replyMaximum (fst x) (snd x))
    (combine amts (testReplies plugin c (nextPacketSequence c) amts)).

Definition carries_close (p : Packet) : bool :=
  match frames p with
  | [ConnectionCloseFrame _ _] => true
  | _ => false
  end.

(** the amounts of the packets handed to the plugin that are not
    ConnectionClose packets *)
Definition testAmounts (l : list (BN.t * Packet)) : list BN.t :=
  map fst (List.filter (fun x => negb (carries_close (snd x))) l).

Lemma testAmounts_app l l' : testAmounts (l ++ l') = testAmounts l ++ testAmounts l'.
Proof. unfold testAmounts. rewrite List.filter_app, map_app. reflexivity. Qed.

Lemma testAmounts_closes l : Forall is_close_packet l -> testAmounts l = [].
Proof.
  induction 1 as [|x l [_ (code & message & Hx)] _ IH]; [reflexivity|].
  unfold testAmounts in *. cbn [List.filter]. unfold carries_close at 1.
  rewrite Hx. cbn. exact IH.
Qed.

Lemma testAmounts_requests (c : Connection B) seq amts :
  testAmounts (testRequests c seq amts) = amts.
Proof.
  revert seq. induction amts as [|a amts IH]; intros seq; [reflexivity|].
  cbn [testRequests]. unfold testAmounts in *. cbn [List.filter snd].
  assert (H : carries_close (testPacket c seq) = false)
    by (unfold carries_close, testPacket; destruct (remoteKnowsOurAccount c); reflexivity).
  rewrite H. cbn. rewrite IH. reflexivity.
Qed.

Lemma sent_requests (l : list (BN.t * Packet)) :
  sent (map (fun x => SendData (fst x) (snd x)) l) = l.
Proof. induction l as [|[a p] l IH]; [reflexivity|]. cbn. f_equal. exact IH. Qed.

Lemma testRequests_length (c : Connection B) seq amts :
  length (testRequests c seq amts) = length amts.
Proof. revert seq. induction amts; intros seq; simpl; auto. Qed.

Lemma testReplies_length plugin (c : Connection B) seq amts :
  length (testReplies plugin c seq amts) = length amts.
Proof. revert seq. induction amts; intros seq; simpl; auto. Qed.

(** The first half of a volley: every test packet is handed to the plugin,
    each with the next sequence. *)
Lemma mapM_sendTestPacket_request plugin amts (c0 : Connection B) :
  forall seq tr,
    mapM (sendTestPacket_request plugin) amts
      (set_trace tr (set_nextPacketSequence seq c0))
    = (Ok (combine (map snd (testRequests c0 seq amts)) (testReplies plugin c0 seq amts)),
       set_trace (tr ++ map (fun x => SendData (fst x) (snd x)) (testRequests c0 seq amts))
         (set_nextPacketSequence (seq + Z.of_nat (length amts)) c0)).
Proof.
  induction amts as [|a amts IH]; intros seq tr.
  - cbn. rewrite app_nil_r, Z.add_0_r. reflexivity.
  - cbn [mapM]. unfold bind at 1. unfold sendTestPacket_request at 1.
    rewrite bind_get, bind_modify, bind_sendData.
    cbn [out_amount out_packet]. unfold ret at 1.
    change (set_trace _ (set_nextPacketSequence _ (set_trace tr (set_nextPacketSequence seq c0))))
      with (set_trace (tr ++ [SendData a (testPacket c0 seq)])
              (set_nextPacketSequence (seq + 1) c0)).
    unfold bind at 1. rewrite IH. unfold ret.
    cbn [testRequests testReplies map combine snd fst length].
    rewrite <- app_assoc. cbn [app].
    replace (seq + 1 + Z.of_nat (length amts)) with (seq + Z.of_nat (S (length amts)))
      by lia.
    reflexivity.
Qed.

Lemma sendTestPacket_response_closes_only req reply :
  keeps closes_only (sendTestPacket_response req reply).
Proof.
  unfold sendTestPacket_response, bumpIdle.
  destruct reply; co; apply handleControlFrames_closes_only.
Qed.

(** The second half: what a result tells of is what the plugin's answer
    tells of. *)
Lemma sendTestPacket_response_maximum req reply (c : Connection B) result c' :
  sendTestPacket_response req reply c = (Ok result, c') ->
  forall a, maxPacketAmount_of a result = replyMaximum a reply.
Proof.
  unfold sendTestPacket_response, bumpIdle. intros E a.
  destruct reply as [ful d|code tb msg rdata| |].
  - rewrite bind_modify in E. discriminate E.
  - rewrite bind_modify in E.
    destruct (String.eqb code "F99" && (0 <? length rdata)%nat) eqn:HF99.
    + apply andb_prop in HF99 as [Hcode _]. apply String.eqb_eq in Hcode. subst code.
      destruct (decryptAndDeserialize rdata) as [rp|]; [|discriminate E].
      destruct (negb (sequence rp =? sequence req)); [discriminate E|].
      destruct (negb (bool_decide (ilpPacketType rp = Reject))); [discriminate E|].
      apply bind_Ok_inv in E as (? & c1 & _ & E).
      apply bind_Ok_inv in E as (? & c2 & _ & E).
      injection E as <- _. reflexivity.
    + injection E as <- _. reflexivity.
  - rewrite bind_modify in E. discriminate E.
  - injection E as <- _. reflexivity.
Qed.

Lemma mapM_sendTestPacket_response (l : list (Packet * PluginReply)) :
  forall (c : Connection B) results c',
    mapM (fun '(req, reply) => sendTestPacket_response req reply) l c = (Ok results, c') ->
    forall amts,
      map (fun '(a, r) => maxPacketAmount_of a r) (combine amts results)
      = map (fun x => replyMaximum (fst x) (snd x)) (combine amts (map snd l)).
Proof.
  induction l as [|[req reply] l IH]; intros c results c' E amts.
  - injection E as <- _. destruct amts; reflexivity.
  - cbn [mapM] in E. apply bind_Ok_inv in E as (r & c1 & E1 & E).
    apply bind_Ok_inv in E as (rs & c2 & E2 & E). injection E as <- _.
    destruct amts as [|a amts]; [reflexivity|].
    cbn [map combine snd fst].
    rewrite (sendTestPacket_response_maximum _ _ _ _ _ E1 a).
    rewrite (IH _ _ _ E2 amts). reflexivity.
Qed.

Lemma map_snd_combine {X Y} (l : list X) (l' : list Y) :
  length l = length l' -> map snd (combine l l') = l'.
Proof.
  revert l'. induction l as [|x l IH]; intros [|y l'] H; try discriminate; [reflexivity|].
  cbn. f_equal. apply IH. injection H as H. exact H.
Qed.

(** A volley: the packets it hands to the plugin, the sequences it uses, and
    the maximum packet amounts it returns. *)
Lemma sendTestPacketVolley_sends plugin amts (c : Connection B) :
  let r := sendTestPacketVolley plugin amts c in
  nextPacketSequence (snd r) = nextPacketSequence c + Z.of_nat (length amts)
  /\ (exists closes,
        sent (trace (snd r))
        = sent (trace c) ++ testRequests c (nextPacketSequence c) amts ++ closes
        /\ Forall is_close_packet closes)
  /\ (forall v, fst r = Ok v -> maxPacketAmounts v = replyMaxima plugin c amts).
Proof.
  cbv zeta. destruct (sendTestPacketVolley plugin amts c) as [r c'] eqn:E.
  cbn [fst snd]. unfold sendTestPacketVolley, log_effect in E.
  rewrite bind_modify in E.
  replace (set_trace (trace c ++ [TestVolley amts]) c)
    with (set_trace (trace c ++ [TestVolley amts])
            (set_nextPacketSequence (nextPacketSequence c) c)) in E
    by (destruct c; reflexivity).
  unfold bind at 1 in E. rewrite mapM_sendTestPacket_request in E.
  set (reqs := testRequests c (nextPacketSequence c) amts) in *.
  set (replies := testReplies plugin c (nextPacketSequence c) amts) in *.
  set (c1 := set_trace _ _) in E.
  pose proof (keeps_mapM closes_only
                (fun '(req, reply) => sendTestPacket_response req reply)
                (combine (map snd reqs) replies)
                (fun x => let '(req, reply) := x in
                          sendTestPacket_response_closes_only req reply) c1)
    as [Hseq (closes & Hsent & Hcl)].
  assert (Hc1 : sent (trace c1) = sent (trace c) ++ reqs).
  { subst c1. cbn [trace set_trace]. rewrite !sent_app, sent_requests. cbn.
    rewrite app_nil_r. reflexivity. }
  assert (Hn1 : nextPacketSequence c1 = nextPacketSequence c + Z.of_nat (length amts))
    by reflexivity.
  unfold bind at 1 in E.
  destruct (mapM _ (combine (map snd reqs) replies) c1) as [[results|e] c2] eqn:E2;
    cbn [snd] in Hseq, Hsent.
  - pose proof (mapM_sendTestPacket_response _ _ _ _ E2 amts) as Hmax.
    rewrite map_snd_combine in Hmax
      by (subst reqs replies;
          rewrite length_map, testRequests_length, testReplies_length; reflexivity).
    destruct (fold_left volley_reduce _ _) as [[md er] pe]. injection E as <- <-.
    split; [rewrite Hseq; exact Hn1|]. split.
    + exists closes. rewrite Hsent, Hc1, <- app_assoc. split; [reflexivity|exact Hcl].
    + intros v [= <-]. exact Hmax.
  - injection E as <- <-. split; [rewrite Hseq; exact Hn1|]. split.
    + exists closes. rewrite Hsent, Hc1, <- app_assoc. split; [reflexivity|exact Hcl].
    + intros v Hv. discriminate Hv.
Qed.

(** One turn of the loop, when its volley returns: the two limits become the
    minimum [m], and the turn throws exactly when [m] is 0. *)
Lemma determineExchangeRate_attempt_turn plugin d amts (c : Connection B) v c1 :
  sendTestPacketVolley plugin amts c = (Ok v, c1) ->
  let m := BN.minimum (replyMaxima plugin c amts ++ [maximumPacketAmount c]) in
  let c2 := set_testMaximumPacketAmount m (set_maximumPacketAmount m c1) in
  (BN.isEqualTo m (BN.Fin 0) = true ->
   determineExchangeRate_attempt plugin d amts c = (Throw zero_maximum_error, c2))
  /\ (BN.isEqualTo m (BN.Fin 0) = false ->
      exists next c3,
        determineExchangeRate_attempt plugin d amts c = (Ok next, c3)
        /\ maximumPacketAmount c3 = m /\ testMaximumPacketAmount c3 = m).
Proof.
  intros E. cbv zeta.
  destruct (sendTestPacketVolley_sends plugin amts c) as (_ & _ & Hmax).
  destruct (sendTestPacketVolley_spec plugin amts c) as (_ & Hkeep & _).
  rewrite E in Hmax, Hkeep. cbn [fst snd] in Hmax, Hkeep.
  specialize (Hmax v eq_refl).
  split; intros Hz;
    unfold determineExchangeRate_attempt; unfold bind at 1; rewrite E;
    rewrite !bind_modify, bind_get;
    cbn [maximumPacketAmount set_maximumPacketAmount set_testMaximumPacketAmount];
    rewrite Hmax, Hkeep; rewrite Hz.
  - reflexivity.
  - cbn [minExchangeRatePrecision set_testMaximumPacketAmount set_maximumPacketAmount].
    destruct (minExchangeRatePrecision c1 <=? maxDigits v).
    { eexists _, _. rewrite bind_modify. unfold ret. split; [reflexivity|].
      split; reflexivity. }
    destruct (existsb isTemporary (packetErrors v)).
    + eexists _, _. unfold log_effect. rewrite bind_modify. unfold ret.
      split; [reflexivity|]. split; reflexivity.
    + eexists _, _. unfold ret. split; [reflexivity|]. split; reflexivity.
Qed.

(** what a turn hands to the plugin *)
Lemma determineExchangeRate_attempt_sends plugin d amts (c : Connection B) :
  let r := determineExchangeRate_attempt plugin d amts c in
  nextPacketSequence (snd r) = nextPacketSequence c + Z.of_nat (length amts)
  /\ exists closes,
       sent (trace (snd r))
       = sent (trace c) ++ testRequests c (nextPacketSequence c) amts ++ closes
       /\ Forall is_close_packet closes.
Proof.
  cbv zeta.
  destruct (sendTestPacketVolley_sends plugin amts c) as (Hseq & Hsent & _).
  destruct (determineExchangeRate_attempt plugin d amts c) as [r c'] eqn:E. cbn [snd].
  unfold determineExchangeRate_attempt in E. unfold bind at 1 in E.
  destruct (sendTestPacketVolley plugin amts c) as [[v|e] c1]; cbn [snd] in Hseq, Hsent.
  2:{ injection E as <- <-. split; assumption. }
  match type of E with
  | ?k c1 = _ => assert (Hk : no_packet c1 (snd (k c1)))
  end.
  { match goal with |- no_packet c1 (snd (?k c1)) => generalize c1 end.
    match goal with |- forall c1, no_packet c1 (snd (?k c1)) => change (keeps no_packet k) end.
    np. }
  rewrite E in Hk. destruct Hk as [K1 K2]. cbn [snd] in K1, K2.
  rewrite K1, K2. split; assumption.
Qed.

Lemma determineExchangeRate_loop_stops plugin n d amts (c : Connection B) :
  exchangeRate c <> None \/ amts = [] \/ n = 0%nat ->
  snd (determineExchangeRate_loop plugin n d amts c) = c.
Proof.
  intros H. destruct n; cbn [determineExchangeRate_loop]; rewrite bind_get;
    destruct (exchangeRate c), amts; try reflexivity;
    exfalso; destruct H as [H|[H|H]]; congruence.
Qed.

(** The whole loop: its volleys and the test packets it hands to the
    plugin. *)
Lemma determineExchangeRate_loop_sends plugin n :
  forall d amts (c : Connection B),
    let c' := snd (determineExchangeRate_loop plugin n d amts c) in
    exists vs news,
      volleys (trace c') = volleys (trace c) ++ vs
      /\ (length vs <= n)%nat
      /\ sent (trace c') = sent (trace c) ++ news
      /\ testAmounts news = concat vs
      /\ nextPacketSequence c' = nextPacketSequence c + Z.of_nat (length (concat vs))
      /\ (exchangeRate c = None -> amts <> [] -> n <> 0%nat ->
          exists vs' rest,
            vs = amts :: vs'
            /\ news = testRequests c (nextPacketSequence c) amts ++ rest).
Proof.
  assert (Hnone : forall (c : Connection B) (n0 : nat) (amts : list BN.t),
            (exchangeRate c <> None \/ amts = [] \/ n0 = 0%nat) ->
            exists vs news,
              volleys (trace c) = volleys (trace c) ++ vs
              /\ (length vs <= n0)%nat
              /\ sent (trace c) = sent (trace c) ++ news
              /\ testAmounts news = concat vs
              /\ nextPacketSequence c = nextPacketSequence c + Z.of_nat (length (concat vs))
              /\ (exchangeRate c = None -> amts <> [] -> n0 <> 0%nat ->
                  exists vs' rest,
                    vs = amts :: vs'
                    /\ news = testRequests c (nextPacketSequence c) amts ++ rest)).
  { intros c n0 amts H. exists [], []. rewrite !app_nil_r. cbn.
    repeat split; try lia. intros; exfalso; tauto. }
  induction n as [|n IH]; intros d amts c; cbv zeta.
  { rewrite determineExchangeRate_loop_stops by auto. apply Hnone; auto. }
  assert (Hrate : exchangeRate c = None \/ exchangeRate c <> None)
    by (destruct (exchangeRate c); [right; discriminate|left; reflexivity]).
  destruct Hrate as [Hrate|Hrate];
    [|rewrite determineExchangeRate_loop_stops by auto; apply Hnone; auto].
  assert (Hamts : amts = [] \/ amts <> [])
    by (destruct amts; [left; reflexivity|right; discriminate]).
  destruct Hamts as [Hamts|Hamts];
    [rewrite determineExchangeRate_loop_stops by auto; apply Hnone; auto|].
  assert (Hloop : determineExchangeRate_loop plugin (S n) d amts c
                  = bind (determineExchangeRate_attempt plugin d amts)
                      (fun next =>
                         match next with
                         | None => ret tt
                         | Some (d', amts') =>
                             determineExchangeRate_loop plugin n d' amts'
                         end) c).
  { cbn [determineExchangeRate_loop]. rewrite bind_get, Hrate.
    destruct amts; [congruence|reflexivity]. }
  rewrite Hloop. clear Hloop.
  destruct (determineExchangeRate_attempt_spec plugin d amts c) as [Hv _].
  destruct (determineExchangeRate_attempt_sends plugin d amts c)
    as (Hseq & closes & Hsent & Hcl).
  cbv zeta in Hv. unfold bind.
  destruct (determineExchangeRate_attempt plugin d amts c)
    as [[[[d' amts']|]|e] c1]; cbn [fst snd] in Hv, Hseq, Hsent |- *.
  - destruct (IH d' amts' c1) as (vs & news & I1 & I2 & I3 & I4 & I5 & _).
    exists (amts :: vs),
      (testRequests c (nextPacketSequence c) amts ++ closes ++ news).
    rewrite I1, Hv, I3, Hsent, I5, Hseq, <- !app_assoc.
    rewrite !testAmounts_app, testAmounts_requests, (testAmounts_closes _ Hcl), I4.
    cbn [concat app length]. rewrite length_app.
    split; [reflexivity|]. split; [lia|]. split; [reflexivity|].
    split; [reflexivity|]. split; [lia|].
    intros _ _ _. eexists _, _. split; reflexivity.
  - exists [amts], (testRequests c (nextPacketSequence c) amts ++ closes).
    unfold ret. cbn [snd]. rewrite Hv, Hsent, Hseq.
    rewrite !testAmounts_app, testAmounts_requests, (testAmounts_closes _ Hcl).
    cbn [concat app length]. rewrite !app_nil_r.
    split; [reflexivity|]. split; [lia|]. split; [reflexivity|].
    split; [reflexivity|]. split; [reflexivity|].
    intros _ _ _. eexists _, _. split; reflexivity.
  - exists [amts], (testRequests c (nextPacketSequence c) amts ++ closes).
    rewrite Hv, Hsent, Hseq.
    rewrite !testAmounts_app, testAmounts_requests, (testAmounts_closes _ Hcl).
    cbn [concat app length]. rewrite !app_nil_r.
    split; [reflexivity|]. split; [lia|]. split; [reflexivity|].
    split; [reflexivity|]. split; [reflexivity|].
    intros _ _ _. eexists _, _. split; reflexivity.
Qed.

(** C2.  With the destination known and no rate yet, the first five packets
    that [determineExchangeRate] hands to the plugin are test packets with
    the source amounts 1, 10^3, 10^6, 10^9 and 10^12, and the whole probe
    makes at most 20 volleys, whose amounts are those of the test packets
    handed to the plugin, each with a packet sequence of its own.  In every
    turn of the loop whose volley returns, [maximumPacketAmount] and
    [testMaximumPacketAmount] become the minimum [m] of what the plugin's
    answers to the test packets tell of and the earlier
    [maximumPacketAmount], and the probe throws at that turn exactly when [m]
    equals 0; else it goes on with the next turn or returns.  An F08 reject
    tells of [floor (source * maximum / received)] (for received above 0),
    every other answer of [Infinity]; the minimum is an element of the list
    that is not greater than any other. *)
Theorem C2_exchange_rate_probe plugin (c : Connection B) :
  let seq := nextPacketSequence c in
  let c' := exec (determineExchangeRate plugin) c in
  (truthy_string (_destinationAccount c) <> None -> exchangeRate c = None ->
   exists rest,
     sent (trace c')
     = sent (trace c)
       ++ [(BN.Fin 1, testPacket c seq);
           (BN.Fin (10 ^ 3), testPacket c (seq + 1));
           (BN.Fin (10 ^ 6), testPacket c (seq + 2));
           (BN.Fin (10 ^ 9), testPacket c (seq + 3));
           (BN.Fin (10 ^ 12), testPacket c (seq + 4))]
       ++ rest)
  /\ (exists vs news,
        volleys (trace c') = volleys (trace c) ++ vs
        /\ (length vs <= 20)%nat
        /\ sent (trace c') = sent (trace c) ++ news
        /\ testAmounts news = concat vs
        /\ nextPacketSequence c' = seq + Z.of_nat (length (concat vs)))
  /\ (truthy_string (_destinationAccount c) <> None ->
      determineExchangeRate plugin c
      = determineExchangeRate_loop plugin 20 (inject_Z RETRY_DELAY_START)
          [BN.Fin 1; BN.Fin (10 ^ 3); BN.Fin (10 ^ 6); BN.Fin (10 ^ 9); BN.Fin (10 ^ 12)]
          c)
  /\ (forall n d amts v c1,
        exchangeRate c = None -> amts <> [] ->
        sendTestPacketVolley plugin amts c = (Ok v, c1) ->
        let m := BN.minimum (replyMaxima plugin c amts ++ [maximumPacketAmount c]) in
        maxPacketAmounts v = replyMaxima plugin c amts
        /\ (BN.isEqualTo m (BN.Fin 0) = true ->
            determineExchangeRate_loop plugin (S n) d amts c
            = (Throw zero_maximum_error,
               set_testMaximumPacketAmount m (set_maximumPacketAmount m c1)))
        /\ (BN.isEqualTo m (BN.Fin 0) = false ->
            exists next c3,
              determineExchangeRate_attempt plugin d amts c = (Ok next, c3)
              /\ maximumPacketAmount c3 = m
              /\ testMaximumPacketAmount c3 = m
              /\ determineExchangeRate_loop plugin (S n) d amts c
                 = match next with
                   | None => (Ok tt, c3)
                   | Some (d', amts') => determineExchangeRate_loop plugin n d' amts' c3
                   end))
  /\ (forall s tb msg data rcv mx,
        readF08 data = Some (BN.Fin rcv, BN.Fin mx) -> 0 <= s -> 0 < rcv ->
        replyMaximum (BN.Fin s) (PluginReject "F08" tb msg data) = BN.Fin (s * mx / rcv))
  /\ (forall s reply,
        (forall tb msg data, reply = PluginReject "F08" tb msg data -> readF08 data = None) ->
        replyMaximum s reply = BN.Infinity)
  /\ (forall derived previous,
        Forall (fun x => BN.isNaN x = false) (derived ++ [previous]) ->
        let m := BN.minimum (derived ++ [previous]) in
        List.In m (derived ++ [previous]) /\ Forall (BN.le m) (derived ++ [previous])).
Proof.
  cbv zeta.
  assert (Hdef : truthy_string (_destinationAccount c) <> None ->
                 determineExchangeRate plugin c
                 = determineExchangeRate_loop plugin 20 (inject_Z RETRY_DELAY_START)
                     initialTestPacketAmounts c).
  { intros Hdst. unfold determineExchangeRate. rewrite bind_get.
    destruct (truthy_string (_destinationAccount c)); [reflexivity|congruence]. }
  split; [|split; [|split; [|split; [|split; [|split]]]]].
  - intros Hdst Hrate. unfold exec. rewrite (Hdef Hdst).
    destruct (determineExchangeRate_loop_sends plugin 20 (inject_Z RETRY_DELAY_START)
                initialTestPacketAmounts c)
      as (vs & news & _ & _ & Hsent & _ & _ & Hfirst).
    destruct (Hfirst Hrate) as (vs' & rest & _ & ->); [discriminate|discriminate|].
    exists rest. rewrite Hsent. cbn [initialTestPacketAmounts testRequests app].
    replace (nextPacketSequence c + 1 + 1) with (nextPacketSequence c + 2) by lia.
    replace (nextPacketSequence c + 2 + 1) with (nextPacketSequence c + 3) by lia.
    replace (nextPacketSequence c + 3 + 1) with (nextPacketSequence c + 4) by lia.
    reflexivity.
  - unfold exec, determineExchangeRate. rewrite bind_get.
    destruct (truthy_string (_destinationAccount c)).
    + destruct (determineExchangeRate_loop_sends plugin MAX_ATTEMPTS
                  (inject_Z RETRY_DELAY_START) initialTestPacketAmounts c)
        as (vs & news & H1 & H2 & H3 & H4 & H5 & _).
      exists vs, news. repeat split; assumption.
    + exists [], []. cbn. rewrite !app_nil_r. repeat split; lia.
  - exact Hdef.
  - intros n d amts v c1 Hrate Hamts E.
    destruct (sendTestPacketVolley_sends plugin amts c) as (_ & _ & Hmax).
    rewrite E in Hmax. specialize (Hmax v eq_refl).
    destruct (determineExchangeRate_attempt_turn plugin d amts c v c1 E) as [Hz Hnz].
    cbv zeta in Hz, Hnz. split; [exact Hmax|].
    assert (Hloop : determineExchangeRate_loop plugin (S n) d amts c
                    = bind (determineExchangeRate_attempt plugin d amts)
                        (fun next =>
                           match next with
                           | None => ret tt
                           | Some (d', amts') =>
                               determineExchangeRate_loop plugin n d' amts'
                           end) c).
    { cbn [determineExchangeRate_loop]. rewrite bind_get, Hrate.
      destruct amts; [congruence|reflexivity]. }
    split.
    + intros H0. rewrite Hloop. unfold bind. rewrite (Hz H0). reflexivity.
    + intros H0. destruct (Hnz H0) as (next & c3 & Ea & Hm & Ht).
      exists next, c3. split; [exact Ea|]. split; [exact Hm|]. split; [exact Ht|].
      rewrite Hloop. unfold bind. rewrite Ea. destruct next as [[d' amts']|]; reflexivity.
  - intros s tb msg data rcv mx Hread Hs Hrcv.
    exact (maxPacketAmount_of_F08 s data rcv mx Hread Hs Hrcv).
  - intros s reply Hno. unfold replyMaximum.
    destruct reply as [| code tb msg data | |]; try reflexivity.
    destruct (String.eqb code "F08") eqn:Hcode; [|reflexivity].
    apply String.eqb_eq in Hcode. subst code.
    rewrite (Hno tb msg data eq_refl). reflexivity.
  - intros derived previous Hall. cbv zeta.
    destruct (derived ++ [previous]) as [|m rest] eqn:El.
    { destruct derived; discriminate. }
    apply Forall_cons_1 in Hall as [Hm Hrest].
    destruct (maxOrMin_minimum m rest Hm Hrest) as (I1 & I2 & I3).
    simpl. split; [exact I1|]. constructor; assumption.
Qed.

(** ** The send loop and [destroy] *)

Lemma removeStreamRecord_never_throws s : never_throws (removeStreamRecord (B:=B) s).
Proof.
  unfold removeStreamRecord.
  apply never_throws_bind; [apply never_throws_modify|intros _].
  apply never_throws_bind; [apply never_throws_modify|intros _].
  destruct (negb (_sentEnd s)); [apply never_throws_modify|apply never_throws_ret].
Qed.

Lemma sendConnectionClose_never_throws plugin err :
  never_throws (sendConnectionClose (B:=B) plugin err).
Proof.
  intros c. unfold sendConnectionClose. rewrite bind_get.
  destruct (remoteClosed c); [exists tt; reflexivity|].
  destruct (_destinationAccount c); exists tt; reflexivity.
Qed.

Lemma destroy_never_throws plugin err : never_throws (destroy (B:=B) plugin err).
Proof.
  unfold destroy.
  apply never_throws_bind;
    [destruct err; [apply safeEmit_never_throws|apply never_throws_ret]|intros _].
  apply never_throws_bind; [apply never_throws_modify|intros _].
  apply never_throws_bind; [apply sendConnectionClose_never_throws|intros _].
  apply never_throws_bind; [intros c; exists c; reflexivity|intros c0].
  apply never_throws_bind; [|intros _; apply safeEmit_never_throws].
  apply never_throws_forM_. intros kv. apply removeStreamRecord_never_throws.
Qed.

Lemma sendConnectionClose_grows plugin err :
  keeps trace_grows (sendConnectionClose plugin err).
Proof.
  unfold sendConnectionClose.
  apply (keeps_bind trace_grows); [apply (keeps_get trace_grows)|intros c0].
  destruct (remoteClosed c0); [apply (keeps_ret trace_grows)|].
  apply (keeps_bind trace_grows);
    [|intros _; intros c; apply trace_grows_same; reflexivity].
  destruct (_destinationAccount c0); [|apply (keeps_ret trace_grows)].
  apply (keeps_bind trace_grows); [|intros _; apply (keeps_ret trace_grows)].
  unfold sendData. apply (keeps_bind trace_grows);
    [apply log_effect_grows|intros _; apply (keeps_ret trace_grows)].
Qed.

Lemma removeStreamRecord_grows s : keeps trace_grows (removeStreamRecord s).
Proof.
  intros c. apply trace_grows_same.
  unfold removeStreamRecord, bind, modify, when, push_queuedFrames, modify.
  destruct (negb (_sentEnd s)); reflexivity.
Qed.

(** X12.  [destroy (err)] never throws, whatever the plugin and the
    listeners do.  It emits ['error'] with the error first, hands at most one
    packet to the plugin (the ConnectionClose, and only if the peer is not
    marked as closed), emits ['close'] after that, and leaves the peer marked
    as closed. *)
Theorem X12_destroy plugin (err : Error) (c : Connection B) :
  let r := destroy plugin (Some err) c in
  fst r = Ok tt
  /\ remoteClosed (snd r) = true
  /\ (exists tr1 tr2,
        trace (snd r)
        = trace c ++ Emitted (EvError err) :: tr1 ++ Emitted EvClose :: tr2)
  /\ (sent (trace (snd r)) = sent (trace c)
      \/ exists packet frame,
           sent (trace (snd r)) = sent (trace c) ++ [(BN.Fin 0, packet)]
           /\ frames packet = [frame]
           /\ match frame with ConnectionCloseFrame _ _ => True | _ => False end).
Proof.
  cbv zeta. destruct (destroy_never_throws plugin (Some err) c) as [[] Hok].
  destruct (destroy plugin (Some err) c) as [res cf] eqn:E. cbn [fst snd] in *.
  subst res. split; [reflexivity|].
  unfold destroy in E.
  apply bind_Ok_inv in E as ([] & c1 & E1 & E).
  apply bind_Ok_inv in E as ([] & c2 & [= <-] & E).
  apply bind_Ok_inv in E as ([] & c3 & E3 & E).
  apply bind_Ok_inv in E as (c3' & ? & [= <- <-] & E).
  apply bind_Ok_inv in E as ([] & c4 & E4 & E5).
  destruct (safeEmit_trace (EvError err) c) as [tr1 Htr1].
  pose proof (safeEmit_quiet (EvError err) c) as [Hq1 Hrc1].
  rewrite E1 in Htr1, Hq1, Hrc1. cbn [snd] in Htr1, Hq1, Hrc1.
  set (c2 := set_streams _ c1) in *.
  assert (Htr2 : trace c2 = trace c ++ Emitted (EvError err) :: tr1) by exact Htr1.
  assert (Hs2 : sent (trace c2) = sent (trace c)) by exact Hq1.
  clearbody c2.
  assert (Hclose : remoteClosed c3 = true
                   /\ (exists tr, trace c3 = trace c2 ++ tr)
                   /\ (sent (trace c3) = sent (trace c)
                       \/ exists packet frame,
                            sent (trace c3) = sent (trace c) ++ [(BN.Fin 0, packet)]
                            /\ frames packet = [frame]
                            /\ match frame with
                               | ConnectionCloseFrame _ _ => True
                               | _ => False
                               end)).
  { unfold sendConnectionClose in E3. rewrite bind_get in E3.
    destruct (remoteClosed c2) eqn:Hrc.
    - injection E3 as <-. split; [exact Hrc|]. split.
      + exists []. rewrite app_nil_r. reflexivity.
      + left. exact Hs2.
    - destruct (_destinationAccount c2) as [destination|];
        unfold bind, sendData, log_effect, modify, ret in E3; injection E3 as <-.
      + split; [reflexivity|]. split; [eexists [_]; reflexivity|].
        right. unfold connectionClosePacket.
        destruct err; eexists _, _; cbn; rewrite sent_app, Hs2; cbn;
          (split; [reflexivity|]); (split; [reflexivity|exact I]).
      + split; [reflexivity|]. split; [exists []; cbn; rewrite app_nil_r; reflexivity|].
        left. exact Hs2. }
  destruct Hclose as (Hrc3 & [tr Htr3] & Hs3).
  pose proof (keeps_at _ _ _ _ _
                (keeps_forM_ quiet (streams c3) _
                   (fun kv => removeStreamRecord_quiet (snd kv))) E4) as [Hs4 Hrc4].
  assert (Htr4 : trace c4 = trace c3).
  { assert (Hsame : forall (l : list (Z * Stream B)) (c0 c0' : Connection B),
              forM_ l (fun kv => removeStreamRecord (snd kv)) c0 = (Ok tt, c0') ->
              trace c0' = trace c0).
    { induction l as [|kv l IH]; intros c0 c0'; cbn [forM_].
      - intros [= <-]. reflexivity.
      - intros H. apply bind_Ok_inv in H as ([] & c5 & H1 & H2).
        rewrite (IH _ _ H2).
        unfold removeStreamRecord, bind, modify, when, push_queuedFrames, modify in H1.
        destruct (negb (_sentEnd (snd kv))); injection H1 as <-; reflexivity. }
    eapply Hsame, E4. }
  destruct (safeEmit_trace EvClose c4) as [tr2 Htr5].
  pose proof (safeEmit_quiet EvClose c4) as [Hs5 Hrc5].
  rewrite E5 in Htr5, Hs5, Hrc5. cbn [snd] in Htr5, Hs5, Hrc5.
  split; [congruence|]. split.
  - exists (tr1 ++ tr), tr2. rewrite Htr5, Htr4, Htr3, Htr2.
    rewrite <- ?app_assoc. cbn. rewrite <- ?app_assoc. reflexivity.
  - rewrite Hs5, Hs4. exact Hs3.
Qed.

(** X13.  [startSendLoop] never throws: whatever goes wrong in the loop
    (a connector error, a response that cannot be read, a failed probe) is
    caught and handed to [destroy].  It does nothing when a loop is running,
    and sends nothing when the peer is closed or its address unknown. *)
Theorem X13_send_loop_never_throws plugin fuel (c : Connection B) :
  (exists done, fst (startSendLoop plugin fuel c) = Ok done)
  /\ (sending c = true -> startSendLoop plugin fuel c = (Ok true, c))
  /\ (sending c = false ->
      remoteClosed c = true \/ truthy_string (_destinationAccount c) = None ->
      fst (startSendLoop plugin fuel c) = Ok true
      /\ sent (trace (snd (startSendLoop plugin fuel c))) = sent (trace c)
      /\ sending (snd (startSendLoop plugin fuel c)) = false)
  /\ (sending c = false -> remoteClosed c = false ->
      truthy_string (_destinationAccount c) <> None ->
      forall e c1,
        sendLoop plugin fuel (set_sending true c) = (Throw e, c1) ->
        startSendLoop plugin fuel c = (Ok true, snd (destroy plugin (Some e) c1))).
Proof.
  split; [|split; [|split]].
  - unfold startSendLoop.
    apply never_throws_bind; [intros c0; exists c0; reflexivity|intros c0].
    destruct (sending c0); [apply never_throws_ret|].
    destruct (remoteClosed c0).
    { apply never_throws_bind; [apply safeEmit_never_throws|intros _].
      apply never_throws_ret. }
    destruct (truthy_string (_destinationAccount c0)).
    2:{ apply never_throws_bind; [apply never_throws_modify|intros _].
        apply never_throws_ret. }
    apply never_throws_bind; [apply never_throws_modify|intros _].
    apply never_throws_bind.
    { apply never_throws_try_catch. intros e.
      apply never_throws_bind; [apply destroy_never_throws|intros _].
      apply never_throws_ret. }
    intros [[]|]; try apply never_throws_ret.
    apply never_throws_bind; [apply safeEmit_never_throws|intros _].
    apply never_throws_bind; [intros c1; exists c1; reflexivity|intros c1].
    apply never_throws_bind; [|intros _; apply never_throws_ret].
    apply never_throws_forM_. intros kv. apply never_throws_modify.
  - intros Hs. unfold startSendLoop. rewrite bind_get, Hs. reflexivity.
  - intros Hs Hwhy. unfold startSendLoop. rewrite bind_get, Hs.
    destruct (remoteClosed c) eqn:Hrc.
    + destruct (safeEmit_never_throws EvSendLoopFinished c) as [[] Hok].
      pose proof (safeEmit_quiet EvSendLoopFinished c) as [Hq _].
      assert (Hsend : sending (snd (safeEmit EvSendLoopFinished c)) = false).
      { revert Hs. generalize c.
        change (keeps (fun c0 c1 : Connection B => sending c0 = false -> sending c1 = false)
                  (safeEmit EvSendLoopFinished)).
        assert (PreOrder (fun c0 c1 : Connection B =>
                            sending c0 = false -> sending c1 = false)).
        { split; [intros x Hx; exact Hx|intros x y z H1 H2 Hx; auto]. }
        unfold safeEmit, fire_listeners.
        apply (keeps_bind _); [intros x Hx; exact Hx|intros _].
        apply (keeps_bind _); [intros x Hx; exact Hx|intros c0].
        apply (keeps_bind _); [intros x Hx; exact Hx|intros _].
        apply (keeps_forM_ _). intros l. unfold run_listener.
        destruct (handler (snd l));
          try (apply (keeps_bind _);
               [intros x Hx; unfold cleanup, modify, clearTimeout_idleTimer; cbn;
                destruct (idleTimer x); exact Hx|intros _]);
          intros x Hx; exact Hx. }
      unfold bind. destruct (safeEmit EvSendLoopFinished c) as [[[]|e] c1];
        [|discriminate]. cbn [fst snd] in *. repeat split; assumption.
    + destruct Hwhy as [Hwhy|Hwhy]; [discriminate|]. rewrite Hwhy.
      cbn. repeat split.
  - intros Hs Hrc Hdst e c1 Hloop. unfold startSendLoop. rewrite bind_get, Hs, Hrc.
    destruct (truthy_string (_destinationAccount c)); [|congruence].
    rewrite bind_modify. unfold sendLoop_run. unfold bind at 1. unfold try_catch.
    unfold bind at 1. rewrite Hloop.
    destruct (destroy_never_throws plugin (Some e) c1) as [[] Hok].
    unfold bind at 1.
    destruct (destroy plugin (Some e) c1) as [[[]|e0] c2]; [|discriminate].
    reflexivity.
Qed.

(** ** Outgoing packets: which responses are handed back *)

Lemma undoRejectedPacket_lastActive rp :
  keeps (fun c c' : Connection B => lastActive c' = lastActive c) (undoRejectedPacket rp).
Proof.
  assert (PreOrder (fun c c' : Connection B => lastActive c' = lastActive c)).
  { split; [intros x; reflexivity|intros x y z H1 H2; congruence]. }
  unfold undoRejectedPacket. apply (keeps_forM_ _). intros f c0.
  destruct f; try reflexivity; unfold bind, get;
    destruct (map_get streamId (streams c0)); reflexivity.
Qed.

(** X14.  [sendPacket] hands a response packet back only when it answers
    the request: it decrypts, carries the sequence of the request, and says
    it travels on the ILP packet type that did carry it.  That is either a
    fulfill whose fulfillment hashes to the condition of the prepare (never
    for an unfulfillable packet), or a reject with code F99.  The packet went
    to the plugin once, and the idle clock was reset. *)
Theorem X14_sendPacket_response plugin packet sourceAmount unfulfillable
    (c : Connection B) responsePacket c' :
  sendPacket plugin packet sourceAmount unfulfillable c = (Ok (Some responsePacket), c') ->
  let data := serializeAndEncrypt packet
                (if enablePadding c then Some MAX_DATA_SIZE else None) in
  let condition :=
    if unfulfillable then None else Some (hash (generateFulfillment data)) in
  let prepare :=
    mkOutPrepare (_destinationAccount c) sourceAmount packet data condition in
  sequence responsePacket = sequence packet
  /\ ((exists fulfillment rdata,
          plugin prepare = PluginFulfill fulfillment rdata
          /\ unfulfillable = false
          /\ hash fulfillment = hash (generateFulfillment data)
          /\ decryptAndDeserialize rdata = Some responsePacket
          /\ ilpPacketType responsePacket = Fulfill)
      \/ (exists triggeredBy message rdata,
          plugin prepare = PluginReject "F99" triggeredBy message rdata
          /\ decryptAndDeserialize rdata = Some responsePacket
          /\ ilpPacketType responsePacket = Reject))
  /\ sent (trace c') = sent (trace c) ++ [(sourceAmount, packet)]
  /\ lastActive c' = clock c.
Proof.
  intros E. cbv zeta.
  pose proof (sendPacket_sends plugin packet sourceAmount unfulfillable c) as Hsent.
  cbv zeta in Hsent. rewrite E in Hsent. cbn [snd] in Hsent. destruct Hsent as [Hsent _].
  unfold sendPacket in E. rewrite bind_get in E. cbv zeta in E.
  rewrite bind_sendData in E. cbn [out_amount out_packet] in E.
  assert (Hcond : option_map hash
                    (if unfulfillable then None
                     else Some (generateFulfillment
                                  (serializeAndEncrypt packet
                                     (if enablePadding c then Some MAX_DATA_SIZE else None))))
                  = (if unfulfillable then None
                     else Some (hash (generateFulfillment
                                  (serializeAndEncrypt packet
                                     (if enablePadding c then Some MAX_DATA_SIZE else None)))))).
  { destruct unfulfillable; reflexivity. }
  rewrite Hcond in E.
  assert (Hparse : forall rdata carrier (c1 : Connection B),
             (if (length rdata =? 0)%nat then ret None
              else
                match decryptAndDeserialize rdata with
                | None => throw (JsError "Unable to decrypt and parse response data")
                | Some rp =>
                    if negb (sequence rp =? sequence packet) then
                      throw (JsError "Response packet sequence does not correspond to the request")
                    else if negb (bool_decide (ilpPacketType rp = carrier)) then
                      throw (JsError "Response says it should be on an ILP packet of another type")
                    else ret (Some rp)
                end) c1 = (Ok (Some responsePacket), c') ->
             decryptAndDeserialize rdata = Some responsePacket
             /\ sequence responsePacket = sequence packet
             /\ ilpPacketType responsePacket = carrier /\ c' = c1).
  { intros rdata carrier c1. destruct (length rdata =? 0)%nat; [discriminate|].
    destruct (decryptAndDeserialize rdata) as [rp|]; [|discriminate].
    destruct (Z.eqb_spec (sequence rp) (sequence packet)) as [Hs|]; [|discriminate].
    cbn [negb]. destruct (bool_decide_reflect (ilpPacketType rp = carrier)) as [Ht|];
      [|discriminate].
    cbn [negb]. intros [= <- <-]. repeat split; assumption. }
  destruct (plugin _) as [f rdata|code tb msg rdata| |] eqn:Hp; try discriminate.
  - (* fulfill *)
    apply bind_Ok_inv in E as ([] & c1 & Hb & E).
    injection Hb as <-.
    apply bind_Ok_inv in E as (carried & c2 & Hc & E).
    destruct unfulfillable.
    { apply bind_Ok_inv in Hc as ([] & c3 & _ & Hc). discriminate. }
    destruct (bool_decide_reflect
                (Some (hash f)
                 = Some (hash (generateFulfillment
                           (serializeAndEncrypt packet
                              (if enablePadding c then Some MAX_DATA_SIZE else None))))))
      as [Hh|]; [|discriminate].
    injection Hc as <- <-. apply Hparse in E as (Hd & Hs & Ht & ->).
    split; [exact Hs|]. split.
    { left. exists f, rdata. repeat split; try assumption. congruence. }
    split; [exact Hsent|reflexivity].
  - (* reject *)
    apply bind_Ok_inv in E as ([] & c1 & Hb & E).
    injection Hb as <-.
    apply bind_Ok_inv in E as (carried & c2 & Hc & E).
    destruct carried as [[rd car]|]; [|discriminate].
    assert (Hrej : rd = rdata /\ car = Reject /\ code = "F99"%string
                   /\ lastActive c2 = clock c).
    { destruct (if unfulfillable then _ else _);
        apply bind_Ok_inv in Hc as ([] & c3 & Hu & Hc);
        pose proof (keeps_at _ _ _ _ _ (undoRejectedPacket_lastActive packet) Hu) as Hl;
        cbn in Hl;
        (destruct (String.eqb code "F99") eqn:Hcode; cbn [negb] in Hc;
         [apply String.eqb_eq in Hcode; unfold ret in Hc; injection Hc as <- <- <-;
          repeat split; assumption|]);
        apply bind_Ok_inv in Hc as ([] & c4 & _ & Hc); discriminate. }
    destruct Hrej as (-> & -> & -> & Hl). apply Hparse in E as (Hd & Hs & Ht & ->).
    split; [exact Hs|]. split.
    { right. exists tb, msg, rdata. repeat split; assumption. }
    split; [exact Hsent|exact Hl].
Qed.

(** ** What the peer says about a stream *)

Lemma map_get_set_any {V} j k (v : V) ss :
  map_get j (map_set k v ss) = if Z.eqb j k then Some v else map_get j ss.
Proof.
  induction ss as [|[k' v'] ss IH]; cbn [map_set map_get].
  - reflexivity.
  - destruct (Z.eqb_spec k k') as [->|Hne]; cbn [map_get].
    + destruct (Z.eqb j k'); reflexivity.
    + destruct (Z.eqb_spec j k') as [->|Hne'].
      * destruct (Z.eqb_spec k' k); [congruence|reflexivity].
      * exact IH.
Qed.

Lemma map_get_update {V} j k (f : V -> V) ss :
  map_get j (map_update k f ss)
  = if Z.eqb j k then option_map f (map_get k ss) else map_get j ss.
Proof.
  unfold map_update. destruct (map_get k ss) as [v|] eqn:Hk.
  - rewrite map_get_set_any. reflexivity.
  - destruct (Z.eqb_spec j k) as [->|]; [rewrite Hk|]; reflexivity.
Qed.

(** a floating [startSendLoop()] changes no stream at once *)
Lemma when_startSendLoop_begin_streams b (c : Connection B) :
  fst (when b startSendLoop_begin c) = Ok tt
  /\ streams (snd (when b startSendLoop_begin c)) = streams c.
Proof.
  destruct b; [|split; reflexivity]. cbn [when].
  destruct (startSendLoop_begin_never_throws c) as [[] Hok]. split; [exact Hok|].
  unfold startSendLoop_begin. rewrite bind_get.
  destruct (sending c); [reflexivity|].
  destruct (remoteClosed c).
  { destruct (safeEmit_only_emits EvSendLoopFinished c) as (tr & ls & ts & -> & _).
    reflexivity. }
  destruct (truthy_string (_destinationAccount c)); reflexivity.
Qed.

(** X15.  A StreamMaxMoney frame never lowers what the peer is recorded to
    have received on a stream, and never lowers a finite limit of the peer:
    both become the larger of the recorded and the reported value.  A limit
    that is still infinite is replaced by the reported one.  No other stream
    is touched, and a frame for an unknown stream changes nothing. *)
Theorem X15_stream_max_money id reportedMax reportedReceived (c : Connection B) :
  let r := handleControlFrame
             (StreamMaxMoneyFrame id (BN.Fin reportedMax) (BN.Fin reportedReceived)) c in
  fst r = Ok tt
  /\ (map_get id (streams c) = None -> snd r = c)
  /\ (forall s received,
        map_get id (streams c) = Some s ->
        _remoteReceived s = BN.Fin received ->
        exists s',
          map_get id (streams (snd r)) = Some s'
          /\ _remoteReceived s' = BN.Fin (Z.max received reportedReceived)
          /\ _remoteReceiveMax s'
             = match _remoteReceiveMax s with
               | BN.Fin m => BN.Fin (Z.max m reportedMax)
               | _ => BN.Fin reportedMax
               end
          /\ totalSent s' = totalSent s /\ sendMax s' = sendMax s
          /\ totalReceived s' = totalReceived s /\ receiveMax s' = receiveMax s)
  /\ (forall j, j <> id -> map_get j (streams (snd r)) = map_get j (streams c)).
Proof.
  cbv zeta. unfold handleControlFrame. rewrite bind_get.
  destruct (map_get id (streams c)) as [s|] eqn:Hs.
  2:{ cbn. repeat split; try discriminate. }
  set (s1 := raiseRemoteLimits (BN.Fin reportedMax) (BN.Fin reportedReceived) s).
  unfold update_stream. rewrite bind_modify.
  match goal with |- context [when ?b0 startSendLoop_begin ?c0] =>
    destruct (when_startSendLoop_begin_streams b0 c0) as [Hok Hstreams]
  end.
  rewrite Hok, Hstreams. cbn [streams set_streams].
  change (streams (set_streams ?v c)) with v.
  split; [reflexivity|]. split; [discriminate|]. split.
  - intros s0 received [= <-] Hr. exists s1. rewrite map_get_update, Z.eqb_refl, Hs.
    split; [reflexivity|]. subst s1. unfold raiseRemoteLimits. cbv zeta.
    change (_remoteReceiveMax (set__remoteReceived ?v s)) with (_remoteReceiveMax s).
    rewrite Hr, BN_maximum_Fin.
    destruct (_remoteReceiveMax s) as [|neg|m] eqn:Hmax; cbn [BN.isFinite];
      try rewrite BN_maximum_Fin; repeat split; reflexivity.
  - intros j Hj. rewrite map_get_update. destruct (Z.eqb_spec j id); [congruence|reflexivity].
Qed.

(** ** Streams opened by the peer *)

(** events do not touch the streams, the closed ids or the queue *)
Definition registry_untouched (c c' : Connection B) : Prop :=
  streams c' = streams c /\ closedStreams c' = closedStreams c
  /\ queuedFrames c' = queuedFrames c /\ maxStreamId c' = maxStreamId c.

#[local] Instance registry_untouched_preorder : PreOrder registry_untouched.
Proof.
  split.
  - intros c. repeat split.
  - intros a b c (H1 & H2 & H3 & H4) (K1 & K2 & K3 & K4). repeat split; congruence.
Qed.

Lemma safeEmit_registry_untouched e : keeps registry_untouched (safeEmit e).
Proof.
  assert (Hcleanup : forall o, keeps registry_untouched (cleanup o)).
  { intros o c. unfold cleanup, modify, clearTimeout_idleTimer. cbn.
    destruct (idleTimer c); repeat split. }
  assert (Hlog : forall x, keeps registry_untouched (log_effect x)).
  { intros x c. repeat split. }
  unfold safeEmit. apply (keeps_bind registry_untouched); [apply Hlog|intros _].
  unfold fire_listeners.
  apply (keeps_bind registry_untouched); [apply (keeps_get registry_untouched)|intros c0].
  apply (keeps_bind registry_untouched); [intros c1; repeat split|intros _].
  apply (keeps_forM_ registry_untouched). intros l. unfold run_listener.
  destruct (handler (snd l));
    try (apply (keeps_bind registry_untouched); [apply Hcleanup|intros _]);
    apply Hlog.
Qed.

(** X16.  A stream id that the peer uses for the first time is checked
    before the stream is made.  An id of the wrong parity (even at a server,
    odd at a client) or above [maxStreamId] throws: a ConnectionClose frame
    with the message of the error is queued, code ProtocolViolation for the
    parity and StreamIdError for the limit, and no stream is recorded.
    Otherwise the call returns, the new stream is in the map under its id,
    and a ConnectionMaxStreamId frame is queued exactly when the id is above
    three quarters of the limit. *)
Theorem X16_new_stream_checked id (c : Connection B) :
  map_has id (streams c) = false -> id ∉ closedStreams c ->
  let r := handleNewStream id c in
  let parity :=
    if isServer c then negb (Z.rem id 2 =? 0) else negb (Z.rem id 2 =? 1) in
  (parity = true -> id <= maxStreamId c ->
   fst r = Ok tt
   /\ map_get id (streams (snd r)) = Some (newDataAndMoneyStream id (isServer c))
   /\ (forall j, j <> id -> map_get j (streams (snd r)) = map_get j (streams c))
   /\ queuedFrames (snd r)
      = queuedFrames c
        ++ (if 3 * maxStreamId c <? 4 * id
            then [ConnectionMaxStreamIdFrame (maxStreamId c)] else []))
  /\ (parity = false \/ maxStreamId c < id ->
      exists message,
        fst r = Throw (JsError message)
        /\ queuedFrames (snd r)
           = queuedFrames c
             ++ [ConnectionCloseFrame
                   (if parity then StreamIdError else ProtocolViolation) message]
        /\ streams (snd r) = streams c
        /\ closedStreams (snd r) = closedStreams c).
Proof.
  intros Hnew Hopen. cbv zeta.
  assert (Hk : map_has id (streams c) || isClosedStream id c = false).
  { rewrite Hnew. cbn. unfold isClosedStream. apply bool_decide_eq_false_2, Hopen. }
  assert (Hthrow : forall code msg,
             let r := bind (push_queuedFrames [ConnectionCloseFrame code msg])
                        (fun _ => bind (safeEmit (EvError (JsError msg)))
                                    (fun _ => throw (A:=unit) (JsError msg))) c in
             fst r = Throw (JsError msg)
             /\ queuedFrames (snd r) = queuedFrames c ++ [ConnectionCloseFrame code msg]
             /\ streams (snd r) = streams c
             /\ closedStreams (snd r) = closedStreams c).
  { intros code msg. cbv zeta. unfold bind, push_queuedFrames, modify, throw.
    set (c1 := set_queuedFrames _ c).
    pose proof (safeEmit_registry_untouched (EvError (JsError msg)) c1) as Hs.
    destruct (safeEmit_never_throws (EvError (JsError msg)) c1) as [[] Hok].
    destruct (safeEmit (EvError (JsError msg)) c1) as [[[]|e] c2];
      [|discriminate].
    cbn [fst snd] in *. destruct Hs as (H1 & H2 & H3 & _).
    rewrite H1, H2, H3. repeat split. }
  assert (Haccept : forall srv,
             let r := bind (when (3 * maxStreamId c <? 4 * id)
                              (push_queuedFrames [ConnectionMaxStreamIdFrame (maxStreamId c)]))
                        (fun _ =>
                           bind (modify (fun c0 : Connection B =>
                                   set_streams
                                     (map_set id (newDataAndMoneyStream id srv) (streams c0))
                                     c0))
                             (fun _ => safeEmit (EvStream id))) c in
             fst r = Ok tt
             /\ map_get id (streams (snd r)) = Some (newDataAndMoneyStream id srv)
             /\ (forall j, j <> id -> map_get j (streams (snd r)) = map_get j (streams c))
             /\ queuedFrames (snd r)
                = queuedFrames c
                  ++ (if 3 * maxStreamId c <? 4 * id
                      then [ConnectionMaxStreamIdFrame (maxStreamId c)] else [])).
  { intros srv. cbv zeta.
    set (c1 := snd (when (3 * maxStreamId c <? 4 * id)
                      (push_queuedFrames [ConnectionMaxStreamIdFrame (maxStreamId c)]) c)).
    assert (Hc1 : when (3 * maxStreamId c <? 4 * id)
                    (push_queuedFrames [ConnectionMaxStreamIdFrame (maxStreamId c)]) c
                  = (Ok tt, c1)).
    { subst c1. destruct (3 * maxStreamId c <? 4 * id); reflexivity. }
    assert (Hq : queuedFrames c1
                 = queuedFrames c
                   ++ (if 3 * maxStreamId c <? 4 * id
                       then [ConnectionMaxStreamIdFrame (maxStreamId c)] else [])
                 /\ streams c1 = streams c).
    { subst c1. destruct (3 * maxStreamId c <? 4 * id); cbn;
        [|rewrite app_nil_r]; split; reflexivity. }
    destruct Hq as [Hq Hst].
    unfold bind. rewrite Hc1. unfold modify. cbv beta iota.
    set (c2 := set_streams _ c1).
    pose proof (safeEmit_registry_untouched (EvStream id) c2) as (H1 & _ & H3 & _).
    destruct (safeEmit_never_throws (EvStream id) c2) as [[] Hok].
    rewrite Hok, H1, H3. subst c2. cbn [streams queuedFrames set_streams].
    change (queuedFrames (set_streams ?v c1)) with (queuedFrames c1).
    change (streams (set_streams ?v c1)) with v.
    rewrite Hst, Hq. split; [reflexivity|]. split.
    { rewrite map_get_set_any, Z.eqb_refl. reflexivity. }
    split; [|reflexivity].
    intros j Hj. rewrite map_get_set_any.
    destruct (Z.eqb_spec j id); [congruence|reflexivity]. }
  unfold handleNewStream. rewrite bind_get, Hk.
  destruct (isServer c) eqn:Hsrv; cbn [andb negb].
  - destruct (Z.rem id 2 =? 0) eqn:Hpar; cbn [negb].
    + split; [discriminate|]. intros _. eexists. apply Hthrow.
    + destruct (Z.ltb_spec (maxStreamId c) id) as [Hlt|Hle].
      * split; [lia|]. intros _. eexists. apply Hthrow.
      * split; [|intros [|]; [discriminate|lia]]. intros _ _. apply Haccept.
  - destruct (Z.rem id 2 =? 1) eqn:Hpar; cbn [negb].
    + split; [discriminate|]. intros _. eexists. apply Hthrow.
    + destruct (Z.ltb_spec (maxStreamId c) id) as [Hlt|Hle].
      * split; [lia|]. intros _. eexists. apply Hthrow.
      * split; [|intros [|]; [discriminate|lia]]. intros _ _. apply Haccept.
Qed.

(** ** Streams that have closed *)

Lemma map_get_absent {V} k (ss : list (Z * V)) :
  k ∉ map fst ss -> map_get k ss = None.
Proof.
  induction ss as [|[k' v'] ss IH]; cbn [map fst map_get]; [reflexivity|].
  rewrite not_elem_of_cons. intros [Hne Hn].
  destruct (Z.eqb_spec k k'); [congruence|]. apply IH, Hn.
Qed.

Lemma map_get_delete {V} j k (ss : list (Z * V)) :
  NoDup (map fst ss) ->
  map_get j (map_delete k ss) = if Z.eqb j k then None else map_get j ss.
Proof.
  induction ss as [|[k' v'] ss IH]; cbn [map fst map_delete map_get]; intros Hnd.
  - destruct (Z.eqb j k); reflexivity.
  - apply NoDup_cons in Hnd as [Hnot Hnd].
    destruct (Z.eqb_spec k k') as [->|Hne]; cbn [map_get].
    + destruct (Z.eqb_spec j k') as [->|]; [|reflexivity].
      apply map_get_absent, Hnot.
    + destruct (Z.eqb_spec j k') as [->|Hne'].
      * destruct (Z.eqb_spec k' k); [congruence|reflexivity].
      * apply IH, Hnd.
Qed.

Lemma map_delete_keys {V} j k (ss : list (Z * V)) :
  j ∈ map fst (map_delete k ss) -> j ∈ map fst ss.
Proof.
  induction ss as [|[k' v'] ss IH]; cbn [map fst map_delete]; [auto|].
  destruct (Z.eqb k k'); cbn [map fst]; rewrite ?elem_of_cons; [auto|].
  intros [H|H]; [left; exact H|right; apply IH, H].
Qed.

Lemma map_delete_NoDup {V} k (ss : list (Z * V)) :
  NoDup (map fst ss) -> NoDup (map fst (map_delete k ss)).
Proof.
  induction ss as [|[k' v'] ss IH]; cbn [map fst map_delete]; intros Hnd;
    [exact Hnd|].
  apply NoDup_cons in Hnd as [Hnot Hnd].
  destruct (Z.eqb k k'); [exact Hnd|]. cbn [map fst]. apply NoDup_cons.
  split; [|apply IH, Hnd]. intros Hin. apply Hnot, (map_delete_keys _ _ _ Hin).
Qed.

(** X17.  When a stream closes, [removeStreamRecord] takes it out of the map
    of streams and records its id as closed for good: the ids closed before
    stay closed, the other streams are not touched, and a StreamClose frame
    for the peer is queued exactly when the stream had not sent its end
    (with ApplicationError and the stream's message when it has one, NoError
    otherwise).  From then on the peer cannot open the id again:
    [handleNewStream] on it does nothing. *)
Theorem X17_closed_stream_stays_closed (s : Stream B) (c : Connection B) :
  NoDup (map fst (streams c)) ->
  let r := removeStreamRecord s c in
  fst r = Ok tt
  /\ map_get (stream_id s) (streams (snd r)) = None
  /\ (forall j, j <> stream_id s -> map_get j (streams (snd r)) = map_get j (streams c))
  /\ NoDup (map fst (streams (snd r)))
  /\ (forall j, j ∈ closedStreams (snd r) <-> j = stream_id s \/ j ∈ closedStreams c)
  /\ queuedFrames (snd r)
     = queuedFrames c
       ++ (if _sentEnd s then []
           else match truthy_string (_errorMessage s) with
                | Some m => [StreamCloseFrame (stream_id s) ApplicationError m]
                | None => [StreamCloseFrame (stream_id s) NoError EmptyString]
                end)
  /\ handleNewStream (stream_id s) (snd r) = (Ok tt, snd r).
Proof.
  intros Hnd. cbv zeta.
  assert (Hr : removeStreamRecord s c
               = (Ok tt,
                  (fun c1 : Connection B =>
                     if _sentEnd s then c1
                     else set_queuedFrames
                            (queuedFrames c1
                             ++ [match truthy_string (_errorMessage s) with
                                 | Some m => StreamCloseFrame (stream_id s) ApplicationError m
                                 | None => StreamCloseFrame (stream_id s) NoError EmptyString
                                 end]) c1)
                    (set_closedStreams ({[stream_id s]} ∪ closedStreams c)
                       (set_streams (map_delete (stream_id s) (streams c)) c)))).
  { unfold removeStreamRecord, bind, modify, when, push_queuedFrames, modify.
    destruct (_sentEnd s); reflexivity. }
  rewrite Hr. cbn [fst snd]. clear Hr.
  set (c2 := set_closedStreams _ _).
  assert (Hs : streams (if _sentEnd s then c2 else set_queuedFrames
                 (queuedFrames c2
                  ++ [match truthy_string (_errorMessage s) with
                      | Some m => StreamCloseFrame (stream_id s) ApplicationError m
                      | None => StreamCloseFrame (stream_id s) NoError EmptyString
                      end]) c2)
               = map_delete (stream_id s) (streams c)).
  { destruct (_sentEnd s); reflexivity. }
  assert (Hc : closedStreams (if _sentEnd s then c2 else set_queuedFrames
                 (queuedFrames c2
                  ++ [match truthy_string (_errorMessage s) with
                      | Some m => StreamCloseFrame (stream_id s) ApplicationError m
                      | None => StreamCloseFrame (stream_id s) NoError EmptyString
                      end]) c2)
               = {[stream_id s]} ∪ closedStreams c).
  { destruct (_sentEnd s); reflexivity. }
  cbv beta. rewrite Hs, Hc.
  split; [reflexivity|]. split.
  { rewrite map_get_delete, Z.eqb_refl by exact Hnd. reflexivity. }
  split.
  { intros j Hj. rewrite map_get_delete by exact Hnd.
    destruct (Z.eqb_spec j (stream_id s)); [congruence|reflexivity]. }
  split.
  { apply map_delete_NoDup, Hnd. }
  split.
  { intros j. rewrite elem_of_union, elem_of_singleton. reflexivity. }
  split.
  { destruct (_sentEnd s); cbn; [rewrite app_nil_r; reflexivity|].
    destruct (truthy_string (_errorMessage s)); reflexivity. }
  unfold handleNewStream. rewrite bind_get.
  assert (Hclosed : isClosedStream (stream_id s)
                      (if _sentEnd s then c2 else set_queuedFrames
                         (queuedFrames c2
                          ++ [match truthy_string (_errorMessage s) with
                              | Some m => StreamCloseFrame (stream_id s) ApplicationError m
                              | None => StreamCloseFrame (stream_id s) NoError EmptyString
                              end]) c2) = true).
  { unfold isClosedStream. rewrite Hc. apply bool_decide_eq_true_2.
    apply elem_of_union_l, elem_of_singleton. reflexivity. }
  rewrite Hclosed, orb_true_r. reflexivity.
Qed.

End Methods.

(** * Examples

    The theorems above at the example instance: one byte of data stands for
    a whole packet, the fulfillment and the condition of a prepare are its
    data. *)



(** C6 at a fresh client: one T00 error takes the delay from 100 to 200, and
    three temporary errors in a row take it to 800. *)
Lemma C6_retry_delay_doubles_witness :
  retryDelay (exec (handleConnectorError "T00" EmptyString [] (BN.Fin 1)) demo_client) = 200
  /\ retryDelay
       (after_temporary_errors
          [("T00", BN.Fin 1); ("T01", BN.Fin 1); ("T04", BN.Fin 9)] demo_client)
     = 800.
Proof.
  pose proof (C6_retry_delay_doubles (B:=unit)) as (_ & H1 & H2). split.
  - pose proof (H1 demo_client "T00" EmptyString [] (BN.Fin 1) eq_refl) as H.
    cbv zeta in H. destruct H as [H _]. rewrite H. reflexivity.
  - unfold demo_client. rewrite H2; [reflexivity|].
    repeat constructor.
Defined.

(** C6 as stated fails: after one T00 error the delay is 200, which is not
    1.5 times 100. *)
Lemma C6_counterexample :
  let c := demo_client in
  let c' := exec (handleConnectorError "T00" EmptyString [] (BN.Fin 1)) c in
  ~ (isTemporary "T00" = true ->
     (inject_Z (retryDelay c') == 1.5 * inject_Z (retryDelay c))%Q).
Proof.
  cbv zeta. intros H. specialize (H eq_refl). vm_compute in H. discriminate H.
Qed.

(** C9 at a connection that [connect()] has already opened. *)
Lemma C9_connect_when_open_witness :
  let c := exec connect_resolved demo_client in
  closed c = false /\ connect c = (Ok true, c).
Proof.
  cbv zeta. split; [reflexivity|].
  apply C9_connect_when_open. reflexivity.
Defined.

(** C7 at a fresh client: the first stream gets id 1 and the next id is 3;
    with the peer's limit below the next id the call throws and queues the
    blocked frame; after three streams the next id is 7, odd as the role
    asks. *)
Lemma C7_createStream_witness :
  (exists stream,
     stream_id stream = 1
     /\ createStream demo_client
        = (Ok stream,
           set_nextStreamId 3 (set_streams [(1, stream)] demo_client)))
  /\ (let c := set_remoteMaxStreamId 0 demo_client in
      exists msg,
        createStream c
        = (Throw (JsError msg),
           set_queuedFrames [ConnectionStreamIdBlockedFrame 1] c))
  /\ nextStreamId (run [OpCreateStream; OpCreateStream; OpCreateStream] demo_client)
     mod 2 = 1.
Proof.
  pose proof (C7_createStream (B:=unit)) as (H1 & H2 & _ & H4).
  split; [|split].
  - apply (H2 demo_client). vm_compute. discriminate.
  - cbv zeta. apply (H1 (set_remoteMaxStreamId 0 demo_client)). reflexivity.
  - apply (H4 (demo_opts false) 0 [OpCreateStream; OpCreateStream; OpCreateStream]).
Defined.

Lemma demo_decrypt_wire d p : demo_decrypt d = Some p -> wire_packet p.
Proof.
  unfold demo_decrypt. destruct d as [|b [|b' d]]; try discriminate.
  destruct (Byte.eqb b Byte.x01).
  { intros [= <-]. repeat split; try (simpl; lia). repeat constructor; simpl; lia. }
  destruct (Byte.eqb b Byte.x02); [|discriminate].
  intros [= <-]. repeat split; try (simpl; lia). repeat constructor; simpl; lia.
Qed.

(** C8 at a server: a first prepare opens stream 1, the stream is then let
    receive 1000, and a prepare of 300 for it is fulfilled and moves
    [totalReceived] from 0 to 300. *)
Lemma C8_totals_never_decrease_witness :
  let c0 := constructor (demo_opts true) 0 in
  let c := run [OpHandlePrepare (demo_prepare Byte.x01 0);
                OpStreamChanged 1 (set_receiveMax (BN.Fin 1000))] c0 in
  let c' := run_op (OpHandlePrepare (demo_prepare Byte.x01 300)) c in
  _totalReceived c0 = BN.Fin 0
  /\ _totalReceived c' = BN.Fin 300
  /\ totals_le c c'.
Proof.
  cbv zeta.
  pose proof (C8_totals_never_decrease (B:=unit) demo_decrypt_wire) as (H1 & H2 & _).
  split; [apply (H1 (demo_opts true) 0)|]. split; [vm_compute; reflexivity|].
  refine (proj2 (proj2 (H2 (demo_opts true) 0
            [OpHandlePrepare (demo_prepare Byte.x01 0);
             OpStreamChanged 1 (set_receiveMax (BN.Fin 1000))]
            (OpHandlePrepare (demo_prepare Byte.x01 300)) _ _))).
  - repeat constructor; simpl; lia.
  - simpl. lia.
Defined.

(** C10 at a server: stream 1 is opened by a first call; a second call with
    the same id leaves the connection as it is, and the id has been announced
    once. *)
Lemma C10_handleNewStream_once_witness :
  let c := exec (handleNewStream 1) demo_server in
  map_has 1 (streams c) = true
  /\ handleNewStream 1 c = (Ok tt, c)
  /\ (announced 1 (trace (run [OpHandlePrepare (demo_prepare Byte.x01 0);
                               OpHandlePrepare (demo_prepare Byte.x01 0)]
                              (constructor (demo_opts true) 0))) <= 1)%nat.
Proof.
  cbv zeta.
  pose proof (C10_handleNewStream_once (B:=unit)) as (H1 & H2 & H3).
  split; [vm_compute; reflexivity|]. split.
  - apply (H2 demo_server 1). vm_compute. reflexivity.
  - apply (H3 (demo_opts true) 0).
Defined.



(** C4 at a client made with [idleTimeout] 0 at time 0: the timeout kept is
    60 000, a timer is pending once [connect()] has succeeded, and it
    destroys the connection when it fires at 60 000. *)
Lemma C4_idle_timeout_zero_still_times_out_witness :
  let opts := mkOpts (Some "g.peer") "g.me" "XRP" 9 false
                None None None None None None (Some 0) in
  let c0 := constructor (B:=unit) opts 0 in
  let c1 := exec connect_resolved c0 in
  let c2 := run [OpTick 60000; OpFireTimer 60000] c1 in
  idleTimeout c0 = 60000
  /\ timers c1 = [60000]
  /\ trace c2
     = [Spawned (TaskDestroy (Some (JsError "Connection timed out due to inactivity")))].
Proof.
  exact (C4_idle_timeout_zero_still_times_out (B:=unit)
           (mkOpts (Some "g.peer") "g.me" "XRP" 9 false
              None None None None None None (Some 0)) 0 eq_refl).
Defined.

(** C1 at a server with two open streams: 300 for two frames of one share
    each is 150 for each; stream 1 may receive 1000 and takes it, stream 3
    may receive 100, so at most 101, and [handlePrepare] rejects the prepare
    with a StreamMaxMoney frame for stream 3; nothing is credited.  With 1000
    for stream 3 as well the prepare is fulfilled. *)
Lemma C1_incoming_money_witness :
  let c := demo_receiver (demo_stream 1 true (BN.Fin 1000))
                         (demo_stream 3 true (BN.Fin 100)) in
  let p := demo_prepare Byte.x02 300 in
  streamAmount (amount p) (BN.Fin 1) (totalMoneyShares (frames demo_packet_2))
  = BN.Fin 150
  /\ handlePrepare p c
     = (Throw (FinalApplicationError
                 (mkPacket 2 Reject (BN.Fin 300)
                    [ConnectionMaxDataFrame 65534;
                     StreamMaxMoneyFrame 3 (BN.Fin 100) (BN.Fin 0)])),
        exec bumpIdle c)
  /\ not_credited c (snd (handlePrepare p c))
  /\ (let c := demo_receiver (demo_stream 1 true (BN.Fin 1000))
                             (demo_stream 3 true (BN.Fin 1000)) in
      handlePrepare p c
      = handlePrepare_fulfill p
          (demo_packet_2, [Byte.x02], [ConnectionMaxDataFrame 65534],
           [(1, BN.Fin 150); (3, BN.Fin 150)])
          (exec bumpIdle c)).
Proof.
  cbv zeta.
  pose proof (C1_incoming_money (demo_prepare Byte.x02 300) demo_packet_2
                (demo_receiver (demo_stream 1 true (BN.Fin 1000))
                               (demo_stream 3 true (BN.Fin 100)))
                (exec bumpIdle
                   (demo_receiver (demo_stream 1 true (BN.Fin 1000))
                                  (demo_stream 3 true (BN.Fin 100)))))
    as H.
  cbv zeta in H. destruct H as (H1 & _ & H3 & _ & H5).
  split; [|split; [|split]].
  - apply (H1 300 1 1); [reflexivity|lia| |vm_compute; split; reflexivity
                        |left; reflexivity].
    repeat constructor; simpl; lia.
  - assert (Hpass : checks_pass (demo_prepare Byte.x02 300) demo_packet_2
                      (demo_receiver (demo_stream 1 true (BN.Fin 1000))
                                     (demo_stream 3 true (BN.Fin 100)))
                      (exec bumpIdle
                         (demo_receiver (demo_stream 1 true (BN.Fin 1000))
                                        (demo_stream 3 true (BN.Fin 100))))).
    { split; [reflexivity|]. split; [reflexivity|]. split.
      - eexists. split; vm_compute; reflexivity.
      - split; [vm_compute; discriminate|]. split; reflexivity. }
    assert (Hpre : forallb
                     (accepts
                        (exec bumpIdle
                           (demo_receiver (demo_stream 1 true (BN.Fin 1000))
                                          (demo_stream 3 true (BN.Fin 100))))
                        (amount (demo_prepare Byte.x02 300))
                        (totalMoneyShares (frames demo_packet_2)))
                     [StreamMoneyFrame 1 (BN.Fin 1)] = true)
      by (vm_compute; reflexivity).
    pose proof (H3 Hpass [StreamMoneyFrame 1 (BN.Fin 1)] 3 (BN.Fin 1) []
                  (demo_stream 3 true (BN.Fin 100)) eq_refl Hpre eq_refl) as H.
    cbv zeta in H. destruct H as [Hmax _].
    rewrite Hmax by (vm_compute; reflexivity). vm_compute. reflexivity.
  - destruct (handlePrepare (demo_prepare Byte.x02 300)
                (demo_receiver (demo_stream 1 true (BN.Fin 1000))
                               (demo_stream 3 true (BN.Fin 100))))
      as [[v|e] c'] eqn:E.
    + vm_compute in E. discriminate E.
    + exact (H5 e c' eq_refl).
  - pose proof (C1_incoming_money (demo_prepare Byte.x02 300) demo_packet_2
                  (demo_receiver (demo_stream 1 true (BN.Fin 1000))
                                 (demo_stream 3 true (BN.Fin 1000)))
                  (exec bumpIdle
                     (demo_receiver (demo_stream 1 true (BN.Fin 1000))
                                    (demo_stream 3 true (BN.Fin 1000)))))
      as K.
    cbv zeta in K. destruct K as (_ & _ & _ & K4 & _).
    rewrite K4; [reflexivity| |vm_compute; reflexivity].
    split; [reflexivity|]. split; [reflexivity|]. split.
    + eexists. split; vm_compute; reflexivity.
    + split; [vm_compute; discriminate|]. split; reflexivity.
Defined.

(** C1 as stated fails: stream 1 is closed and stream 3 may receive 100.  A
    prepare of 300 with one share for each allocates 150 to stream 3, above
    its ceiling of 101, yet the packet is rejected at the frame for stream 1
    and the response has no StreamMaxMoney frame for stream 3. *)
Lemma C1_counterexample :
  let c := demo_receiver (demo_stream 1 false (BN.Fin 1000))
                         (demo_stream 3 true (BN.Fin 100)) in
  let p := demo_prepare Byte.x02 300 in
  ~ (forall id shares stream,
       List.In (StreamMoneyFrame id shares) (frames demo_packet_2) ->
       map_get id (streams c) = Some stream ->
       BN.isLessThan (BN.times_1_01_ceil (_getAmountStreamCanReceive stream))
         (streamAmount (amount p) shares (totalMoneyShares (frames demo_packet_2)))
       = true ->
       exists response c',
         handlePrepare p c = (Throw (FinalApplicationError response), c')
         /\ List.In (StreamMaxMoneyFrame id (receiveMax stream) (totalReceived stream))
              (frames response)).
Proof.
  cbv zeta. intros H.
  destruct (H 3 (BN.Fin 1) (demo_stream 3 true (BN.Fin 100)))
    as (response & c' & E & Hin).
  - right. left. reflexivity.
  - reflexivity.
  - vm_compute. reflexivity.
  - vm_compute in E. injection E as <- _. simpl in Hin.
    destruct Hin as [Hin|[Hin|[]]]; discriminate Hin.
Qed.

(** C2 at a client behind a connector that lets nothing through (every packet
    is rejected with F08, 1 received where 0 is the maximum): the five test
    packets go to the plugin with the sequences 1 to 5, each tells of a
    maximum of 0, and the probe throws after this one volley with both limits
    at 0.  An F08 reject of a packet of 1000 with 2 received where 1 is the
    maximum tells of 500. *)
Lemma C2_exchange_rate_probe_witness :
  let plugin := demo_F08 Byte.x01 Byte.x00 in
  let r := determineExchangeRate plugin demo_client in
  (exists rest,
     sent (trace (snd r))
     = [(BN.Fin 1, testPacket demo_client 1);
        (BN.Fin 1000, testPacket demo_client 2);
        (BN.Fin 1000000, testPacket demo_client 3);
        (BN.Fin 1000000000, testPacket demo_client 4);
        (BN.Fin 1000000000000, testPacket demo_client 5)] ++ rest)
  /\ replyMaxima plugin demo_client initialTestPacketAmounts
     = [BN.Fin 0; BN.Fin 0; BN.Fin 0; BN.Fin 0; BN.Fin 0]
  /\ fst r = Throw zero_maximum_error
  /\ maximumPacketAmount (snd r) = BN.Fin 0
  /\ testMaximumPacketAmount (snd r) = BN.Fin 0
  /\ volleys (trace (snd r)) = [initialTestPacketAmounts]
  /\ replyMaximum (BN.Fin 1000)
       (PluginReject "F08" "g.connector" EmptyString
          (repeat Byte.x00 7 ++ [Byte.x02] ++ repeat Byte.x00 7 ++ [Byte.x01]))
     = BN.Fin 500.
Proof.
  cbv zeta.
  pose proof (C2_exchange_rate_probe (demo_F08 Byte.x01 Byte.x00) demo_client) as H.
  cbv zeta in H. unfold exec in H. destruct H as (H1 & _ & H3 & H4 & H5 & _).
  assert (Hdst : truthy_string (_destinationAccount demo_client) <> None)
    by (vm_compute; discriminate).
  specialize (H1 Hdst eq_refl). specialize (H3 Hdst).
  destruct (sendTestPacketVolley (demo_F08 Byte.x01 Byte.x00)
              initialTestPacketAmounts demo_client) as [[v|e] c1] eqn:E.
  2:{ vm_compute in E. discriminate E. }
  destruct (H4 19%nat (inject_Z RETRY_DELAY_START) initialTestPacketAmounts v c1
              eq_refl ltac:(discriminate) E) as (_ & Hz & _).
  assert (Hm : BN.minimum
                 (replyMaxima (demo_F08 Byte.x01 Byte.x00) demo_client
                    initialTestPacketAmounts ++ [maximumPacketAmount demo_client])
               = BN.Fin 0) by (vm_compute; reflexivity).
  rewrite Hm in Hz. specialize (Hz eq_refl).
  assert (Hloop : determineExchangeRate (demo_F08 Byte.x01 Byte.x00) demo_client
                  = (Throw zero_maximum_error,
                     set_testMaximumPacketAmount (BN.Fin 0)
                       (set_maximumPacketAmount (BN.Fin 0) c1)))
    by (rewrite H3; exact Hz).
  clear H3 H4 Hz Hm. rewrite Hloop in H1 |- *. cbn [fst snd] in H1 |- *.
  split; [|split; [|split; [|split; [|split; [|split]]]]].
  - destruct H1 as [rest Hrest]. exists rest. rewrite Hrest. reflexivity.
  - vm_compute. reflexivity.
  - reflexivity.
  - reflexivity.
  - reflexivity.
  - vm_compute in E. injection E as _ <-. reflexivity.
  - apply (H5 1000 _ _ _ 2 1); [reflexivity|lia|lia].
Defined.

(** X1 at a client that sent 1000 and is told that 2 arrived where 1 is let
    through: both limits become 500 and the call returns. *)
Lemma X1_F08_lowers_maximum_witness :
  let data := repeat Byte.x00 7 ++ [Byte.x02] ++ repeat Byte.x00 7 ++ [Byte.x01] in
  let r := handleConnectorError "F08" EmptyString data (BN.Fin 1000) demo_client in
  maximumPacketAmount (snd r) = BN.Fin 500
  /\ testMaximumPacketAmount (snd r) = BN.Fin 500
  /\ fst r = Ok tt.
Proof.
  cbv zeta.
  pose proof (X1_F08_lowers_maximum demo_client EmptyString
                (repeat Byte.x00 7 ++ [Byte.x02] ++ repeat Byte.x00 7 ++ [Byte.x01])
                1000 ltac:(lia)) as H.
  cbv zeta in H. destruct H as (m & t & Hm & Ht & _ & _ & _ & Hok & Hlow & _).
  destruct (Hlow 2 1 eq_refl ltac:(lia)) as [Em Et].
  assert (E500 : m = 500) by (rewrite Em; reflexivity).
  rewrite Et, E500 in Ht. rewrite E500 in Hm.
  split; [exact Hm|]. split; [exact Ht|]. apply Hok. lia.
Defined.

(** X2 at a sender that tries 1000: after a T04 for a packet of 900 it tries
    600, and the known maximum of 5000 stays. *)
Lemma X2_T04_test_maximum_witness :
  let r := handleConnectorError "T04" EmptyString [] (BN.Fin 900)
             (demo_sender (BN.Fin 1000) (BN.Fin 5000)) in
  testMaximumPacketAmount (snd r) = BN.Fin 600
  /\ maximumPacketAmount (snd r) = BN.Fin 5000
  /\ fst r = Ok tt.
Proof.
  cbv zeta.
  assert (Hnn : BN_nonneg (testMaximumPacketAmount (demo_sender (BN.Fin 1000) (BN.Fin 5000))))
    by (simpl; lia).
  pose proof (X2_T04_test_maximum (demo_sender (BN.Fin 1000) (BN.Fin 5000))
                EmptyString [] 900 ltac:(lia) Hnn) as [H _].
  cbv zeta in H. destruct H as (m & t & Hm & Ht & Et & _ & _ & Hmax & Hok).
  assert (E900 : m = 900) by (vm_compute in Hm; congruence).
  rewrite Et, E900 in Ht. split; [exact Ht|]. split; [exact Hmax|exact Hok].
Defined.


(** X4 at a server with stream 1 open: a prepare of 300 for it is fulfilled
    with the fulfillment derived from its data, and the connection has
    received 300. *)
Lemma X4_fulfills_only_checked_witness :
  let c := demo_receiver (demo_stream 1 true (BN.Fin 1000))
                         (demo_stream 3 true (BN.Fin 1000)) in
  exists ful c',
    handlePrepare (demo_prepare Byte.x01 300) c = (Ok ful, c')
    /\ fulfillment ful = [Byte.x01]
    /\ ilpPacketType (fulfill_data ful) = Fulfill
    /\ _totalReceived c' = BN.Fin 300.
Proof.
  cbv zeta.
  destruct (handlePrepare (demo_prepare Byte.x01 300)
              (demo_receiver (demo_stream 1 true (BN.Fin 1000))
                             (demo_stream 3 true (BN.Fin 1000))))
    as [[ful|e] c'] eqn:E.
  2:{ vm_compute in E. discriminate E. }
  exists ful, c'. split; [reflexivity|].
  destruct (X4_fulfills_only_checked _ _ _ _ E)
    as (rp & _ & _ & _ & Hf & _ & _ & Ht & _ & _ & Htot).
  split; [exact Hf|]. split; [exact Ht|exact Htot].
Defined.

(** X5 at a server whose stream 1 is closed: a prepare of 300 for the streams
    1 and 3 is rejected with a Reject packet of sequence 2, and no total
    changes; data that does not decrypt gives [UnexpectedPaymentError]. *)
Lemma X5_rejections_of_handlePrepare_witness :
  let c := demo_receiver (demo_stream 1 false (BN.Fin 1000))
                         (demo_stream 3 true (BN.Fin 100)) in
  (exists fs c',
     handlePrepare (demo_prepare Byte.x02 300) c
     = (Throw (FinalApplicationError (mkPacket 2 Reject (BN.Fin 300) fs)), c')
     /\ totals_same c c')
  /\ handlePrepare (demo_prepare Byte.x09 300) c = (Throw UnexpectedPaymentError, c).
Proof.
  cbv zeta. split.
  - destruct (handlePrepare (demo_prepare Byte.x02 300)
                (demo_receiver (demo_stream 1 false (BN.Fin 1000))
                               (demo_stream 3 true (BN.Fin 100))))
      as [[ful|e] c'] eqn:E.
    { vm_compute in E. discriminate E. }
    pose proof (X5_rejections_of_handlePrepare _ _ _ _ E) as H.
    change (decryptAndDeserialize (data (demo_prepare Byte.x02 300)))
      with (Some demo_packet_2) in H.
    cbv beta iota in H. rewrite bool_decide_eq_true_2 in H by reflexivity.
    destruct H as [(fs & -> & _) Htot]. exists fs, c'. split; [reflexivity|exact Htot].
  - destruct (handlePrepare (demo_prepare Byte.x09 300)
                (demo_receiver (demo_stream 1 false (BN.Fin 1000))
                               (demo_stream 3 true (BN.Fin 100))))
      as [[ful|e] c'] eqn:E.
    { vm_compute in E. discriminate E. }
    pose proof (X5_rejections_of_handlePrepare _ _ _ _ E) as H.
    change (decryptAndDeserialize (data (demo_prepare Byte.x09 300)))
      with (@None Packet) in H.
    cbv beta iota in H. destruct H as [-> ->]. reflexivity.
Defined.

(** X6 at a server that has closed stream 1: a prepare with money for
    stream 1 is rejected, and the response carries a StreamClose frame for
    it. *)
Lemma X6_closed_stream_rejected_witness :
  let c := set_closedStreams {[1]} demo_server in
  exists fs c',
    handlePrepare (demo_prepare Byte.x01 300) c
    = (Throw (FinalApplicationError (mkPacket 1 Reject (BN.Fin 300) fs)), c')
    /\ existsb (isStreamClose_for 1) fs = true.
Proof.
  cbv zeta.
  assert (Hclosed : 1 ∈ closedStreams (set_closedStreams {[1]} demo_server)).
  { change (1 ∈ ({[1]} : gset Z)). apply elem_of_singleton. reflexivity. }
  pose proof (X6_closed_stream_rejected (demo_prepare Byte.x01 300)
                (set_closedStreams {[1]} demo_server) demo_packet_1
                (StreamMoneyFrame 1 (BN.Fin 1)) 1 eq_refl eq_refl
                (or_introl eq_refl) eq_refl Hclosed) as [_ H].
  exact (H [] eq_refl).
Defined.


(** X8 at a server with two open streams: a ConnectionClose frame with
    NoError ends both at once and hands nothing to the plugin, and the
    [destroy] or the end of [end()] that follows hands nothing to it
    either. *)
Lemma X8_remote_close_not_answered_witness :
  let plugin : Plugin := fun _ => PluginFails in
  let c := demo_receiver (demo_stream 1 true (BN.Fin 1000))
                         (demo_stream 3 true (BN.Fin 100)) in
  let c1 := exec (handleControlFrames [ConnectionCloseFrame NoError EmptyString]) c in
  remoteClosed c1 = true
  /\ map (fun kv => isOpen (snd kv)) (streams c1) = [false; false]
  /\ sent (trace c1) = []
  /\ sent (trace (exec (end_finish plugin) c1)) = []
  /\ sent (trace (exec (destroy plugin None) c1)) = [].
Proof.
  cbv zeta.
  pose proof (X8_remote_close_not_answered NoError EmptyString
                (demo_receiver (demo_stream 1 true (BN.Fin 1000))
                               (demo_stream 3 true (BN.Fin 100)))) as [H K].
  cbv zeta in H. destruct H as (_ & _ & _ & Hrc & Hsent & Hstreams & _).
  unfold exec at 1 2 3.
  split; [exact Hrc|]. split; [rewrite Hstreams; reflexivity|].
  split; [exact Hsent|].
  destruct (K _ Hrc) as (Kd & Ke & _). split.
  - rewrite Ke. exact Hsent.
  - rewrite Kd. exact Hsent.
Defined.

(** X9 at a fresh client (timeout 60 000, last active at 0): the timer is set
    for 60 000; fired at time 0 it destroys nothing and is set again. *)
Lemma X9_idle_timer_witness :
  timers (exec startIdleTimer demo_client) = [60000]
  /\ idleTimer (exec startIdleTimer demo_client) = Some 60000
  /\ trace (exec (fireTimer 60000) (exec startIdleTimer demo_client)) = [].
Proof.
  assert (Hz : idleTimeout demo_client <> 0) by (vm_compute; discriminate).
  pose proof (X9_idle_timer demo_client 0 Hz) as [H _].
  cbv zeta in H. destruct H as (Ht & Hi & _).
  split; [exact Ht|]. split; [exact Hi|].
  assert (Hz' : idleTimeout (exec startIdleTimer demo_client) <> 0)
    by (vm_compute; discriminate).
  pose proof (X9_idle_timer (exec startIdleTimer demo_client) 60000 Hz') as [_ K].
  cbv zeta in K. destruct K as [_ K]. destruct K as [Kt _]; [vm_compute; reflexivity|].
  exact Kt.
Defined.


(** X11 at a client that has a rate: the probe throws at once and leaves the
    connection as it is. *)
Lemma X11_rate_or_exception_witness :
  let plugin : Plugin := fun _ => PluginFails in
  let c := set_exchangeRate (Some (BQ.Fin 1)) demo_client in
  exists e, determineExchangeRate plugin c = (Throw e, c).
Proof.
  cbv zeta.
  pose proof (X11_rate_or_exception (fun _ => PluginFails)
                (set_exchangeRate (Some (BQ.Fin 1)) demo_client)) as H.
  cbv zeta in H. destruct H as [_ H]. apply H. right. discriminate.
Defined.

(** X12 at a fresh client whose plugin fails: [destroy] with an error
    returns, and the peer is marked as closed. *)
Lemma X12_destroy_witness :
  let plugin : Plugin := fun _ => PluginFails in
  let r := destroy plugin (Some (JsError "boom")) demo_client in
  fst r = Ok tt /\ remoteClosed (snd r) = true.
Proof.
  cbv zeta.
  pose proof (X12_destroy (fun _ => PluginFails) (JsError "boom") demo_client) as H.
  cbv zeta in H. destruct H as (H1 & H2 & _). split; [exact H1|exact H2].
Defined.

(** X13 at a client that is sending already, and at one whose peer has
    closed: the call returns without a packet. *)
Lemma X13_send_loop_never_throws_witness :
  let plugin : Plugin := fun _ => PluginFails in
  startSendLoop plugin 5 (set_sending true demo_client)
  = (Ok true, set_sending true demo_client)
  /\ sent (trace (snd (startSendLoop plugin 5 (set_remoteClosed true demo_client)))) = [].
Proof.
  cbv zeta. split.
  - pose proof (X13_send_loop_never_throws (fun _ => PluginFails) 5
                  (set_sending true demo_client)) as (_ & H & _).
    apply H. reflexivity.
  - pose proof (X13_send_loop_never_throws (fun _ => PluginFails) 5
                  (set_remoteClosed true demo_client)) as (_ & _ & H & _).
    destruct (H eq_refl (or_introl eq_refl)) as (_ & Hs & _). exact Hs.
Defined.

(** Collaborators whose decryption of the byte 3 is a Fulfill packet with
    sequence 1, as a receiver would answer the first packet. *)
Definition reply_externals : Externals unit := {|
  decryptAndDeserialize := fun d =>
    match d with
    | [b] => if Byte.eqb b Byte.x03 then Some (mkPacket 1 Fulfill (BN.Fin 10) []) else None
    | _ => None
    end;
  serializeAndEncrypt := fun _ _ => [];
  generateFulfillment := fun d => d;
  hash := fun d => d;
  packet_byteLength := fun p => Z.of_nat (length (frames p));
  frame_byteLength := fun _ => 1;
  buf_getIncomingOffsets := fun _ => mkIncomingOffsets 0 0 0;
  buf_readableLength := fun _ => 0;
  buf_getOutgoingOffsets := fun _ => mkOutgoingOffsets 0 0;
  buf_pushIncomingData := fun b _ _ => Some b;
  buf_getAvailableDataToSend := fun b _ _ => (None, 0, b);
  buf_isDataBlocked := fun _ _ => None;
  buf_resendOutgoingData := fun b _ _ => b;
  newDataAndMoneyStream := fun id _ =>
    mkStream id true false false false None (BN.Fin 0) (BN.Fin 0) (BN.Fin 0)
      (BN.Fin 0) BN.Infinity (BN.Fin 0) [] 0 tt;
  newDataAndMoneyStream_id := fun _ _ => eq_refl
|}.

(** X14 at a client whose packet 1 is fulfilled with the right fulfillment
    and the receiver's answer: the answer is handed back, it has sequence 1,
    and the packet went out once. *)
Lemma X14_sendPacket_response_witness :
  let plugin : Plugin := fun _ => PluginFulfill [] [Byte.x03] in
  let packet := mkPacket 1 Prepare (BN.Fin 0) [] in
  exists responsePacket c',
    @sendPacket unit reply_externals plugin packet (BN.Fin 10) false demo_client
    = (Ok (Some responsePacket), c')
    /\ sequence responsePacket = 1
    /\ ilpPacketType responsePacket = Fulfill
    /\ sent (trace c') = [(BN.Fin 10, packet)].
Proof.
  cbv zeta.
  destruct (@sendPacket unit reply_externals (fun _ => PluginFulfill [] [Byte.x03])
              (mkPacket 1 Prepare (BN.Fin 0) []) (BN.Fin 10) false demo_client)
    as [[[rp|]|e] c'] eqn:E.
  2:{ vm_compute in E. discriminate E. }
  2:{ vm_compute in E. discriminate E. }
  exists rp, c'. split; [reflexivity|].
  pose proof (@X14_sendPacket_response unit reply_externals _ _ _ _ _ _ _ E) as H.
  cbv zeta in H. destruct H as (Hs & Hor & Hsent & _).
  split; [exact Hs|]. split; [|exact Hsent].
  destruct Hor as [(f & rdata & _ & _ & _ & _ & Ht)|(tb & msg & rdata & Hp & _)].
  - exact Ht.
  - discriminate Hp.
Defined.

(** X15 at a server with stream 1, of which the peer has said nothing yet:
    a frame that tells a limit of 500 and 20 received is recorded as such,
    and a later frame with 400 and 10 lowers neither. *)
Lemma X15_stream_max_money_witness :
  let c := demo_receiver (demo_stream 1 true (BN.Fin 1000))
                         (demo_stream 3 true (BN.Fin 1000)) in
  let c1 := snd (handleControlFrame (StreamMaxMoneyFrame 1 (BN.Fin 500) (BN.Fin 20)) c) in
  let c2 := snd (handleControlFrame (StreamMaxMoneyFrame 1 (BN.Fin 400) (BN.Fin 10)) c1) in
  (exists s1, map_get 1 (streams c1) = Some s1
              /\ _remoteReceived s1 = BN.Fin 20 /\ _remoteReceiveMax s1 = BN.Fin 500)
  /\ (exists s2, map_get 1 (streams c2) = Some s2
                 /\ _remoteReceived s2 = BN.Fin 20 /\ _remoteReceiveMax s2 = BN.Fin 500).
Proof.
  cbv zeta. split.
  - pose proof (X15_stream_max_money 1 500 20
                  (demo_receiver (demo_stream 1 true (BN.Fin 1000))
                                 (demo_stream 3 true (BN.Fin 1000)))) as H.
    cbv zeta in H. destruct H as (_ & _ & H & _).
    destruct (H (demo_stream 1 true (BN.Fin 1000)) 0 eq_refl eq_refl)
      as (s1 & Hg & Hr & Hm & _).
    exists s1. split; [exact Hg|]. split; [exact Hr|exact Hm].
  - pose proof (X15_stream_max_money 1 400 10
                  (snd (handleControlFrame (StreamMaxMoneyFrame 1 (BN.Fin 500) (BN.Fin 20))
                          (demo_receiver (demo_stream 1 true (BN.Fin 1000))
                                         (demo_stream 3 true (BN.Fin 1000)))))) as H.
    cbv zeta in H. destruct H as (_ & _ & H & _).
    destruct (H (set__remoteReceiveMax (BN.Fin 500)
                   (set__remoteReceived (BN.Fin 20) (demo_stream 1 true (BN.Fin 1000))))
                20 ltac:(vm_compute; reflexivity) eq_refl)
      as (s2 & Hg & Hr & Hm & _).
    exists s2. split; [exact Hg|]. split; [exact Hr|exact Hm].
Defined.

(** X16 at a fresh server (limit 20): the peer's stream 1 is made, stream 2
    is refused for its parity and stream 21 for the limit. *)
Lemma X16_new_stream_checked_witness :
  fst (handleNewStream 1 demo_server) = Ok tt
  /\ map_has 1 (streams (snd (handleNewStream 1 demo_server))) = true
  /\ (exists message,
        fst (handleNewStream 2 demo_server) = Throw (JsError message)
        /\ queuedFrames (snd (handleNewStream 2 demo_server))
           = [ConnectionCloseFrame ProtocolViolation message])
  /\ (exists message,
        fst (handleNewStream 21 demo_server) = Throw (JsError message)
        /\ queuedFrames (snd (handleNewStream 21 demo_server))
           = [ConnectionCloseFrame StreamIdError message]).
Proof.
  assert (Hopen : forall id, id ∉ closedStreams demo_server).
  { intros id. change (id ∉ (∅ : gset Z)). apply not_elem_of_empty. }
  pose proof (X16_new_stream_checked 1 demo_server eq_refl (Hopen 1)) as H1.
  pose proof (X16_new_stream_checked 2 demo_server eq_refl (Hopen 2)) as H2.
  pose proof (X16_new_stream_checked 21 demo_server eq_refl (Hopen 21)) as H3.
  cbv zeta in H1, H2, H3.
  destruct H1 as [H1 _]. destruct H2 as [_ H2]. destruct H3 as [_ H3].
  assert (Hle : 1 <= maxStreamId demo_server) by (vm_compute; discriminate).
  destruct (H1 eq_refl Hle) as (Hok & Hget & _).
  split; [exact Hok|]. split.
  { unfold map_has. rewrite Hget. reflexivity. }
  split.
  - destruct (H2 (or_introl eq_refl)) as (m & Hf & Hq & _). exists m.
    split; [exact Hf|exact Hq].
  - assert (Hlt : maxStreamId demo_server < 21) by (vm_compute; reflexivity).
    destruct (H3 (or_intror Hlt)) as (m & Hf & Hq & _).
    exists m. split; [exact Hf|exact Hq].
Defined.

(** X17 at a server with the streams 1 and 3: when stream 1 closes it leaves
    the map, its id is recorded as closed, a StreamClose frame is queued, and
    the peer cannot open stream 1 again. *)
Lemma X17_closed_stream_stays_closed_witness :
  let s := demo_stream 1 true (BN.Fin 1000) in
  let c := demo_receiver s (demo_stream 3 true (BN.Fin 1000)) in
  let c1 := snd (removeStreamRecord s c) in
  map_get 1 (streams c1) = None
  /\ 1 ∈ closedStreams c1
  /\ queuedFrames c1 = [StreamCloseFrame 1 NoError EmptyString]
  /\ handleNewStream 1 c1 = (Ok tt, c1).
Proof.
  cbv zeta.
  assert (Hnd : NoDup (map fst (streams
                  (demo_receiver (demo_stream 1 true (BN.Fin 1000))
                                 (demo_stream 3 true (BN.Fin 1000)))))).
  { change (NoDup [1; 3]). apply NoDup_cons. split; [|apply NoDup_singleton].
    rewrite not_elem_of_cons. split; [lia|]. intros Hin. inversion Hin. }
  pose proof (X17_closed_stream_stays_closed (demo_stream 1 true (BN.Fin 1000))
                (demo_receiver (demo_stream 1 true (BN.Fin 1000))
                               (demo_stream 3 true (BN.Fin 1000))) Hnd) as H.
  cbv zeta in H. destruct H as (_ & Hg & _ & _ & Hc & Hq & Hn).
  split; [exact Hg|]. split; [apply Hc; left; reflexivity|].
  split; [exact Hq|exact Hn].
Defined.
